(** * PortAudio ASIO host API (pa_asio.cpp): a shallow embedding

    The development follows src/hostapi/asio/pa_asio.cpp:
    - [Convert]: the in-place sample converters and their selection;
    - [Negotiate]: the host buffer size selection functions;
    - [Stream]: the stream record, channel layout at open, the buffer
      switch callback and the start / stop / abort operations;
    - [Blocking]: the blocking i/o callback and ReadStream / WriteStream.

    Machine integers are values of [Z]; [unsigned long] and [long] are the
    32 bit types of the Win32 target the file is written for, and every
    wrap-around of the source is written out. *)

From Stdlib Require Import ZArith List Lia Bool.
Import ListNotations.
Local Open Scope Z_scope.

(** ** Machine words *)

Definition wrap16 (x : Z) : Z := x mod 2 ^ 16.
Definition wrap32 (x : Z) : Z := x mod 2 ^ 32.

(** Reading an [unsigned long] bit pattern as a [long]. *)
Definition to_long (x : Z) : Z :=
  if x mod 2 ^ 32 <? 2 ^ 31 then x mod 2 ^ 32 else x mod 2 ^ 32 - 2 ^ 32.

Definition is_word (bits : Z) (x : Z) : Prop := 0 <= x < 2 ^ bits.

(** [while( count-- ) { *p = f( *p ); p++; }] over the cells of a buffer. *)
Fixpoint each_sample (f : Z -> Z) (count : nat) (buffer : list Z) : list Z :=
  match count, buffer with
  | S c, x :: rest => f x :: each_sample f c rest
  | _, _ => buffer
  end.

Module Convert.

(** The byte order the code is compiled for: [PA_LSB_IS_NATIVE_] under
    WINDOWS, [PA_MSB_IS_NATIVE_] under MAC. *)
Inductive NativeOrder := PA_LSB_IS_NATIVE_ | PA_MSB_IS_NATIVE_.

(** The sample type tags the file switches on; every other tag of asio.h
    goes through the [default] branches. *)
Inductive ASIOSampleType :=
| ASIOSTInt16MSB | ASIOSTInt24MSB | ASIOSTInt32MSB
| ASIOSTFloat32MSB | ASIOSTFloat64MSB
| ASIOSTInt32MSB16 | ASIOSTInt32MSB18 | ASIOSTInt32MSB20 | ASIOSTInt32MSB24
| ASIOSTInt16LSB | ASIOSTInt24LSB | ASIOSTInt32LSB
| ASIOSTFloat32LSB | ASIOSTFloat64LSB
| ASIOSTInt32LSB16 | ASIOSTInt32LSB18 | ASIOSTInt32LSB20 | ASIOSTInt32LSB24
| ASIOSTOther (tag : Z).

Inductive PaSampleFormat := paFloat32 | paInt32 | paInt24 | paInt16 | paCustomFormat.

Definition AsioSampleTypeToPaNativeSampleFormat (type : ASIOSampleType) : PaSampleFormat :=
  match type with
  | ASIOSTInt16MSB | ASIOSTInt16LSB => paInt16
  | ASIOSTFloat32MSB | ASIOSTFloat32LSB
  | ASIOSTFloat64MSB | ASIOSTFloat64LSB => paFloat32
  | ASIOSTInt32MSB | ASIOSTInt32LSB
  | ASIOSTInt32MSB16 | ASIOSTInt32LSB16
  | ASIOSTInt32MSB18 | ASIOSTInt32MSB20 | ASIOSTInt32MSB24
  | ASIOSTInt32LSB18 | ASIOSTInt32LSB20 | ASIOSTInt32LSB24 => paInt32
  | ASIOSTInt24MSB | ASIOSTInt24LSB => paInt24
  | ASIOSTOther _ => paCustomFormat
  end.

Definition BytesPerAsioSample (sampleType : ASIOSampleType) : Z :=
  match sampleType with
  | ASIOSTInt16MSB | ASIOSTInt16LSB => 2
  | ASIOSTFloat64MSB | ASIOSTFloat64LSB => 8
  | ASIOSTFloat32MSB | ASIOSTFloat32LSB
  | ASIOSTInt32MSB | ASIOSTInt32LSB
  | ASIOSTInt32MSB16 | ASIOSTInt32LSB16
  | ASIOSTInt32MSB18 | ASIOSTInt32MSB20 | ASIOSTInt32MSB24
  | ASIOSTInt32LSB18 | ASIOSTInt32LSB20 | ASIOSTInt32LSB24 => 4
  | ASIOSTInt24MSB | ASIOSTInt24LSB => 3
  | ASIOSTOther _ => 0
  end.

(** *** The converters on one cell

    A buffer is the list of the cells the converter's cast makes of it:
    [unsigned short] for Swap16, [unsigned char] for Swap24, [unsigned long]
    for the 32 bit converters. *)

(** [(unsigned short)((temp<<8) | (temp>>8))] *)
Definition swap16 (temp : Z) : Z :=
  wrap16 (Z.lor (Z.shiftl temp 8) (Z.shiftr temp 8)).

(** [((x>>24) | ((x>>8)&0xFF00) | ((x<<8)&0xFF0000) | (x<<24))] on an
    [unsigned long]. *)
Definition PA_SWAP32_ (x : Z) : Z :=
  Z.lor (Z.lor (Z.lor (Z.shiftr x 24)
                      (Z.land (Z.shiftr x 8) 0xFF00))
               (Z.land (wrap32 (Z.shiftl x 8)) 0xFF0000))
        (wrap32 (Z.shiftl x 24)).

Definition swap_shift_left32 (shift temp : Z) : Z :=
  wrap32 (Z.shiftl (PA_SWAP32_ temp) shift).

Definition shift_right_swap32 (shift p : Z) : Z :=
  PA_SWAP32_ (Z.shiftr p shift).

Definition shift_left32 (shift temp : Z) : Z := wrap32 (Z.shiftl temp shift).

Definition shift_right32 (shift temp : Z) : Z := Z.shiftr temp shift.

(** [temp = *p; *p = *(p+2); *(p+2) = temp; p += 3;] over bytes. *)
Fixpoint swap24_bytes (count : nat) (buffer : list Z) : list Z :=
  match count, buffer with
  | S c, b0 :: b1 :: b2 :: rest => b2 :: b1 :: b0 :: swap24_bytes c rest
  | _, _ => buffer
  end.

(** The functions a [PaAsioBufferConverter *] can point to. *)
Inductive PaAsioBufferConverter :=
| Swap16 | Swap24 | Swap32
| SwapShiftLeft32 | ShiftRightSwap32 | ShiftLeft32 | ShiftRight32
| Swap64ConvertFloat64ToFloat32 | ConvertFloat64ToFloat32
| ConvertFloat32ToFloat64Swap64 | ConvertFloat32ToFloat64.

(** Calling [converter( buffer, shift, count )].  The four floating point
    converters are named but not interpreted: they yield [None]. *)
Definition call_converter (converter : PaAsioBufferConverter)
    (buffer : list Z) (shift : Z) (count : nat) : option (list Z) :=
  match converter with
  | Swap16 => Some (each_sample swap16 count buffer)
  | Swap24 => Some (swap24_bytes count buffer)
  | Swap32 => Some (each_sample PA_SWAP32_ count buffer)
  | SwapShiftLeft32 => Some (each_sample (swap_shift_left32 shift) count buffer)
  | ShiftRightSwap32 => Some (each_sample (shift_right_swap32 shift) count buffer)
  | ShiftLeft32 => Some (each_sample (shift_left32 shift) count buffer)
  | ShiftRight32 => Some (each_sample (shift_right32 shift) count buffer)
  | Swap64ConvertFloat64ToFloat32 | ConvertFloat64ToFloat32
  | ConvertFloat32ToFloat64Swap64 | ConvertFloat32ToFloat64 => None
  end.

(** [#ifdef PA_LSB_IS_NATIVE_ ... #endif] and its MSB twin. *)
Definition ifdef_lsb {A} (native : NativeOrder) (yes no : A) : A :=
  match native with PA_LSB_IS_NATIVE_ => yes | PA_MSB_IS_NATIVE_ => no end.
Definition ifdef_msb {A} (native : NativeOrder) (yes no : A) : A :=
  match native with PA_MSB_IS_NATIVE_ => yes | PA_LSB_IS_NATIVE_ => no end.

(** The pair ( *converter, *shift ) the function leaves behind; a null
    converter is [None]. *)
Definition SelectAsioToPaConverter (native : NativeOrder) (type : ASIOSampleType)
  : option PaAsioBufferConverter * Z :=
  match type with
  | ASIOSTInt16MSB => (ifdef_lsb native (Some Swap16) None, 0)
  | ASIOSTInt16LSB => (ifdef_msb native (Some Swap16) None, 0)
  | ASIOSTFloat32MSB => (ifdef_lsb native (Some Swap32) None, 0)
  | ASIOSTFloat32LSB => (ifdef_msb native (Some Swap32) None, 0)
  | ASIOSTFloat64MSB =>
      (ifdef_lsb native (Some Swap64ConvertFloat64ToFloat32) (Some ConvertFloat64ToFloat32), 0)
  | ASIOSTFloat64LSB =>
      (ifdef_msb native (Some Swap64ConvertFloat64ToFloat32) (Some ConvertFloat64ToFloat32), 0)
  | ASIOSTInt32MSB => (ifdef_lsb native (Some Swap32) None, 0)
  | ASIOSTInt32LSB => (ifdef_msb native (Some Swap32) None, 0)
  | ASIOSTInt32MSB16 => (ifdef_lsb native (Some SwapShiftLeft32) (Some ShiftLeft32), 16)
  | ASIOSTInt32MSB18 => (ifdef_lsb native (Some SwapShiftLeft32) (Some ShiftLeft32), 14)
  | ASIOSTInt32MSB20 => (ifdef_lsb native (Some SwapShiftLeft32) (Some ShiftLeft32), 12)
  | ASIOSTInt32MSB24 => (ifdef_lsb native (Some SwapShiftLeft32) (Some ShiftLeft32), 8)
  | ASIOSTInt32LSB16 => (ifdef_msb native (Some SwapShiftLeft32) (Some ShiftLeft32), 16)
  | ASIOSTInt32LSB18 => (ifdef_msb native (Some SwapShiftLeft32) (Some ShiftLeft32), 14)
  | ASIOSTInt32LSB20 => (ifdef_msb native (Some SwapShiftLeft32) (Some ShiftLeft32), 12)
  | ASIOSTInt32LSB24 => (ifdef_msb native (Some SwapShiftLeft32) (Some ShiftLeft32), 8)
  | ASIOSTInt24MSB => (ifdef_lsb native (Some Swap24) None, 0)
  | ASIOSTInt24LSB => (ifdef_msb native (Some Swap24) None, 0)
  | ASIOSTOther _ => (None, 0)
  end.

Definition SelectPaToAsioConverter (native : NativeOrder) (type : ASIOSampleType)
  : option PaAsioBufferConverter * Z :=
  match type with
  | ASIOSTInt16MSB => (ifdef_lsb native (Some Swap16) None, 0)
  | ASIOSTInt16LSB => (ifdef_msb native (Some Swap16) None, 0)
  | ASIOSTFloat32MSB => (ifdef_lsb native (Some Swap32) None, 0)
  | ASIOSTFloat32LSB => (ifdef_msb native (Some Swap32) None, 0)
  | ASIOSTFloat64MSB =>
      (ifdef_lsb native (Some ConvertFloat32ToFloat64Swap64) (Some ConvertFloat32ToFloat64), 0)
  | ASIOSTFloat64LSB =>
      (ifdef_msb native (Some ConvertFloat32ToFloat64Swap64) (Some ConvertFloat32ToFloat64), 0)
  | ASIOSTInt32MSB => (ifdef_lsb native (Some Swap32) None, 0)
  | ASIOSTInt32LSB => (ifdef_msb native (Some Swap32) None, 0)
  | ASIOSTInt32MSB16 => (ifdef_lsb native (Some ShiftRightSwap32) (Some ShiftRight32), 16)
  | ASIOSTInt32MSB18 => (ifdef_lsb native (Some ShiftRightSwap32) (Some ShiftRight32), 14)
  | ASIOSTInt32MSB20 => (ifdef_lsb native (Some ShiftRightSwap32) (Some ShiftRight32), 12)
  | ASIOSTInt32MSB24 => (ifdef_lsb native (Some ShiftRightSwap32) (Some ShiftRight32), 8)
  | ASIOSTInt32LSB16 => (ifdef_msb native (Some ShiftRightSwap32) (Some ShiftRight32), 16)
  | ASIOSTInt32LSB18 => (ifdef_msb native (Some ShiftRightSwap32) (Some ShiftRight32), 14)
  | ASIOSTInt32LSB20 => (ifdef_msb native (Some ShiftRightSwap32) (Some ShiftRight32), 12)
  | ASIOSTInt32LSB24 => (ifdef_msb native (Some ShiftRightSwap32) (Some ShiftRight32), 8)
  | ASIOSTInt24MSB => (ifdef_lsb native (Some Swap24) None, 0)
  | ASIOSTInt24LSB => (ifdef_msb native (Some Swap24) None, 0)
  | ASIOSTOther _ => (None, 0)
  end.

(** [if( converter ) converter( buffer, shift, count );] as the buffer
    switch callback applies a stream's converter to a channel buffer. *)
Definition convert_buffer (selected : option PaAsioBufferConverter * Z)
    (count : nat) (buffer : list Z) : option (list Z) :=
  match fst selected with
  | None => Some buffer
  | Some converter => call_converter converter buffer (snd selected) count
  end.

(** Hardware to canonical, then canonical back to hardware. *)
Definition round_trip (native : NativeOrder) (type : ASIOSampleType)
    (count : nat) (buffer : list Z) : option (list Z) :=
  match convert_buffer (SelectAsioToPaConverter native type) count buffer with
  | Some canonical => convert_buffer (SelectPaToAsioConverter native type) count canonical
  | None => None
  end.

(** The integer hardware formats: those whose canonical format is one of
    the three integer formats. *)
Definition is_integer_type (type : ASIOSampleType) : bool :=
  match AsioSampleTypeToPaNativeSampleFormat type with
  | paInt16 | paInt24 | paInt32 => true
  | _ => false
  end.

(** Width in bits of the cells of a buffer of the given type. *)
Definition cell_bits (type : ASIOSampleType) : Z :=
  match AsioSampleTypeToPaNativeSampleFormat type with
  | paInt16 => 16
  | paInt24 => 8
  | _ => 32
  end.

(** The shift selected for a type: 32 minus its significant bits for the
    formats packed in 32 bits, 0 for the others. *)
Definition selected_shift (native : NativeOrder) (type : ASIOSampleType) : Z :=
  snd (SelectAsioToPaConverter native type).

(** The number a packed sample is in the byte order of the machine: the
    operand of the shifts. *)
Definition native_value (native : NativeOrder) (type : ASIOSampleType) (x : Z) : Z :=
  match fst (SelectAsioToPaConverter native type) with
  | Some SwapShiftLeft32 => PA_SWAP32_ x
  | _ => x
  end.

(** The sample whose native value is that of [x] with its [selected_shift]
    most significant bits cleared. *)
Definition clear_top_bits (native : NativeOrder) (type : ASIOSampleType) (x : Z) : Z :=
  match fst (SelectAsioToPaConverter native type) with
  | Some SwapShiftLeft32 => PA_SWAP32_ (PA_SWAP32_ x mod 2 ^ (32 - selected_shift native type))
  | Some ShiftLeft32 => x mod 2 ^ (32 - selected_shift native type)
  | _ => x
  end.

(** Bit [n] of a byte-swapped 32 bit word [x]. *)
Definition swapped_bit (x n : Z) : bool :=
  if n <? 8 then Z.testbit x (n + 24)
  else if n <? 16 then Z.testbit x (n + 8)
  else if n <? 24 then Z.testbit x (n - 8)
  else if n <? 32 then Z.testbit x (n - 24)
  else false.

(** What a round trip leaves of one cell, read off the selected pair of
    converters: the packed 32 bit formats shift left and then right by
    [shift], in native byte order. *)
Definition round_trip_cell (native : NativeOrder) (type : ASIOSampleType) (x : Z) : Z :=
  match SelectAsioToPaConverter native type with
  | (Some SwapShiftLeft32, shift) => PA_SWAP32_ (PA_SWAP32_ x mod 2 ^ (32 - shift))
  | (Some ShiftLeft32, shift) => x mod 2 ^ (32 - shift)
  | _ => x
  end.

(** The cell, read in native byte order, has its [shift] most significant
    bits clear. *)
Definition top_bits_clear (native : NativeOrder) (type : ASIOSampleType) (x : Z) : Prop :=
  match SelectAsioToPaConverter native type with
  | (Some SwapShiftLeft32, shift) => PA_SWAP32_ x < 2 ^ (32 - shift)
  | (Some ShiftLeft32, shift) => x < 2 ^ (32 - shift)
  | _ => True
  end.

End Convert.

Module Negotiate.

(** The fields of [PaAsioDriverInfo] the file reads; the buffer sizes are
    [long]s as ASIOGetBufferSize returned them. *)
Record PaAsioDriverInfo := {
  inputChannelCount : Z;
  outputChannelCount : Z;
  bufferMinSize : Z;
  bufferMaxSize : Z;
  bufferPreferredSize : Z;
  bufferGranularity : Z;
  postOutput : bool
}.

(** [(unsigned long)x] for a [long] x. *)
Definition ulong (x : Z) : Z := wrap32 x.

Definition is_long (x : Z) : Prop := - 2 ^ 31 <= x < 2 ^ 31.
Definition is_ulong (x : Z) : Prop := 0 <= x < 2 ^ 32.

Definition NextPowerOfTwo (x : Z) : Z :=
  let x := wrap32 (x - 1) in
  let x := Z.lor x (Z.shiftr x 1) in
  let x := Z.lor x (Z.shiftr x 2) in
  let x := Z.lor x (Z.shiftr x 4) in
  let x := Z.lor x (Z.shiftr x 8) in
  let x := Z.lor x (Z.shiftr x 16) in
  wrap32 (x + 1).

(** The two clamps that end the power-of-two and the granularity branches. *)
Definition clamp_result (result : Z) (driverInfo : PaAsioDriverInfo) : Z :=
  let result :=
    if result <? ulong (bufferMinSize driverInfo)
    then ulong (bufferMinSize driverInfo) else result in
  if result >? ulong (bufferMaxSize driverInfo)
  then ulong (bufferMaxSize driverInfo) else result.

Definition SelectHostBufferSizeForUnspecifiedUserFramesPerBuffer
    (targetBufferingLatencyFrames : Z) (driverInfo : PaAsioDriverInfo) : Z :=
  if targetBufferingLatencyFrames <=? ulong (bufferMinSize driverInfo) then
    ulong (bufferMinSize driverInfo)
  else if targetBufferingLatencyFrames >=? ulong (bufferMaxSize driverInfo) then
    ulong (bufferMaxSize driverInfo)
  else if bufferGranularity driverInfo =? 0 then
    ulong (bufferPreferredSize driverInfo)
  else if bufferGranularity driverInfo =? -1 then
    clamp_result (NextPowerOfTwo targetBufferingLatencyFrames) driverInfo
  else
    let n := wrap32 (targetBufferingLatencyFrames
                     + ulong (bufferGranularity driverInfo) - 1)
             / ulong (bufferGranularity driverInfo) in
    clamp_result (wrap32 (n * ulong (bufferGranularity driverInfo))) driverInfo.

(** The body shared by the two [do { ... } while( x <= bufferMaxSize )]
    searches; [next] is [x *= 2] or [x += bufferGranularity].  [None] when
    the fuel runs out before the loop leaves. *)
Fixpoint search_multiples (next : Z -> Z) (fuel : nat)
    (x result targetBufferingLatencyFrames userFramesPerBuffer max : Z) : option Z :=
  match fuel with
  | O => None
  | S fuel =>
      let hit := x mod userFramesPerBuffer =? 0 in
      let result := if hit then x else result in
      if hit && (result >=? targetBufferingLatencyFrames) then Some result
      else
        let x := next x in
        if x <=? max
        then search_multiples next fuel x result
               targetBufferingLatencyFrames userFramesPerBuffer max
        else Some result
  end.

(** [None] stands for the failed [assert( userFramesPerBuffer != 0 )] and
    for a search that is out of fuel. *)
Definition SelectHostBufferSizeForSpecifiedUserFramesPerBuffer (fuel : nat)
    (targetBufferingLatencyFrames userFramesPerBuffer : Z)
    (driverInfo : PaAsioDriverInfo) : option Z :=
  if userFramesPerBuffer =? 0 then None
  else if bufferGranularity driverInfo =? 0 then
    if ulong (bufferPreferredSize driverInfo) mod userFramesPerBuffer =? 0
    then Some (ulong (bufferPreferredSize driverInfo)) else Some 0
  else if bufferGranularity driverInfo =? -1 then
    search_multiples (fun x => wrap32 (x * 2)) fuel
      (ulong (bufferMinSize driverInfo)) 0
      targetBufferingLatencyFrames userFramesPerBuffer
      (ulong (bufferMaxSize driverInfo))
  else
    search_multiples (fun x => wrap32 (x + ulong (bufferGranularity driverInfo))) fuel
      (ulong (bufferMinSize driverInfo)) 0
      targetBufferingLatencyFrames userFramesPerBuffer
      (ulong (bufferMaxSize driverInfo)).

(** The entry point OpenStream calls for a blocking stream: both latency
    and block size are cast to void. *)
Definition SelectHostBufferSize
    (targetBufferingLatencyFrames userFramesPerBuffer : Z)
    (driverInfo : PaAsioDriverInfo) : Z :=
  ulong (bufferPreferredSize driverInfo).

End Negotiate.

(** ** Constants of portaudio.h

    The header is not part of the sources at hand; the values are those of
    its [PaErrorCode], [PaStreamCallbackResult] and [PaStreamCallbackFlags]
    declarations. *)

Definition PaError := Z.
Definition paNoError : PaError := 0.
Definition paUnanticipatedHostError : PaError := -9999.
Definition paInvalidChannelCount : PaError := -9998.
Definition paInvalidSampleRate : PaError := -9997.
Definition paInvalidDevice : PaError := -9996.
Definition paInvalidFlag : PaError := -9995.
Definition paBadIODeviceCombination : PaError := -9993.
Definition paInsufficientMemory : PaError := -9992.
Definition paTimedOut : PaError := -9987.
Definition paDeviceUnavailable : PaError := -9985.
Definition paIncompatibleHostApiSpecificStreamInfo : PaError := -9984.
Definition paStreamIsStopped : PaError := -9983.
Definition paInputOverflowed : PaError := -9981.
Definition paOutputUnderflowed : PaError := -9980.
Definition paCanNotReadFromAnOutputOnlyStream : PaError := -9975.
Definition paCanNotWriteToAnInputOnlyStream : PaError := -9974.

Definition paNoDevice : Z := -1.
Definition paUseHostApiSpecificDeviceSpecification : Z := -2.

Definition paContinue : Z := 0.
Definition paComplete : Z := 1.
Definition paAbort : Z := 2.

Definition paInputOverflow : Z := 2.
Definition paOutputUnderflow : Z := 4.
Definition paPlatformSpecificFlags : Z := 0xFFFF0000.

(** [WaitForSingleObject] results. *)
Inductive WaitResult := WAIT_OBJECT_0 | WAIT_TIMEOUT | WAIT_FAILED.

(** ** List cells by index *)

(** [l[k] = v]; [None] when [k] is outside [l], where the C store is
    undefined. *)
Fixpoint store {A} (l : list A) (k : nat) (v : A) : option (list A) :=
  match l, k with
  | [], _ => None
  | _ :: rest, O => Some (v :: rest)
  | x :: rest, S k =>
      match store rest k v with
      | Some rest' => Some (x :: rest')
      | None => None
      end
  end.

(** The same store that leaves [l] alone when [k] is outside. *)
Definition update {A} (l : list A) (k : nat) (f : A -> A) : list A :=
  match nth_error l k with
  | Some x => match store l k (f x) with Some l' => l' | None => l end
  | None => l
  end.

(** [memset( buffer, 0, n )] on a buffer of bytes at least [n] long. *)
Definition memset0 (buffer : list Z) (n : Z) : list Z :=
  repeat 0 (Nat.min (Z.to_nat n) (length buffer)) ++ skipn (Z.to_nat n) buffer.

Module Ring.

(** Modelled from the spec: the ring buffer transport of pa_ringbuffer.h,
    "a power-of-two-sized frame-indexed circular buffer with separate
    read/write indices", the indices increasing monotonically and a
    position being the index masked to the capacity; write and read
    saturate at what is available. A frame is the list of its samples. *)
Record PaUtilRingBuffer := {
  bufferSize : Z;
  writeIndex : Z;
  readIndex : Z;
  buffer : list (list Z)
}.

Definition PaUtil_GetRingBufferReadAvailable (rb : PaUtilRingBuffer) : Z :=
  writeIndex rb - readIndex rb.

Definition PaUtil_GetRingBufferWriteAvailable (rb : PaUtilRingBuffer) : Z :=
  bufferSize rb - PaUtil_GetRingBufferReadAvailable rb.

Definition PaUtil_AdvanceRingBufferReadIndex (rb : PaUtilRingBuffer) (n : Z)
  : PaUtilRingBuffer :=
  {| bufferSize := bufferSize rb; writeIndex := writeIndex rb;
     readIndex := readIndex rb + n; buffer := buffer rb |}.

Definition PaUtil_AdvanceRingBufferWriteIndex (rb : PaUtilRingBuffer) (n : Z)
  : PaUtilRingBuffer :=
  {| bufferSize := bufferSize rb; writeIndex := writeIndex rb + n;
     readIndex := readIndex rb; buffer := buffer rb |}.

Definition PaUtil_FlushRingBuffer (rb : PaUtilRingBuffer) : PaUtilRingBuffer :=
  {| bufferSize := bufferSize rb; writeIndex := 0; readIndex := 0;
     buffer := buffer rb |}.

(** The position in the storage of the frame with index [i]. *)
Definition position (rb : PaUtilRingBuffer) (i : Z) : nat :=
  Z.to_nat (i mod bufferSize rb).

(** The frames with indices [from], [from + 1], ... [from + n - 1]. *)
Fixpoint frames_from (rb : PaUtilRingBuffer) (from : Z) (n : nat) : list (list Z) :=
  match n with
  | O => []
  | S n => nth (position rb from) (buffer rb) [] :: frames_from rb (from + 1) n
  end.

(** Storing [data] at the indices [from], [from + 1], ... *)
Fixpoint store_frames (rb : PaUtilRingBuffer) (storage : list (list Z))
    (from : Z) (data : list (list Z)) : list (list Z) :=
  match data with
  | [] => storage
  | frame :: data =>
      store_frames rb (update storage (position rb from) (fun _ => frame))
        (from + 1) data
  end.

(** Frames actually read, and the ring buffer afterwards. *)
Definition PaUtil_ReadRingBuffer (rb : PaUtilRingBuffer) (elementCount : Z)
  : list (list Z) * PaUtilRingBuffer :=
  let n := Z.max 0 (Z.min elementCount (PaUtil_GetRingBufferReadAvailable rb)) in
  (frames_from rb (readIndex rb) (Z.to_nat n),
   PaUtil_AdvanceRingBufferReadIndex rb n).

(** The number of frames actually written, and the ring buffer afterwards. *)
Definition PaUtil_WriteRingBuffer (rb : PaUtilRingBuffer) (data : list (list Z))
    (elementCount : Z) : Z * PaUtilRingBuffer :=
  let n := Z.max 0 (Z.min elementCount (PaUtil_GetRingBufferWriteAvailable rb)) in
  (n,
   {| bufferSize := bufferSize rb; writeIndex := writeIndex rb + n;
      readIndex := readIndex rb;
      buffer := store_frames rb (buffer rb) (writeIndex rb)
                  (firstn (Z.to_nat n) data) |}).

(** The sizes of the two contiguous regions of a request that may span
    the end of the storage. *)
Definition regions (rb : PaUtilRingBuffer) (from n : Z) : Z * Z :=
  let i := from mod bufferSize rb in
  if i + n >? bufferSize rb
  then (bufferSize rb - i, n - (bufferSize rb - i))
  else (n, 0).

Definition PaUtil_GetRingBufferReadRegions (rb : PaUtilRingBuffer) (elementCount : Z)
  : Z * Z :=
  regions rb (readIndex rb)
    (Z.max 0 (Z.min elementCount (PaUtil_GetRingBufferReadAvailable rb))).

Definition PaUtil_GetRingBufferWriteRegions (rb : PaUtilRingBuffer) (elementCount : Z)
  : Z * Z :=
  regions rb (writeIndex rb)
    (Z.max 0 (Z.min elementCount (PaUtil_GetRingBufferWriteAvailable rb))).

(** "Write index never laps the read index by more than buffer capacity." *)
Definition well_formed (rb : PaUtilRingBuffer) : Prop :=
  0 < bufferSize rb /\
  length (buffer rb) = Z.to_nat (bufferSize rb) /\
  0 <= readIndex rb <= writeIndex rb /\
  writeIndex rb <= readIndex rb + bufferSize rb.

End Ring.

Module Stream.
Import Convert Negotiate Ring.

(** *** Data *)

(** What the real-time path and the operations do to the world outside
    the stream record, in the order they do it. *)
Inductive Event :=
| EvStreamFinished                       (* streamFinishedCallback( userData ) *)
| EvSetCompletedEvent                    (* SetEvent( completedBuffersPlayedEvent ) *)
| EvOutputReady                          (* ASIOOutputReady() *)
| EvConvertInput (channel : nat) (converter : PaAsioBufferConverter) (shift count : Z)
| EvBufferProcessing (statusFlags : Z)   (* PaUtil_BeginBufferProcessing ... PaUtil_EndBufferProcessing *)
| EvConvertOutput (channel : nat) (converter : PaAsioBufferConverter) (shift count : Z)
| EvASIOStart
| EvASIOStop
| EvSleep.

(** A hardware buffer half: the [index]-th half of the buffers the driver
    created for the [info]-th ASIOBufferInfo. *)
Record HwPtr := { info : nat; half : Z }.

Record ASIOBufferInfo := {
  isInput : bool;
  channelNum : Z;
  buffers : list Z * list Z          (* the bytes behind buffers[0] and buffers[1] *)
}.

Record ASIOChannelInfo := {
  channel : Z;
  channelIsInput : bool;
  type : ASIOSampleType
}.

Record PaAsioStreamBlockingState := {
  stopFlag : bool;
  writeBuffersRequested : Z;
  readFramesRequested : Z;
  writeBuffersRequestedFlag : bool;
  readFramesRequestedFlag : bool;
  writeBuffersReadyEvent : bool;       (* the event is signalled *)
  readFramesReadyEvent : bool;
  writeRingBuffer : PaUtilRingBuffer;
  readRingBuffer : PaUtilRingBuffer;
  writeRingBufferInitialFrames : Z;
  outputUnderflowFlag : bool;
  inputOverflowFlag : bool
}.

(** The part of a stream that OpenStream fixes. *)
Record Layout := {
  framesPerHostCallback : Z;
  framesPerUserBuffer : Z;             (* bufferProcessor.framesPerUserBuffer *)
  sampleRate : Z;                      (* streamInfo.sampleRate, a whole number of Hz *)
  outputLatencyMs : Z;                 (* streamInfo.outputLatency * 1000. *)
  inputChannelCount : Z;
  outputChannelCount : Z;
  postOutput : bool;
  outputChannelMap : list Z;
  outputChannelOffset : Z;
  asioChannelInfos : list ASIOChannelInfo;
  bufferPtrs : list (option HwPtr);    (* carved up for the four pointer arrays *)
  inputBufferPtrs : option nat * option nat;   (* where in bufferPtrs each array starts *)
  outputBufferPtrs : option nat * option nat;
  inputBufferConverter : option PaAsioBufferConverter;
  inputShift : Z;
  outputBufferConverter : option PaAsioBufferConverter;
  outputShift : Z;
  streamFinishedCallback : bool        (* streamRepresentation.streamFinishedCallback != 0 *)
}.

Record PaAsioStream := {
  layout : Layout;
  asioBufferInfos : list ASIOBufferInfo;
  stopProcessing : bool;
  stopPlayoutCount : Z;
  completedBuffersPlayedEvent : bool;  (* the event is signalled *)
  streamFinishedCallbackCalled : bool;
  isStopped : Z;
  isActive : Z;
  zeroOutput : bool;
  reenterCount : Z;
  reenterError : Z;
  callbackFlags : Z;
  blockingState : option PaAsioStreamBlockingState;
  log : list Event
}.

(** Field assignments. *)
Definition set_asioBufferInfos v s := Build_PaAsioStream (layout s) v (stopProcessing s) (stopPlayoutCount s) (completedBuffersPlayedEvent s) (streamFinishedCallbackCalled s) (isStopped s) (isActive s) (zeroOutput s) (reenterCount s) (reenterError s) (callbackFlags s) (blockingState s) (log s).
Definition set_stopProcessing v s := Build_PaAsioStream (layout s) (asioBufferInfos s) v (stopPlayoutCount s) (completedBuffersPlayedEvent s) (streamFinishedCallbackCalled s) (isStopped s) (isActive s) (zeroOutput s) (reenterCount s) (reenterError s) (callbackFlags s) (blockingState s) (log s).
Definition set_stopPlayoutCount v s := Build_PaAsioStream (layout s) (asioBufferInfos s) (stopProcessing s) v (completedBuffersPlayedEvent s) (streamFinishedCallbackCalled s) (isStopped s) (isActive s) (zeroOutput s) (reenterCount s) (reenterError s) (callbackFlags s) (blockingState s) (log s).
Definition set_completedBuffersPlayedEvent v s := Build_PaAsioStream (layout s) (asioBufferInfos s) (stopProcessing s) (stopPlayoutCount s) v (streamFinishedCallbackCalled s) (isStopped s) (isActive s) (zeroOutput s) (reenterCount s) (reenterError s) (callbackFlags s) (blockingState s) (log s).
Definition set_streamFinishedCallbackCalled v s := Build_PaAsioStream (layout s) (asioBufferInfos s) (stopProcessing s) (stopPlayoutCount s) (completedBuffersPlayedEvent s) v (isStopped s) (isActive s) (zeroOutput s) (reenterCount s) (reenterError s) (callbackFlags s) (blockingState s) (log s).
Definition set_isStopped v s := Build_PaAsioStream (layout s) (asioBufferInfos s) (stopProcessing s) (stopPlayoutCount s) (completedBuffersPlayedEvent s) (streamFinishedCallbackCalled s) v (isActive s) (zeroOutput s) (reenterCount s) (reenterError s) (callbackFlags s) (blockingState s) (log s).
Definition set_isActive v s := Build_PaAsioStream (layout s) (asioBufferInfos s) (stopProcessing s) (stopPlayoutCount s) (completedBuffersPlayedEvent s) (streamFinishedCallbackCalled s) (isStopped s) v (zeroOutput s) (reenterCount s) (reenterError s) (callbackFlags s) (blockingState s) (log s).
Definition set_zeroOutput v s := Build_PaAsioStream (layout s) (asioBufferInfos s) (stopProcessing s) (stopPlayoutCount s) (completedBuffersPlayedEvent s) (streamFinishedCallbackCalled s) (isStopped s) (isActive s) v (reenterCount s) (reenterError s) (callbackFlags s) (blockingState s) (log s).
Definition set_reenterCount v s := Build_PaAsioStream (layout s) (asioBufferInfos s) (stopProcessing s) (stopPlayoutCount s) (completedBuffersPlayedEvent s) (streamFinishedCallbackCalled s) (isStopped s) (isActive s) (zeroOutput s) v (reenterError s) (callbackFlags s) (blockingState s) (log s).
Definition set_reenterError v s := Build_PaAsioStream (layout s) (asioBufferInfos s) (stopProcessing s) (stopPlayoutCount s) (completedBuffersPlayedEvent s) (streamFinishedCallbackCalled s) (isStopped s) (isActive s) (zeroOutput s) (reenterCount s) v (callbackFlags s) (blockingState s) (log s).
Definition set_callbackFlags v s := Build_PaAsioStream (layout s) (asioBufferInfos s) (stopProcessing s) (stopPlayoutCount s) (completedBuffersPlayedEvent s) (streamFinishedCallbackCalled s) (isStopped s) (isActive s) (zeroOutput s) (reenterCount s) (reenterError s) v (blockingState s) (log s).
Definition set_blockingState v s := Build_PaAsioStream (layout s) (asioBufferInfos s) (stopProcessing s) (stopPlayoutCount s) (completedBuffersPlayedEvent s) (streamFinishedCallbackCalled s) (isStopped s) (isActive s) (zeroOutput s) (reenterCount s) (reenterError s) (callbackFlags s) v (log s).
Definition emit (e : Event) s := Build_PaAsioStream (layout s) (asioBufferInfos s) (stopProcessing s) (stopPlayoutCount s) (completedBuffersPlayedEvent s) (streamFinishedCallbackCalled s) (isStopped s) (isActive s) (zeroOutput s) (reenterCount s) (reenterError s) (callbackFlags s) (blockingState s) (log s ++ [e]).

Definition set_stopFlag v b := Build_PaAsioStreamBlockingState v (writeBuffersRequested b) (readFramesRequested b) (writeBuffersRequestedFlag b) (readFramesRequestedFlag b) (writeBuffersReadyEvent b) (readFramesReadyEvent b) (writeRingBuffer b) (readRingBuffer b) (writeRingBufferInitialFrames b) (outputUnderflowFlag b) (inputOverflowFlag b).
Definition set_writeBuffersRequested v b := Build_PaAsioStreamBlockingState (stopFlag b) v (readFramesRequested b) (writeBuffersRequestedFlag b) (readFramesRequestedFlag b) (writeBuffersReadyEvent b) (readFramesReadyEvent b) (writeRingBuffer b) (readRingBuffer b) (writeRingBufferInitialFrames b) (outputUnderflowFlag b) (inputOverflowFlag b).
Definition set_readFramesRequested v b := Build_PaAsioStreamBlockingState (stopFlag b) (writeBuffersRequested b) v (writeBuffersRequestedFlag b) (readFramesRequestedFlag b) (writeBuffersReadyEvent b) (readFramesReadyEvent b) (writeRingBuffer b) (readRingBuffer b) (writeRingBufferInitialFrames b) (outputUnderflowFlag b) (inputOverflowFlag b).
Definition set_writeBuffersRequestedFlag v b := Build_PaAsioStreamBlockingState (stopFlag b) (writeBuffersRequested b) (readFramesRequested b) v (readFramesRequestedFlag b) (writeBuffersReadyEvent b) (readFramesReadyEvent b) (writeRingBuffer b) (readRingBuffer b) (writeRingBufferInitialFrames b) (outputUnderflowFlag b) (inputOverflowFlag b).
Definition set_readFramesRequestedFlag v b := Build_PaAsioStreamBlockingState (stopFlag b) (writeBuffersRequested b) (readFramesRequested b) (writeBuffersRequestedFlag b) v (writeBuffersReadyEvent b) (readFramesReadyEvent b) (writeRingBuffer b) (readRingBuffer b) (writeRingBufferInitialFrames b) (outputUnderflowFlag b) (inputOverflowFlag b).
Definition set_writeBuffersReadyEvent v b := Build_PaAsioStreamBlockingState (stopFlag b) (writeBuffersRequested b) (readFramesRequested b) (writeBuffersRequestedFlag b) (readFramesRequestedFlag b) v (readFramesReadyEvent b) (writeRingBuffer b) (readRingBuffer b) (writeRingBufferInitialFrames b) (outputUnderflowFlag b) (inputOverflowFlag b).
Definition set_readFramesReadyEvent v b := Build_PaAsioStreamBlockingState (stopFlag b) (writeBuffersRequested b) (readFramesRequested b) (writeBuffersRequestedFlag b) (readFramesRequestedFlag b) (writeBuffersReadyEvent b) v (writeRingBuffer b) (readRingBuffer b) (writeRingBufferInitialFrames b) (outputUnderflowFlag b) (inputOverflowFlag b).
Definition set_writeRingBuffer v b := Build_PaAsioStreamBlockingState (stopFlag b) (writeBuffersRequested b) (readFramesRequested b) (writeBuffersRequestedFlag b) (readFramesRequestedFlag b) (writeBuffersReadyEvent b) (readFramesReadyEvent b) v (readRingBuffer b) (writeRingBufferInitialFrames b) (outputUnderflowFlag b) (inputOverflowFlag b).
Definition set_readRingBuffer v b := Build_PaAsioStreamBlockingState (stopFlag b) (writeBuffersRequested b) (readFramesRequested b) (writeBuffersRequestedFlag b) (readFramesRequestedFlag b) (writeBuffersReadyEvent b) (readFramesReadyEvent b) (writeRingBuffer b) v (writeRingBufferInitialFrames b) (outputUnderflowFlag b) (inputOverflowFlag b).
Definition set_outputUnderflowFlag v b := Build_PaAsioStreamBlockingState (stopFlag b) (writeBuffersRequested b) (readFramesRequested b) (writeBuffersRequestedFlag b) (readFramesRequestedFlag b) (writeBuffersReadyEvent b) (readFramesReadyEvent b) (writeRingBuffer b) (readRingBuffer b) (writeRingBufferInitialFrames b) v (inputOverflowFlag b).
Definition set_inputOverflowFlag v b := Build_PaAsioStreamBlockingState (stopFlag b) (writeBuffersRequested b) (readFramesRequested b) (writeBuffersRequestedFlag b) (readFramesRequestedFlag b) (writeBuffersReadyEvent b) (readFramesReadyEvent b) (writeRingBuffer b) (readRingBuffer b) (writeRingBufferInitialFrames b) (outputUnderflowFlag b) v.

(** [buffers[index]] of a buffer info, for the two indices a driver uses. *)
Definition buffer_half (b : ASIOBufferInfo) (index : Z) : list Z :=
  if index =? 0 then fst (buffers b) else snd (buffers b).

Definition set_buffer_half (index : Z) (bytes : list Z) (b : ASIOBufferInfo)
  : ASIOBufferInfo :=
  {| isInput := isInput b; channelNum := channelNum b;
     buffers := if index =? 0 then (bytes, snd (buffers b))
                else (fst (buffers b), bytes) |}.

(** *** ZeroOutputBuffers *)

(** One turn of either loop: zero the [index] half of buffer info
    [inputChannelCount + i]. *)
Definition zero_one (L : Layout) (index : Z) (infos : list ASIOBufferInfo) (i : nat)
  : list ASIOBufferInfo :=
  let asioBufferIndex := Z.to_nat (inputChannelCount L + Z.of_nat i) in
  let bytesPerSample :=
    match nth_error (asioChannelInfos L) asioBufferIndex with
    | Some ci => BytesPerAsioSample (type ci)
    | None => 0
    end in
  update infos asioBufferIndex
    (fun b => set_buffer_half index
                (memset0 (buffer_half b index)
                         (wrap32 (framesPerHostCallback L * bytesPerSample))) b).

Definition ZeroOutputBuffers (stream : PaAsioStream) (index : Z) : PaAsioStream :=
  let L := layout stream in
  let dummyBufferCount := outputChannelOffset L in
  if negb (zeroOutput stream) then
    let totalOutputBuffers := outputChannelOffset L + outputChannelCount L in
    set_asioBufferInfos
      (fold_left (zero_one L index) (seq 0 (Z.to_nat totalOutputBuffers))
                 (asioBufferInfos stream)) stream
  else
    set_asioBufferInfos
      (fold_left (zero_one L index) (seq 0 (Z.to_nat dummyBufferCount))
                 (asioBufferInfos stream)) stream.

(** *** BlockingIoPaCallback *)

(** The arguments of one call of the stream callback; the buffers are
    lists of frames. *)
Record CallbackArgs := {
  inputBuffer : list (list Z);
  outputBuffer : list (list Z);
  framesPerBuffer : Z;
  statusFlags : Z
}.

(** [( *outputZeroer )( outputBuffer, 1, channels * framesPerBuffer )]. *)
Definition zero_frames (channels framesPerBuffer : Z) (outputBuffer : list (list Z))
  : list (list Z) :=
  repeat (repeat 0 (Z.to_nat channels)) (Z.to_nat framesPerBuffer)
  ++ skipn (Z.to_nat framesPerBuffer) outputBuffer.

(** Frames copied to the start of a buffer. *)
Definition overwrite (data outputBuffer : list (list Z)) : list (list Z) :=
  data ++ skipn (length data) outputBuffer.

Definition blocking_output (L : Layout) (b : PaAsioStreamBlockingState) (a : CallbackArgs)
  : list (list Z) * PaAsioStreamBlockingState :=
  let b := if negb (Z.land (statusFlags a) paOutputUnderflowed =? 0)
           then set_outputUnderflowFlag true b else b in
  let pRb := writeRingBuffer b in
  let '(out, b) :=
    if PaUtil_GetRingBufferReadAvailable pRb >=? to_long (framesPerBuffer a) then
      let '(data, pRb) := PaUtil_ReadRingBuffer pRb (to_long (framesPerBuffer a)) in
      (overwrite data (outputBuffer a), set_writeRingBuffer pRb b)
    else
      let b := set_outputUnderflowFlag true b in
      let out := zero_frames (outputChannelCount L) (framesPerBuffer a) (outputBuffer a) in
      if stopFlag b && (PaUtil_GetRingBufferReadAvailable pRb <? to_long (framesPerBuffer a)) then
        let '(data, pRb) :=
          PaUtil_ReadRingBuffer pRb (PaUtil_GetRingBufferReadAvailable pRb) in
        (overwrite data out, set_writeRingBuffer pRb b)
      else (out, b) in
  let b :=
    if writeBuffersRequestedFlag b
       && (PaUtil_GetRingBufferWriteAvailable (writeRingBuffer b)
           >=? to_long (writeBuffersRequested b))
    then set_writeBuffersReadyEvent true
           (set_writeBuffersRequested 0 (set_writeBuffersRequestedFlag false b))
    else b in
  (out, b).

Definition blocking_input (b : PaAsioStreamBlockingState) (a : CallbackArgs)
  : PaAsioStreamBlockingState :=
  let b := if negb (Z.land (statusFlags a) paInputOverflowed =? 0)
           then set_inputOverflowFlag true b else b in
  let pRb := readRingBuffer b in
  let '(pRb, b) :=
    if PaUtil_GetRingBufferWriteAvailable pRb <? to_long (framesPerBuffer a) then
      (PaUtil_AdvanceRingBufferReadIndex pRb (to_long (framesPerBuffer a)),
       set_inputOverflowFlag true b)
    else (pRb, b) in
  let pRb := snd (PaUtil_WriteRingBuffer pRb (inputBuffer a) (to_long (framesPerBuffer a))) in
  let b := set_readRingBuffer pRb b in
  if readFramesRequestedFlag b
     && (PaUtil_GetRingBufferReadAvailable pRb >=? to_long (readFramesRequested b))
  then set_readFramesReadyEvent true
         (set_readFramesRequested 0 (set_readFramesRequestedFlag false b))
  else b.

(** The value returned, the output buffer and the blocking state
    afterwards. *)
Definition BlockingIoPaCallback (L : Layout) (b : PaAsioStreamBlockingState)
    (a : CallbackArgs) : Z * list (list Z) * PaAsioStreamBlockingState :=
  let '(out, b) :=
    if negb (outputChannelCount L =? 0) then blocking_output L b a
    else (outputBuffer a, b) in
  let b := if negb (inputChannelCount L =? 0) then blocking_input b a else b in
  (paContinue, out, b).

(** *** bufferSwitchTimeInfo *)

(** What one buffer switch gets from outside the file: the buffer [index]
    of the driver, and the buffer processor, a black box that turns the
    initial [callbackResult] into the final one (calling the user callback
    on its way), leaves bytes in the output channel buffers and reports
    whether its output is empty. *)
Record Cycle := {
  index : Z;
  callbacks : list CallbackArgs;       (* the calls of the stream callback it makes *)
  endBufferProcessing : Z -> Z;
  written : list (list Z);
  outputEmpty : bool
}.

(** [ptrs[index][i]] through the carved pointer table; [None] where the
    pointer is null or lies outside the table. *)
Definition buffer_ptr (L : Layout) (ptrs : option nat * option nat) (index : Z) (i : nat)
  : option HwPtr :=
  match (if index =? 0 then fst ptrs else snd ptrs) with
  | Some start =>
      match nth_error (bufferPtrs L) (start + i) with
      | Some p => p
      | None => None
      end
  | None => None
  end.

Definition streamFinished (s : PaAsioStream) : PaAsioStream :=
  if streamFinishedCallback (layout s) then emit EvStreamFinished s else s.

(** isActive = 0; the finished callback; streamFinishedCallbackCalled =
    true; SetEvent( completedBuffersPlayedEvent ). *)
Definition finish_playback (s : PaAsioStream) : PaAsioStream :=
  let s := set_isActive 0 s in
  let s := streamFinished s in
  let s := set_streamFinishedCallbackCalled true s in
  emit EvSetCompletedEvent (set_completedBuffersPlayedEvent true s).

Definition output_ready (s : PaAsioStream) : PaAsioStream :=
  if postOutput (layout s) then emit EvOutputReady s else s.

(** The branch [if( theAsioStream->zeroOutput )] of the loop body. *)
Definition silent_cycle (s : PaAsioStream) (index : Z) : PaAsioStream :=
  let s := ZeroOutputBuffers s index in
  let s := output_ready s in
  if stopProcessing s then
    if stopPlayoutCount s <? 2 then
      let s := set_stopPlayoutCount (stopPlayoutCount s + 1) s in
      if stopPlayoutCount s =? 2 then finish_playback s else s
    else s
  else s.

Definition convert_inputs (s : PaAsioStream) : PaAsioStream :=
  let L := layout s in
  match inputBufferConverter L with
  | Some converter =>
      fold_left (fun s i => emit (EvConvertInput i converter (inputShift L)
                                    (framesPerHostCallback L)) s)
                (seq 0 (Z.to_nat (inputChannelCount L))) s
  | None => s
  end.

Definition convert_outputs (s : PaAsioStream) : PaAsioStream :=
  let L := layout s in
  match outputBufferConverter L with
  | Some converter =>
      fold_left (fun s i => emit (EvConvertOutput i converter (outputShift L)
                                    (framesPerHostCallback L)) s)
                (seq 0 (Z.to_nat (outputChannelCount L))) s
  | None => s
  end.

(** The buffer processor writing the output channel buffers it was given
    with PaUtil_SetNonInterleavedOutputChannel. *)
Definition write_outputs (s : PaAsioStream) (c : Cycle) : PaAsioStream :=
  let L := layout s in
  set_asioBufferInfos
    (fold_left
       (fun infos i =>
          match buffer_ptr L (outputBufferPtrs L) (index c) i, nth_error (written c) i with
          | Some p, Some bytes => update infos (info p) (set_buffer_half (half p) bytes)
          | _, _ => infos
          end)
       (seq 0 (Z.to_nat (outputChannelCount L))) (asioBufferInfos s)) s.

(** A blocking stream was opened with BlockingIoPaCallback for stream
    callback: the calls the buffer processor makes run it on the blocking
    state. The callback of a callback stream is the user's. *)
Definition run_callbacks (s : PaAsioStream) (c : Cycle) : PaAsioStream :=
  match blockingState s with
  | Some _ =>
      fold_left
        (fun s a =>
           match blockingState s with
           | Some b => set_blockingState
                         (Some (snd (BlockingIoPaCallback (layout s) b a))) s
           | None => s
           end)
        (callbacks c) s
  | None => s
  end.

(** The [else] branch: a buffer that is processed. *)
Definition processing_cycle (s : PaAsioStream) (c : Cycle) : PaAsioStream :=
  let s := convert_inputs s in
  let s := emit (EvBufferProcessing (callbackFlags s)) s in
  let s := set_callbackFlags 0 s in
  let callbackResult := if stopProcessing s then paComplete else paContinue in
  let s := run_callbacks s c in
  let callbackResult := endBufferProcessing c callbackResult in
  let s := write_outputs s c in
  let s := convert_outputs s in
  let s := output_ready s in
  if callbackResult =? paContinue then s
  else if callbackResult =? paAbort then
    set_zeroOutput true (finish_playback s)
  else
    let s := set_stopProcessing true s in
    if outputEmpty c
    then set_stopPlayoutCount 0 (set_zeroOutput true s)
    else s.

(** The branch [if( buffersDone > 0 )]: a reentered buffer. *)
Definition missed_cycle (s : PaAsioStream) : PaAsioStream :=
  let s := if inputChannelCount (layout s) >? 0
           then set_callbackFlags (Z.lor (callbackFlags s) paInputOverflow) s else s in
  if outputChannelCount (layout s) >? 0
  then set_callbackFlags (Z.lor (callbackFlags s) paOutputUnderflow) s else s.

Definition loop_body (s : PaAsioStream) (buffersDone : Z) (c : Cycle) : PaAsioStream :=
  if buffersDone >? 0 then missed_cycle s
  else if zeroOutput s then silent_cycle s (index c)
  else processing_cycle s c.

(** PaAsio_AtomicIncrement and PaAsio_AtomicDecrement on reenterCount; the
    value returned is the field afterwards. *)
Definition PaAsio_AtomicIncrement (s : PaAsioStream) : PaAsioStream :=
  set_reenterCount (to_long (reenterCount s + 1)) s.
Definition PaAsio_AtomicDecrement (s : PaAsioStream) : PaAsioStream :=
  set_reenterCount (to_long (reenterCount s - 1)) s.

(** The path of an invocation whose increment does not return zero. *)
Definition reentered (s : PaAsioStream) : PaAsioStream :=
  let s := PaAsio_AtomicIncrement s in
  set_reenterError (reenterError s + 1) s.

(** The do-while loop. [arrivals] tells, for each turn of the loop in
    order, how many invocations of the callback arrive while the turn
    runs; each of them takes the [reentered] path. *)
Fixpoint buffer_loop (fuel : nat) (s : PaAsioStream) (buffersDone : Z) (c : Cycle)
    (arrivals : list nat) : option PaAsioStream :=
  match fuel with
  | O => None
  | S fuel =>
      let s := loop_body s buffersDone c in
      let s := Nat.iter (hd O arrivals) reentered s in
      let s := PaAsio_AtomicDecrement s in
      if reenterCount s >=? 0
      then buffer_loop fuel s (buffersDone + 1) c (tl arrivals)
      else Some s
  end.

(** One invocation of the callback on the stream [theAsioStream] points to. *)
Definition bufferSwitchTimeInfo (fuel : nat) (s : PaAsioStream) (c : Cycle)
    (arrivals : list nat) : option PaAsioStream :=
  let s' := PaAsio_AtomicIncrement s in
  if negb (reenterCount s' =? 0) then Some (reentered s)
  else buffer_loop fuel s' 0 c arrivals.

(** An invocation during which no other arrives: one turn of the loop. *)
Definition buffer_switch (s : PaAsioStream) (c : Cycle) : PaAsioStream :=
  let s' := PaAsio_AtomicIncrement s in
  if negb (reenterCount s' =? 0) then reentered s
  else PaAsio_AtomicDecrement (loop_body s' 0 c).

(** Consecutive invocations of that kind. *)
Definition buffer_switches (s : PaAsioStream) (cs : list Cycle) : PaAsioStream :=
  fold_left buffer_switch cs s.

(** An invocation that has run its loop body leaves the loop: the
    decrement, and a turn of the loop for every invocation it missed. *)
Definition leave_loop (s : PaAsioStream) : PaAsioStream :=
  Nat.iter (Z.to_nat (reenterCount s))
           (fun s => PaAsio_AtomicDecrement (missed_cycle s))
           (PaAsio_AtomicDecrement s).

(** *** Other threads

    What can happen to the stream while a caller waits or sleeps. *)
Inductive Happening :=
| Invocation (c : Cycle)     (* the driver invokes the callback *)
| Leaves                     (* an invocation that was in its loop leaves it *)
| StopFlagRaised.            (* StopStream on another thread sets blockingState->stopFlag *)

Definition happen (s : PaAsioStream) (h : Happening) : PaAsioStream :=
  match h with
  | Invocation c => buffer_switch s c
  | Leaves => leave_loop s
  | StopFlagRaised =>
      match blockingState s with
      | Some b => set_blockingState (Some (set_stopFlag true b)) s
      | None => s
      end
  end.

(** What a wait meets: it fails, or the happenings at the given times (in
    milliseconds from its start, in order) take place. *)
Record Wait := {
  failed : bool;
  schedule : list (Z * Happening)
}.

Definition no_wait : Wait := {| failed := false; schedule := [] |}.

(** Waiting at most [timeout] for an event that [signalled] reads and that
    [taken] resets when it is an auto-reset event. *)
Fixpoint wait_for (signalled : PaAsioStream -> bool) (taken : PaAsioStream -> PaAsioStream)
    (timeout : Z) (s : PaAsioStream) (schedule : list (Z * Happening))
  : WaitResult * PaAsioStream :=
  if signalled s then (WAIT_OBJECT_0, taken s)
  else
    match schedule with
    | [] => (WAIT_TIMEOUT, s)
    | (t, h) :: schedule =>
        if t <? timeout
        then wait_for signalled taken timeout (happen s h) schedule
        else (WAIT_TIMEOUT, s)
    end.

Definition WaitForSingleObject (signalled : PaAsioStream -> bool)
    (taken : PaAsioStream -> PaAsioStream) (timeout : Z) (s : PaAsioStream) (w : Wait)
  : WaitResult * PaAsioStream :=
  if failed w then (WAIT_FAILED, s)
  else wait_for signalled taken timeout s (schedule w).

Definition on_blocking (f : PaAsioStreamBlockingState -> PaAsioStreamBlockingState)
    (s : PaAsioStream) : PaAsioStream :=
  match blockingState s with
  | Some b => set_blockingState (Some (f b)) s
  | None => s
  end.

Definition read_blocking {A} (f : PaAsioStreamBlockingState -> A) (default : A)
    (s : PaAsioStream) : A :=
  match blockingState s with
  | Some b => f b
  | None => default
  end.

(** *** StartStream *)

Record StartEnv := {
  resetCompletedOk : bool;             (* ResetEvent( completedBuffersPlayedEvent ) != 0 *)
  resetReadOk : bool;
  resetWriteOk : bool;
  asioStartOk : bool                   (* ASIOStart() == ASE_OK *)
}.

(** The zeroer run over the whole storage of a ring buffer. *)
Definition zero_storage (channels : Z) (rb : PaUtilRingBuffer) : PaUtilRingBuffer :=
  {| bufferSize := bufferSize rb; writeIndex := writeIndex rb;
     readIndex := readIndex rb;
     buffer := map (fun _ => repeat 0 (Z.to_nat channels)) (buffer rb) |}.

Definition start_blocking (L : Layout) (env : StartEnv) (b : PaAsioStreamBlockingState)
  : PaError * PaAsioStreamBlockingState :=
  let '(result, b) :=
    if negb (inputChannelCount L =? 0) then
      let '(result, b) :=
        if resetReadOk env then (paNoError, set_readFramesReadyEvent false b)
        else (paUnanticipatedHostError, b) in
      (result, set_readRingBuffer (zero_storage (inputChannelCount L)
                                         (PaUtil_FlushRingBuffer (readRingBuffer b))) b)
    else (paNoError, b) in
  let '(result, b) :=
    if negb (outputChannelCount L =? 0) then
      let '(result, b) :=
        if resetWriteOk env then (result, set_writeBuffersReadyEvent false b)
        else (paUnanticipatedHostError, b) in
      (result,
       set_writeRingBuffer
         (PaUtil_AdvanceRingBufferWriteIndex
            (zero_storage (outputChannelCount L)
                          (PaUtil_FlushRingBuffer (writeRingBuffer b)))
            (writeRingBufferInitialFrames b)) b)
    else (result, b) in
  (result,
   set_stopFlag false
     (set_inputOverflowFlag false
        (set_outputUnderflowFlag false
           (set_readFramesRequestedFlag false
              (set_writeBuffersRequestedFlag false
                 (set_readFramesRequested 0
                    (set_writeBuffersRequested 0 b))))))).

Definition StartStream (s : PaAsioStream) (env : StartEnv) : PaError * PaAsioStream :=
  let s := if outputChannelCount (layout s) >? 0
           then ZeroOutputBuffers (ZeroOutputBuffers s 0) 1 else s in
  let s := set_stopProcessing false s in
  let s := set_zeroOutput false s in
  let s := set_reenterCount (-1) s in
  let s := set_reenterError 0 s in
  let s := set_callbackFlags 0 s in
  let '(result, s) :=
    if resetCompletedOk env then (paNoError, set_completedBuffersPlayedEvent false s)
    else (paUnanticipatedHostError, s) in
  let '(result, s) :=
    match blockingState s with
    | Some b =>
        let '(r, b) := start_blocking (layout s) env b in
        (if r =? paNoError then result else r, set_blockingState (Some b) s)
    | None => (result, s)
    end in
  if result =? paNoError then
    let s := set_isStopped 0 s in
    let s := set_isActive 1 s in
    let s := set_streamFinishedCallbackCalled false s in
    let s := emit EvASIOStart s in
    if asioStartOk env then (result, s)
    else (paUnanticipatedHostError, set_isActive 0 (set_isStopped 1 s))
  else (result, s).

(** *** StopStream and AbortStream *)

Fixpoint ensure_loop (count : nat) (s : PaAsioStream) (sleeps : list (list Happening))
  : PaAsioStream :=
  match count with
  | O => s
  | S count =>
      if reenterCount s =? -1 then s
      else
        let s := emit EvSleep s in
        ensure_loop count (fold_left happen (hd [] sleeps) s) (tl sleeps)
  end.

(** [sleeps]: what happens during each Sleep(1). *)
Definition EnsureCallbackHasCompleted (s : PaAsioStream) (sleeps : list (list Happening))
  : PaAsioStream :=
  ensure_loop 2000 s sleeps.

Record StopEnv := {
  flushWait : Wait;                    (* the wait on writeBuffersReadyEvent *)
  drainWait : Wait;                    (* the wait on completedBuffersPlayedEvent *)
  asioStopOk : bool;                   (* ASIOStop() == ASE_OK *)
  sleeps : list (list Happening)
}.

Definition stop_hardware (s : PaAsioStream) (env : StopEnv) (result : PaError)
  : PaError * PaAsioStream :=
  let s := emit EvASIOStop s in
  let '(result, s) :=
    if asioStopOk env then (result, EnsureCallbackHasCompleted s (sleeps env))
    else (paUnanticipatedHostError, s) in
  let s := set_isStopped 1 s in
  let s := set_isActive 0 s in
  let s := if negb (streamFinishedCallbackCalled s) then streamFinished s else s in
  (result, s).

Definition StopStream (s : PaAsioStream) (env : StopEnv) : PaError * PaAsioStream :=
  let L := layout s in
  let '(result, s) :=
    if negb (isActive s =? 0) then
      let '(result, s) :=
        match blockingState s with
        | Some b =>
            if negb (outputChannelCount L =? 0) then
              let b := set_writeBuffersRequested (bufferSize (writeRingBuffer b)) b in
              let b := set_writeBuffersRequestedFlag true b in
              let b := set_stopFlag true b in
              let s := set_blockingState (Some b) s in
              let timeout :=
                wrap32 (2 * bufferSize (writeRingBuffer b) * 1000 / sampleRate L) in
              let '(waitResult, s) :=
                WaitForSingleObject
                  (read_blocking writeBuffersReadyEvent false)
                  (on_blocking (set_writeBuffersReadyEvent false))
                  timeout s (flushWait env) in
              match waitResult with
              | WAIT_FAILED => (paUnanticipatedHostError, s)
              | WAIT_TIMEOUT => (paTimedOut, s)
              | WAIT_OBJECT_0 => (paNoError, s)
              end
            else (paNoError, s)
        | None => (paNoError, s)
        end in
      let s := set_stopProcessing true s in
      let '(_, s) :=
        WaitForSingleObject completedBuffersPlayedEvent (fun s => s)
          (wrap32 (outputLatencyMs L * 4)) s (drainWait env) in
      (result, s)
    else (paNoError, s) in
  stop_hardware s env result.

Definition AbortStream (s : PaAsioStream) (env : StopEnv) : PaError * PaAsioStream :=
  let s := set_zeroOutput true s in
  stop_hardware s env paNoError.

Definition IsStreamStopped (s : PaAsioStream) : Z := isStopped s.

Definition IsStreamActive (s : PaAsioStream) : Z := isActive s.

(** *** ReadStream and WriteStream *)

(** What a blocking call meets: its waits in order, and the buffer
    processor copying between the caller's buffer and the ring buffer
    regions it was given: from the sizes of the two regions and the frames
    asked for, the frames copied. *)
Record IoEnv := {
  waits : list Wait;
  copy : Z -> Z -> Z -> Z
}.

Definition next_waits (env : IoEnv) : IoEnv :=
  {| waits := tl (waits env); copy := copy env |}.

(** [(DWORD)( 8 * lFramesPerBlock * 1000 / sampleRate )] *)
Definition io_timeout (L : Layout) : Z :=
  wrap32 (wrap32 (8 * framesPerUserBuffer L * 1000) / sampleRate L).

(** The wait both calls make; [None] for a wait that was satisfied,
    otherwise the error the call returns with. *)
Definition io_wait (signalled : PaAsioStreamBlockingState -> bool)
    (taken : PaAsioStreamBlockingState -> PaAsioStreamBlockingState)
    (timeout : Z) (s : PaAsioStream) (w : Wait) : option PaError * PaAsioStream :=
  let '(waitResult, s) :=
    WaitForSingleObject (read_blocking signalled false) (on_blocking taken) timeout s w in
  match waitResult with
  | WAIT_FAILED => (Some paUnanticipatedHostError, s)
  | WAIT_TIMEOUT =>
      if read_blocking stopFlag false s then (Some paStreamIsStopped, s)
      else (Some paTimedOut, s)
  | WAIT_OBJECT_0 => (None, s)
  end.

(** The do-while loop of ReadStream; [read] collects the frames handed to
    the caller. [None] when the fuel runs out. *)
Fixpoint read_loop (fuel : nat) (s : PaAsioStream) (env : IoEnv) (timeout : Z)
    (lFramesPerBlock lFramesRemaining : Z) (read : list (list Z))
  : option (PaError * list (list Z) * PaAsioStream) :=
  match fuel with
  | O => None
  | S fuel =>
      let lFramesPerBlock :=
        if lFramesPerBlock <? lFramesRemaining then lFramesPerBlock else lFramesRemaining in
      let short :=
        read_blocking
          (fun b => PaUtil_GetRingBufferReadAvailable (readRingBuffer b)
                    <? to_long lFramesPerBlock) false s in
      let '(error, s, env) :=
        if short then
          let s := on_blocking (fun b => set_readFramesRequestedFlag true
                                           (set_readFramesRequested lFramesPerBlock b)) s in
          let '(error, s) :=
            io_wait readFramesReadyEvent (set_readFramesReadyEvent false)
                    timeout s (hd no_wait (waits env)) in
          (error, s, next_waits env)
        else (None, s, env) in
      match error with
      | Some result => Some (result, read, s)
      | None =>
          let pRb := read_blocking readRingBuffer
                       {| bufferSize := 0; writeIndex := 0; readIndex := 0; buffer := [] |} s in
          let '(size1st, size2nd) :=
            PaUtil_GetRingBufferReadRegions pRb (to_long lFramesPerBlock) in
          let lFramesCopied := copy env size1st size2nd lFramesPerBlock in
          let read := read ++ frames_from pRb (readIndex pRb) (Z.to_nat lFramesCopied) in
          let s := on_blocking
                     (fun b => set_readRingBuffer
                                 (PaUtil_AdvanceRingBufferReadIndex (readRingBuffer b)
                                    (to_long lFramesCopied)) b) s in
          let lFramesRemaining := wrap32 (lFramesRemaining - lFramesCopied) in
          if negb (lFramesRemaining =? 0)
          then read_loop fuel s env timeout lFramesPerBlock lFramesRemaining read
          else
            if read_blocking inputOverflowFlag false s
            then Some (paInputOverflowed, read,
                       on_blocking (set_inputOverflowFlag false) s)
            else Some (paNoError, read, s)
      end
  end.

Definition ReadStream (fuel : nat) (s : PaAsioStream) (frames : Z) (env : IoEnv)
  : option (PaError * list (list Z) * PaAsioStream) :=
  let timeout := io_timeout (layout s) in
  if read_blocking stopFlag false s || (isActive s =? 0) then
    Some (paStreamIsStopped, [], s)
  else if negb (inputChannelCount (layout s) =? 0) then
    read_loop fuel s env timeout (framesPerUserBuffer (layout s)) frames []
  else Some (paCanNotReadFromAnOutputOnlyStream, [], s).

(** The do-while loop of WriteStream; [buffer] is what is left of the
    caller's frames. *)
Fixpoint write_loop (fuel : nat) (s : PaAsioStream) (env : IoEnv) (timeout : Z)
    (lFramesPerBlock lFramesRemaining : Z) (buffer : list (list Z))
  : option (PaError * PaAsioStream) :=
  match fuel with
  | O => None
  | S fuel =>
      let lFramesPerBlock :=
        if lFramesPerBlock <? lFramesRemaining then lFramesPerBlock else lFramesRemaining in
      let short :=
        read_blocking
          (fun b => PaUtil_GetRingBufferWriteAvailable (writeRingBuffer b)
                    <? to_long lFramesPerBlock) false s in
      let '(error, s, env) :=
        if short then
          let s := on_blocking (fun b => set_writeBuffersRequestedFlag true
                                           (set_writeBuffersRequested lFramesPerBlock b)) s in
          let '(error, s) :=
            io_wait writeBuffersReadyEvent (set_writeBuffersReadyEvent false)
                    timeout s (hd no_wait (waits env)) in
          (error, s, next_waits env)
        else (None, s, env) in
      match error with
      | Some result => Some (result, s)
      | None =>
          let pRb := read_blocking writeRingBuffer
                       {| bufferSize := 0; writeIndex := 0; readIndex := 0; buffer := [] |} s in
          let '(size1st, size2nd) :=
            PaUtil_GetRingBufferWriteRegions pRb (to_long lFramesPerBlock) in
          let lFramesCopied := copy env size1st size2nd lFramesPerBlock in
          let s := on_blocking
                     (fun b =>
                        let rb := writeRingBuffer b in
                        set_writeRingBuffer
                          (PaUtil_AdvanceRingBufferWriteIndex
                             {| bufferSize := bufferSize rb; writeIndex := writeIndex rb;
                                readIndex := readIndex rb;
                                buffer := store_frames rb (Ring.buffer rb) (writeIndex rb)
                                            (firstn (Z.to_nat lFramesCopied) buffer) |}
                             (to_long lFramesCopied)) b) s in
          let buffer := skipn (Z.to_nat lFramesCopied) buffer in
          let lFramesRemaining := wrap32 (lFramesRemaining - lFramesCopied) in
          if negb (lFramesRemaining =? 0)
          then write_loop fuel s env timeout lFramesPerBlock lFramesRemaining buffer
          else
            if read_blocking outputUnderflowFlag false s
            then Some (paOutputUnderflowed,
                       on_blocking (set_outputUnderflowFlag false) s)
            else Some (paNoError, s)
      end
  end.

Definition WriteStream (fuel : nat) (s : PaAsioStream) (buffer : list (list Z))
    (frames : Z) (env : IoEnv) : option (PaError * PaAsioStream) :=
  let timeout := io_timeout (layout s) in
  if read_blocking stopFlag false s || (isActive s =? 0) then
    Some (paStreamIsStopped, s)
  else if negb (outputChannelCount (layout s) =? 0) then
    write_loop fuel s env timeout (framesPerUserBuffer (layout s)) frames buffer
  else Some (paCanNotWriteToAnInputOnlyStream, s).

Definition GetStreamReadAvailable (s : PaAsioStream) : Z :=
  read_blocking (fun b => PaUtil_GetRingBufferReadAvailable (readRingBuffer b)) 0 s.

Definition GetStreamWriteAvailable (s : PaAsioStream) : Z :=
  read_blocking (fun b => PaUtil_GetRingBufferWriteAvailable (writeRingBuffer b)) 0 s.

(** *** OpenStream and CloseStream *)

(** The host API representation, the global [theAsioStream] and the state
    of the driver behind the ASIO calls. *)
Record World := {
  openAsioDeviceIndex : Z;
  openAsioDriverInfo : PaAsioDriverInfo;
  deviceInfos : list (Z * Z);          (* maxInputChannels, maxOutputChannels *)
  theAsioStream : option PaAsioStream;
  driverLoaded : bool;                 (* between LoadAsioDriver and UnloadAsioDriver *)
  buffersCreated : bool                (* between ASIOCreateBuffers and ASIODisposeBuffers *)
}.

Definition paAsioUseChannelSelectors : Z := 1.

Record PaAsioStreamInfo := {
  sizeIsRight : bool;                  (* size == sizeof( PaAsioStreamInfo ) *)
  version : Z;
  flags : Z;
  channelSelectors : option (list Z)
}.

Record PaStreamParameters := {
  device : Z;
  channelCount : Z;
  suggestedLatencyFrames : Z;          (* (unsigned long)((suggestedLatency * sampleRate)+0.5f) *)
  hostApiSpecificStreamInfo : option PaAsioStreamInfo
}.

(** The outcomes of the calls OpenStream makes outside the file. *)
Record OpenEnv := {
  loadDriver : PaError;                (* LoadAsioDriver *)
  driver : PaAsioDriverInfo;           (* what it leaves in openAsioDriverInfo *)
  setSampleRate : PaError;             (* ValidateAndSetSampleRate *)
  allocStream : bool;
  createCompletedEvent : bool;
  allocBufferInfos : bool;
  allocChannelMap : bool;
  createBuffers : Z -> bool;           (* ASIOCreateBuffers with this many frames is ASE_OK *)
  hwBytes : nat -> list Z * list Z;    (* the two halves the driver creates for an info *)
  allocChannelInfos : bool;
  channelInfo : bool -> Z -> option ASIOSampleType;   (* ASIOGetChannelInfo *)
  allocBufferPtrs : bool;
  latencies : Z * Z;                   (* ASIOGetLatencies *)
  bpOutputLatencyMs : Z -> Z;          (* output latency in ms, from the frames of the driver *)
  initCallbackProcessor : PaError;
  allocBlockingState : bool;
  initBlockingProcessor : PaError;
  createReadEvent : bool;
  allocReadBuffers : bool;
  createWriteEvent : bool;
  allocWriteBuffers : bool
}.

(** Control inside OpenStream. *)
Inductive Flow (A : Type) :=
| Go (a : A)
| Return (result : PaError)            (* return before the driver is touched *)
| ReturnLoaded (result : PaError)      (* return that leaves the driver loaded *)
| GotoError (result : PaError)         (* goto error *)
| Undefined                            (* an access outside an array *)
| AssertFails.
Arguments Go {A} a.
Arguments Return {A} result.
Arguments ReturnLoaded {A} result.
Arguments GotoError {A} result.
Arguments Undefined {A}.
Arguments AssertFails {A}.

Definition bind {A B} (m : Flow A) (k : A -> Flow B) : Flow B :=
  match m with
  | Go a => k a
  | Return r => Return r
  | ReturnLoaded r => ReturnLoaded r
  | GotoError r => GotoError r
  | Undefined => Undefined
  | AssertFails => AssertFails
  end.

Notation "x <- m ;; k" := (bind m (fun x => k))
  (at level 61, m at next level, right associativity).
Notation "' p <- m ;; k" := (bind m (fun x => let p := x in k))
  (at level 61, p pattern, m at next level, right associativity).

Definition check (ok : bool) (otherwise : Flow unit) : Flow unit :=
  if ok then Go tt else otherwise.

Definition in_array {A} (x : option A) : Flow A :=
  match x with Some a => Go a | None => Undefined end.

(** [a[i]] for a C index. *)
Definition at_index {A} (a : list A) (i : Z) : option A :=
  if i <? 0 then None else nth_error a (Z.to_nat i).

Definition ValidateAsioSpecificStreamInfo (streamParameters : PaStreamParameters)
    (deviceChannelCount : Z) : PaError * option (list Z) :=
  match hostApiSpecificStreamInfo streamParameters with
  | None => (paNoError, None)
  | Some streamInfo =>
      if negb (sizeIsRight streamInfo) || negb (version streamInfo =? 1) then
        (paIncompatibleHostApiSpecificStreamInfo, None)
      else if negb (Z.land (flags streamInfo) paAsioUseChannelSelectors =? 0) then
        match channelSelectors streamInfo with
        | None => (paIncompatibleHostApiSpecificStreamInfo, None)
        | Some selectors =>
            if forallb (fun i => (0 <=? nth i selectors 0)
                                 && (nth i selectors 0 <? deviceChannelCount))
                       (seq 0 (Z.to_nat (channelCount streamParameters)))
            then (paNoError, Some selectors)
            else (paInvalidChannelCount, Some selectors)
        end
      else (paNoError, None)
  end.

(** What OpenStream takes from one direction's parameters. *)
Record Direction := {
  dirChannelCount : Z;
  dirLatencyFrames : Z;
  dirSelectors : option (list Z)
}.

Definition no_direction : Direction :=
  {| dirChannelCount := 0; dirLatencyFrames := 0; dirSelectors := None |}.

Definition read_parameters (w : World) (isInputDirection : bool)
    (parameters : option PaStreamParameters) : Flow (option Z * Direction) :=
  match parameters with
  | None => Go (None, no_direction)
  | Some p =>
      _ <- check (negb (device p =? paUseHostApiSpecificDeviceSpecification))
                 (Return paInvalidDevice) ;;
      deviceInfo <- in_array (at_index (deviceInfos w) (device p)) ;;
      let '(result, selectors) :=
        ValidateAsioSpecificStreamInfo p
          (if isInputDirection then fst deviceInfo else snd deviceInfo) in
      _ <- check (result =? paNoError) (Return result) ;;
      Go (Some (device p),
          {| dirChannelCount := channelCount p;
             dirLatencyFrames := suggestedLatencyFrames p;
             dirSelectors := selectors |})
  end.

(** Several stores into a table, in order. *)
Fixpoint store_all {A} (table : list A) (stores : list (nat * A)) : option (list A) :=
  match stores with
  | [] => Some table
  | (k, v) :: stores =>
      match store table k v with
      | Some table => store_all table stores
      | None => None
      end
  end.

(** The channel layout: [outputChannelOffset] and
    [totalAsioOutputChannels]. *)
Definition output_layout (outputChannelCount : Z) (driverInfo : PaAsioDriverInfo) : Z * Z :=
  let outputChannelOffset := 2 in
  let totalAsioOutputChannels := outputChannelCount + outputChannelOffset in
  if totalAsioOutputChannels >? Negotiate.outputChannelCount driverInfo
  then (0, outputChannelCount)
  else (outputChannelOffset, totalAsioOutputChannels).

(** The buffer infos handed to ASIOCreateBuffers, with the memory it
    creates for them. *)
Definition make_buffer_infos (inputChannelCount totalAsioOutputChannels : Z)
    (inputChannelSelectors : option (list Z)) (hw : nat -> list Z * list Z)
  : list ASIOBufferInfo :=
  map (fun i => {| isInput := true;
                   channelNum := match inputChannelSelectors with
                                 | Some selectors => nth i selectors 0
                                 | None => Z.of_nat i
                                 end;
                   buffers := hw i |})
      (seq 0 (Z.to_nat inputChannelCount))
  ++ map (fun i => {| isInput := false;
                      channelNum := Z.of_nat i;
                      buffers := hw (Z.to_nat inputChannelCount + i)%nat |})
         (seq 0 (Z.to_nat totalAsioOutputChannels)).

Fixpoint get_channel_infos (env : OpenEnv) (infos : list ASIOBufferInfo)
  : option (list ASIOChannelInfo) :=
  match infos with
  | [] => Some []
  | b :: infos =>
      match channelInfo env (isInput b) (channelNum b), get_channel_infos env infos with
      | Some t, Some rest =>
          Some ({| channel := channelNum b; channelIsInput := isInput b; type := t |} :: rest)
      | _, _ => None
      end
  end.

(** bufferPtrs carved up for inputBufferPtrs and outputBufferPtrs, every
    store checked against the allocation. *)
Definition carve_buffer_ptrs (inputChannelCount outputChannelCount
    outputChannelOffset totalAsioOutputChannels : Z)
  : option (list (option HwPtr) * (option nat * option nat) * (option nat * option nat)) :=
  let nIn := Z.to_nat inputChannelCount in
  let nOut := Z.to_nat outputChannelCount in
  let bufferPtrs : list (option HwPtr) :=
    repeat None (Z.to_nat (2 * (inputChannelCount + totalAsioOutputChannels))) in
  let inputs :=
    if inputChannelCount >? 0 then
      flat_map (fun i => [ ((0 + i)%nat, Some {| info := i; half := 0 |});
                           ((nIn + i)%nat, Some {| info := i; half := 1 |}) ])
               (seq 0 nIn)
    else [] in
  let out0 := Z.to_nat (inputChannelCount + outputChannelOffset) in
  let out1 := Z.to_nat (inputChannelCount * 2 + outputChannelCount
                        + totalAsioOutputChannels) in
  let outputs :=
    if outputChannelCount >? 0 then
      flat_map (fun i =>
                  let asioBufferIndex :=
                    Z.to_nat (inputChannelCount + outputChannelOffset + Z.of_nat i) in
                  [ ((out0 + i)%nat, Some {| info := asioBufferIndex; half := 0 |});
                    ((out1 + i)%nat, Some {| info := asioBufferIndex; half := 1 |}) ])
               (seq 0 nOut)
    else [] in
  match store_all bufferPtrs (inputs ++ outputs) with
  | Some bufferPtrs =>
      Some (bufferPtrs,
            (if inputChannelCount >? 0 then (Some O, Some nIn) else (None, None)),
            (if outputChannelCount >? 0 then (Some out0, Some out1) else (None, None)))
  | None => None
  end.

(** [lBlockingBufferSizePow2 = 1; while( size > (pow2 <<= 1) );] *)
Fixpoint next_pow2_above (fuel : nat) (lBlockingBufferSize pow2 : Z) : option Z :=
  match fuel with
  | O => None
  | S fuel =>
      let pow2 := to_long (Z.shiftl pow2 1) in
      if lBlockingBufferSize >? pow2
      then next_pow2_above fuel lBlockingBufferSize pow2
      else Some pow2
  end.

(** The frames a blocking ring buffer holds before and after the rounding
    to a power of two. *)
Definition blocking_buffer_size (suggestedLatencyFrames asioLatencyFrames
    framesPerBuffer : Z) : option (Z * Z) :=
  let size := to_long (wrap32 (suggestedLatencyFrames - asioLatencyFrames)) in
  let size := if size >? 0 then size else 1 in
  let size := to_long (wrap32 (size + framesPerBuffer - 1) / framesPerBuffer) in
  let size := to_long (wrap32 ((size + 1) * framesPerBuffer)) in
  match next_pow2_above 32 size 1 with
  | Some pow2 => Some (size, pow2)
  | None => None
  end.

Definition PaUtil_InitializeRingBuffer (channels elementCount : Z) : PaUtilRingBuffer :=
  {| bufferSize := elementCount; writeIndex := 0; readIndex := 0;
     buffer := repeat (repeat 0 (Z.to_nat channels)) (Z.to_nat elementCount) |}.

Definition open_blocking (env : OpenEnv) (input output : Direction)
    (asioInputLatencyFrames asioOutputLatencyFrames framesPerBuffer : Z)
  : Flow PaAsioStreamBlockingState :=
  _ <- check (allocBlockingState env) (GotoError paInsufficientMemory) ;;
  _ <- check (initCallbackProcessor env =? paNoError) (GotoError (initCallbackProcessor env)) ;;
  _ <- check (initBlockingProcessor env =? paNoError) (GotoError (initBlockingProcessor env)) ;;
  readRing <-
    (if negb (dirChannelCount input =? 0) then
       _ <- check (createReadEvent env) (GotoError paUnanticipatedHostError) ;;
       _ <- check (allocReadBuffers env) (GotoError paInsufficientMemory) ;;
       sizes <- in_array (blocking_buffer_size (dirLatencyFrames input)
                            asioInputLatencyFrames framesPerBuffer) ;;
       Go (PaUtil_InitializeRingBuffer (dirChannelCount input) (snd sizes))
     else Go (PaUtil_InitializeRingBuffer 0 0)) ;;
  writeRing <-
    (if negb (dirChannelCount output =? 0) then
       _ <- check (createWriteEvent env) (GotoError paUnanticipatedHostError) ;;
       _ <- check (allocWriteBuffers env) (GotoError paInsufficientMemory) ;;
       sizes <- in_array (blocking_buffer_size (dirLatencyFrames output)
                            asioOutputLatencyFrames framesPerBuffer) ;;
       Go (fst sizes - framesPerBuffer,
           PaUtil_InitializeRingBuffer (dirChannelCount output) (snd sizes))
     else Go (0, PaUtil_InitializeRingBuffer 0 0)) ;;
  Go {| stopFlag := true;
        writeBuffersRequested := 0; readFramesRequested := 0;
        writeBuffersRequestedFlag := false; readFramesRequestedFlag := false;
        writeBuffersReadyEvent := false; readFramesReadyEvent := false;
        writeRingBuffer := snd writeRing; readRingBuffer := readRing;
        writeRingBufferInitialFrames := fst writeRing;
        outputUnderflowFlag := false; inputOverflowFlag := false |}.

(** OpenStream from LoadAsioDriver on. *)
Definition open_stream (native : NativeOrder) (input output : Direction)
    (sampleRate framesPerBuffer streamFlags : Z) (streamCallback : bool) (env : OpenEnv)
  : Flow PaAsioStream :=
  let usingBlockingIo := negb streamCallback in
  let driverInfo := driver env in
  let inputChannelCount := dirChannelCount input in
  let outputChannelCount := dirChannelCount output in
  _ <- check (loadDriver env =? paNoError) (GotoError (loadDriver env)) ;;
  _ <- check (negb ((inputChannelCount >? 0)
                    && (inputChannelCount >? Negotiate.inputChannelCount driverInfo)))
             (GotoError paInvalidChannelCount) ;;
  _ <- check (negb (negb (outputChannelCount =? 0)
                    && (outputChannelCount >? Negotiate.outputChannelCount driverInfo)))
             (GotoError paInvalidChannelCount) ;;
  _ <- check (setSampleRate env =? paNoError) (GotoError (setSampleRate env)) ;;
  _ <- check (Z.land streamFlags paPlatformSpecificFlags =? 0) (ReturnLoaded paInvalidFlag) ;;
  _ <- check (allocStream env) (GotoError paInsufficientMemory) ;;
  _ <- check (createCompletedEvent env) (GotoError paUnanticipatedHostError) ;;
  let '(outputChannelOffset, totalAsioOutputChannels) :=
    output_layout outputChannelCount driverInfo in
  _ <- check (allocBufferInfos env) (GotoError paInsufficientMemory) ;;
  _ <- check (negb ((outputChannelCount >? 0) && negb (allocChannelMap env)))
             (GotoError paInsufficientMemory) ;;
  let framesPerHostBuffer :=
    if usingBlockingIo then SelectHostBufferSize 0 framesPerBuffer driverInfo
    else ulong (bufferPreferredSize driverInfo) in
  _ <- check (createBuffers env framesPerHostBuffer) (GotoError paUnanticipatedHostError) ;;
  let asioBufferInfos :=
    make_buffer_infos inputChannelCount totalAsioOutputChannels
                      (dirSelectors input) (hwBytes env) in
  _ <- check (allocChannelInfos env) (GotoError paInsufficientMemory) ;;
  asioChannelInfos <-
    match get_channel_infos env asioBufferInfos with
    | Some infos => Go infos
    | None => GotoError paUnanticipatedHostError
    end ;;
  _ <- check (allocBufferPtrs env) (GotoError paInsufficientMemory) ;;
  '(bufferPtrs, inputBufferPtrs, outputBufferPtrs) <-
    in_array (carve_buffer_ptrs inputChannelCount outputChannelCount
                outputChannelOffset totalAsioOutputChannels) ;;
  let outputChannelMap :=
    if outputChannelCount >? 0
    then map (fun i => outputChannelOffset + Z.of_nat i) (seq 0 (Z.to_nat outputChannelCount))
    else [] in
  inputSelected <-
    (if inputChannelCount >? 0 then
       ci <- in_array (nth_error asioChannelInfos 0) ;;
       Go (SelectAsioToPaConverter native (type ci))
     else Go (None, 0)) ;;
  outputSelected <-
    (if outputChannelCount >? 0 then
       ci <- in_array (at_index asioChannelInfos (inputChannelCount + outputChannelOffset)) ;;
       Go (SelectPaToAsioConverter native (type ci))
     else Go (None, 0)) ;;
  let '(asioInputLatencyFrames, asioOutputLatencyFrames) := latencies env in
  let framesPerBuffer :=
    if usingBlockingIo && (framesPerBuffer =? 0) then framesPerHostBuffer
    else framesPerBuffer in
  blocking <-
    (if usingBlockingIo then
       b <- open_blocking env input output asioInputLatencyFrames
              asioOutputLatencyFrames framesPerBuffer ;;
       Go (Some b)
     else
       _ <- check (initCallbackProcessor env =? paNoError)
                  (GotoError (initCallbackProcessor env)) ;;
       Go None) ;;
  Go {| layout :=
          {| framesPerHostCallback := framesPerHostBuffer;
             framesPerUserBuffer := framesPerBuffer;
             sampleRate := sampleRate;
             outputLatencyMs := bpOutputLatencyMs env asioOutputLatencyFrames;
             inputChannelCount := inputChannelCount;
             outputChannelCount := outputChannelCount;
             postOutput := Negotiate.postOutput driverInfo;
             outputChannelMap := outputChannelMap;
             outputChannelOffset := outputChannelOffset;
             asioChannelInfos := asioChannelInfos;
             bufferPtrs := bufferPtrs;
             inputBufferPtrs := inputBufferPtrs;
             outputBufferPtrs := outputBufferPtrs;
             inputBufferConverter := fst inputSelected;
             inputShift := snd inputSelected;
             outputBufferConverter := fst outputSelected;
             outputShift := snd outputSelected;
             streamFinishedCallback := false |};
        asioBufferInfos := asioBufferInfos;
        stopProcessing := false;
        stopPlayoutCount := 0;
        completedBuffersPlayedEvent := false;
        streamFinishedCallbackCalled := false;
        isStopped := 1;
        isActive := 0;
        zeroOutput := false;
        reenterCount := 0;
        reenterError := 0;
        callbackFlags := 0;
        blockingState := blocking;
        log := [] |}.

(** What a call of OpenStream comes to. *)
Inductive OpenOutcome :=
| Opened (result : PaError) (w : World)   (* it returned; the stream, if any, is theAsioStream *)
| OpenUndefined
| OpenAssertFails.

Definition with_driver (w : World) (driverInfo : PaAsioDriverInfo) (loaded : bool) : World :=
  {| openAsioDeviceIndex := openAsioDeviceIndex w;
     openAsioDriverInfo := driverInfo;
     deviceInfos := deviceInfos w;
     theAsioStream := theAsioStream w;
     driverLoaded := loaded;
     buffersCreated := buffersCreated w |}.

Definition OpenStream (native : NativeOrder) (w : World)
    (inputParameters outputParameters : option PaStreamParameters)
    (sampleRate framesPerBuffer streamFlags : Z) (streamCallback : bool) (env : OpenEnv)
  : OpenOutcome :=
  if negb (openAsioDeviceIndex w =? paNoDevice) then Opened paDeviceUnavailable w
  else
    match theAsioStream w with
    | Some _ => OpenAssertFails
    | None =>
        let parameters :=
          _ <- check (match inputParameters, outputParameters with
                      | Some i, Some o => device i =? device o
                      | _, _ => true
                      end) (Return paBadIODeviceCombination) ;;
          '(inputDevice, input) <- read_parameters w true inputParameters ;;
          '(outputDevice, output) <- read_parameters w false outputParameters ;;
          asioDeviceIndex <-
            in_array (match outputDevice with
                      | Some d => Some d
                      | None => inputDevice
                      end) ;;
          Go (asioDeviceIndex, input, output) in
        match parameters with
        | Go (asioDeviceIndex, input, output) =>
            match open_stream native input output sampleRate framesPerBuffer
                              streamFlags streamCallback env with
            | Go stream =>
                Opened paNoError
                  {| openAsioDeviceIndex := asioDeviceIndex;
                     openAsioDriverInfo := driver env;
                     deviceInfos := deviceInfos w;
                     theAsioStream := Some stream;
                     driverLoaded := true;
                     buffersCreated := true |}
            | GotoError result => Opened result (with_driver w (driver env) false)
            | ReturnLoaded result => Opened result (with_driver w (driver env) true)
            | Return result => Opened result w
            | Undefined => OpenUndefined
            | AssertFails => OpenAssertFails
            end
        | Return result | ReturnLoaded result | GotoError result => Opened result w
        | Undefined => OpenUndefined
        | AssertFails => OpenAssertFails
        end
    end.

(** CloseStream( theAsioStream ). *)
Definition CloseStream (w : World) : PaError * World :=
  (paNoError,
   {| openAsioDeviceIndex := paNoDevice;
      openAsioDriverInfo := openAsioDriverInfo w;
      deviceInfos := deviceInfos w;
      theAsioStream := None;
      driverLoaded := false;
      buffersCreated := false |}).

End Stream.

(** ** What the properties observe of a stream *)

Module Observe.
Import Convert Negotiate Ring Stream.

(** The calls of the stream finished callback in a log. *)
Definition finished_calls (events : list Event) : nat :=
  length (filter (fun e => match e with EvStreamFinished => true | _ => false end)
                 events).

(** The calls of the buffer processor, each with the status flags it was
    given. *)
Definition processing_calls (events : list Event) : list Z :=
  flat_map (fun e => match e with EvBufferProcessing flags => [flags] | _ => [] end)
           events.

(** The buffer infos of the dummy channels: the first
    [outputChannelOffset] after those of the inputs. *)
Definition is_dummy (L : Layout) (asioBufferIndex : nat) : bool :=
  (Z.to_nat (inputChannelCount L) <=? asioBufferIndex)%nat
  && (asioBufferIndex <? Z.to_nat (inputChannelCount L)
                         + Z.to_nat (outputChannelOffset L))%nat.

(** A buffer info after the memset of ZeroOutputBuffers on its [index]
    half. *)
Definition zero_half (L : Layout) (index : Z) (asioBufferIndex : nat)
    (b : ASIOBufferInfo) : ASIOBufferInfo :=
  let bytesPerSample :=
    match nth_error (asioChannelInfos L) asioBufferIndex with
    | Some ci => BytesPerAsioSample (type ci)
    | None => 0
    end in
  set_buffer_half index
    (memset0 (buffer_half b index) (wrap32 (framesPerHostCallback L * bytesPerSample))) b.

(** The bytes the driver plays for output channel [i] from the [index]
    half: those behind [outputBufferPtrs[index][i]]. *)
Definition output_bytes (s : PaAsioStream) (index : Z) (i : nat) : option (list Z) :=
  match buffer_ptr (layout s) (outputBufferPtrs (layout s)) index i with
  | Some p =>
      match nth_error (asioBufferInfos s) (info p) with
      | Some b => Some (buffer_half b (half p))
      | None => None
      end
  | None => None
  end.

(** Every output channel of the stream plays zeros from the [index]
    half. *)
Definition outputs_silent (s : PaAsioStream) (index : Z) : bool :=
  forallb (fun i => match output_bytes s index i with
                    | Some bytes => forallb (Z.eqb 0) bytes
                    | None => false
                    end)
          (seq 0 (Z.to_nat (outputChannelCount (layout s)))).

(** The flags a missed buffer leaves for the next call of the buffer
    processor. *)
Definition missed_flags (L : Layout) : Z :=
  Z.lor (if inputChannelCount L >? 0 then paInputOverflow else 0)
        (if outputChannelCount L >? 0 then paOutputUnderflow else 0).

(** The fields that neither the buffers, the blocking state nor the log
    are. *)
Definition control (s : PaAsioStream) :=
  (layout s, stopProcessing s, stopPlayoutCount s, completedBuffersPlayedEvent s,
   streamFinishedCallbackCalled s, isStopped s, isActive s, zeroOutput s,
   reenterCount s, reenterError s, callbackFlags s).

(** Several events in a row. *)
Definition emits (events : list Event) (s : PaAsioStream) : PaAsioStream :=
  fold_left (fun s e => emit e s) events s.

(** Everything of a stream but the reentrancy counters and the status
    flags: what processing a buffer reads and leaves. *)
Definition audio (s : PaAsioStream) :=
  (layout s, stopProcessing s, stopPlayoutCount s, completedBuffersPlayedEvent s,
   streamFinishedCallbackCalled s, isStopped s, isActive s, zeroOutput s,
   asioBufferInfos s, blockingState s, log s).

(** A flow that does not go on carries an error code, not paNoError. *)
Definition failing {A} (m : Flow A) : Prop :=
  match m with
  | Return result | ReturnLoaded result | GotoError result => result <> paNoError
  | _ => True
  end.

End Observe.

(** ** A stream to run the model on

    An output stream of two channels on a driver with four output
    channels, two frames of 32 bit samples to the buffer. *)

Module Scenario.
Import Convert Negotiate Ring Stream.

(** The limits of the end-to-end scenario of the specification. *)
Definition scenario_driver : PaAsioDriverInfo :=
  {| Negotiate.inputChannelCount := 2; Negotiate.outputChannelCount := 4;
     bufferMinSize := 64; bufferMaxSize := 8192;
     bufferPreferredSize := 256; bufferGranularity := -1;
     Negotiate.postOutput := true |}.

Definition small_driver : PaAsioDriverInfo :=
  {| Negotiate.inputChannelCount := 2; Negotiate.outputChannelCount := 4;
     bufferMinSize := 2; bufferMaxSize := 8;
     bufferPreferredSize := 2; bufferGranularity := -1;
     Negotiate.postOutput := true |}.

Definition stereo_driver : PaAsioDriverInfo :=
  {| Negotiate.inputChannelCount := 2; Negotiate.outputChannelCount := 2;
     bufferMinSize := 2; bufferMaxSize := 8;
     bufferPreferredSize := 2; bufferGranularity := -1;
     Negotiate.postOutput := true |}.

(** Every call outside the file succeeds; the driver hands out buffers
    that still hold the bytes 1 to 8. *)
Definition friendly (driverInfo : PaAsioDriverInfo) : OpenEnv :=
  {| loadDriver := paNoError;
     driver := driverInfo;
     setSampleRate := paNoError;
     allocStream := true;
     createCompletedEvent := true;
     allocBufferInfos := true;
     allocChannelMap := true;
     createBuffers := fun _ => true;
     hwBytes := fun _ => ([1; 2; 3; 4; 5; 6; 7; 8], [1; 2; 3; 4; 5; 6; 7; 8]);
     allocChannelInfos := true;
     channelInfo := fun _ _ => Some ASIOSTInt32LSB;
     allocBufferPtrs := true;
     latencies := (4, 4);
     bpOutputLatencyMs := fun _ => 1;
     initCallbackProcessor := paNoError;
     allocBlockingState := true;
     initBlockingProcessor := paNoError;
     createReadEvent := true;
     allocReadBuffers := true;
     createWriteEvent := true;
     allocWriteBuffers := true |}.

Definition closed_world : World :=
  {| openAsioDeviceIndex := paNoDevice;
     openAsioDriverInfo := small_driver;
     deviceInfos := [(2, 4)];
     theAsioStream := None;
     driverLoaded := false;
     buffersCreated := false |}.

Definition outputs (channels : Z) : PaStreamParameters :=
  {| device := 0; channelCount := channels; suggestedLatencyFrames := 0;
     hostApiSpecificStreamInfo := None |}.

(** Pa_OpenStream for two output channels and a user callback. *)
Definition open_two_outputs : OpenOutcome :=
  OpenStream PA_LSB_IS_NATIVE_ closed_world None (Some (outputs 2))
             48000 2 0 true (friendly small_driver).

Definition opened_world : World :=
  match open_two_outputs with
  | Opened _ w => w
  | _ => closed_world
  end.

Definition no_stream : PaAsioStream :=
  {| layout :=
       {| framesPerHostCallback := 0; framesPerUserBuffer := 0; sampleRate := 0;
          outputLatencyMs := 0; inputChannelCount := 0; outputChannelCount := 0;
          postOutput := false; outputChannelMap := []; outputChannelOffset := 0;
          asioChannelInfos := []; bufferPtrs := [];
          inputBufferPtrs := (None, None); outputBufferPtrs := (None, None);
          inputBufferConverter := None; inputShift := 0;
          outputBufferConverter := None; outputShift := 0;
          streamFinishedCallback := false |};
     asioBufferInfos := []; stopProcessing := false; stopPlayoutCount := 0;
     completedBuffersPlayedEvent := false; streamFinishedCallbackCalled := false;
     isStopped := 1; isActive := 0; zeroOutput := false; reenterCount := 0;
     reenterError := 0; callbackFlags := 0; blockingState := None; log := [] |}.

(** Pa_SetStreamFinishedCallback, of the layer above. *)
Definition register_finished (s : PaAsioStream) : PaAsioStream :=
  let L := layout s in
  {| layout :=
       {| framesPerHostCallback := framesPerHostCallback L;
          framesPerUserBuffer := framesPerUserBuffer L;
          sampleRate := sampleRate L;
          outputLatencyMs := outputLatencyMs L;
          inputChannelCount := inputChannelCount L;
          outputChannelCount := outputChannelCount L;
          postOutput := postOutput L;
          outputChannelMap := outputChannelMap L;
          outputChannelOffset := outputChannelOffset L;
          asioChannelInfos := asioChannelInfos L;
          bufferPtrs := bufferPtrs L;
          inputBufferPtrs := inputBufferPtrs L;
          outputBufferPtrs := outputBufferPtrs L;
          inputBufferConverter := inputBufferConverter L;
          inputShift := inputShift L;
          outputBufferConverter := outputBufferConverter L;
          outputShift := outputShift L;
          streamFinishedCallback := true |};
     asioBufferInfos := asioBufferInfos s;
     stopProcessing := stopProcessing s;
     stopPlayoutCount := stopPlayoutCount s;
     completedBuffersPlayedEvent := completedBuffersPlayedEvent s;
     streamFinishedCallbackCalled := streamFinishedCallbackCalled s;
     isStopped := isStopped s; isActive := isActive s;
     zeroOutput := zeroOutput s; reenterCount := reenterCount s;
     reenterError := reenterError s; callbackFlags := callbackFlags s;
     blockingState := blockingState s; log := log s |}.

Definition opened_stream : PaAsioStream :=
  match theAsioStream opened_world with
  | Some s => register_finished s
  | None => no_stream
  end.

Definition all_goes_well : StartEnv :=
  {| resetCompletedOk := true; resetReadOk := true; resetWriteOk := true;
     asioStartOk := true |}.

Definition started_stream : PaAsioStream := snd (StartStream opened_stream all_goes_well).

(** A buffer switch in which the user callback leaves the bytes 9 in both
    channels and returns [verdict]. *)
Definition playing (index verdict : Z) (empty : bool) : Cycle :=
  {| Stream.index := index; callbacks := [];
     endBufferProcessing := fun _ => verdict;
     written := [repeat 9 8; repeat 9 8];
     outputEmpty := empty |}.

(** A driver with five output channels. *)
Definition five_output_driver : PaAsioDriverInfo :=
  {| Negotiate.inputChannelCount := 2; Negotiate.outputChannelCount := 5;
     bufferMinSize := 2; bufferMaxSize := 8;
     bufferPreferredSize := 2; bufferGranularity := -1;
     Negotiate.postOutput := true |}.

(** A stop during which nothing arrives, so that the waits time out, and
    ASIOStop fails. *)
Definition failing_stop : StopEnv :=
  {| flushWait := no_wait; drainWait := no_wait; asioStopOk := false; sleeps := [] |}.

End Scenario.

(** ** A blocking stream to run the model on *)

Module BlockingScenario.
Import Convert Negotiate Ring Stream Scenario.

Definition inputs (channels : Z) : PaStreamParameters :=
  {| device := 0; channelCount := channels; suggestedLatencyFrames := 0;
     hostApiSpecificStreamInfo := None |}.

(** Pa_OpenStream for two input and two output channels and no callback,
    at 1000 frames a second and two frames to the block. *)
Definition open_blocking_duplex : OpenOutcome :=
  OpenStream PA_LSB_IS_NATIVE_ closed_world (Some (inputs 2)) (Some (outputs 2))
             1000 2 0 false (friendly small_driver).

Definition blocking_stream : PaAsioStream :=
  match open_blocking_duplex with
  | Opened _ w => match theAsioStream w with Some s => s | None => no_stream end
  | _ => no_stream
  end.

Definition started_blocking_stream : PaAsioStream :=
  snd (StartStream blocking_stream all_goes_well).

(** Nothing happens during the waits, and the buffer processor copies all
    the frames it is asked for. *)
Definition nothing_happens : IoEnv := {| waits := []; copy := fun _ _ frames => frames |}.

(** The block the loops of ReadStream and WriteStream move next. *)
Definition next_block (lFramesPerBlock lFramesRemaining : Z) : Z :=
  if lFramesPerBlock <? lFramesRemaining then lFramesPerBlock else lFramesRemaining.

(** The stream as ReadStream leaves it before it waits for [frames]
    frames, and WriteStream before it waits for room for them. *)
Definition requesting_read (frames : Z) (b : PaAsioStreamBlockingState) (s : PaAsioStream)
  : PaAsioStream :=
  set_blockingState
    (Some (set_readFramesRequestedFlag true (set_readFramesRequested frames b))) s.

Definition requesting_write (frames : Z) (b : PaAsioStreamBlockingState) (s : PaAsioStream)
  : PaAsioStream :=
  set_blockingState
    (Some (set_writeBuffersRequestedFlag true (set_writeBuffersRequested frames b))) s.

(** The waits of the two calls. *)
Definition wait_readFramesReadyEvent (timeout : Z) (s : PaAsioStream) (w : Wait)
  : WaitResult * PaAsioStream :=
  WaitForSingleObject (read_blocking readFramesReadyEvent false)
                      (on_blocking (set_readFramesReadyEvent false)) timeout s w.

Definition wait_writeBuffersReadyEvent (timeout : Z) (s : PaAsioStream) (w : Wait)
  : WaitResult * PaAsioStream :=
  WaitForSingleObject (read_blocking writeBuffersReadyEvent false)
                      (on_blocking (set_writeBuffersReadyEvent false)) timeout s w.

End BlockingScenario.

(** ** What the properties observe of a ring buffer *)

Module RingView.
Import Ring Stream.

(** The frames a ring buffer holds, oldest first. *)
Definition contents (rb : PaUtilRingBuffer) : list (list Z) :=
  frames_from rb (readIndex rb) (Z.to_nat (PaUtil_GetRingBufferReadAvailable rb)).

(** The same ring buffer over another storage. *)
Definition with_buffer (rb : PaUtilRingBuffer) (storage : list (list Z)) : PaUtilRingBuffer :=
  {| bufferSize := bufferSize rb; writeIndex := writeIndex rb;
     readIndex := readIndex rb; buffer := storage |}.

(** [statusFlags & paOutputUnderflowed] and [statusFlags & paInputOverflowed]
    as the conditions they are. *)
Definition underflow_reported (a : CallbackArgs) : bool :=
  negb (Z.land (statusFlags a) paOutputUnderflowed =? 0).

Definition overflow_reported (a : CallbackArgs) : bool :=
  negb (Z.land (statusFlags a) paInputOverflowed =? 0).

(** A ring buffer of four frames of one sample that holds the frame 7. *)
Definition one_frame_queued : PaUtilRingBuffer :=
  {| bufferSize := 4; writeIndex := 1; readIndex := 0;
     buffer := [[7]; [0]; [0]; [0]] |}.

Definition empty_ring : PaUtilRingBuffer :=
  {| bufferSize := 4; writeIndex := 0; readIndex := 0;
     buffer := [[0]; [0]; [0]; [0]] |}.

(** The blocking state of a stream that StopStream is flushing: the stop
    flag is set and one frame is left to play. *)
Definition flushing : PaAsioStreamBlockingState :=
  {| stopFlag := true;
     writeBuffersRequested := 0; readFramesRequested := 0;
     writeBuffersRequestedFlag := false; readFramesRequestedFlag := false;
     writeBuffersReadyEvent := false; readFramesReadyEvent := false;
     writeRingBuffer := one_frame_queued; readRingBuffer := empty_ring;
     writeRingBufferInitialFrames := 0;
     outputUnderflowFlag := false; inputOverflowFlag := false |}.

(** The layout of a stream of one channel each way, as far as the
    blocking callback reads it. *)
Definition mono : Layout :=
  {| framesPerHostCallback := 2; framesPerUserBuffer := 2; sampleRate := 1000;
     outputLatencyMs := 0; inputChannelCount := 1; outputChannelCount := 1;
     postOutput := false; outputChannelMap := [0]; outputChannelOffset := 0;
     asioChannelInfos := []; bufferPtrs := [];
     inputBufferPtrs := (None, None); outputBufferPtrs := (None, None);
     inputBufferConverter := None; inputShift := 0;
     outputBufferConverter := None; outputShift := 0;
     streamFinishedCallback := false |}.

(** A call of the callback for two frames, the output buffer holding the
    frames 5 and 6 of the cycle before. *)
Definition two_frames (flags : Z) : CallbackArgs :=
  {| inputBuffer := [[1]; [2]]; outputBuffer := [[5]; [6]];
     framesPerBuffer := 2; statusFlags := flags |}.

End RingView.

(** ** What the properties observe of ReadStream and WriteStream *)

Module BlockingIoView.
Import Ring Stream.

(** The buffer processor copies the frames asked for, as far as the two
    regions it was given go (PaUtil_CopyInput, PaUtil_CopyOutput). *)
Definition copies_what_fits (env : IoEnv) : Prop :=
  forall size1st size2nd frames,
    copy env size1st size2nd frames = Z.min frames (size1st + size2nd).

(** The blocking state after ReadStream took [frames] frames without
    waiting. *)
Definition after_read (frames : Z) (b : PaAsioStreamBlockingState)
  : PaAsioStreamBlockingState :=
  let b' := set_readRingBuffer
              (PaUtil_AdvanceRingBufferReadIndex (readRingBuffer b) frames) b in
  if inputOverflowFlag b then set_inputOverflowFlag false b' else b'.

(** The fields of the blocking state that WriteStream leaves alone when
    it does not wait. *)
Definition same_but_output (b b' : PaAsioStreamBlockingState) : Prop :=
  stopFlag b' = stopFlag b
  /\ writeBuffersRequested b' = writeBuffersRequested b
  /\ readFramesRequested b' = readFramesRequested b
  /\ writeBuffersRequestedFlag b' = writeBuffersRequestedFlag b
  /\ readFramesRequestedFlag b' = readFramesRequestedFlag b
  /\ writeBuffersReadyEvent b' = writeBuffersReadyEvent b
  /\ readFramesReadyEvent b' = readFramesReadyEvent b
  /\ readRingBuffer b' = readRingBuffer b
  /\ writeRingBufferInitialFrames b' = writeRingBufferInitialFrames b
  /\ inputOverflowFlag b' = inputOverflowFlag b.

(** The buffer processor as copier, with no waits to meet. *)
Definition buffer_processor : IoEnv :=
  {| waits := []; copy := fun size1st size2nd frames => Z.min frames (size1st + size2nd) |}.

(** A started blocking stream of one channel each way, two frames to the
    block, whose ring buffers of four frames hold the frame 7 to play and
    nothing to read. *)
Definition mono_stream : PaAsioStream :=
  {| layout := RingView.mono; asioBufferInfos := [];
     stopProcessing := false; stopPlayoutCount := 0;
     completedBuffersPlayedEvent := false; streamFinishedCallbackCalled := false;
     isStopped := 0; isActive := 1; zeroOutput := false; reenterCount := -1;
     reenterError := 0; callbackFlags := 0;
     blockingState := Some (set_stopFlag false RingView.flushing); log := [] |}.

(** The stream after the blocking callback ran once on [a]. *)
Definition after_callback (a : CallbackArgs) (s : PaAsioStream) : PaAsioStream :=
  on_blocking (fun b => snd (BlockingIoPaCallback (layout s) b a)) s.

(** The stream callback flags of portaudio.h that pa_asio.cpp does not
    name. *)
Definition paInputUnderflow : Z := 1.
Definition paOutputOverflow : Z := 8.
Definition paPrimingOutput : Z := 16.

Definition with_flags (flags : Z) : CallbackArgs :=
  {| inputBuffer := []; outputBuffer := []; framesPerBuffer := 0; statusFlags := flags |}.

(** The same stream without input channels. *)
Definition player_stream : PaAsioStream :=
  {| layout :=
       {| framesPerHostCallback := 2; framesPerUserBuffer := 2; sampleRate := 1000;
          outputLatencyMs := 0; inputChannelCount := 0; outputChannelCount := 1;
          postOutput := false; outputChannelMap := [0]; outputChannelOffset := 0;
          asioChannelInfos := []; bufferPtrs := [];
          inputBufferPtrs := (None, None); outputBufferPtrs := (None, None);
          inputBufferConverter := None; inputShift := 0;
          outputBufferConverter := None; outputShift := 0;
          streamFinishedCallback := false |};
     asioBufferInfos := [];
     stopProcessing := false; stopPlayoutCount := 0;
     completedBuffersPlayedEvent := false; streamFinishedCallbackCalled := false;
     isStopped := 0; isActive := 1; zeroOutput := false; reenterCount := -1;
     reenterError := 0; callbackFlags := 0;
     blockingState := Some (set_stopFlag false RingView.flushing); log := [] |}.

(** A stop during which nothing else happens and the driver stops. *)
Definition quiet_stop : StopEnv :=
  {| flushWait := no_wait; drainWait := no_wait; asioStopOk := true; sleeps := [] |}.

End BlockingIoView.

(** ** What the properties observe of StartStream *)

Module StartView.
Import Ring Stream.

(** The event resets StartStream makes on a stream all succeed. *)
Definition resets_succeed (s : PaAsioStream) (env : StartEnv) : bool :=
  resetCompletedOk env
  && match blockingState s with
     | Some _ =>
         (if inputChannelCount (layout s) =? 0 then true else resetReadOk env)
         && (if outputChannelCount (layout s) =? 0 then true else resetWriteOk env)
     | None => true
     end.

(** A driver that refuses to start. *)
Definition refuses_to_start : StartEnv :=
  {| resetCompletedOk := true; resetReadOk := true; resetWriteOk := true;
     asioStartOk := false |}.

(** A buffer switch in which the buffer processor calls the stream
    callback once, on the two frames 1 and 2, and which goes on. *)
Definition delivering : Cycle :=
  {| index := 0; callbacks := [RingView.two_frames 0];
     endBufferProcessing := fun callbackResult => callbackResult;
     written := []; outputEmpty := false |}.

(** A blocking call during whose wait that buffer switch arrives after
    five milliseconds. *)
Definition served_after_5ms : IoEnv :=
  {| waits := [{| failed := false; schedule := [(5, Invocation delivering)] |}];
     copy := fun size1st size2nd frames => Z.min frames (size1st + size2nd) |}.

End StartView.

(** ** What the properties observe of a flush *)

Module FlushView.
Import Ring Stream.

(** The blocking state of an output stream that StopStream is stopping:
    the stop flag is set, and either the request for the whole ring buffer
    is pending or the ring buffer is empty. *)
Definition flushing_or_flushed (size : Z) (b : PaAsioStreamBlockingState) : Prop :=
  well_formed (writeRingBuffer b)
  /\ bufferSize (writeRingBuffer b) = size
  /\ stopFlag b = true
  /\ ((writeBuffersRequestedFlag b = true /\ writeBuffersRequested b = size
       /\ writeBuffersReadyEvent b = false)
      \/ PaUtil_GetRingBufferReadAvailable (writeRingBuffer b) = 0).

Definition stream_flushing_or_flushed (size : Z) (s : PaAsioStream) : Prop :=
  exists b, blockingState s = Some b /\ flushing_or_flushed size b.

Definition stream_flushed (size : Z) (s : PaAsioStream) : Prop :=
  exists b, blockingState s = Some b
            /\ well_formed (writeRingBuffer b)
            /\ bufferSize (writeRingBuffer b) = size
            /\ stopFlag b = true
            /\ PaUtil_GetRingBufferReadAvailable (writeRingBuffer b) = 0.

(** The mono stream with the event that WriteStream and StopStream wait
    for left set, as a callback leaves it that found the room a WriteStream
    had asked for before it timed out. *)
Definition stale_event_stream : PaAsioStream :=
  set_blockingState
    (Some (set_writeBuffersReadyEvent true (set_stopFlag false RingView.flushing)))
    BlockingIoView.mono_stream.

(** A stop during which two buffer switches arrive, each calling the
    stream callback once for two frames. *)
Definition flushed_by_the_driver : StopEnv :=
  {| flushWait := {| failed := false;
                     schedule := [(1, Invocation StartView.delivering);
                                  (3, Invocation StartView.delivering)] |};
     drainWait := no_wait; asioStopOk := true; sleeps := [] |}.

End FlushView.

(** ** A writer that has to wait *)

Module WriterView.
Import Ring Stream.

(** A ring buffer of four frames of one sample that is full. *)
Definition full_ring : PaUtilRingBuffer :=
  {| bufferSize := 4; writeIndex := 4; readIndex := 0;
     buffer := [[1]; [2]; [3]; [4]] |}.

(** The mono stream with nothing left to write into. *)
Definition congested_stream : PaAsioStream :=
  set_blockingState
    (Some (set_writeRingBuffer full_ring (set_stopFlag false RingView.flushing)))
    BlockingIoView.mono_stream.

End WriterView.

(** ** Blocking streams of one direction *)

Module OneWayView.
Import Convert Negotiate Ring Stream Scenario BlockingScenario.

(** Pa_OpenStream for two input channels alone and no callback, at 1000
    frames a second and two frames to the block, and the stream started. *)
Definition open_blocking_recorder : OpenOutcome :=
  OpenStream PA_LSB_IS_NATIVE_ closed_world (Some (inputs 2)) None
             1000 2 0 false (friendly small_driver).

Definition blocking_recorder : PaAsioStream :=
  match open_blocking_recorder with
  | Opened _ w => match theAsioStream w with Some s => s | None => no_stream end
  | _ => no_stream
  end.

Definition started_recorder : PaAsioStream :=
  snd (StartStream blocking_recorder all_goes_well).

(** The same for two output channels alone. *)
Definition open_blocking_player : OpenOutcome :=
  OpenStream PA_LSB_IS_NATIVE_ closed_world None (Some (outputs 2))
             1000 2 0 false (friendly small_driver).

Definition blocking_player : PaAsioStream :=
  match open_blocking_player with
  | Opened _ w => match theAsioStream w with Some s => s | None => no_stream end
  | _ => no_stream
  end.

Definition started_player : PaAsioStream :=
  snd (StartStream blocking_player all_goes_well).

(** The blocking state of a blocking stream. *)
Definition blocking_state_of (s : PaAsioStream) : PaAsioStreamBlockingState :=
  match blockingState s with
  | Some b => b
  | None => RingView.flushing
  end.

(** A call of the callback for two frames of two channels, the output
    buffer holding the frames of the cycle before. *)
Definition stereo_block : CallbackArgs :=
  {| inputBuffer := [[1; 1]; [2; 2]]; outputBuffer := [[5; 5]; [6; 6]];
     framesPerBuffer := 2; statusFlags := 0 |}.

(** A buffer switch in which the buffer processor calls the stream
    callback once, on that block, and which goes on. *)
Definition hearing : Cycle :=
  {| index := 0; callbacks := [stereo_block];
     endBufferProcessing := fun callbackResult => callbackResult;
     written := []; outputEmpty := false |}.

(** A blocking call during whose wait that buffer switch arrives after
    five milliseconds. *)
Definition heard_after_5ms : IoEnv :=
  {| waits := [{| failed := false; schedule := [(5, Invocation hearing)] |}];
     copy := fun size1st size2nd frames => Z.min frames (size1st + size2nd) |}.

End OneWayView.

(** ** IsFormatSupported and the loading of the driver *)

Module Format.
Import Negotiate Stream.

(** [ASIOError] of the ASIO SDK. *)
Inductive ASIOError :=
| ASE_OK | ASE_SUCCESS | ASE_NotPresent | ASE_HWMalfunction | ASE_InvalidParameter
| ASE_InvalidMode | ASE_SPNotAdvancing | ASE_NoClock | ASE_NoMemory.

Definition is_ASE_OK (asioError : ASIOError) : bool :=
  match asioError with ASE_OK => true | _ => false end.

(** The calls that reach the driver, in order. *)
Inductive DriverCall :=
| CallLoadDriver                         (* asioDrivers->loadDriver( driverName ) *)
| CallASIOInit
| CallASIOGetChannels
| CallASIOGetBufferSize
| CallASIOOutputReady
| CallASIOCanSampleRate
| CallASIOExit.

(** What the driver answers: for the calls that store through pointers,
    the values stored, if the call stores any. *)
Record DriverEnv := {
  loadDriverOk : bool;
  asioInit : ASIOError;
  getChannels : ASIOError * option (Z * Z);
  getBufferSize : ASIOError * option (Z * Z * Z * Z);
  outputReady : ASIOError;
  canSampleRate : Z -> ASIOError
}.

Definition set_channels (stored : option (Z * Z)) (d : PaAsioDriverInfo) : PaAsioDriverInfo :=
  match stored with
  | Some (inputs, outputs) =>
      Build_PaAsioDriverInfo inputs outputs (Negotiate.bufferMinSize d) (Negotiate.bufferMaxSize d)
        (Negotiate.bufferPreferredSize d) (Negotiate.bufferGranularity d) (Negotiate.postOutput d)
  | None => d
  end.

Definition set_buffer_sizes (stored : option (Z * Z * Z * Z)) (d : PaAsioDriverInfo)
  : PaAsioDriverInfo :=
  match stored with
  | Some (minSize, maxSize, preferredSize, granularity) =>
      Build_PaAsioDriverInfo (Negotiate.inputChannelCount d) (Negotiate.outputChannelCount d)
        minSize maxSize preferredSize granularity (Negotiate.postOutput d)
  | None => d
  end.

Definition set_postOutput (v : bool) (d : PaAsioDriverInfo) : PaAsioDriverInfo :=
  Build_PaAsioDriverInfo (Negotiate.inputChannelCount d) (Negotiate.outputChannelCount d)
    (Negotiate.bufferMinSize d) (Negotiate.bufferMaxSize d) (Negotiate.bufferPreferredSize d) (Negotiate.bufferGranularity d) v.

(** The result, what is left in [*driverInfo] (of which the
    [asioDriverInfo] member is left out), and the calls made. *)
Definition LoadAsioDriver (driverInfo : PaAsioDriverInfo) (env : DriverEnv)
  : PaError * PaAsioDriverInfo * list DriverCall :=
  let calls := [CallLoadDriver] in
  if negb (loadDriverOk env) then (paUnanticipatedHostError, driverInfo, calls)
  else
    let calls := calls ++ [CallASIOInit] in
    if negb (is_ASE_OK (asioInit env)) then (paUnanticipatedHostError, driverInfo, calls)
    else
      let asioIsInitialized := true in
      let calls := calls ++ [CallASIOGetChannels] in
      let driverInfo := set_channels (snd (getChannels env)) driverInfo in
      if negb (is_ASE_OK (fst (getChannels env))) then
        (paUnanticipatedHostError, driverInfo,
         if asioIsInitialized then calls ++ [CallASIOExit] else calls)
      else
        let calls := calls ++ [CallASIOGetBufferSize] in
        let driverInfo := set_buffer_sizes (snd (getBufferSize env)) driverInfo in
        if negb (is_ASE_OK (fst (getBufferSize env))) then
          (paUnanticipatedHostError, driverInfo,
           if asioIsInitialized then calls ++ [CallASIOExit] else calls)
        else
          let calls := calls ++ [CallASIOOutputReady] in
          let driverInfo := set_postOutput (is_ASE_OK (outputReady env)) driverInfo in
          (paNoError, driverInfo, calls).

Definition UnloadAsioDriver (calls : list DriverCall) : list DriverCall :=
  calls ++ [CallASIOExit].

(** [paFormatIsSupported], [paSampleFormatNotSupported] and [paCustomFormat]
    of portaudio.h. *)
Definition paFormatIsSupported : PaError := 0.
Definition paSampleFormatNotSupported : PaError := -9994.
Definition paCustomFormat : Z := 0x00010000.

(** The members of PaStreamParameters that IsFormatSupported reads. *)
Record PaStreamParameters := {
  device : Z;
  channelCount : Z;
  sampleFormat : Z
}.

(** What IsFormatSupported takes from one direction's parameters, the
    channel count and the device it assigns to [asioDeviceIndex], or the
    error it returns at once. *)
Definition read_direction (parameters : option PaStreamParameters)
  : PaError + (Z * option Z) :=
  match parameters with
  | Some p =>
      if negb (Z.land (sampleFormat p) paCustomFormat =? 0) then
        inl paSampleFormatNotSupported
      else if device p =? paUseHostApiSpecificDeviceSpecification then inl paInvalidDevice
      else inr (channelCount p, Some (device p))
  | None => inr (0, None)
  end.

Inductive FormatOutcome :=
| Answered (result : PaError) (w : World) (calls : list DriverCall)
| FormatUndefined.   (* [asioDeviceIndex] read before any assignment, or an index
                        outside [deviceInfos] *)

(** From [done:] on. *)
Definition format_done (w : World) (driverInfo : PaAsioDriverInfo) (result : PaError)
    (calls : list DriverCall) : FormatOutcome :=
  let '(w, calls) :=
    if openAsioDeviceIndex w =? paNoDevice
    then (with_driver w driverInfo false, UnloadAsioDriver calls)
    else (w, calls) in
  if result =? paNoError then Answered paFormatIsSupported w calls
  else Answered result w calls.

Definition IsFormatSupported (w : World)
    (inputParameters outputParameters : option PaStreamParameters) (sampleRate : Z)
    (env : DriverEnv) : FormatOutcome :=
  if match inputParameters, outputParameters with
     | Some i, Some o => negb (device i =? device o)
     | _, _ => false
     end
  then Answered paBadIODeviceCombination w []
  else
    match read_direction inputParameters with
    | inl result => Answered result w []
    | inr (inputChannelCount, inputDevice) =>
    match read_direction outputParameters with
    | inl result => Answered result w []
    | inr (outputChannelCount, outputDevice) =>
    match (match outputDevice with Some d => Some d | None => inputDevice end) with
    | None => FormatUndefined
    | Some asioDeviceIndex =>
        if negb (openAsioDeviceIndex w =? paNoDevice)
           && negb (openAsioDeviceIndex w =? asioDeviceIndex)
        then Answered paDeviceUnavailable w []
        else
          let loading :=
            if openAsioDeviceIndex w =? paNoDevice then
              match at_index (deviceInfos w) asioDeviceIndex with
              | Some _ => Some (LoadAsioDriver (openAsioDriverInfo w) env)
              | None => None
              end
            else Some (paNoError, openAsioDriverInfo w, []) in
          match loading with
          | None => FormatUndefined
          | Some (result, driverInfo, calls) =>
              if negb (result =? paNoError) then
                Answered result (with_driver w driverInfo false) calls
              else if (inputChannelCount >? 0)
                      && (inputChannelCount >? Negotiate.inputChannelCount driverInfo)
              then format_done w driverInfo paInvalidChannelCount calls
              else if negb (outputChannelCount =? 0)
                      && (outputChannelCount >? Negotiate.outputChannelCount driverInfo)
              then format_done w driverInfo paInvalidChannelCount calls
              else
                let calls := calls ++ [CallASIOCanSampleRate] in
                match canSampleRate env sampleRate with
                | ASE_NoClock | ASE_NotPresent =>
                    format_done w driverInfo paInvalidSampleRate calls
                | _ => format_done w driverInfo result calls
                end
          end
    end
    end
    end.

End Format.

(** ** What the properties observe of IsFormatSupported *)

Module FormatView.
Import Negotiate Stream Format.

Definition same_call (a b : DriverCall) : bool :=
  match a, b with
  | CallLoadDriver, CallLoadDriver | CallASIOInit, CallASIOInit
  | CallASIOGetChannels, CallASIOGetChannels
  | CallASIOGetBufferSize, CallASIOGetBufferSize
  | CallASIOOutputReady, CallASIOOutputReady
  | CallASIOCanSampleRate, CallASIOCanSampleRate
  | CallASIOExit, CallASIOExit => true
  | _, _ => false
  end.

(** How often a call is made. *)
Definition times (c : DriverCall) (calls : list DriverCall) : nat :=
  length (filter (same_call c) calls).

(** ASIOInit was called and returned ASE_OK. *)
Definition initialised (env : DriverEnv) (calls : list DriverCall) : bool :=
  existsb (same_call CallASIOInit) calls && is_ASE_OK (asioInit env).

(** ASIOCanSampleRate was called. *)
Definition asked_sample_rate (calls : list DriverCall) : bool :=
  existsb (same_call CallASIOCanSampleRate) calls.

(** The two answers of ASIOCanSampleRate that IsFormatSupported tests for. *)
Definition no_such_rate (asioError : ASIOError) : bool :=
  match asioError with
  | ASE_NoClock | ASE_NotPresent => true
  | _ => false
  end.

(** A host with two devices, none open. *)
Definition closed_host : World :=
  {| openAsioDeviceIndex := paNoDevice;
     openAsioDriverInfo := Build_PaAsioDriverInfo 0 0 0 0 0 0 false;
     deviceInfos := [(2, 2); (8, 8)];
     theAsioStream := None;
     driverLoaded := false;
     buffersCreated := false |}.

(** A driver with 2 inputs and 2 outputs that cannot tell its buffer
    sizes. *)
Definition driver_without_sizes : DriverEnv :=
  {| loadDriverOk := true;
     asioInit := ASE_OK;
     getChannels := (ASE_OK, Some (2, 2));
     getBufferSize := (ASE_HWMalfunction, None);
     outputReady := ASE_NotPresent;
     canSampleRate := fun _ => ASE_OK |}.

(** A driver with 2 inputs and 2 outputs that is in the wrong mode for any
    sample rate but 48000. *)
Definition driver_at_48000 : DriverEnv :=
  {| loadDriverOk := true;
     asioInit := ASE_OK;
     getChannels := (ASE_OK, Some (2, 2));
     getBufferSize := (ASE_OK, Some (64, 2048, 512, -1));
     outputReady := ASE_OK;
     canSampleRate := fun rate => if rate =? 48000 then ASE_OK else ASE_InvalidMode |}.

Definition stereo (d : Z) : PaStreamParameters :=
  {| device := d; channelCount := 2; sampleFormat := 1 |}.

End FormatView.

(** ** ValidateAndSetSampleRate *)

Module Rate.
Import Format.

(** The calls about the sample rate that reach the driver, in order. *)
Inductive RateCall :=
| CallCanSampleRate (sampleRate : Z)
| CallGetSampleRate
| CallSetSampleRate (sampleRate : Z).

(** What the driver answers to them; [getSampleRate] with the rate it
    stores.  Sample rates are whole numbers here. *)
Record RateEnv := {
  canRate : Z -> ASIOError;
  getSampleRate : ASIOError * Z;
  setSampleRate : Z -> ASIOError
}.

Definition ValidateAndSetSampleRate (sampleRate : Z) (env : RateEnv)
  : PaError * list RateCall :=
  let calls := [CallCanSampleRate sampleRate] in
  if negb (is_ASE_OK (canRate env sampleRate)) then (paInvalidSampleRate, calls)
  else
    let calls := calls ++ [CallGetSampleRate] in
    let '(asioError, oldRate) := getSampleRate env in
    if negb (is_ASE_OK asioError) then (paInvalidSampleRate, calls)
    else if negb (oldRate =? sampleRate) then
      let calls := calls ++ [CallSetSampleRate sampleRate] in
      if negb (is_ASE_OK (setSampleRate env sampleRate))
      then (paInvalidSampleRate, calls)
      else (paNoError, calls)
    else (paNoError, calls).

(** The driver's sample rate after the calls, when it was [rate] before
    and ASIOSetSampleRate changes it exactly when it returns ASE_OK. *)
Fixpoint rate_after (env : RateEnv) (rate : Z) (calls : list RateCall) : Z :=
  match calls with
  | [] => rate
  | CallSetSampleRate r :: calls =>
      rate_after env (if is_ASE_OK (setSampleRate env r) then r else rate) calls
  | _ :: calls => rate_after env rate calls
  end.

(** A driver at 44100 that can run at 48000 too, and answers
    ASE_InvalidMode for any other rate. *)
Definition two_rates : RateEnv :=
  {| canRate := fun rate =>
       if (rate =? 44100) || (rate =? 48000) then ASE_OK else ASE_InvalidMode;
     getSampleRate := (ASE_OK, 44100);
     setSampleRate := fun rate =>
       if (rate =? 44100) || (rate =? 48000) then ASE_OK else ASE_InvalidMode |}.

(** The same driver as IsFormatSupported meets it. *)
Definition two_rates_driver : DriverEnv :=
  {| loadDriverOk := true;
     asioInit := ASE_OK;
     getChannels := (ASE_OK, Some (2, 2));
     getBufferSize := (ASE_OK, Some (64, 2048, 512, -1));
     outputReady := ASE_OK;
     canSampleRate := canRate two_rates |}.

End Rate.

(** ** What the properties observe of a failed OpenStream *)

Module OpenView.
Import Negotiate Stream Observe.

(** A flow leaves the driver loaded only by the return for the platform
    specific flags. *)
Definition leaves_loaded_for_flags {A} (streamFlags : Z) (m : Flow A) : Prop :=
  match m with
  | ReturnLoaded result =>
      result = paInvalidFlag /\ Z.land streamFlags paPlatformSpecificFlags <> 0
  | Return _ => False
  | _ => True
  end.

End OpenView.

(** ** asioMessages *)

Module Messages.




End Messages.

(* ================================================================== *)
(** * Properties *)

(** ** Sample format conversion *)

Module ConvertFacts.
Import Convert.

Lemma word_testbit_high bits x n :
  0 <= bits -> is_word bits x -> bits <= n -> Z.testbit x n = false.
Proof.
  intros Hb [Hx0 Hx] Hn.
  rewrite <- (Z.mod_small x (2 ^ bits)) by lia.
  apply Z.mod_pow2_bits_high. lia.
Qed.

Lemma word_of_testbit bits x :
  0 <= bits -> 0 <= x -> (forall n, bits <= n -> Z.testbit x n = false) ->
  is_word bits x.
Proof.
  intros Hb Hx H. split; [assumption|].
  assert (E : x mod 2 ^ bits = x).
  { apply Z.bits_inj'. intros n Hn. rewrite Z.testbit_mod_pow2 by lia.
    destruct (Z.ltb_spec n bits); simpl; [reflexivity|].
    symmetry. apply H. lia. }
  rewrite <- E. apply Z.mod_pos_bound. apply Z.pow_pos_nonneg; lia.
Qed.

Lemma testbit_0xFF00 n : Z.testbit 0xFF00 n = (8 <=? n) && (n <? 16).
Proof.
  change 0xFF00 with (Z.shiftl (Z.ones 8) 8).
  destruct (Z.ltb_spec n 0).
  - rewrite Z.testbit_neg_r by lia.
    destruct (Z.leb_spec 8 n); [lia|reflexivity].
  - rewrite Z.shiftl_spec, Z.testbit_ones by lia.
    destruct (Z.leb_spec 0 (n - 8)), (Z.ltb_spec (n - 8) 8),
      (Z.leb_spec 8 n), (Z.ltb_spec n 16); simpl; try reflexivity; lia.
Qed.

Lemma testbit_0xFF0000 n : Z.testbit 0xFF0000 n = (16 <=? n) && (n <? 24).
Proof.
  change 0xFF0000 with (Z.shiftl (Z.ones 8) 16).
  destruct (Z.ltb_spec n 0).
  - rewrite Z.testbit_neg_r by lia.
    destruct (Z.leb_spec 16 n); [lia|reflexivity].
  - rewrite Z.shiftl_spec, Z.testbit_ones by lia.
    destruct (Z.leb_spec 0 (n - 16)), (Z.ltb_spec (n - 16) 8),
      (Z.leb_spec 16 n), (Z.ltb_spec n 24); simpl; try reflexivity; lia.
Qed.

Lemma PA_SWAP32_testbit x n :
  is_word 32 x -> 0 <= n -> Z.testbit (PA_SWAP32_ x) n = swapped_bit x n.
Proof.
  intros Hx Hn. unfold PA_SWAP32_, wrap32, swapped_bit.
  rewrite !Z.lor_spec, !Z.land_spec, !Z.testbit_mod_pow2, !Z.shiftr_spec,
    !Z.shiftl_spec, testbit_0xFF00, testbit_0xFF0000 by lia.
  destruct (Z.ltb_spec n 8), (Z.ltb_spec n 16), (Z.ltb_spec n 24),
    (Z.ltb_spec n 32), (Z.leb_spec 8 n), (Z.leb_spec 16 n); try lia; simpl;
    rewrite ?andb_false_r, ?andb_true_r, ?orb_false_r, ?orb_false_l;
    rewrite ?(Z.testbit_neg_r x (n - 8)), ?(Z.testbit_neg_r x (n - 24)),
      ?(word_testbit_high 32 x (n + 8)), ?(word_testbit_high 32 x (n + 24)) by (lia || assumption);
    rewrite ?orb_false_r, ?orb_false_l; try reflexivity.
Qed.

Lemma PA_SWAP32_nonneg x : 0 <= x -> 0 <= PA_SWAP32_ x.
Proof.
  intros Hx. unfold PA_SWAP32_, wrap32.
  assert (0 <= Z.shiftr x 24) by (apply Z.shiftr_nonneg; lia).
  assert (0 <= Z.land (Z.shiftr x 8) 65280) by (apply Z.land_nonneg; right; lia).
  assert (0 <= Z.land (Z.shiftl x 8 mod 2 ^ 32) 16711680)
    by (apply Z.land_nonneg; right; lia).
  assert (0 <= Z.shiftl x 24 mod 2 ^ 32) by (apply Z.mod_pos_bound; lia).
  rewrite !Z.lor_nonneg. tauto.
Qed.

Lemma PA_SWAP32_word x : is_word 32 x -> is_word 32 (PA_SWAP32_ x).
Proof.
  intros Hx. apply word_of_testbit; [lia | apply PA_SWAP32_nonneg, Hx |].
  intros n Hn. rewrite PA_SWAP32_testbit by (assumption || lia).
  unfold swapped_bit.
  destruct (Z.ltb_spec n 8), (Z.ltb_spec n 16), (Z.ltb_spec n 24),
    (Z.ltb_spec n 32); try lia; reflexivity.
Qed.

Lemma PA_SWAP32_involutive x : is_word 32 x -> PA_SWAP32_ (PA_SWAP32_ x) = x.
Proof.
  intros Hx. apply Z.bits_inj'. intros n Hn.
  rewrite PA_SWAP32_testbit by (apply PA_SWAP32_word, Hx || lia).
  unfold swapped_bit at 1.
  destruct (Z.ltb_spec n 8); [|destruct (Z.ltb_spec n 16);
    [|destruct (Z.ltb_spec n 24); [|destruct (Z.ltb_spec n 32)]]];
    rewrite ?PA_SWAP32_testbit by (assumption || lia); unfold swapped_bit.
  - destruct (Z.ltb_spec (n + 24) 8), (Z.ltb_spec (n + 24) 16),
      (Z.ltb_spec (n + 24) 24), (Z.ltb_spec (n + 24) 32); try lia.
    f_equal; lia.
  - destruct (Z.ltb_spec (n + 8) 8), (Z.ltb_spec (n + 8) 16),
      (Z.ltb_spec (n + 8) 24); try lia. f_equal; lia.
  - destruct (Z.ltb_spec (n - 8) 8), (Z.ltb_spec (n - 8) 16); try lia.
    f_equal; lia.
  - destruct (Z.ltb_spec (n - 24) 8); try lia. f_equal; lia.
  - symmetry. apply (word_testbit_high 32); (lia || assumption).
Qed.

Lemma swap16_involutive x : is_word 16 x -> swap16 (swap16 x) = x.
Proof.
  intros Hx.
  assert (B : forall y n, is_word 16 y -> 0 <= n ->
            Z.testbit (swap16 y) n =
            if n <? 8 then Z.testbit y (n + 8)
            else if n <? 16 then Z.testbit y (n - 8) else false).
  { intros y n Hy Hn. unfold swap16, wrap16.
    rewrite Z.testbit_mod_pow2, Z.lor_spec, Z.shiftl_spec, Z.shiftr_spec by lia.
    destruct (Z.ltb_spec n 8), (Z.ltb_spec n 16); try lia; simpl;
      rewrite ?(Z.testbit_neg_r y (n - 8)),
        ?(word_testbit_high 16 y (n + 8)) by (lia || assumption);
      rewrite ?orb_false_r; reflexivity. }
  assert (W : is_word 16 (swap16 x)).
  { unfold swap16, wrap16, is_word. apply Z.mod_pos_bound. lia. }
  apply Z.bits_inj'. intros n Hn. rewrite B by assumption.
  destruct (Z.ltb_spec n 8); [|destruct (Z.ltb_spec n 16)];
    rewrite ?B by (assumption || lia).
  - destruct (Z.ltb_spec (n + 8) 8), (Z.ltb_spec (n + 8) 16); try lia.
    f_equal; lia.
  - destruct (Z.ltb_spec (n - 8) 8); try lia. f_equal; lia.
  - symmetry. apply (word_testbit_high 16); (lia || assumption).
Qed.

Lemma shift_left_right32 shift x :
  0 <= shift <= 32 -> 0 <= x ->
  shift_right32 shift (shift_left32 shift x) = x mod 2 ^ (32 - shift).
Proof.
  intros Hs Hx. unfold shift_right32, shift_left32, wrap32.
  rewrite Z.shiftl_mul_pow2, Z.shiftr_div_pow2 by lia.
  replace (2 ^ 32) with (2 ^ (32 - shift) * 2 ^ shift)
    by (rewrite <- Z.pow_add_r by lia; f_equal; lia).
  assert (0 < 2 ^ shift) by (apply Z.pow_pos_nonneg; lia).
  assert (0 < 2 ^ (32 - shift)) by (apply Z.pow_pos_nonneg; lia).
  rewrite Z.mul_mod_distr_r by lia.
  apply Z.div_mul. lia.
Qed.

Lemma each_sample_compose f g count buffer :
  each_sample g count (each_sample f count buffer)
  = each_sample (fun x => g (f x)) count buffer.
Proof.
  revert buffer. induction count as [|c IH]; intros [|x rest]; simpl;
    try reflexivity. now rewrite IH.
Qed.

Lemma each_sample_ext (P : Z -> Prop) f g count buffer :
  (forall x, P x -> f x = g x) -> Forall P buffer ->
  each_sample f count buffer = each_sample g count buffer.
Proof.
  intros E H. revert count. induction H as [|x rest Hx _ IH]; intros [|c];
    simpl; try reflexivity. now rewrite E, IH.
Qed.

Lemma each_sample_fixed (P : Z -> Prop) f count buffer :
  (forall x, P x -> f x = x) -> Forall P buffer ->
  each_sample f count buffer = buffer.
Proof.
  intros E H. revert count. induction H as [|x rest Hx _ IH]; intros [|c];
    simpl; try reflexivity. now rewrite E, IH.
Qed.

Lemma swap24_bytes_involutive count buffer :
  swap24_bytes count (swap24_bytes count buffer) = buffer.
Proof.
  revert buffer. induction count as [|c IH]; intros buffer; [reflexivity|].
  destruct buffer as [|b0 [|b1 [|b2 rest]]]; simpl; try reflexivity.
  now rewrite IH.
Qed.

Lemma swapped_round_trip shift x :
  0 <= shift <= 32 -> is_word 32 x ->
  shift_right_swap32 shift (swap_shift_left32 shift x)
  = PA_SWAP32_ (PA_SWAP32_ x mod 2 ^ (32 - shift)).
Proof.
  intros Hs Hx. unfold shift_right_swap32, swap_shift_left32.
  f_equal. apply shift_left_right32; [assumption|].
  apply PA_SWAP32_nonneg, Hx.
Qed.

Lemma packed_shift_range native type :
  0 <= snd (SelectAsioToPaConverter native type) <= 32.
Proof. destruct type; simpl; lia. Qed.

Lemma round_trip_cell_exact native type x :
  is_word (cell_bits type) x ->
  round_trip_cell native type x = x <-> top_bits_clear native type x.
Proof.
  intros Hx. unfold round_trip_cell, top_bits_clear.
  pose proof (packed_shift_range native type) as Hs.
  destruct (SelectAsioToPaConverter native type) as [[[]|] shift] eqn:E;
    simpl in Hs; try tauto.
  - assert (W : is_word 32 x).
    { destruct type, native; simpl in E; try discriminate; exact Hx. }
    pose proof (PA_SWAP32_word x W) as [Hy0 Hy].
    assert (0 < 2 ^ (32 - shift)) by (apply Z.pow_pos_nonneg; lia).
    split; intros H1.
    + rewrite <- (PA_SWAP32_involutive x W) in H1 at 2.
      assert (H2 : PA_SWAP32_ (PA_SWAP32_ (PA_SWAP32_ x mod 2 ^ (32 - shift)))
                   = PA_SWAP32_ (PA_SWAP32_ (PA_SWAP32_ x))) by now rewrite H1.
      rewrite !PA_SWAP32_involutive in H2.
      * rewrite <- H2. apply Z.mod_pos_bound. lia.
      * apply PA_SWAP32_word, W.
      * split; [apply Z.mod_pos_bound; lia|].
        pose proof (Z.mod_le (PA_SWAP32_ x) (2 ^ (32 - shift))). lia.
    + rewrite Z.mod_small by lia. apply PA_SWAP32_involutive, W.
  - assert (W : is_word 32 x).
    { destruct type, native; simpl in E; try discriminate; exact Hx. }
    assert (0 < 2 ^ (32 - shift)) by (apply Z.pow_pos_nonneg; lia).
    destruct W as [W0 W1]. split; intros E1.
    + rewrite <- E1. apply Z.mod_pos_bound. lia.
    + apply Z.mod_small. lia.
Qed.

Lemma each_sample_id count buffer : each_sample (fun x => x) count buffer = buffer.
Proof.
  revert buffer. induction count as [|c IH]; intros [|x rest]; simpl;
    try reflexivity. now rewrite IH.
Qed.

Lemma round_trip_cells native type count buffer :
  is_integer_type type = true ->
  Forall (is_word (cell_bits type)) buffer ->
  round_trip native type count buffer
    = Some (each_sample (round_trip_cell native type) count buffer).
Proof.
  intros Ht Hb. unfold round_trip, convert_buffer, round_trip_cell.
  destruct type, native; try discriminate Ht;
    cbn [SelectAsioToPaConverter SelectPaToAsioConverter ifdef_lsb ifdef_msb
         fst snd call_converter];
    cbn [cell_bits AsioSampleTypeToPaNativeSampleFormat] in Hb;
    rewrite ?swap24_bytes_involutive, ?each_sample_compose, ?each_sample_id;
    try reflexivity; f_equal.
  all: lazymatch goal with
       | |- each_sample _ _ _ = each_sample _ _ _ =>
           apply (each_sample_ext (is_word 32)); [intros x Hx; cbv beta | exact Hb]
       | |- each_sample (fun x => swap16 _) _ _ = _ =>
           apply (each_sample_fixed (is_word 16)); [intros x Hx; cbv beta | exact Hb]
       | |- each_sample _ _ _ = _ =>
           apply (each_sample_fixed (is_word 32)); [intros x Hx; cbv beta | exact Hb]
       end.
  all: lazymatch goal with
       | |- swap16 _ = _ => apply swap16_involutive; exact Hx
       | |- PA_SWAP32_ _ = _ => apply PA_SWAP32_involutive; exact Hx
       | |- shift_right_swap32 _ _ = _ => apply swapped_round_trip; [lia | exact Hx]
       | |- shift_right32 _ _ = _ => apply shift_left_right32; [lia | apply Hx]
       end.
Qed.

Lemma round_trip_cell_unshifted native type x :
  snd (SelectAsioToPaConverter native type) = 0 ->
  is_word (cell_bits type) x -> round_trip_cell native type x = x.
Proof.
  intros Hs Hx. destruct type, native; simpl in Hs; try discriminate Hs;
    reflexivity.
Qed.

(** C6 (amended): for every supported integer hardware sample type and
    every buffer of cells, the hardware to canonical converter followed by
    the canonical to hardware converter leaves of each converted cell what
    [round_trip_cell] says: the cell itself for the types converted
    without a shift (16, 24 and 32 bit), and for the packed 32 bit types the
    cell with its [shift] most significant bits (in native byte order)
    cleared, so that exactly the cells whose top bits are clear come back
    with their bit pattern. *)
Theorem round_trip_integer native type count buffer :
  is_integer_type type = true ->
  Forall (is_word (cell_bits type)) buffer ->
  round_trip native type count buffer
    = Some (each_sample (round_trip_cell native type) count buffer)
  /\ (snd (SelectAsioToPaConverter native type) = 0 ->
      round_trip native type count buffer = Some buffer)
  /\ (forall x, is_word (cell_bits type) x ->
      round_trip_cell native type x = x <-> top_bits_clear native type x).
Proof.
  intros Ht Hb. split; [|split].
  - apply round_trip_cells; assumption.
  - intros Hs. rewrite round_trip_cells by assumption. f_equal.
    apply (each_sample_fixed (is_word (cell_bits type))); [|exact Hb].
    intros x Hx. apply round_trip_cell_unshifted; assumption.
  - intros x Hx. apply round_trip_cell_exact, Hx.
Qed.

(** C6, as stated, fails: on a little-endian host a cell 0xFFFF8000 of type
    ASIOSTInt32LSB16 comes back as 0x00008000. *)
Lemma round_trip_loses_bits :
  is_integer_type ASIOSTInt32LSB16 = true /\
  Forall (is_word (cell_bits ASIOSTInt32LSB16)) [0xFFFF8000] /\
  round_trip PA_LSB_IS_NATIVE_ ASIOSTInt32LSB16 1 [0xFFFF8000] = Some [0x00008000] /\
  round_trip PA_LSB_IS_NATIVE_ ASIOSTInt32LSB16 1 [0xFFFF8000] <> Some [0xFFFF8000].
Proof.
  split; [reflexivity|]. split.
  - constructor; [|constructor]. unfold is_word. simpl. lia.
  - split; [reflexivity|]. vm_compute. discriminate.
Qed.

(** The round trip theorem at a buffer of two ASIOSTInt32MSB24 cells. *)
Lemma round_trip_integer_witness :
  round_trip PA_LSB_IS_NATIVE_ ASIOSTInt32MSB24 2 [0x78563400; 0x00000080]
    = Some (each_sample (round_trip_cell PA_LSB_IS_NATIVE_ ASIOSTInt32MSB24) 2
                        [0x78563400; 0x00000080]).
Proof.
  apply (round_trip_integer PA_LSB_IS_NATIVE_ ASIOSTInt32MSB24 2 [0x78563400; 0x00000080]).
  - reflexivity.
  - repeat constructor; unfold is_word; simpl; lia.
Defined.

End ConvertFacts.

(** ** Host buffer size negotiation *)

Module NegotiateFacts.
Import Negotiate Stream Scenario.

Lemma ulong_range x : 0 <= ulong x < 2 ^ 32.
Proof. unfold ulong, wrap32. apply Z.mod_pos_bound. lia. Qed.

Lemma ulong_nonneg x : 0 <= x < 2 ^ 31 -> ulong x = x.
Proof. intros H. unfold ulong, wrap32. apply Z.mod_small. lia. Qed.

Lemma ulong_negative x : - 2 ^ 31 <= x < 0 -> ulong x = x + 2 ^ 32.
Proof.
  intros H. unfold ulong, wrap32.
  rewrite <- (Z.mod_add x 1 (2 ^ 32)) by lia.
  apply Z.mod_small. lia.
Qed.

Lemma to_long_ulong x : is_long x -> to_long (ulong x) = x.
Proof.
  unfold is_long. intros H. unfold to_long.
  pose proof (ulong_range x) as R.
  rewrite (Z.mod_small (ulong x)) by exact R.
  destruct (Z_lt_le_dec x 0).
  - rewrite ulong_negative by lia.
    destruct (Z.ltb_spec (x + 2 ^ 32) (2 ^ 31)); lia.
  - rewrite ulong_nonneg by lia.
    destruct (Z.ltb_spec x (2 ^ 31)); lia.
Qed.

(** Casting to [unsigned long] keeps the order of two [long]s of the same
    sign, and puts every negative one above every other. *)
Lemma ulong_le x y :
  is_long x -> is_long y -> x <= y -> (0 <= x \/ y < 0) -> ulong x <= ulong y.
Proof.
  unfold is_long. intros Hx Hy Hxy [H|H].
  - rewrite !ulong_nonneg by lia. exact Hxy.
  - rewrite !ulong_negative by lia. lia.
Qed.

(** The value as a [long] of an [unsigned long] lying between the casts
    of two [long]s of the same sign lies between them. *)
Lemma to_long_between lo hi r :
  is_long lo -> is_long hi -> lo <= hi -> (0 <= lo \/ hi < 0) ->
  ulong lo <= r <= ulong hi -> lo <= to_long r <= hi.
Proof.
  unfold is_long. intros Hlo Hhi Hle Hs Hr.
  pose proof (ulong_range hi) as Rhi. pose proof (ulong_range lo) as Rlo.
  unfold to_long. rewrite (Z.mod_small r) by lia.
  destruct Hs as [Hs|Hs].
  - rewrite (ulong_nonneg lo), (ulong_nonneg hi) in Hr by lia.
    destruct (Z.ltb_spec r (2 ^ 31)); lia.
  - rewrite (ulong_negative lo), (ulong_negative hi) in Hr by lia.
    destruct (Z.ltb_spec r (2 ^ 31)); lia.
Qed.

Lemma clamp_result_between result driverInfo :
  ulong (bufferMinSize driverInfo) <= ulong (bufferMaxSize driverInfo) ->
  ulong (bufferMinSize driverInfo) <= clamp_result result driverInfo
    <= ulong (bufferMaxSize driverInfo).
Proof.
  intros H. unfold clamp_result.
  destruct (Z.ltb_spec result (ulong (bufferMinSize driverInfo)));
    match goal with |- context [?a >? ?b] => destruct (Z.gtb_spec a b) end; lia.
Qed.

(** The result as an [unsigned long] when the casts of the limits are in
    order. *)
Lemma unspecified_between target driverInfo :
  ulong (bufferMinSize driverInfo) <= ulong (bufferPreferredSize driverInfo)
    <= ulong (bufferMaxSize driverInfo) ->
  ulong (bufferMinSize driverInfo)
    <= SelectHostBufferSizeForUnspecifiedUserFramesPerBuffer target driverInfo
    <= ulong (bufferMaxSize driverInfo).
Proof.
  intros H. unfold SelectHostBufferSizeForUnspecifiedUserFramesPerBuffer.
  destruct (Z.leb_spec target (ulong (bufferMinSize driverInfo))); [lia|].
  destruct (Z.geb_spec target (ulong (bufferMaxSize driverInfo))); [lia|].
  destruct (bufferGranularity driverInfo =? 0); [lia|].
  destruct (bufferGranularity driverInfo =? -1);
    apply clamp_result_between; lia.
Qed.

(** C5: for all device limits with min <= preferred <= max and every
    target latency, the size selected without a user block size lies in
    [min, max]: the [unsigned long] returned, read as the [long] the
    limits are, and the number itself when the minimum is not negative. *)
Theorem unspecified_in_range target driverInfo :
  is_long (bufferMinSize driverInfo) ->
  is_long (bufferPreferredSize driverInfo) ->
  is_long (bufferMaxSize driverInfo) ->
  bufferMinSize driverInfo <= bufferPreferredSize driverInfo
    <= bufferMaxSize driverInfo ->
  let result :=
    SelectHostBufferSizeForUnspecifiedUserFramesPerBuffer target driverInfo in
  bufferMinSize driverInfo <= to_long result <= bufferMaxSize driverInfo
  /\ (0 <= bufferMinSize driverInfo ->
      bufferMinSize driverInfo <= result <= bufferMaxSize driverInfo).
Proof.
  intros Hmin Hpref Hmax Hle result. subst result.
  remember (bufferMinSize driverInfo) as lo eqn:Elo.
  remember (bufferPreferredSize driverInfo) as pr eqn:Epr.
  remember (bufferMaxSize driverInfo) as hi eqn:Ehi.
  unfold is_long in *.
  assert (Same : (0 <= lo \/ hi < 0) ->
            ulong lo <= SelectHostBufferSizeForUnspecifiedUserFramesPerBuffer
                          target driverInfo <= ulong hi).
  { intros S. subst lo hi. apply unspecified_between. rewrite <- Epr.
    split; apply ulong_le; unfold is_long; lia. }
  split.
  - destruct (Z_lt_le_dec lo 0) as [Neg|Pos];
      [destruct (Z_lt_le_dec hi 0) as [NegH|PosH]|].
    + apply to_long_between; unfold is_long; auto; lia.
    + (* a negative minimum and a maximum that is not: every target is at
         most the cast of the minimum, or above the cast of the maximum *)
      clear Same.
      unfold SelectHostBufferSizeForUnspecifiedUserFramesPerBuffer.
      rewrite <- Elo, <- Ehi.
      destruct (Z.leb_spec target (ulong lo)) as [T|T].
      * rewrite to_long_ulong by (unfold is_long; lia). lia.
      * rewrite (ulong_negative lo) in T by lia.
        destruct (Z.geb_spec target (ulong hi)) as [U|U].
        -- rewrite to_long_ulong by (unfold is_long; lia). lia.
        -- rewrite (ulong_nonneg hi) in U by lia. lia.
    + apply to_long_between; unfold is_long; auto; lia.
  - intros Pos. specialize (Same (or_introl Pos)).
    rewrite (ulong_nonneg lo), (ulong_nonneg hi) in Same by lia. exact Same.
Qed.

(** The theorem at the limits of the scenario of the specification: 64,
    8192, preferred 256, powers of two, and a target of 1000 frames. *)
Lemma unspecified_in_range_witness :
  64 <= to_long (SelectHostBufferSizeForUnspecifiedUserFramesPerBuffer 1000
                   scenario_driver) <= 8192.
Proof.
  apply (unspecified_in_range 1000 scenario_driver);
    unfold is_long; simpl; lia.
Defined.

(** C3, as stated, fails: with limits 64 to 8192 in powers of two and a
    preferred size of 256, a user block size of 512 has the candidate 512
    (found by the search the source still contains), and a block size of
    100 has none, yet the entry point answers 256 both times: neither a
    multiple of the block size nor 0. *)
Lemma entry_point_ignores_block_size :
  SelectHostBufferSizeForSpecifiedUserFramesPerBuffer 16 0 512 scenario_driver = Some 512
  /\ SelectHostBufferSize 0 512 scenario_driver = 256
  /\ 256 mod 512 <> 0
  /\ SelectHostBufferSizeForSpecifiedUserFramesPerBuffer 16 0 100 scenario_driver = Some 0
  /\ SelectHostBufferSize 0 100 scenario_driver <> 0.
Proof. repeat split; vm_compute; congruence. Qed.

End NegotiateFacts.

(** ** The stream state machine *)

Module StreamFacts.
Import Convert Negotiate Ring Stream Observe Scenario.

(** *** StopStream *)

Lemma streamFinished_fields s :
  isStopped (streamFinished s) = isStopped s
  /\ isActive (streamFinished s) = isActive s
  /\ streamFinishedCallbackCalled (streamFinished s) = streamFinishedCallbackCalled s
  /\ layout (streamFinished s) = layout s.
Proof. unfold streamFinished. destruct (streamFinishedCallback (layout s)); auto. Qed.

(** The end of both StopStream and AbortStream, from the state the halted
    driver leaves. *)
Lemma marked_stopped halted :
  let s := set_isActive 0 (set_isStopped 1 halted) in
  let s' := if negb (streamFinishedCallbackCalled s) then streamFinished s else s in
  isStopped s' = 1 /\ isActive s' = 0
  /\ (streamFinishedCallbackCalled s' = false ->
      streamFinishedCallback (layout s') = true ->
      exists before, log s' = before ++ [EvStreamFinished]).
Proof.
  cbn zeta. cbn [streamFinishedCallbackCalled set_isActive set_isStopped].
  destruct (streamFinishedCallbackCalled halted) eqn:Called; cbn [negb].
  - split; [reflexivity|]. split; [reflexivity|].
    intros H. cbn in H. congruence.
  - unfold streamFinished. cbn [layout set_isActive set_isStopped].
    destruct (streamFinishedCallback (layout halted)) eqn:Registered.
    + split; [reflexivity|]. split; [reflexivity|].
      intros _ _. exists (log halted). reflexivity.
    + split; [reflexivity|]. split; [reflexivity|].
      intros _ H. cbn in H. congruence.
Qed.

Lemma stop_hardware_stopped s env result :
  let s' := snd (stop_hardware s env result) in
  isStopped s' = 1 /\ isActive s' = 0
  /\ (streamFinishedCallbackCalled s' = false ->
      streamFinishedCallback (layout s') = true ->
      exists before, log s' = before ++ [EvStreamFinished]).
Proof.
  unfold stop_hardware.
  destruct (asioStopOk env); cbn [snd]; apply marked_stopped.
Qed.

Lemma StopStream_ends_in_stop_hardware s env :
  exists waited result, StopStream s env = stop_hardware waited env result.
Proof.
  unfold StopStream.
  match goal with
  | |- context [let '(result, s0) := ?e in stop_hardware s0 env result] =>
      destruct e as [result waited]
  end.
  eauto.
Qed.

(** C10: whatever the waits and the driver do (the flush wait fails or
    times out, the drain wait times out, ASIOStop fails), the stream
    StopStream leaves is stopped and not active: IsStreamStopped is 1 and
    IsStreamActive is 0; and when the finished callback has not been called
    from the real time path (the flag is still unset), StopStream has called
    it, as the last thing it did. *)
Theorem StopStream_marks_stopped s env :
  let s' := snd (StopStream s env) in
  IsStreamStopped s' = 1 /\ IsStreamActive s' = 0
  /\ (streamFinishedCallbackCalled s' = false ->
      streamFinishedCallback (layout s') = true ->
      exists before, log s' = before ++ [EvStreamFinished]).
Proof.
  destruct (StopStream_ends_in_stop_hardware s env) as (waited & result & E).
  rewrite E. apply stop_hardware_stopped.
Qed.

(** The started stream of the scenario, stopped while the drain wait times
    out and ASIOStop fails: it is stopped all the same, and the finished
    callback is the last thing called. *)
Lemma StopStream_marks_stopped_witness :
  IsStreamStopped (snd (StopStream started_stream failing_stop)) = 1
  /\ IsStreamActive (snd (StopStream started_stream failing_stop)) = 0
  /\ fst (StopStream started_stream failing_stop) = paUnanticipatedHostError
  /\ exists before,
       log (snd (StopStream started_stream failing_stop)) = before ++ [EvStreamFinished].
Proof.
  destruct (StopStream_marks_stopped started_stream failing_stop) as (A & B & C).
  split; [exact A|]. split; [exact B|]. split; [reflexivity|].
  apply C; reflexivity.
Defined.

(** *** Stores by index *)

Lemma store_some {A} (l : list A) k v :
  (k < length l)%nat -> exists l', store l k v = Some l'.
Proof.
  revert k. induction l as [|x rest IH]; intros [|k] H; simpl in *; try lia.
  - eauto.
  - destruct (IH k ltac:(lia)) as [l' E]. rewrite E. eauto.
Qed.

Lemma nth_error_store {A} (l l' : list A) k v j :
  store l k v = Some l' ->
  nth_error l' j = if (j =? k)%nat then Some v else nth_error l j.
Proof.
  revert l' k j. induction l as [|x rest IH]; intros l' [|k] j H; simpl in H;
    try discriminate.
  - inversion H; subst. destruct j; reflexivity.
  - destruct (store rest k v) as [rest'|] eqn:E; [|discriminate].
    inversion H; subst. destruct j as [|j]; [reflexivity|].
    simpl. apply IH. exact E.
Qed.

Lemma nth_error_update {A} (l : list A) k f j :
  nth_error (update l k f) j
  = if (j =? k)%nat then option_map f (nth_error l j) else nth_error l j.
Proof.
  unfold update. destruct (nth_error l k) as [x|] eqn:E.
  - assert (Hk : (k < length l)%nat) by (apply nth_error_Some; congruence).
    destruct (store_some l k (f x) Hk) as [l' S]. rewrite S.
    rewrite (nth_error_store _ _ _ _ _ S).
    destruct (Nat.eqb_spec j k); [subst; rewrite E|]; reflexivity.
  - destruct (Nat.eqb_spec j k); [subst; rewrite E|]; reflexivity.
Qed.

(** *** ZeroOutputBuffers *)

Lemma zero_one_spec L index infos i :
  0 <= inputChannelCount L ->
  zero_one L index infos i
  = update infos (Z.to_nat (inputChannelCount L) + i)
           (zero_half L index (Z.to_nat (inputChannelCount L) + i)).
Proof.
  intros H. unfold zero_one, zero_half.
  replace (Z.to_nat (inputChannelCount L + Z.of_nat i))
    with (Z.to_nat (inputChannelCount L) + i)%nat by lia.
  reflexivity.
Qed.

Lemma nth_error_zeroed L index n : forall infos j,
  0 <= inputChannelCount L ->
  nth_error (fold_left (zero_one L index) (seq 0 n) infos) j
  = if (Z.to_nat (inputChannelCount L) <=? j)%nat
       && (j <? Z.to_nat (inputChannelCount L) + n)%nat
    then option_map (zero_half L index j) (nth_error infos j)
    else nth_error infos j.
Proof.
  induction n as [|n IH]; intros infos j H.
  - simpl. destruct (Nat.leb_spec (Z.to_nat (inputChannelCount L)) j),
      (Nat.ltb_spec j (Z.to_nat (inputChannelCount L) + 0)); simpl;
      try reflexivity; lia.
  - rewrite seq_S, fold_left_app. simpl.
    rewrite zero_one_spec, nth_error_update, IH by assumption.
    destruct (Nat.eqb_spec j (Z.to_nat (inputChannelCount L) + n)) as [E|E];
      [subst j|];
      match goal with
      | |- context [(?a <=? ?b)%nat] => destruct (Nat.leb_spec a b)
      end;
      repeat match goal with
      | |- context [(?a <? ?b)%nat] => destruct (Nat.ltb_spec a b)
      end; simpl; try reflexivity; lia.
Qed.

(** *** What the parts of a buffer switch leave alone *)

Ltac control_fields H :=
  unfold control in H;
  injection H as ?Hlayout ?HstopProcessing ?HstopPlayoutCount ?Hcompleted
                 ?Hcalled ?HisStopped ?HisActive ?HzeroOutput ?HreenterCount
                 ?HreenterError ?HcallbackFlags.

Lemma emits_spec events : forall s,
  control (emits events s) = control s
  /\ asioBufferInfos (emits events s) = asioBufferInfos s
  /\ blockingState (emits events s) = blockingState s
  /\ log (emits events s) = log s ++ events.
Proof.
  induction events as [|e events IH]; intros s; simpl.
  - rewrite app_nil_r. auto.
  - destruct (IH (emit e s)) as (C & B & Bl & Lg).
    unfold emits in *. rewrite C, B, Bl, Lg. cbn. rewrite <- app_assoc. auto.
Qed.

Lemma fold_emit {A} (f : A -> Event) l : forall s,
  fold_left (fun s i => emit (f i) s) l s = emits (map f l) s.
Proof. induction l as [|x l IH]; intros s; simpl; [reflexivity|apply IH]. Qed.

Lemma convert_inputs_emits s :
  exists events, convert_inputs s = emits events s
    /\ finished_calls events = O /\ processing_calls events = [].
Proof.
  unfold convert_inputs. destruct (inputBufferConverter (layout s)).
  - rewrite fold_emit. eexists. split; [reflexivity|].
    induction (seq 0 (Z.to_nat (inputChannelCount (layout s)))); auto.
  - exists []. auto.
Qed.

Lemma convert_outputs_emits s :
  exists events, convert_outputs s = emits events s
    /\ finished_calls events = O /\ processing_calls events = [].
Proof.
  unfold convert_outputs. destruct (outputBufferConverter (layout s)).
  - rewrite fold_emit. eexists. split; [reflexivity|].
    induction (seq 0 (Z.to_nat (outputChannelCount (layout s)))); auto.
  - exists []. auto.
Qed.

Lemma output_ready_emits s :
  exists events, output_ready s = emits events s
    /\ finished_calls events = O /\ processing_calls events = [].
Proof.
  unfold output_ready. destruct (postOutput (layout s)).
  - exists [EvOutputReady]. auto.
  - exists []. auto.
Qed.

Lemma run_callbacks_spec s c :
  control (run_callbacks s c) = control s
  /\ asioBufferInfos (run_callbacks s c) = asioBufferInfos s
  /\ log (run_callbacks s c) = log s.
Proof.
  unfold run_callbacks. destruct (blockingState s); [|auto].
  generalize (callbacks c). intros l. revert s.
  induction l as [|a l IH]; intros s; simpl; [auto|].
  destruct (blockingState s);
    match goal with
    | |- context [fold_left ?f l ?s0] =>
        destruct (IH s0) as (C & B & Lg); rewrite C, B, Lg; auto
    end.
Qed.

Lemma write_outputs_spec s c :
  control (write_outputs s c) = control s
  /\ blockingState (write_outputs s c) = blockingState s
  /\ log (write_outputs s c) = log s.
Proof. unfold write_outputs. auto. Qed.

Lemma finished_calls_app l1 l2 :
  finished_calls (l1 ++ l2) = (finished_calls l1 + finished_calls l2)%nat.
Proof. unfold finished_calls. now rewrite filter_app, length_app. Qed.

Lemma processing_calls_app l1 l2 :
  processing_calls (l1 ++ l2) = processing_calls l1 ++ processing_calls l2.
Proof. unfold processing_calls. apply flat_map_app. Qed.

(** *** One turn of the loop *)

Lemma to_long_small x : - 2 ^ 31 <= x < 2 ^ 31 -> to_long x = x.
Proof.
  intros H. unfold to_long.
  destruct (Z_lt_le_dec x 0).
  - replace (x mod 2 ^ 32) with (x + 2 ^ 32).
    + destruct (Z.ltb_spec (x + 2 ^ 32) (2 ^ 31)); lia.
    + rewrite <- (Z.mod_add x 1 (2 ^ 32)) by lia. symmetry.
      apply Z.mod_small. lia.
  - rewrite Z.mod_small by lia. destruct (Z.ltb_spec x (2 ^ 31)); lia.
Qed.

Lemma finish_playback_spec s :
  layout (finish_playback s) = layout s
  /\ stopProcessing (finish_playback s) = stopProcessing s
  /\ stopPlayoutCount (finish_playback s) = stopPlayoutCount s
  /\ completedBuffersPlayedEvent (finish_playback s) = true
  /\ streamFinishedCallbackCalled (finish_playback s) = true
  /\ isStopped (finish_playback s) = isStopped s
  /\ isActive (finish_playback s) = 0
  /\ zeroOutput (finish_playback s) = zeroOutput s
  /\ reenterCount (finish_playback s) = reenterCount s
  /\ reenterError (finish_playback s) = reenterError s
  /\ callbackFlags (finish_playback s) = callbackFlags s
  /\ asioBufferInfos (finish_playback s) = asioBufferInfos s
  /\ blockingState (finish_playback s) = blockingState s
  /\ log (finish_playback s)
     = log s ++ (if streamFinishedCallback (layout s) then [EvStreamFinished] else [])
             ++ [EvSetCompletedEvent].
Proof.
  unfold finish_playback, streamFinished. cbn [layout set_isActive].
  destruct (streamFinishedCallback (layout s)); cbn;
    rewrite <- ?app_assoc; repeat split; reflexivity.
Qed.

(** The silent branch, field by field. *)
Lemma silent_cycle_spec s index :
  zeroOutput s = true ->
  let s' := silent_cycle s index in
  let counting := stopProcessing s && (stopPlayoutCount s <? 2) in
  let finishing := counting && (stopPlayoutCount s + 1 =? 2) in
  layout s' = layout s
  /\ stopProcessing s' = stopProcessing s
  /\ stopPlayoutCount s' = (if counting then stopPlayoutCount s + 1 else stopPlayoutCount s)
  /\ completedBuffersPlayedEvent s'
     = (if finishing then true else completedBuffersPlayedEvent s)
  /\ streamFinishedCallbackCalled s'
     = (if finishing then true else streamFinishedCallbackCalled s)
  /\ isStopped s' = isStopped s
  /\ isActive s' = (if finishing then 0 else isActive s)
  /\ zeroOutput s' = true
  /\ reenterCount s' = reenterCount s
  /\ reenterError s' = reenterError s
  /\ callbackFlags s' = callbackFlags s
  /\ blockingState s' = blockingState s
  /\ asioBufferInfos s'
     = fold_left (zero_one (layout s) index)
                 (seq 0 (Z.to_nat (outputChannelOffset (layout s))))
                 (asioBufferInfos s)
  /\ log s'
     = log s ++ (if postOutput (layout s) then [EvOutputReady] else [])
             ++ (if finishing
                 then (if streamFinishedCallback (layout s)
                       then [EvStreamFinished] else []) ++ [EvSetCompletedEvent]
                 else []).
Proof.
  intros Z0. destruct s as [L infos sp spc ev called stopped active zo rc re cf bs lg].
  cbn in Z0. subst zo.
  unfold silent_cycle, ZeroOutputBuffers, output_ready, finish_playback, streamFinished.
  cbn -[Z.ltb Z.eqb Z.add fold_left].
  destruct (postOutput L); cbn -[Z.ltb Z.eqb Z.add fold_left];
    destruct sp; cbn -[Z.ltb Z.eqb Z.add fold_left];
    try (rewrite ?app_nil_r; repeat split; reflexivity);
    destruct (spc <? 2); cbn -[Z.ltb Z.eqb Z.add fold_left];
    try (rewrite ?app_nil_r; repeat split; reflexivity);
    destruct (spc + 1 =? 2); cbn -[Z.ltb Z.eqb Z.add fold_left];
    try (rewrite ?app_nil_r; repeat split; reflexivity);
    destruct (streamFinishedCallback L); cbn -[Z.ltb Z.eqb Z.add fold_left];
    rewrite <- ?app_assoc; repeat split; reflexivity.
Qed.

Lemma control_eq s s' :
  control s = control s' ->
  layout s = layout s' /\ stopProcessing s = stopProcessing s'
  /\ stopPlayoutCount s = stopPlayoutCount s'
  /\ completedBuffersPlayedEvent s = completedBuffersPlayedEvent s'
  /\ streamFinishedCallbackCalled s = streamFinishedCallbackCalled s'
  /\ isStopped s = isStopped s' /\ isActive s = isActive s'
  /\ zeroOutput s = zeroOutput s' /\ reenterCount s = reenterCount s'
  /\ reenterError s = reenterError s' /\ callbackFlags s = callbackFlags s'.
Proof.
  unfold control. intros H.
  repeat match goal with
         | H : (_, _) = (_, _) |- _ => apply pair_equal_spec in H; destruct H
         end.
  repeat split; assumption.
Qed.

Ltac control_of H :=
  apply control_eq in H;
  destruct H as (?Hlayout & ?HstopProcessing & ?HstopPlayoutCount & ?Hcompleted
                 & ?Hcalled & ?HisStopped & ?HisActive & ?HzeroOutput
                 & ?HreenterCount & ?HreenterError & ?HcallbackFlags).

(** The buffer processed, before the verdict of the callback is looked
    at. *)
Lemma processing_body s c :
  exists processed before after,
    processing_cycle s c
    = (let callbackResult :=
         endBufferProcessing c (if stopProcessing s then paComplete else paContinue) in
       if callbackResult =? paContinue then processed
       else if callbackResult =? paAbort then set_zeroOutput true (finish_playback processed)
       else
         let s := set_stopProcessing true processed in
         if outputEmpty c then set_stopPlayoutCount 0 (set_zeroOutput true s) else s)
    /\ control processed = control (set_callbackFlags 0 s)
    /\ log processed = log s ++ before ++ [EvBufferProcessing (callbackFlags s)] ++ after
    /\ finished_calls before = O /\ finished_calls after = O
    /\ processing_calls before = [] /\ processing_calls after = [].
Proof.
  destruct (convert_inputs_emits s) as (before & E1 & F1 & P1).
  destruct (emits_spec before s) as (C1 & _ & _ & L1).
  set (s1 := set_callbackFlags 0
               (emit (EvBufferProcessing (callbackFlags (convert_inputs s)))
                     (convert_inputs s))).
  destruct (run_callbacks_spec s1 c) as (C2 & _ & L2).
  destruct (write_outputs_spec (run_callbacks s1 c) c) as (C3 & _ & L3).
  destruct (convert_outputs_emits (write_outputs (run_callbacks s1 c) c))
    as (ev_out & E4 & F4 & P4).
  destruct (emits_spec ev_out (write_outputs (run_callbacks s1 c) c))
    as (C4 & _ & _ & L4).
  destruct (output_ready_emits (convert_outputs (write_outputs (run_callbacks s1 c) c)))
    as (ev_ready & E5 & F5 & P5).
  destruct (emits_spec ev_ready (convert_outputs (write_outputs (run_callbacks s1 c) c)))
    as (C5 & _ & _ & L5).
  exists (output_ready (convert_outputs (write_outputs (run_callbacks s1 c) c))),
    before, (ev_out ++ ev_ready).
  assert (Cs1 : control s1 = control (set_callbackFlags 0 s)).
  { subst s1. rewrite E1. control_of C1. unfold control. cbn.
    congruence. }
  assert (Ls1 : log s1 = log s ++ before ++ [EvBufferProcessing (callbackFlags s)]).
  { subst s1. rewrite E1. control_of C1. cbn. rewrite L1, HcallbackFlags.
    now rewrite <- app_assoc. }
  split; [|split; [|split; [|split; [|split; [|split]]]]].
  - unfold processing_cycle. fold s1.
    replace (stopProcessing s1) with (stopProcessing s); [reflexivity|].
    control_of Cs1. cbn in *. congruence.
  - rewrite E5, C5, E4, C4, C3, C2. exact Cs1.
  - rewrite E5, L5, E4, L4, L3, L2, Ls1. now rewrite <- !app_assoc.
  - exact F1.
  - rewrite finished_calls_app, F4, F5. reflexivity.
  - exact P1.
  - rewrite processing_calls_app, P4, P5. reflexivity.
Qed.

(** An invocation on an idle stream runs the loop body once and leaves
    the stream idle. *)
Lemma loop_body_reenterCount s buffersDone c :
  reenterCount (loop_body s buffersDone c) = reenterCount s.
Proof.
  unfold loop_body. destruct (buffersDone >? 0).
  - unfold missed_cycle.
    destruct (inputChannelCount (layout s) >? 0);
      destruct (outputChannelCount (layout _) >? 0); reflexivity.
  - destruct (zeroOutput s) eqn:Z0.
    + apply (silent_cycle_spec s (index c) Z0).
    + destruct (processing_body s c) as (p & b & a & E & C & _).
      rewrite E. control_of C. cbn in HreenterCount. cbv zeta.
      destruct (_ =? paContinue); [congruence|].
      destruct (_ =? paAbort).
      * cbn [reenterCount set_zeroOutput].
        destruct (finish_playback_spec p) as (_&_&_&_&_&_&_&_&R&_).
        congruence.
      * destruct (outputEmpty c);
          cbn [reenterCount set_zeroOutput set_stopProcessing set_stopPlayoutCount];
          congruence.
Qed.

Lemma buffer_switch_idle s c :
  reenterCount s = -1 ->
  buffer_switch s c = set_reenterCount (-1) (loop_body (set_reenterCount 0 s) 0 c).
Proof.
  intros Idle. unfold buffer_switch, PaAsio_AtomicIncrement, PaAsio_AtomicDecrement.
  rewrite Idle. change (to_long (-1 + 1)) with 0.
  cbn [reenterCount set_reenterCount]. cbn [Z.eqb negb].
  rewrite loop_body_reenterCount. reflexivity.
Qed.

(** A silent buffer switch on an idle stream, field by field. *)
Lemma silent_switch_spec s c :
  reenterCount s = -1 ->
  zeroOutput s = true ->
  let s' := buffer_switch s c in
  let counting := stopProcessing s && (stopPlayoutCount s <? 2) in
  let finishing := counting && (stopPlayoutCount s + 1 =? 2) in
  layout s' = layout s
  /\ stopProcessing s' = stopProcessing s
  /\ stopPlayoutCount s' = (if counting then stopPlayoutCount s + 1 else stopPlayoutCount s)
  /\ completedBuffersPlayedEvent s'
     = (if finishing then true else completedBuffersPlayedEvent s)
  /\ isActive s' = (if finishing then 0 else isActive s)
  /\ zeroOutput s' = true
  /\ reenterCount s' = -1
  /\ asioBufferInfos s'
     = fold_left (zero_one (layout s) (index c))
                 (seq 0 (Z.to_nat (outputChannelOffset (layout s))))
                 (asioBufferInfos s)
  /\ finished_calls (log s')
     = (finished_calls (log s)
        + (if finishing && streamFinishedCallback (layout s) then 1 else 0))%nat.
Proof.
  intros Idle Z0. cbv zeta. rewrite (buffer_switch_idle s c Idle).
  unfold loop_body. change (0 >? 0) with false. cbv iota.
  change (zeroOutput (set_reenterCount 0 s)) with (zeroOutput s). rewrite Z0.
  destruct (silent_cycle_spec (set_reenterCount 0 s) (index c) Z0)
    as (HL & Hsp & Hspc & Hev & _ & _ & Hact & Hzo & _ & _ & _ & _ & Hinfos & Hlog).
  cbn [layout stopProcessing stopPlayoutCount completedBuffersPlayedEvent isActive
       asioBufferInfos log set_reenterCount] in HL, Hsp, Hspc, Hev, Hact, Hinfos, Hlog.
  cbn [layout stopProcessing stopPlayoutCount completedBuffersPlayedEvent isActive
       zeroOutput reenterCount asioBufferInfos log set_reenterCount].
  repeat (split; [assumption || reflexivity|]).
  rewrite Hlog, !finished_calls_app.
  destruct (postOutput (layout s));
    destruct (stopProcessing s && (stopPlayoutCount s <? 2)
              && (stopPlayoutCount s + 1 =? 2));
    destruct (streamFinishedCallback (layout s)); cbn; lia.
Qed.

(** A buffer switch on an idle stream that is processed and whose verdict
    is to complete with nothing left in the buffer processor. *)
Lemma completing_switch_spec s c :
  reenterCount s = -1 ->
  zeroOutput s = false ->
  endBufferProcessing c (if stopProcessing s then paComplete else paContinue)
    <> paContinue ->
  endBufferProcessing c (if stopProcessing s then paComplete else paContinue)
    <> paAbort ->
  outputEmpty c = true ->
  let s' := buffer_switch s c in
  layout s' = layout s
  /\ stopProcessing s' = true
  /\ stopPlayoutCount s' = 0
  /\ completedBuffersPlayedEvent s' = completedBuffersPlayedEvent s
  /\ isActive s' = isActive s
  /\ zeroOutput s' = true
  /\ reenterCount s' = -1
  /\ finished_calls (log s') = finished_calls (log s).
Proof.
  intros Idle Z0 NotContinue NotAbort Empty. cbv zeta.
  rewrite (buffer_switch_idle s c Idle).
  unfold loop_body. change (0 >? 0) with false. cbv iota.
  change (zeroOutput (set_reenterCount 0 s)) with (zeroOutput s). rewrite Z0.
  destruct (processing_body (set_reenterCount 0 s) c)
    as (p & before & after & E & C & Lg & F1 & F2 & _).
  rewrite E. cbv zeta.
  change (stopProcessing (set_reenterCount 0 s)) with (stopProcessing s).
  apply Z.eqb_neq in NotContinue, NotAbort. rewrite NotContinue, NotAbort, Empty.
  control_of C.
  cbn [layout stopProcessing stopPlayoutCount completedBuffersPlayedEvent isActive
       zeroOutput reenterCount log set_reenterCount set_stopPlayoutCount
       set_zeroOutput set_stopProcessing set_callbackFlags] in *.
  repeat (split; [assumption || reflexivity|]).
  rewrite Lg, !finished_calls_app, F1, F2. cbn. lia.
Qed.

(** Once two silent buffers are counted, further buffer switches change
    neither the activity of the stream nor the calls of the finished
    callback. *)
Lemma drained_stays cs : forall s,
  reenterCount s = -1 -> zeroOutput s = true ->
  stopProcessing s = true -> stopPlayoutCount s = 2 ->
  isActive (buffer_switches s cs) = isActive s
  /\ finished_calls (log (buffer_switches s cs)) = finished_calls (log s).
Proof.
  induction cs as [|c cs IH]; intros s Idle Z0 Sp Spc; [auto|].
  unfold buffer_switches in *. simpl.
  destruct (silent_switch_spec s c Idle Z0)
    as (HL & Hsp & Hspc & Hev & Hact & Hzo & Hrc & _ & Hfin).
  rewrite Sp, Spc in *. cbn in Hspc, Hact, Hfin.
  destruct (IH (buffer_switch s c)) as (A & F); try congruence.
  rewrite A, F, Hact, Hfin. split; [reflexivity|lia].
Qed.

Lemma zeroed_dummies s c j :
  reenterCount s = -1 -> zeroOutput s = true -> 0 <= inputChannelCount (layout s) ->
  nth_error (asioBufferInfos (buffer_switch s c)) j
  = if is_dummy (layout s) j
    then option_map (zero_half (layout s) (index c) j) (nth_error (asioBufferInfos s) j)
    else nth_error (asioBufferInfos s) j.
Proof.
  intros Idle Z0 Hin.
  destruct (silent_switch_spec s c Idle Z0) as (_&_&_&_&_&_&_& Hinfos &_).
  rewrite Hinfos. apply nth_error_zeroed. exact Hin.
Qed.

(** C1 (amended): a processed buffer whose verdict is to complete, with
    nothing left in the buffer processor, puts the stream in the draining
    state with output forced to silence: stopProcessing and zeroOutput both
    set, the playout count reset. In each of the buffer switches that
    follow, the callback zero-fills the [index] half of the dummy buffers
    and of no other buffer: what the mapped output channels hold stays as
    it is. The first of them leaves the stream active and the completion
    event alone and calls nothing; the second marks the stream inactive,
    sets the completion event and calls the finished callback, once, if one
    is registered; no later buffer switch calls it again. *)
Theorem drain_takes_two_silent_cycles s c0 c1 c2 cs :
  reenterCount s = -1 ->
  zeroOutput s = false ->
  0 <= inputChannelCount (layout s) ->
  endBufferProcessing c0 (if stopProcessing s then paComplete else paContinue)
    <> paContinue ->
  endBufferProcessing c0 (if stopProcessing s then paComplete else paContinue)
    <> paAbort ->
  outputEmpty c0 = true ->
  let s0 := buffer_switch s c0 in
  let s1 := buffer_switch s0 c1 in
  let s2 := buffer_switch s1 c2 in
  (stopProcessing s0 = true /\ zeroOutput s0 = true
   /\ isActive s0 = isActive s
   /\ finished_calls (log s0) = finished_calls (log s))
  /\ (isActive s1 = isActive s
      /\ completedBuffersPlayedEvent s1 = completedBuffersPlayedEvent s
      /\ finished_calls (log s1) = finished_calls (log s))
  /\ (isActive s2 = 0
      /\ completedBuffersPlayedEvent s2 = true
      /\ finished_calls (log s2)
         = (finished_calls (log s)
            + (if streamFinishedCallback (layout s) then 1 else 0))%nat)
  /\ (isActive (buffer_switches s2 cs) = 0
      /\ finished_calls (log (buffer_switches s2 cs)) = finished_calls (log s2))
  /\ (forall j,
        nth_error (asioBufferInfos s1) j
        = if is_dummy (layout s) j
          then option_map (zero_half (layout s) (index c1) j)
                          (nth_error (asioBufferInfos s0) j)
          else nth_error (asioBufferInfos s0) j)
  /\ (forall j,
        nth_error (asioBufferInfos s2) j
        = if is_dummy (layout s) j
          then option_map (zero_half (layout s) (index c2) j)
                          (nth_error (asioBufferInfos s1) j)
          else nth_error (asioBufferInfos s1) j).
Proof.
  intros Idle Z0 Hin NotContinue NotAbort Empty s0 s1 s2.
  destruct (completing_switch_spec s c0 Idle Z0 NotContinue NotAbort Empty)
    as (L0 & Sp0 & Spc0 & Ev0 & Act0 & Zo0 & Rc0 & Fin0).
  fold s0 in L0, Sp0, Spc0, Ev0, Act0, Zo0, Rc0, Fin0.
  destruct (silent_switch_spec s0 c1 Rc0 Zo0)
    as (L1 & Sp1 & Spc1 & Ev1 & Act1 & Zo1 & Rc1 & _ & Fin1).
  fold s1 in L1, Sp1, Spc1, Ev1, Act1, Zo1, Rc1, Fin1.
  rewrite Sp0 in Sp1. rewrite Sp0, Spc0 in Spc1, Ev1, Act1, Fin1.
  cbn in Spc1, Ev1, Act1, Fin1.
  destruct (silent_switch_spec s1 c2 Rc1 Zo1)
    as (L2 & Sp2 & Spc2 & Ev2 & Act2 & Zo2 & Rc2 & _ & Fin2).
  fold s2 in L2, Sp2, Spc2, Ev2, Act2, Zo2, Rc2, Fin2.
  rewrite Sp1 in Sp2. rewrite Sp1, Spc1 in Spc2, Ev2, Act2, Fin2.
  cbn in Spc2, Ev2, Act2, Fin2.
  destruct (drained_stays cs s2 Rc2 Zo2 Sp2 Spc2) as (ActN & FinN).
  split; [|split; [|split; [|split; [|split]]]].
  - auto.
  - repeat split; congruence || lia.
  - repeat split; try assumption.
    rewrite Fin2, Fin1, Fin0, L1, L0.
    destruct (streamFinishedCallback (layout s)); lia.
  - split; congruence.
  - intros j. rewrite <- L0. apply zeroed_dummies; congruence.
  - intros j. rewrite <- L0, <- L1. apply zeroed_dummies; congruence.
Qed.

(** A stream that plays one buffer and then is told to complete. *)
Lemma drain_takes_two_silent_cycles_witness :
  let s := started_stream in
  let s0 := buffer_switch s (playing 0 paComplete true) in
  let s1 := buffer_switch s0 (playing 1 paContinue false) in
  let s2 := buffer_switch s1 (playing 0 paContinue false) in
  isActive s1 = isActive s /\ isActive s2 = 0
  /\ finished_calls (log s2) = (finished_calls (log s) + 1)%nat.
Proof.
  pose proof (drain_takes_two_silent_cycles started_stream
                (playing 0 paComplete true) (playing 1 paContinue false)
                (playing 0 paContinue false) []) as H.
  destruct H as (_ & (A1 & _) & (A2 & _ & F2) & _).
  - reflexivity.
  - reflexivity.
  - vm_compute. discriminate.
  - vm_compute. discriminate.
  - vm_compute. discriminate.
  - reflexivity.
  - cbv zeta. split; [exact A1|split; [exact A2|exact F2]].
Defined.

(** C1, as stated, fails: in the draining state with output forced to
    silence the two output channels of the stream keep the bytes the last
    processed buffer left in them; only the dummy buffers are zeroed. *)
Lemma silent_cycle_leaves_output :
  let s0 := buffer_switch started_stream (playing 0 paComplete true) in
  let s1 := buffer_switch s0 (playing 0 paContinue false) in
  stopProcessing s0 = true /\ zeroOutput s0 = true
  /\ output_bytes s1 0 0 = Some [9; 9; 9; 9; 9; 9; 9; 9]
  /\ outputs_silent s1 0 = false.
Proof. vm_compute. repeat split. Qed.

(** *** Reentrancy *)

Lemma reentered_spec s :
  - 1 <= reenterCount s < 2 ^ 31 - 1 ->
  audio (reentered s) = audio s
  /\ callbackFlags (reentered s) = callbackFlags s
  /\ reenterCount (reentered s) = reenterCount s + 1
  /\ reenterError (reentered s) = reenterError s + 1.
Proof.
  intros H. unfold reentered, PaAsio_AtomicIncrement.
  cbn [audio layout stopProcessing stopPlayoutCount completedBuffersPlayedEvent
       streamFinishedCallbackCalled isStopped isActive zeroOutput asioBufferInfos
       blockingState log callbackFlags reenterCount reenterError
       set_reenterCount set_reenterError].
  rewrite to_long_small by lia. auto.
Qed.

Lemma arrivals_spec n : forall s,
  - 1 <= reenterCount s -> reenterCount s + Z.of_nat n < 2 ^ 31 ->
  audio (Nat.iter n reentered s) = audio s
  /\ callbackFlags (Nat.iter n reentered s) = callbackFlags s
  /\ reenterCount (Nat.iter n reentered s) = reenterCount s + Z.of_nat n.
Proof.
  induction n as [|n IH]; intros s Lo Hi.
  - simpl. rewrite Z.add_0_r. auto.
  - cbn [Nat.iter nat_rect].
    destruct (IH s Lo ltac:(lia)) as (A & F & C).
    destruct (reentered_spec (Nat.iter n reentered s) ltac:(lia)) as (A' & F' & C' & _).
    unfold Nat.iter in *. rewrite A', F', C', A, F, C. repeat split. lia.
Qed.

Lemma missed_cycle_spec s :
  audio (missed_cycle s) = audio s
  /\ reenterCount (missed_cycle s) = reenterCount s
  /\ callbackFlags (missed_cycle s) = Z.lor (callbackFlags s) (missed_flags (layout s)).
Proof.
  unfold missed_cycle, missed_flags.
  destruct (inputChannelCount (layout s) >? 0);
    cbn [layout set_callbackFlags];
    destruct (outputChannelCount (layout s) >? 0);
    (split; [reflexivity|split; [reflexivity|]]);
    cbn [callbackFlags set_callbackFlags];
    rewrite ?Z.lor_0_l, ?Z.lor_0_r, ?Z.lor_assoc; reflexivity.
Qed.

Lemma decrement_spec s :
  - 2 ^ 31 < reenterCount s < 2 ^ 31 ->
  audio (PaAsio_AtomicDecrement s) = audio s
  /\ callbackFlags (PaAsio_AtomicDecrement s) = callbackFlags s
  /\ reenterCount (PaAsio_AtomicDecrement s) = reenterCount s - 1.
Proof.
  intros H. unfold PaAsio_AtomicDecrement. cbn. rewrite to_long_small by lia. auto.
Qed.

(** The turns of the loop after the first: each one flags a buffer that
    was missed; the loop ends when no invocation is left to make up for. *)
Lemma catch_up c fuel : forall s buffersDone arrivals,
  0 < buffersDone ->
  0 <= reenterCount s ->
  reenterCount s + Z.of_nat (list_sum arrivals) < 2 ^ 31 - 1 ->
  (Z.to_nat (reenterCount s) + list_sum arrivals < fuel)%nat ->
  exists s', buffer_loop fuel s buffersDone c arrivals = Some s'
    /\ audio s' = audio s
    /\ callbackFlags s' = Z.lor (callbackFlags s) (missed_flags (layout s))
    /\ reenterCount s' = -1.
Proof.
  induction fuel as [|fuel IH]; intros s buffersDone arrivals Hb Lo Hi Hf; [lia|].
  cbn [buffer_loop]. unfold loop_body.
  destruct (Z.gtb_spec buffersDone 0) as [_|]; [|lia].
  destruct (missed_cycle_spec s) as (A1 & C1 & F1).
  assert (Hhd : (hd O arrivals + list_sum (tl arrivals) = list_sum arrivals)%nat)
    by (destruct arrivals; reflexivity).
  destruct (arrivals_spec (hd O arrivals) (missed_cycle s)) as (A2 & F2 & C2); try lia.
  set (s2 := Nat.iter (hd O arrivals) reentered (missed_cycle s)) in *.
  destruct (decrement_spec s2) as (A3 & F3 & C3); [lia|].
  set (s3 := PaAsio_AtomicDecrement s2) in *.
  assert (L3 : layout s3 = layout s).
  { assert (E : audio s3 = audio s) by congruence.
    unfold audio in E. congruence. }
  destruct (Z.geb_spec (reenterCount s3) 0) as [More|Done].
  - destruct (IH s3 (buffersDone + 1) (tl arrivals)) as (s' & E & A & F & C);
      try lia.
    exists s'. split; [exact E|]. split; [congruence|]. split; [|exact C].
    rewrite F, F3, F2, F1, L3, <- Z.lor_assoc, Z.lor_diag. reflexivity.
  - exists s3. split; [reflexivity|]. split; [congruence|].
    split; [congruence|]. lia.
Qed.

Lemma loop_body_layout s buffersDone c :
  layout (loop_body s buffersDone c) = layout s.
Proof.
  unfold loop_body. destruct (buffersDone >? 0).
  - destruct (missed_cycle_spec s) as (A & _). unfold audio in A. congruence.
  - destruct (zeroOutput s) eqn:Z0.
    + apply (silent_cycle_spec s (index c) Z0).
    + destruct (processing_body s c) as (p & b & a & E & C & _).
      rewrite E. control_of C. cbn in Hlayout. cbv zeta.
      destruct (_ =? paContinue); [congruence|].
      destruct (_ =? paAbort).
      * cbn [layout set_zeroOutput].
        destruct (finish_playback_spec p) as (R & _). congruence.
      * destruct (outputEmpty c);
          cbn [layout set_zeroOutput set_stopProcessing set_stopPlayoutCount];
          congruence.
Qed.

Lemma audio_of_idle_switch s c :
  reenterCount s = -1 ->
  audio (buffer_switch s c) = audio (loop_body (PaAsio_AtomicIncrement s) 0 c)
  /\ callbackFlags (buffer_switch s c)
     = callbackFlags (loop_body (PaAsio_AtomicIncrement s) 0 c)
  /\ reenterCount (buffer_switch s c) = -1.
Proof.
  intros Idle. rewrite (buffer_switch_idle s c Idle).
  unfold PaAsio_AtomicIncrement. rewrite Idle. change (to_long (-1 + 1)) with 0.
  auto.
Qed.

(** A processed buffer hands the status flags to the buffer processor and
    clears them. *)
Lemma processing_delivers_flags s c :
  reenterCount s = -1 -> zeroOutput s = false ->
  processing_calls (log (buffer_switch s c)) = processing_calls (log s) ++ [callbackFlags s]
  /\ callbackFlags (buffer_switch s c) = 0.
Proof.
  intros Idle Z0. rewrite (buffer_switch_idle s c Idle).
  unfold loop_body. change (0 >? 0) with false. cbv iota.
  change (zeroOutput (set_reenterCount 0 s)) with (zeroOutput s). rewrite Z0.
  destruct (processing_body (set_reenterCount 0 s) c)
    as (p & before & after & E & C & Lg & _ & _ & P1 & P2).
  rewrite E. cbv zeta. control_of C.
  cbn [callbackFlags log set_reenterCount set_callbackFlags] in Lg, HcallbackFlags.
  assert (Lp : processing_calls (log p) = processing_calls (log s) ++ [callbackFlags s]).
  { rewrite Lg, !processing_calls_app, P1, P2. cbn. rewrite ?app_nil_r. reflexivity. }
  destruct (_ =? paContinue); [split; assumption|].
  destruct (_ =? paAbort).
  - destruct (finish_playback_spec p) as (_&_&_&_&_&_&_&_&_&_& F &_&_& L').
    cbn [callbackFlags log set_reenterCount set_zeroOutput].
    rewrite L', F, processing_calls_app, Lp.
    destruct (streamFinishedCallback (layout p)); cbn; rewrite ?app_nil_r; auto.
  - destruct (outputEmpty c);
      cbn [callbackFlags log set_reenterCount set_zeroOutput set_stopProcessing
           set_stopPlayoutCount]; auto.
Qed.

(** C2 (amended): an invocation of the buffer switch callback that arrives
    while another is still executing (the reentrancy counter is not
    negative) returns having only counted itself: it converts no buffer,
    calls neither the buffer processor nor the user callback, and leaves
    buffers, log and status flags as they are. The buffer it came for is
    never processed: the invocation it interrupted takes one more turn of
    its loop for it, which processes no audio either and only sets status
    flags. When that invocation returns, buffers and log are those of an
    invocation that nothing interrupted, so the audio of the cycle is
    processed once, and the status flags hold input overflow (when the
    stream has input channels) and output underflow (when it has output
    channels) on top of what they held; the next buffer that is processed
    hands them to the buffer processor, and so to the user callback, and
    clears them. *)
Theorem reentered_buffer_is_flagged s c arrivals :
  (0 <= reenterCount s < 2 ^ 31 - 1 ->
   forall fuel,
     bufferSwitchTimeInfo fuel s c arrivals = Some (reentered s)
     /\ audio (reentered s) = audio s
     /\ callbackFlags (reentered s) = callbackFlags s
     /\ reenterCount (reentered s) = reenterCount s + 1
     /\ reenterError (reentered s) = reenterError s + 1)
  /\ (reenterCount s = -1 ->
      (0 < hd O arrivals)%nat ->
      Z.of_nat (list_sum arrivals) < 2 ^ 31 - 1 ->
      exists s',
        bufferSwitchTimeInfo (S (list_sum arrivals)) s c arrivals = Some s'
        /\ audio s' = audio (buffer_switch s c)
        /\ callbackFlags s'
           = Z.lor (callbackFlags (buffer_switch s c)) (missed_flags (layout s))
        /\ reenterCount s' = -1)
  /\ (reenterCount s = -1 -> zeroOutput s = false ->
      processing_calls (log (buffer_switch s c))
      = processing_calls (log s) ++ [callbackFlags s]
      /\ callbackFlags (buffer_switch s c) = 0).
Proof.
  split; [|split].
  - intros Busy fuel.
    destruct (reentered_spec s ltac:(lia)) as (A & F & C & E).
    split; [|auto].
    unfold bufferSwitchTimeInfo, PaAsio_AtomicIncrement.
    cbn [reenterCount set_reenterCount]. rewrite to_long_small by lia.
    destruct (Z.eqb_spec (reenterCount s + 1) 0); [lia|reflexivity].
  - intros Idle Arrives Bound.
    destruct (audio_of_idle_switch s c Idle) as (A0 & F0 & _).
    unfold bufferSwitchTimeInfo.
    set (s0 := PaAsio_AtomicIncrement s) in *.
    assert (C0 : reenterCount s0 = 0).
    { subst s0. unfold PaAsio_AtomicIncrement. cbn. now rewrite Idle. }
    rewrite C0. cbn [Z.eqb negb buffer_loop].
    set (s1 := loop_body s0 0 c) in *.
    assert (C1 : reenterCount s1 = 0)
      by (subst s1; now rewrite loop_body_reenterCount).
    assert (Hhd : (hd O arrivals + list_sum (tl arrivals) = list_sum arrivals)%nat)
      by (destruct arrivals; reflexivity).
    destruct (arrivals_spec (hd O arrivals) s1) as (A2 & F2 & C2); try lia.
    set (s2 := Nat.iter (hd O arrivals) reentered s1) in *.
    destruct (decrement_spec s2) as (A3 & F3 & C3); [lia|].
    set (s3 := PaAsio_AtomicDecrement s2) in *.
    destruct (Z.geb_spec (reenterCount s3) 0) as [_|]; [|lia].
    destruct (catch_up c (list_sum arrivals) s3 (0 + 1) (tl arrivals))
      as (s' & E & A & F & C); try lia.
    exists s'. split; [exact E|].
    assert (L3 : layout s3 = layout s).
    { assert (E3 : audio s3 = audio s1) by congruence.
      unfold audio in E3.
      transitivity (layout s1); [congruence|].
      subst s1. rewrite loop_body_layout. reflexivity. }
    split; [congruence|]. split; [|exact C].
    rewrite F, L3. congruence.
  - apply processing_delivers_flags.
Qed.

(** One invocation arrives while the second buffer of a started stream is
    processed. *)
Lemma reentered_buffer_is_flagged_witness :
  exists s',
    bufferSwitchTimeInfo 2 started_stream (playing 0 paContinue false) [1%nat] = Some s'
    /\ audio s' = audio (buffer_switch started_stream (playing 0 paContinue false))
    /\ callbackFlags s' = paOutputUnderflow
    /\ reenterCount s' = -1.
Proof.
  destruct (reentered_buffer_is_flagged started_stream
              (playing 0 paContinue false) [1%nat]) as (_ & Outer & _).
  destruct Outer as (s' & E & A & F & C).
  - reflexivity.
  - simpl. lia.
  - simpl. lia.
  - exists s'. split; [exact E|]. split; [exact A|]. split; [exact F|exact C].
Defined.

(** C2, as stated, fails: the buffer that was missed while the first
    buffer of the started stream was processed is not processed by the
    loop of the invocation that was interrupted.  When that invocation
    returns, the buffer processor has been called once, for the first
    buffer; the hardware buffers and the log are those of an invocation
    that nothing interrupted, and only the status flags tell of the
    buffer missed. *)
Lemma missed_buffer_is_not_processed :
  let c := playing 0 paContinue false in
  let outer := bufferSwitchTimeInfo 2 started_stream c [1%nat] in
  processing_calls (log started_stream) = []
  /\ option_map (fun s => processing_calls (log s)) outer = Some [0]
  /\ option_map log outer = Some (log (buffer_switch started_stream c))
  /\ option_map asioBufferInfos outer
     = Some (asioBufferInfos (buffer_switch started_stream c))
  /\ option_map callbackFlags outer = Some paOutputUnderflow.
Proof. vm_compute. repeat split. Qed.


(** *** OpenStream *)

Ltac flow_head m :=
  lazymatch m with
  | bind ?m' _ => flow_head m'
  | _ => m
  end.

(** One step along a flow known to go on. *)
Ltac go_step H :=
  lazymatch type of H with
  | ?lhs = Go _ =>
      let h := flow_head lhs in
      lazymatch h with
      | check ?c _ => destruct c eqn:?; cbn [bind check] in H; [|discriminate H]
      | in_array ?x => destruct x eqn:?; cbn [bind in_array] in H; [|discriminate H]
      | Go _ => progress cbn [bind] in H
      | GotoError _ => discriminate H
      | match ?x with _ => _ end => destruct x eqn:?; cbn [bind] in H; try discriminate H
      end
  end.

(** One step along a flow to show that it goes on or carries an error. *)
Ltac failing_step :=
  lazymatch goal with
  | |- failing ?m =>
      let h := flow_head m in
      lazymatch h with
      | check ?c _ => destruct c eqn:?; cbn [bind check]
      | in_array ?x => destruct x eqn:?; cbn [bind in_array]
      | Go _ => progress cbn [bind]
      | match ?x with _ => _ end => destruct x eqn:?; cbn [bind]
      end
  end.

Ltac failing_leaf :=
  cbn [failing];
  first [ exact I
        | apply Z.eqb_neq; assumption
        | discriminate ].

Lemma open_stream_failing native input output sampleRate framesPerBuffer streamFlags
    streamCallback env :
  failing (open_stream native input output sampleRate framesPerBuffer streamFlags
                       streamCallback env).
Proof.
  unfold open_stream, open_blocking.
  repeat failing_step; failing_leaf.
Qed.

Lemma read_parameters_failing w isInputDirection parameters :
  failing (read_parameters w isInputDirection parameters).
Proof.
  unfold read_parameters. destruct parameters as [p|]; [|exact I].
  repeat failing_step; failing_leaf.
Qed.

Lemma read_parameters_Go w isInputDirection parameters d direction :
  read_parameters w isInputDirection parameters = Go (d, direction) ->
  match d with Some i => 0 <= i | None => True end.
Proof.
  unfold read_parameters. destruct parameters as [p|].
  - intros H. repeat go_step H. injection H as <- _.
    unfold at_index in *. destruct (Z.ltb_spec (device p) 0); [discriminate|lia].
  - intros H. injection H as <- _. exact I.
Qed.

(** What a flow that goes on has gone through. *)
Lemma bind_Go {A B} (m : Flow A) (k : A -> Flow B) y :
  bind m k = Go y -> exists x, m = Go x /\ k x = Go y.
Proof. destruct m; cbn [bind]; intros H; try discriminate H. eauto. Qed.

Lemma in_array_Go {A} (x : option A) v : in_array x = Go v -> x = Some v.
Proof. destruct x; cbn [in_array]; intros H; [injection H as ->; reflexivity|discriminate H]. Qed.

(** One step back along a flow that went on, keeping only what the
    arrays gave. *)
Ltac go_back H :=
  lazymatch type of H with
  | bind (in_array _) _ = Go _ =>
      let x := fresh "x" in
      let Hx := fresh "Hx" in
      apply bind_Go in H; destruct H as (x & Hx & H);
      apply in_array_Go in Hx; cbv beta in H
  | bind _ _ = Go _ =>
      let x := fresh "x" in
      let Hx := fresh "Hx" in
      apply bind_Go in H; destruct H as (x & Hx & H); clear Hx; cbv beta in H
  | match ?p with _ => _ end = Go _ =>
      destruct p eqn:?; cbv beta iota in H
  end.

(** What a stream that OpenStream has built is made of. *)
Lemma open_stream_Go native input output sampleRate framesPerBuffer streamFlags
    streamCallback env stream :
  open_stream native input output sampleRate framesPerBuffer streamFlags
              streamCallback env = Go stream ->
  let L := layout stream in
  let inputs := dirChannelCount input in
  let outputs := dirChannelCount output in
  let offset := fst (output_layout outputs (driver env)) in
  let total := snd (output_layout outputs (driver env)) in
  framesPerHostCallback L = ulong (bufferPreferredSize (driver env))
  /\ inputChannelCount L = inputs
  /\ outputChannelCount L = outputs
  /\ outputChannelOffset L = offset
  /\ outputChannelMap L
     = (if outputs >? 0
        then map (fun i => offset + Z.of_nat i) (seq 0 (Z.to_nat outputs))
        else [])
  /\ asioBufferInfos stream
     = make_buffer_infos inputs total (dirSelectors input) (hwBytes env)
  /\ carve_buffer_ptrs inputs outputs offset total
     = Some (bufferPtrs L, inputBufferPtrs L, outputBufferPtrs L)
  /\ zeroOutput stream = false /\ isActive stream = 0 /\ isStopped stream = 1.
Proof.
  intros H. unfold open_stream in H. cbv zeta in H.
  repeat go_back H.
  injection H as <-. intros L inputs outputs' offset total.
  subst L inputs outputs' offset total.
  match goal with
  | E : output_layout _ _ = _ |- _ => rewrite E
  end.
  split; [destruct streamCallback; reflexivity|].
  repeat (split; [first [reflexivity | assumption]|]).
  reflexivity.
Qed.

Lemma read_parameters_count w isInputDirection parameters d direction :
  read_parameters w isInputDirection parameters = Go (d, direction) ->
  dirChannelCount direction
  = match parameters with Some p => channelCount p | None => 0 end.
Proof.
  unfold read_parameters. destruct parameters as [p|]; intros H;
    [repeat go_step H|]; injection H as _ <-; reflexivity.
Qed.

(** A call of OpenStream that returns paNoError has found no device open,
    has read a device index that is an index, and has built its stream
    with [open_stream]. *)
Lemma OpenStream_success native w inputParameters outputParameters sampleRate
    framesPerBuffer streamFlags streamCallback env w' :
  OpenStream native w inputParameters outputParameters sampleRate framesPerBuffer
             streamFlags streamCallback env = Opened paNoError w' ->
  openAsioDeviceIndex w = paNoDevice
  /\ exists asioDeviceIndex input output stream,
       0 <= asioDeviceIndex
       /\ read_parameters w false outputParameters
          = Go (match outputParameters with
                | Some p => Some (device p) | None => None end, output)
       /\ open_stream native input output sampleRate framesPerBuffer streamFlags
                      streamCallback env = Go stream
       /\ dirChannelCount input
          = match inputParameters with Some p => channelCount p | None => 0 end
       /\ dirChannelCount output
          = match outputParameters with Some p => channelCount p | None => 0 end
       /\ w' = {| openAsioDeviceIndex := asioDeviceIndex;
                  openAsioDriverInfo := driver env;
                  deviceInfos := deviceInfos w;
                  theAsioStream := Some stream;
                  driverLoaded := true;
                  buffersCreated := true |}.
Proof.
  unfold OpenStream.
  destruct (Z.eqb_spec (openAsioDeviceIndex w) paNoDevice) as [M|M]; cbn [negb];
    [|discriminate].
  destruct (theAsioStream w); [discriminate|].
  pose proof (read_parameters_failing w true inputParameters) as Fi.
  pose proof (read_parameters_failing w false outputParameters) as Fo.
  pose proof (read_parameters_Go w true inputParameters) as Gi.
  pose proof (read_parameters_Go w false outputParameters) as Go_.
  pose proof (read_parameters_count w true inputParameters) as Ci.
  pose proof (read_parameters_count w false outputParameters) as Co.
  assert (Dev : forall d direction,
            read_parameters w false outputParameters = Go (d, direction) ->
            d = match outputParameters with
                | Some p => Some (device p) | None => None end).
  { intros d direction. unfold read_parameters.
    destruct outputParameters as [p|]; intros H;
      [repeat go_step H|]; injection H as <- _; reflexivity. }
  destruct (match inputParameters, outputParameters with
            | Some i, Some o => device i =? device o
            | _, _ => true
            end); cbn [bind check]; [|discriminate].
  destruct (read_parameters w true inputParameters) as [[di input]| | | | |];
    cbn [bind failing] in *; try (intros H; injection H as H _; contradiction);
    try discriminate.
  destruct (read_parameters w false outputParameters) as [[do output]| | | | |] eqn:Eo;
    cbn [bind failing] in *; try (intros H; injection H as H _; contradiction);
    try discriminate.
  specialize (Gi di input eq_refl). specialize (Go_ do output eq_refl).
  specialize (Dev do output eq_refl).
  specialize (Ci di input eq_refl). specialize (Co do output eq_refl).
  pose proof (open_stream_failing native input output sampleRate framesPerBuffer
                streamFlags streamCallback env) as F.
  destruct do as [d|]; [|destruct di as [d|]]; cbn [bind in_array];
    try discriminate;
    (destruct (open_stream native input output sampleRate framesPerBuffer
                           streamFlags streamCallback env) as [stream| | | | |] eqn:E;
     cbn [failing] in F; try (intros H; injection H as H _; contradiction);
     try discriminate;
     intros H; injection H as <-; split; [exact M|];
     exists d, input, output, stream; rewrite <- Dev;
     repeat (split; [solve [auto]|]); reflexivity).
Qed.

(** C9: OpenStream returns paDeviceUnavailable, and leaves everything as
    it is, whenever the marker of the open device is set; a call that
    returns paNoError found the marker unset and sets it, to the index of
    the device, and makes its stream theAsioStream, so that every further
    OpenStream fails in that way until CloseStream, which clears the marker
    and theAsioStream. *)
Theorem one_open_device_at_a_time :
  (forall native w inputParameters outputParameters sampleRate framesPerBuffer
          streamFlags streamCallback env,
     openAsioDeviceIndex w <> paNoDevice ->
     OpenStream native w inputParameters outputParameters sampleRate framesPerBuffer
                streamFlags streamCallback env = Opened paDeviceUnavailable w)
  /\ (forall native w inputParameters outputParameters sampleRate framesPerBuffer
             streamFlags streamCallback env w',
        OpenStream native w inputParameters outputParameters sampleRate framesPerBuffer
                   streamFlags streamCallback env = Opened paNoError w' ->
        openAsioDeviceIndex w = paNoDevice
        /\ openAsioDeviceIndex w' <> paNoDevice
        /\ (exists stream, theAsioStream w' = Some stream)
        /\ (forall native' inputParameters' outputParameters' sampleRate'
                   framesPerBuffer' streamFlags' streamCallback' env',
              OpenStream native' w' inputParameters' outputParameters' sampleRate'
                         framesPerBuffer' streamFlags' streamCallback' env'
              = Opened paDeviceUnavailable w'))
  /\ (forall w,
        fst (CloseStream w) = paNoError
        /\ openAsioDeviceIndex (snd (CloseStream w)) = paNoDevice
        /\ theAsioStream (snd (CloseStream w)) = None)
  /\ paDeviceUnavailable <> paNoError.
Proof.
  assert (Busy : forall native w inputParameters outputParameters sampleRate
                        framesPerBuffer streamFlags streamCallback env,
            openAsioDeviceIndex w <> paNoDevice ->
            OpenStream native w inputParameters outputParameters sampleRate
                       framesPerBuffer streamFlags streamCallback env
            = Opened paDeviceUnavailable w).
  { intros. unfold OpenStream.
    destruct (Z.eqb_spec (openAsioDeviceIndex w) paNoDevice); [contradiction|].
    reflexivity. }
  split; [exact Busy|]. split; [|split; [|discriminate]].
  - intros native w inputParameters outputParameters sampleRate framesPerBuffer
           streamFlags streamCallback env w' H.
    destruct (OpenStream_success _ _ _ _ _ _ _ _ _ _ H)
      as (M & idx & input & output & stream & Hidx & _ & _ & _ & _ & ->).
    cbn [openAsioDeviceIndex theAsioStream].
    assert (idx <> paNoDevice) by (unfold paNoDevice; lia).
    split; [exact M|]. split; [assumption|]. split; [eauto|].
    intros. apply Busy. assumption.
  - intros w. repeat split.
Qed.

(** A stream is opened, a second OpenStream is refused, and after
    CloseStream the marker is clear again. *)
Lemma one_open_device_at_a_time_witness :
  openAsioDeviceIndex opened_world = 0
  /\ OpenStream PA_LSB_IS_NATIVE_ opened_world None (Some (outputs 2))
                48000 2 0 true (friendly small_driver)
     = Opened paDeviceUnavailable opened_world
  /\ openAsioDeviceIndex (snd (CloseStream opened_world)) = paNoDevice.
Proof.
  destruct one_open_device_at_a_time as (_ & Opens & Closes & _).
  destruct (Opens PA_LSB_IS_NATIVE_ closed_world None (Some (outputs 2))
                  48000 2 0 true (friendly small_driver) opened_world)
    as (_ & _ & _ & Refused).
  - reflexivity.
  - split; [reflexivity|]. split; [apply Refused|]. apply Closes.
Defined.

(** C3 (amended): the entry point that OpenStream calls to choose the
    host buffer size returns the preferred buffer size of the driver,
    whatever the target latency and the user block size; every stream that
    OpenStream opens, blocking or not, has that many frames to the host
    buffer. *)
Theorem host_buffer_size_is_preferred :
  (forall targetBufferingLatencyFrames userFramesPerBuffer driverInfo,
     SelectHostBufferSize targetBufferingLatencyFrames userFramesPerBuffer driverInfo
     = ulong (bufferPreferredSize driverInfo))
  /\ (forall native w inputParameters outputParameters sampleRate framesPerBuffer
             streamFlags streamCallback env w',
        OpenStream native w inputParameters outputParameters sampleRate framesPerBuffer
                   streamFlags streamCallback env = Opened paNoError w' ->
        exists stream,
          theAsioStream w' = Some stream
          /\ framesPerHostCallback (layout stream)
             = ulong (bufferPreferredSize (driver env))).
Proof.
  split; [reflexivity|].
  intros native w inputParameters outputParameters sampleRate framesPerBuffer
         streamFlags streamCallback env w' H.
  destruct (OpenStream_success _ _ _ _ _ _ _ _ _ _ H)
    as (_ & idx & input & output & stream & _ & _ & Hs & _ & _ & ->).
  exists stream. split; [reflexivity|].
  apply (open_stream_Go _ _ _ _ _ _ _ _ _ Hs).
Qed.

(** A blocking stream asked for blocks of 512 frames on the driver of the
    scenario gets host buffers of the preferred 256 frames. *)
Lemma host_buffer_size_is_preferred_witness :
  exists w' stream,
    OpenStream PA_LSB_IS_NATIVE_ closed_world None (Some (outputs 2))
               48000 512 0 false (friendly scenario_driver) = Opened paNoError w'
    /\ theAsioStream w' = Some stream
    /\ framesPerHostCallback (layout stream) = 256.
Proof.
  destruct host_buffer_size_is_preferred as (_ & Opens).
  destruct (OpenStream PA_LSB_IS_NATIVE_ closed_world None (Some (outputs 2))
                       48000 512 0 false (friendly scenario_driver))
    as [result w'| |] eqn:E; try (vm_compute in E; discriminate E).
  assert (R : result = paNoError).
  { vm_compute in E. injection E as <- _. reflexivity. }
  subst result.
  destruct (Opens _ _ _ _ _ _ _ _ _ _ E) as (stream & Hs & Hf).
  exists w', stream. split; [reflexivity|]. split; [exact Hs|exact Hf].
Defined.

(** *** The output channels of an opened stream *)

Lemma store_inside {A} (l l' : list A) k v :
  store l k v = Some l' -> (k < length l)%nat /\ length l' = length l.
Proof.
  revert l' k. induction l as [|x rest IH]; intros l' [|k] H; cbn [store] in H;
    try discriminate H.
  - injection H as <-. cbn [length]. lia.
  - destruct (store rest k v) as [rest'|] eqn:E; [|discriminate H].
    injection H as <-. destruct (IH _ _ E). cbn [length]. lia.
Qed.

(** Stores that all succeed were all inside the table. *)
Lemma store_all_inside {A} stores : forall (t t' : list A),
  store_all t stores = Some t' ->
  length t' = length t /\ forall k v, In (k, v) stores -> (k < length t)%nat.
Proof.
  induction stores as [|[k0 v0] stores IH]; intros t t' H; cbn [store_all] in H.
  - injection H as <-. split; [reflexivity|]. intros k v [].
  - destruct (store t k0 v0) as [t1|] eqn:E; [|discriminate H].
    destruct (store_inside _ _ _ _ E) as [Hk Hl].
    destruct (IH _ _ H) as [Hl' Hin]. split; [congruence|].
    intros k v [Heq|Hi].
    + injection Heq as <- _. exact Hk.
    + rewrite <- Hl. eapply Hin. exact Hi.
Qed.

(** With more output channels than the offset, the second half of the
    output pointers does not fit the allocation of bufferPtrs. *)
Lemma carve_buffer_ptrs_overruns inputs outputs offset :
  0 <= offset < outputs ->
  carve_buffer_ptrs inputs outputs offset (outputs + offset) = None.
Proof.
  intros H. unfold carve_buffer_ptrs.
  destruct (Z.gtb_spec outputs 0) as [_|]; [|lia].
  match goal with
  | |- match store_all ?t ?stores with _ => _ end = _ =>
      destruct (store_all t stores) as [t'|] eqn:E; [exfalso|reflexivity]
  end.
  apply store_all_inside in E. destruct E as [_ Hin].
  rewrite repeat_length in Hin.
  specialize (Hin (Z.to_nat (inputs * 2 + outputs + (outputs + offset))
                   + (Z.to_nat outputs - 1))%nat
                  (Some {| info := Z.to_nat (inputs + offset
                                             + Z.of_nat (Z.to_nat outputs - 1));
                           half := 1 |})).
  assert ((Z.to_nat (inputs * 2 + outputs + (outputs + offset))
           + (Z.to_nat outputs - 1)
           < Z.to_nat (2 * (inputs + (outputs + offset))))%nat); [|lia].
  apply Hin. apply in_or_app. right. apply in_flat_map.
  exists (Z.to_nat outputs - 1)%nat. split.
  - apply in_seq. lia.
  - right. left. reflexivity.
Qed.

Lemma store_all_app {A} s1 s2 : forall t : list A,
  store_all t (s1 ++ s2)
  = match store_all t s1 with
    | Some t1 => store_all t1 s2
    | None => None
    end.
Proof.
  induction s1 as [|[k v] s1 IH]; intros t; cbn [app store_all]; [reflexivity|].
  destruct (store t k v); [apply IH|reflexivity].
Qed.

Lemma store_all_other {A} stores : forall (t t' : list A) k,
  store_all t stores = Some t' -> ~ In k (map fst stores) ->
  nth_error t' k = nth_error t k.
Proof.
  induction stores as [|[k0 v0] stores IH]; intros t t' k H Hk; cbn [store_all] in H.
  - injection H as <-. reflexivity.
  - destruct (store t k0 v0) as [t1|] eqn:E; [|discriminate H].
    cbn [map fst In] in Hk.
    rewrite (IH _ _ _ H) by tauto.
    rewrite (nth_error_store _ _ _ _ _ E).
    destruct (Nat.eqb_spec k k0); [subst; tauto|reflexivity].
Qed.

(** The table holds what was stored at an index, when every store at
    that index stored the same. *)
Lemma store_all_last {A} stores : forall (t t' : list A) k v,
  store_all t stores = Some t' -> In (k, v) stores ->
  (forall v', In (k, v') stores -> v' = v) ->
  nth_error t' k = Some v.
Proof.
  induction stores as [|[k0 v0] stores IH]; intros t t' k v H Hin Hsame;
    cbn [store_all] in H; [destruct Hin|].
  destruct (store t k0 v0) as [t1|] eqn:E; [|discriminate H].
  destruct (in_dec Nat.eq_dec k (map fst stores)) as [Hlater|Hlater].
  - apply in_map_iff in Hlater. destruct Hlater as ([k' v'] & Hk' & Hin').
    cbn [fst] in Hk'. subst k'.
    assert (v' = v) by (apply Hsame; right; exact Hin'). subst v'.
    apply (IH _ _ _ _ H Hin'). intros v'' Hv''. apply Hsame. right. exact Hv''.
  - rewrite (store_all_other _ _ _ _ H Hlater).
    destruct Hin as [Heq|Hin].
    + injection Heq as -> ->. rewrite (nth_error_store _ _ _ _ _ E).
      now rewrite Nat.eqb_refl.
    + exfalso. apply Hlater. apply in_map_iff. exists (k, v). auto.
Qed.

(** Where the carving succeeds, outputBufferPtrs[index][i] is the pointer
    to the [index] half of buffer info inputChannelCount +
    outputChannelOffset + i. *)
Lemma carved_outputs inputs outputs offset total ptrs inp outp L :
  0 <= inputs -> 0 <= offset <= total -> 0 < outputs ->
  carve_buffer_ptrs inputs outputs offset total = Some (ptrs, inp, outp) ->
  bufferPtrs L = ptrs ->
  forall i, (i < Z.to_nat outputs)%nat ->
    buffer_ptr L outp 0 i
    = Some {| info := Z.to_nat (inputs + offset + Z.of_nat i); half := 0 |}
    /\ buffer_ptr L outp 1 i
       = Some {| info := Z.to_nat (inputs + offset + Z.of_nat i); half := 1 |}.
Proof.
  intros Hi Ho Hn H HL i Hlt. unfold carve_buffer_ptrs in H.
  destruct (Z.gtb_spec outputs 0) as [_|]; [|lia].
  rewrite store_all_app in H.
  match type of H with
  | match (match store_all ?t ?s1 with _ => _ end) with _ => _ end = _ =>
      destruct (store_all t s1) as [t1|]; [|discriminate H]
  end.
  match type of H with
  | match store_all t1 ?s2 with _ => _ end = _ =>
      destruct (store_all t1 s2) as [t2|] eqn:E; [|discriminate H]
  end.
  injection H as <- _ <-. unfold buffer_ptr. rewrite HL.
  cbn [Z.eqb fst snd].
  set (out0 := Z.to_nat (inputs + offset)) in *.
  set (out1 := Z.to_nat (inputs * 2 + outputs + total)) in *.
  assert (Hfar : (out0 + Z.to_nat outputs <= out1)%nat) by (subst out0 out1; lia).
  assert (Hmem : forall k v,
            In (k, v)
               (flat_map
                  (fun i0 : nat =>
                     [((out0 + i0)%nat,
                       Some {| info := Z.to_nat (inputs + offset + Z.of_nat i0);
                               half := 0 |});
                      ((out1 + i0)%nat,
                       Some {| info := Z.to_nat (inputs + offset + Z.of_nat i0);
                               half := 1 |})])
                  (seq 0 (Z.to_nat outputs))) ->
            exists i0, (i0 < Z.to_nat outputs)%nat
              /\ ((k = (out0 + i0)%nat
                   /\ v = Some {| info := Z.to_nat (inputs + offset + Z.of_nat i0);
                                  half := 0 |})
                  \/ (k = (out1 + i0)%nat
                      /\ v = Some {| info := Z.to_nat (inputs + offset + Z.of_nat i0);
                                     half := 1 |}))).
  { intros k v Hin. apply in_flat_map in Hin. destruct Hin as (i0 & Hseq & Hin).
    apply in_seq in Hseq. exists i0. split; [lia|].
    destruct Hin as [Heq|[Heq|[]]]; injection Heq as <- <-; auto. }
  split.
  - rewrite (store_all_last _ _ _ (out0 + i)%nat
               (Some {| info := Z.to_nat (inputs + offset + Z.of_nat i); half := 0 |})
               E); [reflexivity| |].
    + apply in_flat_map. exists i. split; [apply in_seq; lia|left; reflexivity].
    + intros v' Hv'. destruct (Hmem _ _ Hv') as (i0 & Hi0 & [[Hk ->]|[Hk ->]]).
      * replace i0 with i by lia. reflexivity.
      * lia.
  - rewrite (store_all_last _ _ _ (out1 + i)%nat
               (Some {| info := Z.to_nat (inputs + offset + Z.of_nat i); half := 1 |})
               E); [reflexivity| |].
    + apply in_flat_map. exists i.
      split; [apply in_seq; lia|right; left; reflexivity].
    + intros v' Hv'. destruct (Hmem _ _ Hv') as (i0 & Hi0 & [[Hk ->]|[Hk ->]]).
      * lia.
      * replace i0 with i by lia. reflexivity.
Qed.

Lemma nth_error_seq_inside a n k :
  (k < n)%nat -> nth_error (seq a n) k = Some (a + k)%nat.
Proof.
  revert a k. induction n as [|n IH]; intros a [|k] H; try lia; cbn [seq nth_error].
  - f_equal. lia.
  - rewrite IH by lia. f_equal. lia.
Qed.

(** The buffer infos after those of the inputs are output infos for the
    channels 0, 1, 2, ... of the driver. *)
Lemma nth_error_output_infos inputs total selectors hw k :
  (k < Z.to_nat total)%nat ->
  nth_error (make_buffer_infos inputs total selectors hw) (Z.to_nat inputs + k)
  = Some {| isInput := false; channelNum := Z.of_nat k;
            buffers := hw (Z.to_nat inputs + k)%nat |}.
Proof.
  intros H. unfold make_buffer_infos.
  rewrite nth_error_app2 by (rewrite length_map, length_seq; lia).
  rewrite length_map, length_seq.
  replace (Z.to_nat inputs + k - Z.to_nat inputs)%nat with k by lia.
  rewrite nth_error_map, nth_error_seq_inside by exact H. reflexivity.
Qed.

(** ZeroOutputBuffers zeroes the dummy buffers whether zeroOutput is set
    or not. *)
Lemma ZeroOutputBuffers_dummy s index j :
  0 <= inputChannelCount (layout s) -> 0 <= outputChannelCount (layout s) ->
  is_dummy (layout s) j = true ->
  nth_error (asioBufferInfos (ZeroOutputBuffers s index)) j
  = option_map (zero_half (layout s) index j) (nth_error (asioBufferInfos s) j).
Proof.
  intros Hi Ho Hd. unfold is_dummy in Hd.
  apply andb_true_iff in Hd. destruct Hd as [Hlo Hhi].
  apply Nat.leb_le in Hlo. apply Nat.ltb_lt in Hhi.
  unfold ZeroOutputBuffers.
  destruct (zeroOutput s); cbn [negb asioBufferInfos set_asioBufferInfos];
    rewrite nth_error_zeroed by exact Hi;
    match goal with
    | |- context [(?a <=? ?b)%nat] => destruct (Nat.leb_spec a b); [|lia]
    end;
    match goal with
    | |- context [(?a <? ?b)%nat] => destruct (Nat.ltb_spec a b); [|lia]
    end; reflexivity.
Qed.

Lemma ZeroOutputBuffers_layout s index :
  layout (ZeroOutputBuffers s index) = layout s.
Proof. unfold ZeroOutputBuffers. destruct (zeroOutput s); reflexivity. Qed.

Lemma StartStream_infos s env :
  asioBufferInfos (snd (StartStream s env))
  = asioBufferInfos (if outputChannelCount (layout s) >? 0
                     then ZeroOutputBuffers (ZeroOutputBuffers s 0) 1 else s).
Proof.
  unfold StartStream.
  set (s0 := if outputChannelCount (layout s) >? 0
             then ZeroOutputBuffers (ZeroOutputBuffers s 0) 1 else s).
  repeat match goal with
         | |- context [match blockingState ?x with _ => _ end] =>
             destruct (blockingState x)
         | |- context [start_blocking ?L ?e ?b] => destruct (start_blocking L e b)
         | |- context [if ?c then _ else _] => destruct c
         end; reflexivity.
Qed.

(** StartStream zeroes both halves of the dummy buffers of a stream with
    output channels. *)
Lemma StartStream_zeroes_dummies s env j :
  0 <= inputChannelCount (layout s) -> 0 < outputChannelCount (layout s) ->
  is_dummy (layout s) j = true ->
  nth_error (asioBufferInfos (snd (StartStream s env))) j
  = option_map (fun b => zero_half (layout s) 1 j (zero_half (layout s) 0 j b))
               (nth_error (asioBufferInfos s) j).
Proof.
  intros Hi Ho Hd. rewrite StartStream_infos.
  destruct (Z.gtb_spec (outputChannelCount (layout s)) 0); [|lia].
  rewrite ZeroOutputBuffers_dummy; rewrite ?ZeroOutputBuffers_layout; try lia;
    try exact Hd.
  rewrite ZeroOutputBuffers_dummy by (try lia; exact Hd).
  destruct (nth_error (asioBufferInfos s) j); reflexivity.
Qed.

(** C4: what the code does. An OpenStream for output channels that
    returns paNoError was for at most two of them, on a driver with two
    more channels than were asked for. The stream it opens has an output
    channel offset of 2: output channel i is mapped to channel i + 2 of the
    driver, whose buffer info comes after those of the inputs and of the
    two dummy channels 0 and 1, and outputBufferPtrs leads to the two
    halves of that buffer. StartStream zeroes both halves of the dummy
    buffers, and a buffer switch with zeroOutput set zeroes the half it is
    called for. *)
Theorem opened_outputs_reach_hardware :
  (forall native w inputParameters p sampleRate framesPerBuffer streamFlags
          streamCallback env w',
     0 < channelCount p ->
     match inputParameters with Some q => 0 <= channelCount q | None => True end ->
     OpenStream native w inputParameters (Some p) sampleRate framesPerBuffer
                streamFlags streamCallback env = Opened paNoError w' ->
     channelCount p <= 2
     /\ channelCount p + 2 <= Negotiate.outputChannelCount (driver env)
     /\ exists stream,
          theAsioStream w' = Some stream
          /\ outputChannelCount (layout stream) = channelCount p
          /\ outputChannelOffset (layout stream) = 2
          /\ 0 <= inputChannelCount (layout stream)
          /\ (forall j, (j < 2)%nat ->
                let asioBufferIndex :=
                  (Z.to_nat (inputChannelCount (layout stream)) + j)%nat in
                is_dummy (layout stream) asioBufferIndex = true
                /\ nth_error (asioBufferInfos stream) asioBufferIndex
                   = Some {| isInput := false; channelNum := Z.of_nat j;
                             buffers := hwBytes env asioBufferIndex |})
          /\ (forall i, (i < Z.to_nat (channelCount p))%nat ->
                let asioBufferIndex :=
                  (Z.to_nat (inputChannelCount (layout stream)) + (2 + i))%nat in
                nth_error (outputChannelMap (layout stream)) i = Some (2 + Z.of_nat i)
                /\ nth_error (asioBufferInfos stream) asioBufferIndex
                   = Some {| isInput := false; channelNum := 2 + Z.of_nat i;
                             buffers := hwBytes env asioBufferIndex |}
                /\ buffer_ptr (layout stream) (outputBufferPtrs (layout stream)) 0 i
                   = Some {| info := asioBufferIndex; half := 0 |}
                /\ buffer_ptr (layout stream) (outputBufferPtrs (layout stream)) 1 i
                   = Some {| info := asioBufferIndex; half := 1 |}))
  /\ (forall s env j,
        0 <= inputChannelCount (layout s) -> 0 < outputChannelCount (layout s) ->
        is_dummy (layout s) j = true ->
        nth_error (asioBufferInfos (snd (StartStream s env))) j
        = option_map (fun b => zero_half (layout s) 1 j (zero_half (layout s) 0 j b))
                     (nth_error (asioBufferInfos s) j))
  /\ (forall s c j,
        reenterCount s = -1 -> zeroOutput s = true ->
        0 <= inputChannelCount (layout s) -> is_dummy (layout s) j = true ->
        nth_error (asioBufferInfos (buffer_switch s c)) j
        = option_map (zero_half (layout s) (index c) j)
                     (nth_error (asioBufferInfos s) j)).
Proof.
  split; [|split].
  - intros native w inputParameters p sampleRate framesPerBuffer streamFlags
           streamCallback env w' Hout Hin H.
    destruct (OpenStream_success _ _ _ _ _ _ _ _ _ _ H)
      as (_ & idx & input & output & stream & _ & _ & Hs & Ci & Co & ->).
    cbn [theAsioStream].
    assert (Hi : 0 <= dirChannelCount input).
    { rewrite Ci. destruct inputParameters; [exact Hin|lia]. }
    destruct (open_stream_Go _ _ _ _ _ _ _ _ _ Hs)
      as (_ & Li & Lo & Loff & Lmap & Linfos & Lcarve & _).
    rewrite Co in *. rewrite <- Li in Hi.
    revert Loff Lmap Linfos Lcarve. unfold output_layout.
    destruct (Z.gtb_spec (channelCount p + 2)
                         (Negotiate.outputChannelCount (driver env)))
      as [Few|Enough]; cbn [fst snd]; intros Loff Lmap Linfos Lcarve.
    { rewrite <- (Z.add_0_r (channelCount p)) in Lcarve at 2.
      rewrite carve_buffer_ptrs_overruns in Lcarve by lia. discriminate Lcarve. }
    assert (Fit : channelCount p <= 2).
    { destruct (Z.le_gt_cases (channelCount p) 2) as [|Many]; [assumption|].
      rewrite carve_buffer_ptrs_overruns in Lcarve by lia. discriminate Lcarve. }
    split; [exact Fit|]. split; [lia|]. exists stream.
    split; [reflexivity|]. split; [exact Lo|]. split; [exact Loff|].
    split; [exact Hi|]. rewrite <- Li in Linfos, Lcarve. split.
    + intros j Hj. split.
      * unfold is_dummy. rewrite Loff.
        apply andb_true_iff. split; [apply Nat.leb_le|apply Nat.ltb_lt]; lia.
      * rewrite Linfos. apply nth_error_output_infos. lia.
    + intros i Hlt.
      destruct (Z.gtb_spec (channelCount p) 0); [|lia].
      split; [|split].
      * rewrite Lmap, nth_error_map, nth_error_seq_inside by exact Hlt.
        reflexivity.
      * rewrite Linfos, nth_error_output_infos by lia.
        do 2 f_equal. lia.
      * replace (Z.to_nat (inputChannelCount (layout stream)) + (2 + i))%nat
          with (Z.to_nat (inputChannelCount (layout stream) + 2 + Z.of_nat i))
          by lia.
        apply (carved_outputs (inputChannelCount (layout stream)) (channelCount p) 2
                 (channelCount p + 2) _ _ _ (layout stream) Hi
                 ltac:(lia) Hout Lcarve eq_refl i Hlt).
  - intros s env j. apply StartStream_zeroes_dummies.
  - intros s c j Idle Z0 Hi Hd. rewrite zeroed_dummies by assumption.
    rewrite Hd. reflexivity.
Qed.

(** Two output channels on a driver with four: the stream plays through
    the channels 2 and 3 of the driver, and StartStream zeroes the buffers
    of the channels 0 and 1. *)
Lemma opened_outputs_reach_hardware_witness :
  exists stream,
    theAsioStream opened_world = Some stream
    /\ outputChannelMap (layout stream) = [2; 3]
    /\ buffer_ptr (layout stream) (outputBufferPtrs (layout stream)) 1 0
       = Some {| info := 2; half := 1 |}
    /\ option_map buffers (nth_error (asioBufferInfos (snd (StartStream stream all_goes_well))) 0)
       = Some (repeat 0 8, repeat 0 8).
Proof.
  destruct opened_outputs_reach_hardware as (Opens & Starts & _).
  destruct (Opens PA_LSB_IS_NATIVE_ closed_world None (outputs 2) 48000 2 0 true
                  (friendly small_driver) opened_world)
    as (_ & _ & stream & Hs & Ho & Hoff & Hi & _ & Houts);
    [reflexivity|exact I|reflexivity|].
  exists stream. split; [exact Hs|].
  injection Hs as <-. split; [reflexivity|].
  split; [apply (Houts O); cbn; lia|].
  rewrite Starts; [reflexivity|cbn; lia|cbn; lia|reflexivity].
Defined.

(** C4 fails where there are more output channels than the offset: two
    output channels on a driver with two, where the offset falls back to 0,
    and three on a driver with five. The second half of the output
    pointers, outputBufferPtrs[1][i], is then stored beyond the end of
    bufferPtrs, so OpenStream has no defined result. *)
Lemma open_stores_outside_bufferPtrs :
  output_layout 2 stereo_driver = (0, 2)
  /\ carve_buffer_ptrs 0 2 0 2 = None
  /\ OpenStream PA_LSB_IS_NATIVE_ closed_world None (Some (outputs 2))
                48000 2 0 true (friendly stereo_driver) = OpenUndefined
  /\ output_layout 3 five_output_driver = (2, 5)
  /\ carve_buffer_ptrs 0 3 2 5 = None
  /\ OpenStream PA_LSB_IS_NATIVE_ closed_world None (Some (outputs 3))
                48000 2 0 true (friendly five_output_driver) = OpenUndefined.
Proof. repeat split. Qed.

End StreamFacts.

(** ** Blocking reads and writes *)

Module BlockingFacts.
Import Convert Negotiate Ring Stream Scenario BlockingScenario.

(** A wait on an event that is not set, during which nothing happens
    before the timeout, times out and leaves the stream as it was. *)
Lemma wait_times_out signalled taken timeout s w :
  failed w = false -> signalled s = false ->
  (forall t h, In (t, h) (schedule w) -> timeout <= t) ->
  WaitForSingleObject signalled taken timeout s w = (WAIT_TIMEOUT, s).
Proof.
  intros Hf Hs Hall. unfold WaitForSingleObject. rewrite Hf.
  destruct (schedule w) as [|[t h] rest]; cbn [wait_for]; rewrite Hs; [reflexivity|].
  specialize (Hall t h (or_introl eq_refl)).
  destruct (Z.ltb_spec t timeout); [lia | reflexivity].
Qed.

(** A wait ends within the timeout: nothing that happens at the timeout
    or later is part of it. *)
Lemma wait_result signalled taken timeout s w :
  fst (WaitForSingleObject signalled taken timeout s w) = WAIT_FAILED <-> failed w = true.
Proof.
  unfold WaitForSingleObject. destruct (failed w); [now split|].
  split; [|discriminate]. generalize (schedule w). intros l. revert s.
  induction l as [|[t h] l IH]; intros s; cbn [wait_for];
    destruct (signalled s); try discriminate.
  destruct (t <? timeout); [apply IH | discriminate].
Qed.

Lemma on_blocking_some f s b :
  blockingState s = Some b -> on_blocking f s = set_blockingState (Some (f b)) s.
Proof. intros H. unfold on_blocking. rewrite H. reflexivity. Qed.

Lemma read_loop_timeout fuel s env timeout lFramesPerBlock lFramesRemaining read b s' :
  blockingState s = Some b ->
  PaUtil_GetRingBufferReadAvailable (readRingBuffer b)
    < to_long (next_block lFramesPerBlock lFramesRemaining) ->
  wait_readFramesReadyEvent timeout
    (requesting_read (next_block lFramesPerBlock lFramesRemaining) b s)
    (hd no_wait (waits env)) = (WAIT_TIMEOUT, s') ->
  read_loop (S fuel) s env timeout lFramesPerBlock lFramesRemaining read
  = Some (if read_blocking stopFlag false s' then paStreamIsStopped else paTimedOut,
          read, s').
Proof.
  unfold next_block, wait_readFramesReadyEvent, requesting_read.
  intros Hb Hshort Hwait. cbn [read_loop]. unfold io_wait.
  unfold read_blocking at 1. rewrite Hb.
  apply Z.ltb_lt in Hshort. rewrite Hshort.
  rewrite (on_blocking_some _ s b Hb). rewrite Hwait.
  destruct (read_blocking stopFlag false s'); reflexivity.
Qed.

Lemma write_loop_timeout fuel s env timeout lFramesPerBlock lFramesRemaining buffer b s' :
  blockingState s = Some b ->
  PaUtil_GetRingBufferWriteAvailable (writeRingBuffer b)
    < to_long (next_block lFramesPerBlock lFramesRemaining) ->
  wait_writeBuffersReadyEvent timeout
    (requesting_write (next_block lFramesPerBlock lFramesRemaining) b s)
    (hd no_wait (waits env)) = (WAIT_TIMEOUT, s') ->
  write_loop (S fuel) s env timeout lFramesPerBlock lFramesRemaining buffer
  = Some (if read_blocking stopFlag false s' then paStreamIsStopped else paTimedOut, s').
Proof.
  unfold next_block, wait_writeBuffersReadyEvent, requesting_write.
  intros Hb Hshort Hwait. cbn [write_loop]. unfold io_wait.
  unfold read_blocking at 1. rewrite Hb.
  apply Z.ltb_lt in Hshort. rewrite Hshort.
  rewrite (on_blocking_some _ s b Hb). rewrite Hwait.
  destruct (read_blocking stopFlag false s'); reflexivity.
Qed.

Lemma io_timeout_eight_blocks L :
  0 < sampleRate L -> 0 <= framesPerUserBuffer L ->
  8 * framesPerUserBuffer L * 1000 < 2 ^ 32 ->
  io_timeout L = 8 * framesPerUserBuffer L * 1000 / sampleRate L.
Proof.
  intros Hr Hf Hs. unfold io_timeout, wrap32.
  rewrite (Z.mod_small (8 * framesPerUserBuffer L * 1000)) by lia.
  apply Z.mod_small. split.
  - apply Z.div_pos; lia.
  - apply Z.div_lt_upper_bound; nia.
Qed.

(** C8: ReadStream and WriteStream return paStreamIsStopped at once, the
    stream untouched, when the stop flag of the blocking state is set or
    the stream is not active.  In every turn of their loops in which the
    ring buffer holds too few frames (has too little room) for the next
    block, the call waits with the timeout of the stream; when that wait
    times out the call returns, with paTimedOut when the stop flag is
    still unset and with paStreamIsStopped otherwise, two different codes
    that are both errors.  A wait during which nothing sets the event
    before the timeout does time out, and the timeout is the time of eight
    user blocks in milliseconds. *)
Theorem blocking_io_stops_or_times_out s b env :
  blockingState s = Some b ->
  (* the entry check *)
  (stopFlag b = true \/ isActive s = 0 ->
   (forall fuel frames, ReadStream fuel s frames env = Some (paStreamIsStopped, [], s))
   /\ (forall fuel buffer frames,
         WriteStream fuel s buffer frames env = Some (paStreamIsStopped, s)))
  (* the first wait of a call *)
  /\ (stopFlag b = false -> isActive s <> 0 ->
      (forall fuel frames s',
         inputChannelCount (layout s) <> 0 ->
         let block := next_block (framesPerUserBuffer (layout s)) frames in
         PaUtil_GetRingBufferReadAvailable (readRingBuffer b) < to_long block ->
         wait_readFramesReadyEvent (io_timeout (layout s)) (requesting_read block b s)
           (hd no_wait (waits env)) = (WAIT_TIMEOUT, s') ->
         ReadStream (S fuel) s frames env
         = Some (if read_blocking stopFlag false s' then paStreamIsStopped else paTimedOut,
                 [], s'))
      /\ (forall fuel buffer frames s',
            outputChannelCount (layout s) <> 0 ->
            let block := next_block (framesPerUserBuffer (layout s)) frames in
            PaUtil_GetRingBufferWriteAvailable (writeRingBuffer b) < to_long block ->
            wait_writeBuffersReadyEvent (io_timeout (layout s)) (requesting_write block b s)
              (hd no_wait (waits env)) = (WAIT_TIMEOUT, s') ->
            WriteStream (S fuel) s buffer frames env
            = Some (if read_blocking stopFlag false s' then paStreamIsStopped
                    else paTimedOut, s')))
  (* every later wait *)
  /\ (forall fuel timeout lFramesPerBlock lFramesRemaining read s',
        let block := next_block lFramesPerBlock lFramesRemaining in
        PaUtil_GetRingBufferReadAvailable (readRingBuffer b) < to_long block ->
        wait_readFramesReadyEvent timeout (requesting_read block b s)
          (hd no_wait (waits env)) = (WAIT_TIMEOUT, s') ->
        read_loop (S fuel) s env timeout lFramesPerBlock lFramesRemaining read
        = Some (if read_blocking stopFlag false s' then paStreamIsStopped else paTimedOut,
                read, s'))
  /\ (forall fuel timeout lFramesPerBlock lFramesRemaining buffer s',
        let block := next_block lFramesPerBlock lFramesRemaining in
        PaUtil_GetRingBufferWriteAvailable (writeRingBuffer b) < to_long block ->
        wait_writeBuffersReadyEvent timeout (requesting_write block b s)
          (hd no_wait (waits env)) = (WAIT_TIMEOUT, s') ->
        write_loop (S fuel) s env timeout lFramesPerBlock lFramesRemaining buffer
        = Some (if read_blocking stopFlag false s' then paStreamIsStopped else paTimedOut,
                s'))
  (* waits that time out *)
  /\ (forall frames w,
        failed w = false ->
        (forall t h, In (t, h) (schedule w) -> io_timeout (layout s) <= t) ->
        (readFramesReadyEvent b = false ->
         wait_readFramesReadyEvent (io_timeout (layout s)) (requesting_read frames b s) w
         = (WAIT_TIMEOUT, requesting_read frames b s))
        /\ (writeBuffersReadyEvent b = false ->
            wait_writeBuffersReadyEvent (io_timeout (layout s)) (requesting_write frames b s) w
            = (WAIT_TIMEOUT, requesting_write frames b s)))
  (* the timeout and the codes *)
  /\ (0 < sampleRate (layout s) -> 0 <= framesPerUserBuffer (layout s) ->
      8 * framesPerUserBuffer (layout s) * 1000 < 2 ^ 32 ->
      io_timeout (layout s)
      = 8 * framesPerUserBuffer (layout s) * 1000 / sampleRate (layout s))
  /\ paTimedOut <> paStreamIsStopped /\ paTimedOut <> paNoError
  /\ paStreamIsStopped <> paNoError.
Proof.
  intros Hb.
  assert (Entry : stopFlag b = true \/ isActive s = 0 ->
            read_blocking stopFlag false s || (isActive s =? 0) = true).
  { unfold read_blocking. rewrite Hb. intros [H|H]; rewrite H;
      [reflexivity | apply orb_true_r]. }
  assert (Pass : stopFlag b = false -> isActive s <> 0 ->
            read_blocking stopFlag false s || (isActive s =? 0) = false).
  { unfold read_blocking. rewrite Hb. intros H1 H2. rewrite H1.
    apply Z.eqb_neq in H2. rewrite H2. reflexivity. }
  repeat match goal with |- _ /\ _ => split end.
  - intros H. specialize (Entry H). split; intros; unfold ReadStream, WriteStream;
      rewrite Entry; reflexivity.
  - intros H1 H2. specialize (Pass H1 H2). split.
    + intros fuel frames s' Hc block Hshort Hwait. unfold ReadStream. rewrite Pass.
      apply Z.eqb_neq in Hc. rewrite Hc. cbn [negb].
      apply (read_loop_timeout _ _ _ _ _ _ _ b); assumption.
    + intros fuel buffer frames s' Hc block Hshort Hwait. unfold WriteStream. rewrite Pass.
      apply Z.eqb_neq in Hc. rewrite Hc. cbn [negb].
      apply (write_loop_timeout _ _ _ _ _ _ _ b); assumption.
  - intros. apply (read_loop_timeout _ _ _ _ _ _ _ b); assumption.
  - intros. apply (write_loop_timeout _ _ _ _ _ _ _ b); assumption.
  - intros frames w Hf Hall. split; intros He;
      apply wait_times_out; try assumption; unfold read_blocking; exact He.
  - apply io_timeout_eight_blocks.
  - discriminate.
  - discriminate.
  - discriminate.
Qed.

(** On the started blocking stream of the scenario, whose ring buffer of
    input frames is empty, a read of two frames during which nothing
    happens times out; once the stream has been stopped, a read returns
    paStreamIsStopped. *)
Lemma blocking_io_stops_or_times_out_witness :
  ReadStream 1 started_blocking_stream 2 nothing_happens
  = Some (paTimedOut, [],
          on_blocking (fun b => set_readFramesRequestedFlag true (set_readFramesRequested 2 b))
                      started_blocking_stream)
  /\ io_timeout (layout started_blocking_stream) = 16.
Proof.
  destruct (blockingState started_blocking_stream) as [b|] eqn:Hb;
    [|vm_compute in Hb; discriminate Hb].
  pose proof (blocking_io_stops_or_times_out started_blocking_stream b nothing_happens Hb)
    as (_ & First & _ & _ & Waits & Timeout & _).
  assert (Eb : Some b = blockingState started_blocking_stream) by (symmetry; exact Hb).
  vm_compute in Eb. injection Eb as Eb.
  split.
  - destruct First as [Read _]; [subst b; reflexivity | vm_compute; discriminate|].
    rewrite (Read 0%nat 2 (requesting_read 2 b started_blocking_stream)).
    + subst b. vm_compute. reflexivity.
    + vm_compute. discriminate.
    + subst b. vm_compute. reflexivity.
    + destruct (Waits 2 no_wait) as [W _];
        [reflexivity | intros t h [] | apply W; subst b; reflexivity].
  - rewrite Timeout; vm_compute; congruence.
Defined.

End BlockingFacts.

(** ** The ring buffers of blocking streams *)

Module RingFacts.
Import Ring Stream RingView.

Lemma to_long_id x : 0 <= x < 2 ^ 31 -> to_long x = x.
Proof.
  intros H. unfold to_long. rewrite Z.mod_small by lia.
  destruct (Z.ltb_spec x (2 ^ 31)); lia.
Qed.

(** Two different indices less than the capacity apart are stored at
    different positions. *)
Lemma position_apart rb i j :
  0 < bufferSize rb -> i <> j -> - bufferSize rb < i - j < bufferSize rb ->
  position rb i <> position rb j.
Proof.
  intros Hm Hij Hd Heq. unfold position in Heq.
  apply Z2Nat.inj in Heq; try (apply Z.mod_pos_bound; lia).
  pose proof (Z.div_mod i (bufferSize rb) ltac:(lia)) as Hi.
  pose proof (Z.div_mod j (bufferSize rb) ltac:(lia)) as Hj.
  assert (E : i - j = bufferSize rb * (i / bufferSize rb - j / bufferSize rb)) by lia.
  assert (i / bufferSize rb - j / bufferSize rb = 0) by nia.
  lia.
Qed.

Lemma position_inside rb i :
  0 < bufferSize rb -> length (buffer rb) = Z.to_nat (bufferSize rb) ->
  (position rb i < length (buffer rb))%nat.
Proof.
  intros Hm Hl. unfold position. rewrite Hl.
  pose proof (Z.mod_pos_bound i (bufferSize rb) Hm). lia.
Qed.

Lemma ring_store_length {A} (l : list A) : forall k v l',
  store l k v = Some l' -> length l' = length l.
Proof.
  induction l as [|x l IH]; intros [|k] v l' H; cbn [store] in H; try discriminate.
  - injection H as <-. reflexivity.
  - destruct (store l k v) as [r|] eqn:E; [|discriminate].
    injection H as <-. cbn [length]. f_equal. eapply IH. exact E.
Qed.

Lemma ring_store_nth {A} (l : list A) : forall k v l' j d,
  store l k v = Some l' -> nth j l' d = if (j =? k)%nat then v else nth j l d.
Proof.
  induction l as [|x l IH]; intros [|k] v l' j d H; cbn [store] in H; try discriminate.
  - injection H as <-. destruct j; reflexivity.
  - destruct (store l k v) as [r|] eqn:E; [|discriminate].
    injection H as <-. destruct j as [|j]; [reflexivity|].
    cbn [nth]. rewrite (IH _ _ _ _ _ E). reflexivity.
Qed.

Lemma ring_store_inside {A} (l : list A) : forall k v,
  (k < length l)%nat -> exists l', store l k v = Some l'.
Proof.
  induction l as [|x l IH]; intros [|k] v H; cbn [length] in H; try lia; cbn [store].
  - eauto.
  - destruct (IH k v ltac:(lia)) as [r ->]. eauto.
Qed.

Lemma update_length {A} (l : list A) k f : length (update l k f) = length l.
Proof.
  unfold update. destruct (nth_error l k); [|reflexivity].
  destruct (store l k (f a)) eqn:E; [|reflexivity].
  eapply ring_store_length. exact E.
Qed.

Lemma update_nth {A} (l : list A) k v j d :
  (k < length l)%nat ->
  nth j (update l k (fun _ => v)) d = if (j =? k)%nat then v else nth j l d.
Proof.
  intros H. unfold update.
  destruct (nth_error l k) as [x|] eqn:E; [|apply nth_error_None in E; lia].
  destruct (ring_store_inside l k v H) as [l' S]. rewrite S.
  eapply ring_store_nth. exact S.
Qed.

Lemma store_frames_length rb data : forall storage from,
  length (store_frames rb storage from data) = length storage.
Proof.
  induction data as [|f data IH]; intros storage from; cbn [store_frames]; [reflexivity|].
  rewrite IH. apply update_length.
Qed.

(** Frames stored at later indices leave the frame at an index less than
    the capacity before them alone. *)
Lemma store_frames_elsewhere rb data : forall storage from i,
  0 < bufferSize rb -> length storage = Z.to_nat (bufferSize rb) ->
  (i < from \/ from + Z.of_nat (length data) <= i) ->
  from + Z.of_nat (length data) - bufferSize rb <= i < from + bufferSize rb ->
  nth (position rb i) (store_frames rb storage from data) []
  = nth (position rb i) storage [].
Proof.
  induction data as [|f data IH]; intros storage from i Hm Hl Hout Hwin;
    cbn [store_frames]; [reflexivity|].
  cbn [length] in Hout, Hwin.
  rewrite IH; try lia; [|rewrite update_length; exact Hl].
  rewrite update_nth.
  - destruct (Nat.eqb_spec (position rb i) (position rb from)) as [E|E]; [|reflexivity].
    exfalso. revert E. apply position_apart; lia.
  - unfold position. rewrite Hl.
    pose proof (Z.mod_pos_bound from (bufferSize rb) Hm). lia.
Qed.

Lemma frames_from_ext rb rb' n : forall from,
  bufferSize rb' = bufferSize rb -> buffer rb' = buffer rb ->
  frames_from rb' from n = frames_from rb from n.
Proof.
  induction n as [|n IH]; intros from Hs Hb; cbn [frames_from]; [reflexivity|].
  unfold position. rewrite Hs, Hb. f_equal. apply IH; assumption.
Qed.

Lemma frames_from_length rb n : forall from, length (frames_from rb from n) = n.
Proof. induction n as [|n IH]; intros from; cbn [frames_from length]; auto. Qed.

Lemma frames_from_app rb m : forall from n,
  frames_from rb from (m + n)
  = frames_from rb from m ++ frames_from rb (from + Z.of_nat m) n.
Proof.
  induction m as [|m IH]; intros from n.
  - cbn [frames_from app Nat.add]. f_equal. lia.
  - cbn [frames_from app Nat.add]. f_equal. rewrite IH. do 2 f_equal. lia.
Qed.

Lemma frames_from_firstn rb k n from :
  (k <= n)%nat -> firstn k (frames_from rb from n) = frames_from rb from k.
Proof.
  intros H. replace n with (k + (n - k))%nat by lia.
  rewrite frames_from_app, firstn_app, frames_from_length.
  replace (k - k)%nat with O by lia.
  rewrite firstn_O, app_nil_r.
  rewrite firstn_all2; [reflexivity | rewrite frames_from_length; lia].
Qed.

Lemma frames_from_skipn rb k n from :
  (k <= n)%nat ->
  skipn k (frames_from rb from n) = frames_from rb (from + Z.of_nat k) (n - k).
Proof.
  intros H. replace n with (k + (n - k))%nat at 1 by lia.
  rewrite frames_from_app, skipn_app, frames_from_length.
  replace (k - k)%nat with O by lia.
  rewrite skipn_all2; [reflexivity | rewrite frames_from_length; lia].
Qed.

(** Frames come back from the indices they were stored at. *)
Lemma frames_from_stored rb data : forall storage from,
  0 < bufferSize rb -> length storage = Z.to_nat (bufferSize rb) ->
  Z.of_nat (length data) <= bufferSize rb ->
  frames_from (with_buffer rb (store_frames rb storage from data)) from (length data)
  = data.
Proof.
  induction data as [|f data IH]; intros storage from Hm Hl Hn; [reflexivity|].
  cbn [length] in Hn. cbn [length frames_from store_frames]. f_equal.
  - change (position (with_buffer rb ?s) from) with (position rb from).
    cbn [buffer with_buffer].
    rewrite store_frames_elsewhere; try lia; [|rewrite update_length; exact Hl].
    rewrite update_nth, Nat.eqb_refl; [reflexivity|].
    unfold position. rewrite Hl.
    pose proof (Z.mod_pos_bound from (bufferSize rb) Hm). lia.
  - apply IH; try lia. rewrite update_length. exact Hl.
Qed.

(** Frames stored elsewhere leave the frames at [m] indices alone. *)
Lemma frames_from_kept rb data storage start m : forall from,
  0 < bufferSize rb -> length storage = Z.to_nat (bufferSize rb) ->
  from + Z.of_nat m <= start ->
  start + Z.of_nat (length data) - bufferSize rb <= from ->
  frames_from (with_buffer rb (store_frames rb storage start data)) from m
  = frames_from (with_buffer rb storage) from m.
Proof.
  induction m as [|m IH]; intros from Hm Hl Hb Hw; [reflexivity|].
  cbn [frames_from]. f_equal.
  - change (position (with_buffer rb ?s) from) with (position rb from).
    cbn [buffer with_buffer]. apply store_frames_elsewhere; lia.
  - apply IH; lia.
Qed.

Lemma with_buffer_same rb n from :
  frames_from (with_buffer rb (buffer rb)) from n = frames_from rb from n.
Proof. apply frames_from_ext; reflexivity. Qed.

End RingFacts.

(** ** The blocking i/o callback *)

Module BlockingCallbackFacts.
Import Ring Stream RingView RingFacts OneWayView.

Lemma saturate_all n available :
  0 <= n <= available -> Z.max 0 (Z.min n available) = n.
Proof. lia. Qed.

(** Reading [n] frames of those a ring buffer holds takes the [n] oldest. *)
Lemma ReadRingBuffer_contents rb n :
  well_formed rb -> 0 <= n <= PaUtil_GetRingBufferReadAvailable rb ->
  let '(data, rb') := PaUtil_ReadRingBuffer rb n in
  data = firstn (Z.to_nat n) (contents rb)
  /\ rb' = PaUtil_AdvanceRingBufferReadIndex rb n
  /\ contents rb' = skipn (Z.to_nat n) (contents rb)
  /\ well_formed rb'.
Proof.
  intros (Hm & Hl & Hr & Hw) Hn. unfold PaUtil_ReadRingBuffer.
  rewrite saturate_all by exact Hn.
  unfold PaUtil_GetRingBufferReadAvailable in Hn.
  unfold contents, PaUtil_GetRingBufferReadAvailable.
  repeat split; unfold PaUtil_AdvanceRingBufferReadIndex;
    cbn [bufferSize buffer readIndex writeIndex]; try lia; try assumption.
  - rewrite frames_from_firstn by lia. reflexivity.
  - rewrite frames_from_skipn by lia.
    rewrite Z2Nat.id by lia.
    replace (Z.to_nat (writeIndex rb - readIndex rb) - Z.to_nat n)%nat
      with (Z.to_nat (writeIndex rb - (readIndex rb + n))) by lia.
    apply frames_from_ext; reflexivity.
Qed.

(** Writing [n] frames into the room a ring buffer has puts them behind
    the frames it holds. *)
Lemma WriteRingBuffer_contents rb data n :
  well_formed rb -> 0 <= n <= PaUtil_GetRingBufferWriteAvailable rb ->
  (Z.to_nat n <= length data)%nat ->
  let rb' := snd (PaUtil_WriteRingBuffer rb data n) in
  contents rb' = contents rb ++ firstn (Z.to_nat n) data
  /\ readIndex rb' = readIndex rb /\ writeIndex rb' = writeIndex rb + n
  /\ bufferSize rb' = bufferSize rb
  /\ well_formed rb'.
Proof.
  intros (Hm & Hl & Hr & Hw) Hn Hd. unfold PaUtil_WriteRingBuffer.
  rewrite saturate_all by exact Hn.
  unfold PaUtil_GetRingBufferWriteAvailable, PaUtil_GetRingBufferReadAvailable in Hn.
  cbn [snd]. cbv zeta.
  assert (Hlen : length (firstn (Z.to_nat n) data) = Z.to_nat n)
    by (rewrite length_firstn; lia).
  repeat split; cbn [bufferSize buffer readIndex writeIndex]; try lia; try assumption.
  - unfold contents, PaUtil_GetRingBufferReadAvailable.
    cbn [bufferSize buffer readIndex writeIndex].
    replace (Z.to_nat (writeIndex rb + n - readIndex rb))
      with (Z.to_nat (writeIndex rb - readIndex rb) + Z.to_nat n)%nat by lia.
    rewrite frames_from_app. rewrite Z2Nat.id by lia.
    replace (readIndex rb + (writeIndex rb - readIndex rb)) with (writeIndex rb) by lia.
    f_equal.
    + etransitivity; [|apply with_buffer_same].
      etransitivity; [|apply (frames_from_kept rb (firstn (Z.to_nat n) data)
                                 (buffer rb) (writeIndex rb)); try assumption; lia].
      apply frames_from_ext; reflexivity.
    + transitivity
        (frames_from
           (with_buffer rb (store_frames rb (buffer rb) (writeIndex rb)
                              (firstn (Z.to_nat n) data)))
           (writeIndex rb) (length (firstn (Z.to_nat n) data))).
      * rewrite Hlen. apply frames_from_ext; reflexivity.
      * apply frames_from_stored; try assumption. lia.
  - rewrite store_frames_length. exact Hl.
Qed.

(** Dropping the [n] oldest frames. *)
Lemma AdvanceReadIndex_contents rb n :
  well_formed rb -> 0 <= n <= PaUtil_GetRingBufferReadAvailable rb ->
  contents (PaUtil_AdvanceRingBufferReadIndex rb n) = skipn (Z.to_nat n) (contents rb)
  /\ well_formed (PaUtil_AdvanceRingBufferReadIndex rb n).
Proof.
  intros W Hn. pose proof (ReadRingBuffer_contents rb n W Hn) as H.
  unfold PaUtil_ReadRingBuffer in H. rewrite saturate_all in H by exact Hn.
  destruct H as (_ & _ & H1 & H2). split; assumption.
Qed.

Lemma contents_length rb :
  length (contents rb) = Z.to_nat (PaUtil_GetRingBufferReadAvailable rb).
Proof. apply frames_from_length. Qed.

Lemma firstn_contents rb :
  firstn (Z.to_nat (PaUtil_GetRingBufferReadAvailable rb)) (contents rb) = contents rb.
Proof. apply firstn_all2. rewrite contents_length. lia. Qed.

Lemma skipn_contents rb :
  skipn (Z.to_nat (PaUtil_GetRingBufferReadAvailable rb)) (contents rb) = [].
Proof. apply skipn_all2. rewrite contents_length. lia. Qed.

(** The output half of the callback. *)
Lemma blocking_output_spec L b a :
  well_formed (writeRingBuffer b) -> 0 <= framesPerBuffer a < 2 ^ 31 ->
  let queued := contents (writeRingBuffer b) in
  let frames := Z.to_nat (framesPerBuffer a) in
  let silence := zero_frames (outputChannelCount L) (framesPerBuffer a) (outputBuffer a) in
  let out := fst (blocking_output L b a) in
  let b' := snd (blocking_output L b a) in
  (if (frames <=? length queued)%nat then
     out = overwrite (firstn frames queued) (outputBuffer a)
     /\ contents (writeRingBuffer b') = skipn frames queued
     /\ outputUnderflowFlag b' = (outputUnderflowFlag b || underflow_reported a)%bool
   else
     outputUnderflowFlag b' = true
     /\ if stopFlag b
        then out = overwrite queued silence /\ contents (writeRingBuffer b') = []
        else out = silence /\ writeRingBuffer b' = writeRingBuffer b)
  /\ well_formed (writeRingBuffer b')
  /\ readRingBuffer b' = readRingBuffer b /\ stopFlag b' = stopFlag b
  /\ inputOverflowFlag b' = inputOverflowFlag b.
Proof.
  intros W Hn queued frames silence out b'.
  subst out b'. unfold blocking_output. fold (underflow_reported a).
  rewrite (to_long_id (framesPerBuffer a)) by exact Hn.
  set (b0 := if underflow_reported a then set_outputUnderflowFlag true b else b).
  assert (E0 : writeRingBuffer b0 = writeRingBuffer b /\ stopFlag b0 = stopFlag b
               /\ readRingBuffer b0 = readRingBuffer b
               /\ inputOverflowFlag b0 = inputOverflowFlag b
               /\ writeBuffersRequestedFlag b0 = writeBuffersRequestedFlag b
               /\ outputUnderflowFlag b0
                  = (outputUnderflowFlag b || underflow_reported a)%bool).
  { unfold b0. destruct (underflow_reported a); cbn; rewrite ?orb_true_r, ?orb_false_r;
      repeat split; reflexivity. }
  destruct E0 as (Ew & Es & Er & Ei & Ef & Eu). rewrite Ew.
  pose proof W as (Hm & Hl & Hr & Hw).
  assert (Ha : 0 <= PaUtil_GetRingBufferReadAvailable (writeRingBuffer b))
    by (unfold PaUtil_GetRingBufferReadAvailable; lia).
  subst queued. rewrite contents_length. subst frames.
  destruct (Z.geb_spec (PaUtil_GetRingBufferReadAvailable (writeRingBuffer b))
                       (framesPerBuffer a)) as [Enough|Short].
  - destruct (Nat.leb_spec (Z.to_nat (framesPerBuffer a))
                (Z.to_nat (PaUtil_GetRingBufferReadAvailable (writeRingBuffer b))));
      [|lia].
    pose proof (ReadRingBuffer_contents (writeRingBuffer b) (framesPerBuffer a) W
                  ltac:(lia)) as R.
    destruct (PaUtil_ReadRingBuffer (writeRingBuffer b) (framesPerBuffer a))
      as [data rb'].
    destruct R as (Rd & _ & Rc & Rw). subst data.
    match goal with
    | |- context [if ?c then ?x else ?y] =>
        assert (K : forall P : PaAsioStreamBlockingState -> Prop,
                   P x -> P y -> P (if c then x else y))
          by (intros P; destruct c; auto)
    end.
    cbn [fst snd]. split; [split; [reflexivity|]|].
    + apply (K (fun r => contents (writeRingBuffer r) = _ /\ outputUnderflowFlag r = _));
        cbn; rewrite Eu; auto.
    + apply (K (fun r => well_formed (writeRingBuffer r) /\ readRingBuffer r = _
                         /\ stopFlag r = _ /\ inputOverflowFlag r = _));
        cbn; auto.
  - destruct (Nat.leb_spec (Z.to_nat (framesPerBuffer a))
                (Z.to_nat (PaUtil_GetRingBufferReadAvailable (writeRingBuffer b))));
      [lia|].
    cbn [stopFlag set_outputUnderflowFlag]. rewrite Es.
    destruct (Z.ltb_spec (PaUtil_GetRingBufferReadAvailable (writeRingBuffer b))
                         (framesPerBuffer a)); [|lia].
    destruct (stopFlag b) eqn:Stop; cbn [andb].
    + pose proof (ReadRingBuffer_contents (writeRingBuffer b)
                    (PaUtil_GetRingBufferReadAvailable (writeRingBuffer b)) W
                    ltac:(lia)) as R.
      destruct (PaUtil_ReadRingBuffer (writeRingBuffer b)
                  (PaUtil_GetRingBufferReadAvailable (writeRingBuffer b)))
        as [data rb'].
      destruct R as (Rd & _ & Rc & Rw). subst data.
      rewrite firstn_contents. rewrite skipn_contents in Rc.
      match goal with
      | |- context [if ?c then ?x else ?y] =>
          assert (K : forall P : PaAsioStreamBlockingState -> Prop,
                     P x -> P y -> P (if c then x else y))
            by (intros P; destruct c; auto)
      end.
      cbn [fst snd]. split; [split; [|split; [reflexivity|]]|].
      * apply (K (fun r => outputUnderflowFlag r = true)); reflexivity.
      * apply (K (fun r => contents (writeRingBuffer r) = [])); cbn; exact Rc.
      * apply (K (fun r => well_formed (writeRingBuffer r) /\ readRingBuffer r = _
                           /\ stopFlag r = _ /\ inputOverflowFlag r = _));
          cbn; rewrite ?Es, ?Er, ?Ei; auto.
    + match goal with
      | |- context [if ?c then ?x else ?y] =>
          assert (K : forall P : PaAsioStreamBlockingState -> Prop,
                     P x -> P y -> P (if c then x else y))
            by (intros P; destruct c; auto)
      end.
      cbn [fst snd]. split; [split; [|split; [reflexivity|]]|].
      * apply (K (fun r => outputUnderflowFlag r = true)); reflexivity.
      * apply (K (fun r => writeRingBuffer r = _)); cbn; exact Ew.
      * apply (K (fun r => well_formed (writeRingBuffer r) /\ readRingBuffer r = _
                           /\ stopFlag r = _ /\ inputOverflowFlag r = _));
          cbn; rewrite ?Ew, ?Es, ?Er, ?Ei; auto.
Qed.


(** The input half of the callback. *)
Lemma blocking_input_spec b a :
  well_formed (readRingBuffer b) -> 0 <= framesPerBuffer a < 2 ^ 31 ->
  2 * framesPerBuffer a <= bufferSize (readRingBuffer b) ->
  (Z.to_nat (framesPerBuffer a) <= length (inputBuffer a))%nat ->
  let frames := Z.to_nat (framesPerBuffer a) in
  let full :=
    PaUtil_GetRingBufferWriteAvailable (readRingBuffer b) <? framesPerBuffer a in
  let b' := blocking_input b a in
  contents (readRingBuffer b')
  = skipn (if full then frames else O) (contents (readRingBuffer b))
    ++ firstn frames (inputBuffer a)
  /\ readIndex (readRingBuffer b')
     = readIndex (readRingBuffer b) + (if full then framesPerBuffer a else 0)
  /\ inputOverflowFlag b' = (inputOverflowFlag b || overflow_reported a || full)%bool
  /\ well_formed (readRingBuffer b')
  /\ writeRingBuffer b' = writeRingBuffer b /\ stopFlag b' = stopFlag b
  /\ outputUnderflowFlag b' = outputUnderflowFlag b.
Proof.
  intros W Hn Hsize Hdata frames full b'.
  subst b'. unfold blocking_input. fold (overflow_reported a).
  rewrite (to_long_id (framesPerBuffer a)) by exact Hn.
  set (b0 := if overflow_reported a then set_inputOverflowFlag true b else b).
  assert (E0 : readRingBuffer b0 = readRingBuffer b /\ stopFlag b0 = stopFlag b
               /\ writeRingBuffer b0 = writeRingBuffer b
               /\ outputUnderflowFlag b0 = outputUnderflowFlag b
               /\ inputOverflowFlag b0
                  = (inputOverflowFlag b || overflow_reported a)%bool).
  { unfold b0. destruct (overflow_reported a); cbn; rewrite ?orb_true_r, ?orb_false_r;
      repeat split; reflexivity. }
  destruct E0 as (Er & Es & Ew & Eu & Ei). rewrite Er. fold full.
  pose proof W as (Hm & Hl & Hr & Hw).
  set (rd := readRingBuffer b) in *.
  set (dropped := if full then PaUtil_AdvanceRingBufferReadIndex rd (framesPerBuffer a)
                  else rd).
  assert (D : contents dropped = skipn (if full then frames else O) (contents rd)
              /\ well_formed dropped
              /\ framesPerBuffer a <= PaUtil_GetRingBufferWriteAvailable dropped
              /\ readIndex dropped
                 = readIndex rd + (if full then framesPerBuffer a else 0)).
  { unfold dropped, full.
    destruct (Z.ltb_spec (PaUtil_GetRingBufferWriteAvailable rd) (framesPerBuffer a))
      as [Full|Room].
    - unfold PaUtil_GetRingBufferWriteAvailable in Full.
      destruct (AdvanceReadIndex_contents rd (framesPerBuffer a) W ltac:(lia)) as [C Wd].
      repeat split; try apply Wd; try exact C.
      unfold PaUtil_GetRingBufferWriteAvailable, PaUtil_GetRingBufferReadAvailable,
        PaUtil_AdvanceRingBufferReadIndex in *.
      cbn [bufferSize readIndex writeIndex]. lia.
    - repeat split; try apply W; try assumption; cbn [skipn]; lia. }
  destruct D as (Dc & Dw & Droom & Dr).
  pose proof (WriteRingBuffer_contents dropped (inputBuffer a) (framesPerBuffer a) Dw
                ltac:(lia) Hdata) as Wr.
  cbv zeta in Wr. destruct Wr as (Wc & Wri & _ & _ & Ww).
  replace (let '(pRb, b1) :=
             if full
             then (PaUtil_AdvanceRingBufferReadIndex rd (framesPerBuffer a),
                   set_inputOverflowFlag true b0)
             else (rd, b0) in _)
    with (let pRb := snd (PaUtil_WriteRingBuffer dropped (inputBuffer a) (framesPerBuffer a)) in
          let b1 := set_readRingBuffer pRb
                      (if full then set_inputOverflowFlag true b0 else b0) in
          if readFramesRequestedFlag b1
             && (PaUtil_GetRingBufferReadAvailable pRb >=? to_long (readFramesRequested b1))
          then set_readFramesReadyEvent true
                 (set_readFramesRequested 0 (set_readFramesRequestedFlag false b1))
          else b1)
    by (unfold dropped; destruct full; reflexivity).
  cbv zeta.
  match goal with
  | |- context [if ?c then ?x else ?y] =>
      match type of x with
      | PaAsioStreamBlockingState =>
          assert (K : forall P : PaAsioStreamBlockingState -> Prop,
                     P x -> P y -> P (if c then x else y))
            by (intros P; destruct c; auto)
      end
  end.
  apply (K (fun r => contents (readRingBuffer r) = _ /\ readIndex (readRingBuffer r) = _
                     /\ inputOverflowFlag r = _ /\ well_formed (readRingBuffer r)
                     /\ writeRingBuffer r = _ /\ stopFlag r = _
                     /\ outputUnderflowFlag r = _)); clear K;
    cbn [readRingBuffer inputOverflowFlag writeRingBuffer stopFlag outputUnderflowFlag
         set_readFramesReadyEvent set_readFramesRequested set_readFramesRequestedFlag
         set_readRingBuffer];
    rewrite Wc, Dc, Wri, Dr;
    refine (conj eq_refl (conj eq_refl (conj _ (conj Ww (conj _ (conj _ _))))));
    destruct full; cbn [inputOverflowFlag writeRingBuffer stopFlag outputUnderflowFlag
                        set_inputOverflowFlag];
    rewrite ?orb_true_r, ?orb_false_r; auto.
Qed.

Ltac finish :=
  repeat match goal with
         | |- _ /\ _ => split
         | |- _ -> _ => intro
         end;
  try contradiction; try reflexivity; try assumption.

(** C7 (amended): on every call of the blocking i/o callback, for a frame
    count below 2^31, the ring buffer of each direction that has channels
    being well formed, the read ring buffer at least two blocks large when
    there are input channels, whatever the ring buffer of a direction
    without channels is: the call returns paContinue.  With output
    channels: when the write ring buffer holds at least [framesPerBuffer]
    frames, exactly that many, its oldest, are taken from it to the start
    of the output buffer; otherwise the underflow flag is set and the
    output buffer is zero-filled, and nothing is taken from the ring
    buffer, unless the stop flag is set: then all the frames the ring
    buffer still holds are taken from it and put over the zeros at the
    start of the output buffer.  With input channels: when the read ring
    buffer has no room for [framesPerBuffer] frames, its oldest
    [framesPerBuffer] frames are dropped and the overflow flag is set; in
    every case the first [framesPerBuffer] frames of the input buffer are
    then put behind the frames it holds.  Without channels of a direction
    its buffer and ring buffer are left alone. *)
Theorem blocking_callback_moves_one_block L b a :
  0 <= framesPerBuffer a < 2 ^ 31 ->
  (outputChannelCount L <> 0 -> well_formed (writeRingBuffer b)) ->
  (inputChannelCount L <> 0 ->
   well_formed (readRingBuffer b)
   /\ 2 * framesPerBuffer a <= bufferSize (readRingBuffer b)
   /\ (Z.to_nat (framesPerBuffer a) <= length (inputBuffer a))%nat) ->
  let call := BlockingIoPaCallback L b a in
  let out := snd (fst call) in
  let b' := snd call in
  let frames := Z.to_nat (framesPerBuffer a) in
  let queued := contents (writeRingBuffer b) in
  let silence := zero_frames (outputChannelCount L) (framesPerBuffer a) (outputBuffer a) in
  let full :=
    PaUtil_GetRingBufferWriteAvailable (readRingBuffer b) <? framesPerBuffer a in
  fst (fst call) = paContinue
  /\ (outputChannelCount L <> 0 ->
      if (frames <=? length queued)%nat then
        out = overwrite (firstn frames queued) (outputBuffer a)
        /\ contents (writeRingBuffer b') = skipn frames queued
        /\ outputUnderflowFlag b' = (outputUnderflowFlag b || underflow_reported a)%bool
      else
        outputUnderflowFlag b' = true
        /\ if stopFlag b
           then out = overwrite queued silence /\ contents (writeRingBuffer b') = []
           else out = silence /\ writeRingBuffer b' = writeRingBuffer b)
  /\ (inputChannelCount L <> 0 ->
      contents (readRingBuffer b')
      = skipn (if full then frames else O) (contents (readRingBuffer b))
        ++ firstn frames (inputBuffer a)
      /\ inputOverflowFlag b'
         = (inputOverflowFlag b || overflow_reported a || full)%bool)
  /\ (outputChannelCount L = 0 -> out = outputBuffer a /\ writeRingBuffer b' = writeRingBuffer b)
  /\ (inputChannelCount L = 0 -> readRingBuffer b' = readRingBuffer b).
Proof.
  intros Hn Hwrite Hread call out b' frames queued silence full.
  subst call out b'. unfold BlockingIoPaCallback.
  destruct (Z.eqb_spec (outputChannelCount L) 0) as [NoOut|Out]; cbn [negb].
  - destruct (Z.eqb_spec (inputChannelCount L) 0) as [NoIn|In]; cbn [negb fst snd].
    + finish.
    + destruct (Hread In) as (Wr & Hsize & Hdata).
      pose proof (blocking_input_spec b a Wr Hn Hsize Hdata) as I. cbv zeta in I.
      fold frames full in I. destruct I as (Ic & _ & Ii & _ & Iw & _).
      finish.
  - pose proof (blocking_output_spec L b a (Hwrite Out) Hn) as O. cbv zeta in O.
    fold frames queued silence in O.
    destruct (blocking_output L b a) as [out b1]. cbn [fst snd] in O.
    destruct O as (Oo & Ow & Or & Os & Oi).
    destruct (Z.eqb_spec (inputChannelCount L) 0) as [NoIn|In]; cbn [negb fst snd].
    + finish.
    + destruct (Hread In) as (Wr & Hsize & Hdata).
      rewrite <- Or in Wr, Hsize.
      pose proof (blocking_input_spec b1 a Wr Hn Hsize Hdata) as I. cbv zeta in I.
      rewrite Or, Oi in I. fold frames full in I.
      destruct I as (Ic & _ & Ii & _ & Iw & Is & Iu).
      rewrite Iw, Iu. finish.
Qed.

(** C7, as stated, fails when the stop flag is set: the write ring buffer
    holds one frame, fewer than the two of the call, yet the output buffer
    is not left zero-filled: the frame 7 is played before one frame of
    zeros, and the ring buffer is emptied. *)
Lemma flushing_plays_the_rest :
  PaUtil_GetRingBufferReadAvailable (writeRingBuffer flushing)
    < framesPerBuffer (two_frames 0)
  /\ snd (fst (BlockingIoPaCallback mono flushing (two_frames 0))) = [[7]; [0]]
  /\ zero_frames 1 2 (outputBuffer (two_frames 0)) = [[0]; [0]]
  /\ PaUtil_GetRingBufferReadAvailable
       (writeRingBuffer (snd (BlockingIoPaCallback mono flushing (two_frames 0)))) = 0.
Proof. vm_compute. repeat split; intros; discriminate. Qed.

(** The theorem on the first call for the stream that OpenStream opened
    for output alone, once started: its read ring buffer has no size, the
    two frames of silence that StartStream queued are played, and the
    write ring buffer is empty afterwards. *)
Lemma blocking_callback_moves_one_block_witness :
  inputChannelCount (layout started_player) = 0
  /\ bufferSize (readRingBuffer (blocking_state_of started_player)) = 0
  /\ snd (fst (BlockingIoPaCallback (layout started_player)
                 (blocking_state_of started_player) stereo_block))
     = [[0; 0]; [0; 0]]
  /\ contents (writeRingBuffer
                 (snd (BlockingIoPaCallback (layout started_player)
                         (blocking_state_of started_player) stereo_block)))
     = [].
Proof.
  assert (Hn : 0 <= framesPerBuffer stereo_block < 2 ^ 31) by (cbn; lia).
  assert (Hwrite : outputChannelCount (layout started_player) <> 0 ->
                   well_formed (writeRingBuffer (blocking_state_of started_player))).
  { intros _. vm_compute. repeat split; intros; discriminate. }
  assert (Hread : inputChannelCount (layout started_player) <> 0 ->
                  well_formed (readRingBuffer (blocking_state_of started_player))
                  /\ 2 * framesPerBuffer stereo_block
                     <= bufferSize (readRingBuffer (blocking_state_of started_player))
                  /\ (Z.to_nat (framesPerBuffer stereo_block)
                      <= length (inputBuffer stereo_block))%nat).
  { intros In. exfalso. apply In. vm_compute. reflexivity. }
  pose proof (blocking_callback_moves_one_block (layout started_player)
                (blocking_state_of started_player) stereo_block Hn Hwrite Hread)
    as (_ & O & _).
  cbv zeta in O.
  split; [vm_compute; reflexivity|]. split; [vm_compute; reflexivity|].
  assert (Out : outputChannelCount (layout started_player) <> 0)
    by (vm_compute; discriminate).
  specialize (O Out).
  change ((Z.to_nat (framesPerBuffer stereo_block)
           <=? length (contents (writeRingBuffer (blocking_state_of started_player))))%nat)
    with true in O.
  cbv iota in O. destruct O as (Oo & Oc & _).
  split; [rewrite Oo | rewrite Oc]; vm_compute; reflexivity.
Defined.

End BlockingCallbackFacts.

(** ** ReadStream and WriteStream when they need not wait *)

Module BlockingIoFacts.
Import Ring Stream RingView RingFacts BlockingCallbackFacts BlockingScenario BlockingFacts
  BlockingIoView OneWayView.

Lemma regions_sum rb from n : fst (regions rb from n) + snd (regions rb from n) = n.
Proof.
  unfold regions. cbv zeta.
  destruct (from mod bufferSize rb + n >? bufferSize rb); cbn [fst snd]; lia.
Qed.

Lemma wrap32_id x : 0 <= x < 2 ^ 32 -> wrap32 x = x.
Proof. intros H. unfold wrap32. apply Z.mod_small. exact H. Qed.

Lemma Advance_read_twice rb m n :
  PaUtil_AdvanceRingBufferReadIndex (PaUtil_AdvanceRingBufferReadIndex rb m) (n - m)
  = PaUtil_AdvanceRingBufferReadIndex rb n.
Proof.
  unfold PaUtil_AdvanceRingBufferReadIndex. cbn [bufferSize writeIndex readIndex buffer].
  f_equal. lia.
Qed.

Lemma frames_from_Advance rb m from n :
  frames_from (PaUtil_AdvanceRingBufferReadIndex rb m) from n = frames_from rb from n.
Proof. apply frames_from_ext; reflexivity. Qed.

(** The loop of ReadStream over a ring buffer that holds all the frames
    asked for. *)
Lemma set_blockingState_twice v v' s :
  set_blockingState v' (set_blockingState v s) = set_blockingState v' s.
Proof. reflexivity. Qed.

Lemma read_loop_no_wait env timeout : copies_what_fits env ->
  forall fuel s lFramesPerBlock lFramesRemaining read b,
  blockingState s = Some b -> well_formed (readRingBuffer b) ->
  0 < lFramesPerBlock < 2 ^ 31 ->
  0 <= lFramesRemaining <= PaUtil_GetRingBufferReadAvailable (readRingBuffer b) ->
  lFramesRemaining < 2 ^ 31 ->
  (Z.to_nat lFramesRemaining < fuel)%nat ->
  read_loop fuel s env timeout lFramesPerBlock lFramesRemaining read
  = Some (if inputOverflowFlag b then paInputOverflowed else paNoError,
          read ++ firstn (Z.to_nat lFramesRemaining) (contents (readRingBuffer b)),
          set_blockingState (Some (after_read lFramesRemaining b)) s).
Proof.
  intros Hcopy. induction fuel as [|fuel IH];
    intros s block remaining read b Hb W Hblock Hrem Hlong Hfuel; [lia|].
  cbn [read_loop].
  set (m := if block <? remaining then block else remaining).
  assert (Hm : 0 <= m <= remaining /\ m <= block /\ (0 < remaining -> 0 < m))
    by (unfold m; destruct (Z.ltb_spec block remaining); lia).
  clearbody m.
  unfold read_blocking at 1. rewrite Hb.
  rewrite (to_long_id m) by lia.
  destruct (Z.ltb_spec (PaUtil_GetRingBufferReadAvailable (readRingBuffer b)) m); [lia|].
  replace (read_blocking readRingBuffer
             {| bufferSize := 0; writeIndex := 0; readIndex := 0; buffer := [] |} s)
    with (readRingBuffer b) by (unfold read_blocking; rewrite Hb; reflexivity).
  unfold PaUtil_GetRingBufferReadRegions.
  rewrite saturate_all by lia.
  rewrite (surjective_pairing (regions (readRingBuffer b) (readIndex (readRingBuffer b)) m)).
  rewrite Hcopy, regions_sum, Z.min_id.
  rewrite (on_blocking_some _ s b Hb).
  rewrite (to_long_id m) by lia.
  rewrite (wrap32_id (remaining - m)) by lia.
  pose proof W as (Wm & Wl & Wr & Ww).
  unfold PaUtil_GetRingBufferReadAvailable in Hrem.
  destruct (Z.eqb_spec (remaining - m) 0) as [Done|More]; cbn [negb].
  - assert (m = remaining) by lia. subst m.
    unfold read_blocking, on_blocking.
    cbn [blockingState set_blockingState inputOverflowFlag set_readRingBuffer].
    unfold contents. rewrite frames_from_firstn
      by (unfold PaUtil_GetRingBufferReadAvailable; lia).
    unfold after_read.
    destruct (inputOverflowFlag b); rewrite ?set_blockingState_twice; reflexivity.
  - set (b1 := set_readRingBuffer
                 (PaUtil_AdvanceRingBufferReadIndex (readRingBuffer b) m) b).
    rewrite (IH (set_blockingState (Some b1) s) m (remaining - m) _ b1); try lia;
      try reflexivity.
    + rewrite set_blockingState_twice. f_equal. f_equal; [f_equal|].
      * rewrite <- app_assoc. f_equal.
        unfold contents, b1. cbn [readRingBuffer set_readRingBuffer].
        unfold PaUtil_GetRingBufferReadAvailable.
        cbn [PaUtil_AdvanceRingBufferReadIndex readIndex writeIndex].
        rewrite !frames_from_firstn by lia.
        rewrite frames_from_Advance.
        replace (Z.to_nat remaining) with (Z.to_nat m + Z.to_nat (remaining - m))%nat
          by lia.
        rewrite frames_from_app. rewrite Z2Nat.id by lia. reflexivity.
      * unfold after_read, b1.
        cbn [readRingBuffer set_readRingBuffer inputOverflowFlag].
        rewrite Advance_read_twice.
        destruct (inputOverflowFlag b); reflexivity.
    + unfold b1. cbn [readRingBuffer set_readRingBuffer].
      apply AdvanceReadIndex_contents; [exact W|].
      unfold PaUtil_GetRingBufferReadAvailable. lia.
    + unfold b1, PaUtil_GetRingBufferReadAvailable.
      cbn [readRingBuffer set_readRingBuffer PaUtil_AdvanceRingBufferReadIndex
           readIndex writeIndex]. lia.
Qed.


(** The ring buffer after one turn of the loop of WriteStream. *)
Lemma write_turn rb data m :
  0 <= m <= PaUtil_GetRingBufferWriteAvailable rb ->
  PaUtil_AdvanceRingBufferWriteIndex
    {| bufferSize := bufferSize rb; writeIndex := writeIndex rb;
       readIndex := readIndex rb;
       buffer := store_frames rb (buffer rb) (writeIndex rb) (firstn (Z.to_nat m) data) |}
    m
  = snd (PaUtil_WriteRingBuffer rb data m).
Proof.
  intros H. unfold PaUtil_WriteRingBuffer. rewrite saturate_all by exact H.
  reflexivity.
Qed.

(** The loop of WriteStream over a ring buffer that has room for all the
    frames given. *)
Lemma write_loop_no_wait env timeout : copies_what_fits env ->
  forall fuel s lFramesPerBlock lFramesRemaining data b,
  blockingState s = Some b -> well_formed (writeRingBuffer b) ->
  0 < lFramesPerBlock < 2 ^ 31 ->
  0 <= lFramesRemaining <= PaUtil_GetRingBufferWriteAvailable (writeRingBuffer b) ->
  lFramesRemaining < 2 ^ 31 ->
  (Z.to_nat lFramesRemaining <= length data)%nat ->
  (Z.to_nat lFramesRemaining < fuel)%nat ->
  exists b',
    write_loop fuel s env timeout lFramesPerBlock lFramesRemaining data
    = Some (if outputUnderflowFlag b then paOutputUnderflowed else paNoError,
            set_blockingState (Some b') s)
    /\ contents (writeRingBuffer b')
       = contents (writeRingBuffer b) ++ firstn (Z.to_nat lFramesRemaining) data
    /\ well_formed (writeRingBuffer b')
    /\ bufferSize (writeRingBuffer b') = bufferSize (writeRingBuffer b)
    /\ outputUnderflowFlag b' = false
    /\ same_but_output b b'.
Proof.
  intros Hcopy. induction fuel as [|fuel IH];
    intros s block remaining data b Hb W Hblock Hrem Hlong Hdata Hfuel; [lia|].
  cbn [write_loop].
  set (m := if block <? remaining then block else remaining).
  assert (Hm : 0 <= m <= remaining /\ m <= block /\ (0 < remaining -> 0 < m))
    by (unfold m; destruct (Z.ltb_spec block remaining); lia).
  clearbody m.
  unfold read_blocking at 1. rewrite Hb.
  rewrite (to_long_id m) by lia.
  destruct (Z.ltb_spec (PaUtil_GetRingBufferWriteAvailable (writeRingBuffer b)) m); [lia|].
  replace (read_blocking writeRingBuffer
             {| bufferSize := 0; writeIndex := 0; readIndex := 0; buffer := [] |} s)
    with (writeRingBuffer b) by (unfold read_blocking; rewrite Hb; reflexivity).
  unfold PaUtil_GetRingBufferWriteRegions.
  rewrite saturate_all by lia.
  rewrite (surjective_pairing (regions (writeRingBuffer b) (writeIndex (writeRingBuffer b)) m)).
  rewrite Hcopy, regions_sum, Z.min_id.
  rewrite (on_blocking_some _ s b Hb). cbv zeta.
  rewrite (to_long_id m) by lia.
  rewrite (wrap32_id (remaining - m)) by lia.
  rewrite write_turn by lia.
  pose proof (WriteRingBuffer_contents (writeRingBuffer b) data m W ltac:(lia) ltac:(lia))
    as Turn.
  cbv zeta in Turn. destruct Turn as (Tc & Tr & Tw & Ts & Twf).
  set (rb1 := snd (PaUtil_WriteRingBuffer (writeRingBuffer b) data m)) in *.
  set (b1 := set_writeRingBuffer rb1 b).
  destruct (Z.eqb_spec (remaining - m) 0) as [Done|More]; cbn [negb].
  - assert (m = remaining) by lia. subst m.
    unfold read_blocking, on_blocking.
    cbn [blockingState set_blockingState].
    change (outputUnderflowFlag b1) with (outputUnderflowFlag b).
    destruct (outputUnderflowFlag b) eqn:U; rewrite ?set_blockingState_twice;
      eexists; (split; [reflexivity|]);
      cbn [writeRingBuffer set_outputUnderflowFlag outputUnderflowFlag];
      unfold b1; cbn [writeRingBuffer set_writeRingBuffer outputUnderflowFlag];
      repeat match goal with |- _ /\ _ => split end; try assumption; try reflexivity;
      unfold same_but_output; repeat split.
  - destruct (IH (set_blockingState (Some b1) s) m (remaining - m)
                (skipn (Z.to_nat m) data) b1) as (b' & E & C & Wf & Sz & U & Same);
      try lia; try reflexivity; try exact Twf.
    + unfold PaUtil_GetRingBufferWriteAvailable, PaUtil_GetRingBufferReadAvailable in *.
      unfold b1. cbn [writeRingBuffer set_writeRingBuffer]. lia.
    + rewrite length_skipn. lia.
    + exists b'. rewrite E, set_blockingState_twice.
      change (outputUnderflowFlag b1) with (outputUnderflowFlag b).
      split; [reflexivity|].
      repeat match goal with |- _ /\ _ => split end; try assumption.
      * rewrite C. unfold b1. cbn [writeRingBuffer set_writeRingBuffer].
        rewrite Tc, <- app_assoc. f_equal.
        replace (Z.to_nat remaining) with (Z.to_nat m + Z.to_nat (remaining - m))%nat
          by lia.
        rewrite <- (firstn_skipn (Z.to_nat m) data) at 3.
        rewrite firstn_app, length_firstn.
        replace (Nat.min (Z.to_nat m) (length data)) with (Z.to_nat m) by lia.
        replace (Z.to_nat m + Z.to_nat (remaining - m) - Z.to_nat m)%nat
          with (Z.to_nat (remaining - m)) by lia.
        f_equal. rewrite firstn_firstn. f_equal. lia.
Qed.

(** ReadStream on a stream whose ring buffer holds the frames asked for
    does not wait: it hands the caller the oldest [frames] frames in
    order, removes them from the ring buffer and changes nothing else of
    the stream but the overflow flag, which it clears after reporting it
    as paInputOverflowed. *)
Theorem ReadStream_takes_the_oldest fuel s b frames env :
  blockingState s = Some b -> stopFlag b = false -> isActive s <> 0 ->
  inputChannelCount (layout s) <> 0 ->
  well_formed (readRingBuffer b) ->
  0 < framesPerUserBuffer (layout s) < 2 ^ 31 ->
  0 <= frames <= GetStreamReadAvailable s -> frames < 2 ^ 31 ->
  copies_what_fits env -> (Z.to_nat frames < fuel)%nat ->
  ReadStream fuel s frames env
  = Some (if inputOverflowFlag b then paInputOverflowed else paNoError,
          firstn (Z.to_nat frames) (contents (readRingBuffer b)),
          set_blockingState (Some (after_read frames b)) s)
  /\ contents (readRingBuffer (after_read frames b))
     = skipn (Z.to_nat frames) (contents (readRingBuffer b))
  /\ inputOverflowFlag (after_read frames b) = false
  /\ GetStreamReadAvailable (set_blockingState (Some (after_read frames b)) s)
     = GetStreamReadAvailable s - frames.
Proof.
  intros Hb Hstop Hact Hin W Hblock Hfr Hlong Hcopy Hfuel.
  unfold GetStreamReadAvailable, read_blocking in *.
  cbn [blockingState set_blockingState]. rewrite Hb in *.
  split; [|split; [|split]].
  - unfold ReadStream, read_blocking. rewrite Hb, Hstop.
    apply Z.eqb_neq in Hact, Hin. rewrite Hact, Hin. cbn [orb negb].
    rewrite (read_loop_no_wait env _ Hcopy fuel s _ frames [] b); auto.
  - unfold after_read.
    destruct (inputOverflowFlag b); cbn [readRingBuffer set_inputOverflowFlag
                                          set_readRingBuffer];
      apply AdvanceReadIndex_contents; auto.
  - unfold after_read. destruct (inputOverflowFlag b) eqn:E; [reflexivity | exact E].
  - unfold after_read, PaUtil_GetRingBufferReadAvailable.
    destruct (inputOverflowFlag b);
      cbn [readRingBuffer set_inputOverflowFlag set_readRingBuffer
           PaUtil_AdvanceRingBufferReadIndex readIndex writeIndex]; lia.
Qed.

Ltac ground :=
  first [ solve [vm_compute; repeat split; try reflexivity; try (intro; discriminate)]
        | solve [intros ? ? ?; reflexivity]
        | solve [cbn; lia] ].

(** On the mono stream after the callback queued the frames 1 and 2, a
    ReadStream of two frames returns them. *)
Lemma ReadStream_takes_the_oldest_witness :
  exists s',
    ReadStream 3 (after_callback (two_frames 0) mono_stream) 2 buffer_processor
    = Some (paNoError, [[1]; [2]], s')
    /\ GetStreamReadAvailable s' = 0.
Proof.
  set (b := snd (BlockingIoPaCallback mono (set_stopFlag false flushing) (two_frames 0))).
  unshelve epose proof
    (ReadStream_takes_the_oldest 3 (after_callback (two_frames 0) mono_stream) b 2
       buffer_processor _ _ _ _ _ _ _ _ _ _) as (R & _ & _ & A); [ground .. |].
  eexists. rewrite R. split; [reflexivity | exact A].
Defined.

(** WriteStream on a stream whose ring buffer has room for the frames
    given does not wait: it puts them, in order, behind the frames the
    ring buffer holds, and reports an underflow the callback has flagged
    as paOutputUnderflowed, clearing the flag. *)
Theorem WriteStream_queues_the_frames fuel s b data frames env :
  blockingState s = Some b -> stopFlag b = false -> isActive s <> 0 ->
  outputChannelCount (layout s) <> 0 ->
  well_formed (writeRingBuffer b) ->
  0 < framesPerUserBuffer (layout s) < 2 ^ 31 ->
  0 <= frames <= GetStreamWriteAvailable s -> frames < 2 ^ 31 ->
  (Z.to_nat frames <= length data)%nat ->
  copies_what_fits env -> (Z.to_nat frames < fuel)%nat ->
  exists b',
    WriteStream fuel s data frames env
    = Some (if outputUnderflowFlag b then paOutputUnderflowed else paNoError,
            set_blockingState (Some b') s)
    /\ contents (writeRingBuffer b')
       = contents (writeRingBuffer b) ++ firstn (Z.to_nat frames) data
    /\ well_formed (writeRingBuffer b')
    /\ outputUnderflowFlag b' = false
    /\ same_but_output b b'.
Proof.
  intros Hb Hstop Hact Hout W Hblock Hfr Hlong Hdata Hcopy Hfuel.
  unfold GetStreamWriteAvailable, read_blocking in Hfr. rewrite Hb in Hfr.
  destruct (write_loop_no_wait env (io_timeout (layout s)) Hcopy fuel s
              (framesPerUserBuffer (layout s)) frames data b)
    as (b' & E & C & Wf & _ & U & Same); auto.
  exists b'. unfold WriteStream, read_blocking. rewrite Hb, Hstop.
  apply Z.eqb_neq in Hact, Hout. rewrite Hact, Hout. cbn [orb negb].
  auto.
Qed.


(** On the mono stream, whose ring buffer holds the frame 7, a
    WriteStream of the frames 8 and 9 leaves the three frames queued. *)
Lemma WriteStream_queues_the_frames_witness :
  exists b',
    WriteStream 3 mono_stream [[8]; [9]] 2 buffer_processor
    = Some (paNoError, set_blockingState (Some b') mono_stream)
    /\ contents (writeRingBuffer b') = [[7]; [8]; [9]].
Proof.
  unshelve epose proof
    (WriteStream_queues_the_frames 3 mono_stream (set_stopFlag false flushing)
       [[8]; [9]] 2 buffer_processor _ _ _ _ _ _ _ _ _ _ _) as (b' & E & C & _);
    [ground .. |].
  exists b'. split; [exact E | exact C].
Defined.

(** The frames WriteStream queued are the frames the callback plays: after
    a WriteStream that did not have to wait, the blocking callback, asked
    for no more frames than are queued, puts the oldest of them at the
    start of the output buffer, the frames queued before the call first
    and the frames written behind them. *)
Theorem written_frames_are_played fuel s b data frames env a code s' :
  blockingState s = Some b -> stopFlag b = false -> isActive s <> 0 ->
  outputChannelCount (layout s) <> 0 ->
  well_formed (writeRingBuffer b) ->
  0 < framesPerUserBuffer (layout s) < 2 ^ 31 ->
  0 <= frames <= GetStreamWriteAvailable s -> frames < 2 ^ 31 ->
  (Z.to_nat frames <= length data)%nat ->
  copies_what_fits env -> (Z.to_nat frames < fuel)%nat ->
  0 <= framesPerBuffer a < 2 ^ 31 ->
  framesPerBuffer a <= PaUtil_GetRingBufferReadAvailable (writeRingBuffer b) + frames ->
  WriteStream fuel s data frames env = Some (code, s') ->
  exists b',
    blockingState s' = Some b'
    /\ fst (blocking_output (layout s) b' a)
       = overwrite (firstn (Z.to_nat (framesPerBuffer a))
                       (contents (writeRingBuffer b) ++ firstn (Z.to_nat frames) data))
                   (outputBuffer a).
Proof.
  intros Hb Hstop Hact Hout W Hblock Hfr Hlong Hdata Hcopy Hfuel Hn Henough Hw.
  destruct (WriteStream_queues_the_frames fuel s b data frames env)
    as (b' & E & C & Wf & U & Same); auto.
  rewrite E in Hw. injection Hw as _ <-.
  exists b'. split; [reflexivity|].
  pose proof (blocking_output_spec (layout s) b' a Wf Hn) as O. cbv zeta in O.
  destruct O as (O & _). rewrite C in O.
  assert (L : (Z.to_nat (framesPerBuffer a)
               <= length (contents (writeRingBuffer b) ++ firstn (Z.to_nat frames) data))%nat).
  { rewrite length_app, contents_length, length_firstn.
    pose proof W as (_ & _ & Wr & _).
    unfold PaUtil_GetRingBufferReadAvailable in *. lia. }
  apply Nat.leb_le in L. rewrite L in O. apply O.
Qed.

(** After that WriteStream, the callback plays the frames 7 and 8. *)
Lemma written_frames_are_played_witness :
  exists code s' b',
    WriteStream 3 mono_stream [[8]; [9]] 2 buffer_processor = Some (code, s')
    /\ blockingState s' = Some b'
    /\ fst (blocking_output mono b' (two_frames 0)) = [[7]; [8]].
Proof.
  destruct (WriteStream 3 mono_stream [[8]; [9]] 2 buffer_processor)
    as [[code s']|] eqn:H; [|vm_compute in H; discriminate H].
  unshelve epose proof
    (written_frames_are_played 3 mono_stream (set_stopFlag false flushing)
       [[8]; [9]] 2 buffer_processor (two_frames 0) code s'
       _ _ _ _ _ _ _ _ _ _ _ _ _ H) as (b' & Hb & O); [ground .. |].
  exists code, s', b'. split; [reflexivity | split; [exact Hb | exact O]].
Defined.

(** The output half of the callback leaves the input side alone, whatever
    the write ring buffer is. *)
Lemma blocking_output_input_side L b a :
  let b' := snd (blocking_output L b a) in
  readRingBuffer b' = readRingBuffer b
  /\ stopFlag b' = stopFlag b
  /\ inputOverflowFlag b' = inputOverflowFlag b.
Proof.
  cbv zeta. unfold blocking_output, PaUtil_ReadRingBuffer.
  repeat match goal with
         | |- context [if ?c then _ else _] => destruct c
         end; cbn; auto.
Qed.

(** What the whole callback does to the ring buffer of input. *)
Lemma callback_queues_input L b a :
  well_formed (readRingBuffer b) ->
  0 <= framesPerBuffer a < 2 ^ 31 ->
  2 * framesPerBuffer a <= bufferSize (readRingBuffer b) ->
  (Z.to_nat (framesPerBuffer a) <= length (inputBuffer a))%nat ->
  inputChannelCount L <> 0 ->
  let b' := snd (BlockingIoPaCallback L b a) in
  contents (readRingBuffer b')
  = skipn (if PaUtil_GetRingBufferWriteAvailable (readRingBuffer b) <? framesPerBuffer a
           then Z.to_nat (framesPerBuffer a) else O) (contents (readRingBuffer b))
    ++ firstn (Z.to_nat (framesPerBuffer a)) (inputBuffer a)
  /\ well_formed (readRingBuffer b') /\ stopFlag b' = stopFlag b.
Proof.
  intros Wr Hn Hsize Hdata Hin. unfold BlockingIoPaCallback.
  apply Z.eqb_neq in Hin. rewrite Hin. cbn [negb].
  destruct (negb (outputChannelCount L =? 0)).
  - pose proof (blocking_output_input_side L b a) as O. cbv zeta in O.
    destruct (blocking_output L b a) as [out b1]. cbn [fst snd] in *.
    destruct O as (Or & Os & _).
    rewrite <- Or in Wr, Hsize.
    pose proof (blocking_input_spec b1 a Wr Hn Hsize Hdata) as I. cbv zeta in I.
    destruct I as (Ic & _ & _ & Iw & _ & Is & _).
    rewrite Or in Ic. rewrite Is, Os. auto.
  - cbn [snd].
    pose proof (blocking_input_spec b a Wr Hn Hsize Hdata) as I. cbv zeta in I.
    destruct I as (Ic & _ & _ & Iw & _ & Is & _). auto.
Qed.

(** The frames the callback queued are the frames ReadStream returns:
    on a blocking stream with input channels, with or without output
    channels, after the blocking callback ran on a block of input for
    which the ring buffer had room, a ReadStream for all the frames queued
    returns the frames queued before followed by the block. *)
Theorem heard_frames_are_read fuel s b a env :
  blockingState s = Some b -> stopFlag b = false -> isActive s <> 0 ->
  inputChannelCount (layout s) <> 0 ->
  well_formed (readRingBuffer b) ->
  0 < framesPerUserBuffer (layout s) < 2 ^ 31 ->
  0 < framesPerBuffer a < 2 ^ 31 ->
  2 * framesPerBuffer a <= bufferSize (readRingBuffer b) ->
  framesPerBuffer a <= PaUtil_GetRingBufferWriteAvailable (readRingBuffer b) ->
  (Z.to_nat (framesPerBuffer a) <= length (inputBuffer a))%nat ->
  PaUtil_GetRingBufferReadAvailable (readRingBuffer b) + framesPerBuffer a < 2 ^ 31 ->
  copies_what_fits env ->
  (Z.to_nat (PaUtil_GetRingBufferReadAvailable (readRingBuffer b) + framesPerBuffer a)
   < fuel)%nat ->
  exists code s',
    ReadStream fuel (after_callback a s)
      (PaUtil_GetRingBufferReadAvailable (readRingBuffer b) + framesPerBuffer a) env
    = Some (code,
            contents (readRingBuffer b)
              ++ firstn (Z.to_nat (framesPerBuffer a)) (inputBuffer a),
            s')
    /\ GetStreamReadAvailable s' = 0.
Proof.
  intros Hb Hstop Hact Hin Wr Hblock Hn Hsize Hroom Hdata Hlong Hcopy Hfuel.
  pose proof (callback_queues_input (layout s) b a Wr ltac:(lia) Hsize Hdata Hin)
    as Spec.
  cbv zeta in Spec. destruct Spec as (Sc & Swf & Ss).
  revert Sc.
  destruct (Z.ltb_spec (PaUtil_GetRingBufferWriteAvailable (readRingBuffer b))
                       (framesPerBuffer a)); [lia|].
  cbn [skipn]. intros Sc.
  set (b1 := snd (BlockingIoPaCallback (layout s) b a)) in *.
  assert (E1 : after_callback a s = set_blockingState (Some b1) s)
    by (unfold after_callback, on_blocking; rewrite Hb; reflexivity).
  assert (A1 : PaUtil_GetRingBufferReadAvailable (readRingBuffer b1)
               = PaUtil_GetRingBufferReadAvailable (readRingBuffer b) + framesPerBuffer a).
  { pose proof (f_equal (@length _) Sc) as Len.
    rewrite length_app, !contents_length, length_firstn in Len.
    pose proof Wr as (_ & _ & R & _). pose proof Swf as (_ & _ & R1 & _).
    unfold PaUtil_GetRingBufferReadAvailable in *. lia. }
  pose proof (ReadStream_takes_the_oldest fuel (set_blockingState (Some b1) s) b1
                (PaUtil_GetRingBufferReadAvailable (readRingBuffer b) + framesPerBuffer a)
                env eq_refl) as R.
  rewrite Ss in R. specialize (R Hstop Hact Hin Swf Hblock).
  unfold GetStreamReadAvailable, read_blocking in R.
  cbn [blockingState set_blockingState] in R.
  pose proof Wr as (_ & _ & Rr & _).
  destruct R as (R & _ & _ & Rz);
    try assumption;
    try (rewrite A1; unfold PaUtil_GetRingBufferReadAvailable; lia).
  rewrite E1. do 2 eexists. split.
  - rewrite R. repeat f_equal.
    rewrite <- A1, firstn_contents. exact Sc.
  - unfold GetStreamReadAvailable, read_blocking.
    cbn [blockingState set_blockingState]. rewrite Rz, A1. lia.
Qed.

(** On the stream that OpenStream opened for input alone, once started,
    whose write ring buffer has no size and whose ring buffer of input is
    empty, the two frames the callback was given are what ReadStream
    returns. *)
Lemma heard_frames_are_read_witness :
  outputChannelCount (layout started_recorder) = 0
  /\ bufferSize (writeRingBuffer (blocking_state_of started_recorder)) = 0
  /\ exists code s',
       ReadStream 3 (after_callback stereo_block started_recorder) 2 buffer_processor
       = Some (code, [[1; 1]; [2; 2]], s').
Proof.
  split; [vm_compute; reflexivity|]. split; [vm_compute; reflexivity|].
  unshelve epose proof
    (heard_frames_are_read 3 started_recorder (blocking_state_of started_recorder)
       stereo_block buffer_processor _ _ _ _ _ _ _ _ _ _ _ _ _)
    as (code & s' & R & _); [ground .. |].
  exists code, s'. exact R.
Defined.

(** A blocking call on a stream without channels of its direction fails
    with its own error code, at once and without a change to the stream. *)
Theorem wrong_direction_is_refused s b :
  blockingState s = Some b -> stopFlag b = false -> isActive s <> 0 ->
  (inputChannelCount (layout s) = 0 ->
   forall fuel frames env,
     ReadStream fuel s frames env = Some (paCanNotReadFromAnOutputOnlyStream, [], s))
  /\ (outputChannelCount (layout s) = 0 ->
      forall fuel data frames env,
        WriteStream fuel s data frames env = Some (paCanNotWriteToAnInputOnlyStream, s)).
Proof.
  intros Hb Hstop Hact. apply Z.eqb_neq in Hact.
  split; intros H0; intros; unfold ReadStream, WriteStream, read_blocking;
    rewrite Hb, Hstop, Hact, H0; reflexivity.
Qed.

(** ReadStream on the player stream, which has no input channels. *)
Lemma wrong_direction_is_refused_witness :
  ReadStream 1 player_stream 2 buffer_processor
  = Some (paCanNotReadFromAnOutputOnlyStream, [], player_stream).
Proof.
  unshelve epose proof
    (wrong_direction_is_refused player_stream (set_stopFlag false flushing) _ _ _)
    as [R _]; [ground .. |].
  apply R. reflexivity.
Defined.

Lemma stop_hardware_inactive s env result :
  isActive (snd (stop_hardware s env result)) = 0.
Proof.
  unfold stop_hardware.
  destruct (asioStopOk env); cbn [snd];
    match goal with
    | |- isActive (if negb (streamFinishedCallbackCalled ?x) then _ else _) = 0 =>
        destruct (streamFinishedCallbackCalled x); cbn [negb]; unfold streamFinished;
        try destruct (streamFinishedCallback (layout x)); reflexivity
    end.
Qed.

(** Once StopStream or AbortStream has returned, whatever happened during
    it, ReadStream and WriteStream fail with paStreamIsStopped and leave the
    stream alone. *)
Theorem stopped_stream_refuses_io s env :
  forall stopped,
    stopped = snd (StopStream s env) \/ stopped = snd (AbortStream s env) ->
    (forall fuel frames io,
       ReadStream fuel stopped frames io = Some (paStreamIsStopped, [], stopped))
    /\ (forall fuel data frames io,
          WriteStream fuel stopped data frames io = Some (paStreamIsStopped, stopped)).
Proof.
  intros stopped H.
  assert (E : isActive stopped = 0).
  { destruct H as [-> | ->].
    - unfold StopStream.
      match goal with
      | |- context [let '(result, s0) := ?e in stop_hardware s0 env result] =>
          destruct e as [result waited]
      end.
      apply stop_hardware_inactive.
    - apply stop_hardware_inactive. }
  split; intros; unfold ReadStream, WriteStream; rewrite E;
    cbn [Z.eqb]; rewrite orb_true_r; reflexivity.
Qed.

(** WriteStream on the mono stream after a StopStream during which nothing
    else happened. *)
Lemma stopped_stream_refuses_io_witness :
  WriteStream 3 (snd (StopStream mono_stream quiet_stop)) [[8]; [9]] 2 buffer_processor
  = Some (paStreamIsStopped, snd (StopStream mono_stream quiet_stop)).
Proof.
  destruct (stopped_stream_refuses_io mono_stream quiet_stop
              (snd (StopStream mono_stream quiet_stop)) (or_introl eq_refl)) as [_ W].
  apply W.
Defined.

(** The callback tests the status flags against the error codes
    paInputOverflowed and paOutputUnderflowed, not against the flags
    paInputOverflow and paOutputUnderflow: of the five flags a stream
    callback can be given, paInputUnderflow as well as paInputOverflow
    raises the overflow flag for ReadStream, and paOutputUnderflow alone
    raises the underflow flag for WriteStream. *)
Theorem status_flags_are_tested_by_error_code flags :
  0 <= flags < 32 ->
  overflow_reported (with_flags flags)
  = (Z.testbit flags 0 || Z.testbit flags 1)%bool
  /\ underflow_reported (with_flags flags) = Z.testbit flags 2.
Proof.
  intros H. unfold overflow_reported, underflow_reported, with_flags. cbn [statusFlags].
  destruct flags as [|p|p]; [split; reflexivity | | lia].
  do 5 (try destruct p as [p|p|]); try lia; split; reflexivity.
Qed.


(** The flag paInputUnderflow raises the overflow flag, paOutputOverflow
    does not raise the underflow flag. *)
Lemma status_flags_are_tested_by_error_code_witness :
  overflow_reported (with_flags paInputUnderflow) = true
  /\ underflow_reported (with_flags paOutputOverflow) = false.
Proof.
  split.
  - destruct (status_flags_are_tested_by_error_code paInputUnderflow) as [H _];
      [unfold paInputUnderflow; lia | rewrite H; reflexivity].
  - destruct (status_flags_are_tested_by_error_code paOutputOverflow) as [_ H];
      [unfold paOutputOverflow; lia | rewrite H; reflexivity].
Defined.

End BlockingIoFacts.

(** ** StartStream *)

Module StartFacts.
Import Ring Stream RingView RingFacts BlockingCallbackFacts BlockingScenario BlockingFacts
  BlockingIoView StartView.

Lemma start_blocking_result L env b :
  fst (start_blocking L env b)
  = if (if inputChannelCount L =? 0 then true else resetReadOk env)
       && (if outputChannelCount L =? 0 then true else resetWriteOk env)
    then paNoError else paUnanticipatedHostError.
Proof.
  unfold start_blocking.
  destruct (inputChannelCount L =? 0), (outputChannelCount L =? 0),
    (resetReadOk env), (resetWriteOk env); reflexivity.
Qed.

Lemma nth_map_const {A B} (v d : B) (l : list A) : forall k,
  (k < length l)%nat -> nth k (map (fun _ => v) l) d = v.
Proof.
  induction l as [|x l IH]; intros [|k] H; cbn [length] in H; try lia; cbn [map nth];
    [reflexivity | apply IH; lia].
Qed.

(** Every frame of a zeroed storage is silence. *)
Lemma frames_from_zero_storage channels rb n : forall from,
  0 < bufferSize rb -> length (buffer rb) = Z.to_nat (bufferSize rb) ->
  frames_from (zero_storage channels rb) from n
  = repeat (repeat 0 (Z.to_nat channels)) n.
Proof.
  induction n as [|n IH]; intros from Hm Hl; cbn [frames_from repeat]; [reflexivity|].
  f_equal; [|apply IH; assumption].
  unfold zero_storage at 2. cbn [buffer].
  assert (P : (position (zero_storage channels rb) from < length (buffer rb))%nat).
  { unfold position, zero_storage. cbn [bufferSize]. rewrite Hl.
    pose proof (Z.mod_pos_bound from (bufferSize rb) Hm). lia. }
  apply nth_map_const. exact P.
Qed.

(** The blocking state StartStream leaves: nothing to read, the initial
    frames of silence to play, and no request, flag or stop pending. *)
Lemma start_blocking_state L env b :
  let b' := snd (start_blocking L env b) in
  stopFlag b' = false /\ inputOverflowFlag b' = false /\ outputUnderflowFlag b' = false
  /\ readFramesRequestedFlag b' = false /\ writeBuffersRequestedFlag b' = false
  /\ readFramesRequested b' = 0 /\ writeBuffersRequested b' = 0
  /\ (inputChannelCount L <> 0 ->
      PaUtil_GetRingBufferReadAvailable (readRingBuffer b') = 0
      /\ contents (readRingBuffer b') = [])
  /\ (outputChannelCount L <> 0 ->
      0 < bufferSize (writeRingBuffer b) ->
      length (buffer (writeRingBuffer b)) = Z.to_nat (bufferSize (writeRingBuffer b)) ->
      0 <= writeRingBufferInitialFrames b <= bufferSize (writeRingBuffer b) ->
      contents (writeRingBuffer b')
      = repeat (repeat 0 (Z.to_nat (outputChannelCount L)))
               (Z.to_nat (writeRingBufferInitialFrames b))
      /\ well_formed (writeRingBuffer b')).
Proof.
  cbv zeta. unfold start_blocking.
  destruct (Z.eqb_spec (inputChannelCount L) 0) as [In|In]; cbn [negb];
    destruct (Z.eqb_spec (outputChannelCount L) 0) as [Out|Out]; cbn [negb];
    destruct (resetReadOk env), (resetWriteOk env); cbn [fst snd];
    cbn [stopFlag inputOverflowFlag outputUnderflowFlag readFramesRequestedFlag
         writeBuffersRequestedFlag readFramesRequested writeBuffersRequested
         readRingBuffer writeRingBuffer writeRingBufferInitialFrames
         set_stopFlag set_inputOverflowFlag set_outputUnderflowFlag
         set_readFramesRequestedFlag set_writeBuffersRequestedFlag
         set_readFramesRequested set_writeBuffersRequested
         set_readRingBuffer set_writeRingBuffer
         set_readFramesReadyEvent set_writeBuffersReadyEvent];
    repeat match goal with
           | |- _ /\ _ => split
           | |- _ -> _ => intro
           end;
    try reflexivity; try contradiction;
    try (unfold contents, PaUtil_GetRingBufferReadAvailable,
           PaUtil_AdvanceRingBufferWriteIndex;
         cbn [readIndex writeIndex bufferSize buffer zero_storage PaUtil_FlushRingBuffer];
         rewrite Z.sub_0_r, Z.add_0_l;
         match goal with
         | |- frames_from ?r 0 ?n = _ =>
             rewrite (frames_from_ext
                        (zero_storage (outputChannelCount L) (writeRingBuffer b)) r)
               by reflexivity;
             apply frames_from_zero_storage; assumption
         end);
    try (unfold well_formed, PaUtil_AdvanceRingBufferWriteIndex;
         cbn [readIndex writeIndex bufferSize buffer zero_storage PaUtil_FlushRingBuffer];
         rewrite length_map; repeat split; try assumption; lia).
Qed.


Lemma ZeroOutputBuffers_infos_only s index :
  ZeroOutputBuffers s index
  = set_asioBufferInfos (asioBufferInfos (ZeroOutputBuffers s index)) s.
Proof. unfold ZeroOutputBuffers. destruct (negb (zeroOutput s)); reflexivity. Qed.

Ltac start_fields :=
  cbn [layout stopProcessing stopPlayoutCount completedBuffersPlayedEvent
       streamFinishedCallbackCalled isStopped isActive zeroOutput reenterCount
       reenterError callbackFlags blockingState log asioBufferInfos
       set_asioBufferInfos set_stopProcessing set_stopPlayoutCount
       set_completedBuffersPlayedEvent set_streamFinishedCallbackCalled set_isStopped
       set_isActive set_zeroOutput set_reenterCount set_reenterError set_callbackFlags
       set_blockingState emit fst snd] in *.

(** StartStream returns paNoError exactly when the event resets it makes
    and ASIOStart succeed, and paUnanticipatedHostError otherwise.  In
    every case the processing flags and the reentrancy counter are reset.
    On success the stream is active, not stopped, with the finished
    callback not yet called.  When an event reset fails, ASIOStart is not
    called and the stream is neither marked active nor stopped anew; when
    ASIOStart fails, the stream is marked stopped and not active. *)
Theorem StartStream_starts_or_fails s env :
  let result := fst (StartStream s env) in
  let s' := snd (StartStream s env) in
  (result = paNoError \/ result = paUnanticipatedHostError)
  /\ (result = paNoError <-> resets_succeed s env = true /\ asioStartOk env = true)
  /\ (stopProcessing s' = false /\ zeroOutput s' = false /\ reenterCount s' = -1
      /\ reenterError s' = 0 /\ callbackFlags s' = 0 /\ layout s' = layout s)
  /\ (result = paNoError ->
      isActive s' = 1 /\ isStopped s' = 0 /\ streamFinishedCallbackCalled s' = false
      /\ completedBuffersPlayedEvent s' = false /\ log s' = log s ++ [EvASIOStart])
  /\ (resets_succeed s env = false ->
      log s' = log s /\ isActive s' = isActive s /\ isStopped s' = isStopped s
      /\ streamFinishedCallbackCalled s' = streamFinishedCallbackCalled s)
  /\ (resets_succeed s env = true -> asioStartOk env = false ->
      isActive s' = 0 /\ isStopped s' = 1 /\ log s' = log s ++ [EvASIOStart]).
Proof.
  cbv zeta. unfold StartStream, resets_succeed.
  set (s0 := if outputChannelCount (layout s) >? 0
             then ZeroOutputBuffers (ZeroOutputBuffers s 0) 1 else s).
  assert (E0 : s0 = set_asioBufferInfos (asioBufferInfos s0) s).
  { unfold s0. destruct (outputChannelCount (layout s) >? 0); [|destruct s; reflexivity].
    rewrite (ZeroOutputBuffers_infos_only (ZeroOutputBuffers s 0) 1).
    rewrite (ZeroOutputBuffers_infos_only s 0) at 2. reflexivity. }
  rewrite E0. generalize (asioBufferInfos s0). intros infos. clear s0 E0.
  destruct (resetCompletedOk env); cbn [andb]; start_fields;
    (destruct (blockingState s) as [b|] eqn:B;
     [ pose proof (start_blocking_result (layout s) env b) as R;
       destruct (start_blocking (layout s) env b) as [r b'];
       cbn [fst] in R; subst r;
       destruct ((if inputChannelCount (layout s) =? 0 then true else resetReadOk env)
                 && (if outputChannelCount (layout s) =? 0 then true else resetWriteOk env))
     | ]);
    cbn [Z.eqb paNoError paUnanticipatedHostError]; start_fields;
    destruct (asioStartOk env); start_fields;
    unfold paNoError, paUnanticipatedHostError;
    repeat match goal with
           | |- _ /\ _ => split
           | |- _ <-> _ => split
           | |- _ -> _ => intro
           end;
    try reflexivity; try discriminate; try (left; reflexivity); try (right; reflexivity);
    try match goal with H : _ /\ _ |- _ => destruct H; discriminate end.
Qed.


Lemma firstn_of_repeat {A} (x : A) : forall k n,
  (k <= n)%nat -> firstn k (repeat x n) = repeat x k.
Proof.
  induction k as [|k IH]; intros [|n] H; try lia; cbn [firstn repeat]; [reflexivity..|].
  f_equal. apply IH. lia.
Qed.

Lemma StartStream_blocking s env :
  blockingState (snd (StartStream s env))
  = option_map (fun b => snd (start_blocking (layout s) env b)) (blockingState s)
  /\ layout (snd (StartStream s env)) = layout s.
Proof.
  unfold StartStream.
  set (s0 := if outputChannelCount (layout s) >? 0
             then ZeroOutputBuffers (ZeroOutputBuffers s 0) 1 else s).
  assert (E0 : s0 = set_asioBufferInfos (asioBufferInfos s0) s).
  { unfold s0. destruct (outputChannelCount (layout s) >? 0); [|destruct s; reflexivity].
    rewrite (ZeroOutputBuffers_infos_only (ZeroOutputBuffers s 0) 1).
    rewrite (ZeroOutputBuffers_infos_only s 0) at 2. reflexivity. }
  rewrite E0. generalize (asioBufferInfos s0). intros infos. clear s0 E0.
  destruct (resetCompletedOk env); start_fields;
    (destruct (blockingState s) as [b|] eqn:B; cbn [option_map];
     [ pose proof (start_blocking_result (layout s) env b) as R;
       destruct (start_blocking (layout s) env b) as [r b'];
       cbn [fst] in R; subst r;
       destruct ((if inputChannelCount (layout s) =? 0 then true else resetReadOk env)
                 && (if outputChannelCount (layout s) =? 0 then true else resetWriteOk env))
     | ]);
    cbn [Z.eqb paNoError paUnanticipatedHostError]; start_fields;
    destruct (asioStartOk env); start_fields; cbn [option_map]; auto.
Qed.

(** A blocking stream starts with silence to play: whatever the resets
    and the driver do, StartStream leaves the read ring buffer empty and
    the write ring buffer holding writeRingBufferInitialFrames frames of
    zeros, with no stop, request or flag pending; and the first call of the
    blocking callback, for no more frames than that, plays zeros without
    flagging an underflow of its own. *)
Theorem started_stream_plays_silence s env b a :
  blockingState s = Some b -> outputChannelCount (layout s) <> 0 ->
  0 < bufferSize (writeRingBuffer b) ->
  length (buffer (writeRingBuffer b)) = Z.to_nat (bufferSize (writeRingBuffer b)) ->
  0 <= writeRingBufferInitialFrames b <= bufferSize (writeRingBuffer b) ->
  0 <= framesPerBuffer a <= writeRingBufferInitialFrames b ->
  framesPerBuffer a < 2 ^ 31 ->
  let s' := snd (StartStream s env) in
  exists b',
    blockingState s' = Some b'
    /\ stopFlag b' = false
    /\ (inputChannelCount (layout s) <> 0 -> GetStreamReadAvailable s' = 0)
    /\ GetStreamWriteAvailable s'
       = bufferSize (writeRingBuffer b) - writeRingBufferInitialFrames b
    /\ contents (writeRingBuffer b')
       = repeat (repeat 0 (Z.to_nat (outputChannelCount (layout s))))
                (Z.to_nat (writeRingBufferInitialFrames b))
    /\ fst (blocking_output (layout s') b' a)
       = overwrite (repeat (repeat 0 (Z.to_nat (outputChannelCount (layout s))))
                           (Z.to_nat (framesPerBuffer a)))
                   (outputBuffer a)
    /\ outputUnderflowFlag (snd (blocking_output (layout s') b' a)) = underflow_reported a.
Proof.
  intros Hb Hout Hm Hl Hi Hn Hlong s'. subst s'.
  destruct (StartStream_blocking s env) as [EB EL]. rewrite Hb in EB. cbn [option_map] in EB.
  rewrite EL.
  pose proof (start_blocking_state (layout s) env b) as St. cbv zeta in St.
  set (b' := snd (start_blocking (layout s) env b)) in *.
  destruct St as (Sstop & _ & Su & _ & _ & _ & _ & Sin & Sout).
  destruct (Sout Hout Hm Hl Hi) as [Sc Sw].
  exists b'. split; [exact EB|]. split; [exact Sstop|].
  assert (Avail : PaUtil_GetRingBufferReadAvailable (writeRingBuffer b')
                  = writeRingBufferInitialFrames b).
  { pose proof (f_equal (@length _) Sc) as Len.
    rewrite contents_length, repeat_length in Len.
    pose proof Sw as (_ & _ & R & _).
    unfold PaUtil_GetRingBufferReadAvailable in *. lia. }
  assert (Size : bufferSize (writeRingBuffer b') = bufferSize (writeRingBuffer b)).
  { unfold b', start_blocking.
    apply Z.eqb_neq in Hout. rewrite Hout.
    destruct (negb (inputChannelCount (layout s) =? 0)), (resetReadOk env),
      (resetWriteOk env); reflexivity. }
  split; [|split; [|split; [exact Sc|]]].
  - intros Hin. unfold GetStreamReadAvailable, read_blocking. rewrite EB.
    apply Sin. exact Hin.
  - unfold GetStreamWriteAvailable, read_blocking. rewrite EB.
    unfold PaUtil_GetRingBufferWriteAvailable. rewrite Avail, Size. reflexivity.
  - pose proof (blocking_output_spec (layout s) b' a Sw ltac:(lia)) as O.
    cbv zeta in O. destruct O as (O & _).
    rewrite Sc, repeat_length in O.
    destruct (Nat.leb_spec (Z.to_nat (framesPerBuffer a))
                (Z.to_nat (writeRingBufferInitialFrames b))); [|lia].
    destruct O as (Oo & _ & Ou). rewrite Oo, Ou, Su. split; [|reflexivity].
    f_equal. apply firstn_of_repeat. lia.
Qed.

(** The blocking stream of the scenario, opened with two frames of initial
    silence: after StartStream the callback plays two frames of zeros over
    the frames 5 and 6. *)
Lemma started_stream_plays_silence_witness :
  exists b',
    blockingState started_blocking_stream = Some b'
    /\ GetStreamWriteAvailable started_blocking_stream = 2
    /\ fst (blocking_output (layout started_blocking_stream) b'
              {| inputBuffer := []; outputBuffer := [[5; 5]; [6; 6]];
                 framesPerBuffer := 2; statusFlags := 0 |})
       = [[0; 0]; [0; 0]].
Proof.
  unfold started_blocking_stream.
  destruct (blockingState blocking_stream) as [b|] eqn:Hb;
    [|vm_compute in Hb; discriminate Hb].
  assert (Eb : Some b = blockingState blocking_stream) by (symmetry; exact Hb).
  vm_compute in Eb. injection Eb as Eb.
  unshelve epose proof
    (started_stream_plays_silence blocking_stream Scenario.all_goes_well b
       {| inputBuffer := []; outputBuffer := [[5; 5]; [6; 6]];
          framesPerBuffer := 2; statusFlags := 0 |} Hb _ _ _ _ _ _)
    as (b' & B & _ & _ & A & _ & O & _);
    [subst b; vm_compute; repeat split; try reflexivity; intro; discriminate .. |].
  exists b'. split; [exact B|]. split.
  - rewrite A. subst b. reflexivity.
  - rewrite O. vm_compute. reflexivity.
Defined.

End StartFacts.

(** ** The callback waking a blocking call *)

Module WakeFacts.
Import Ring Stream RingView RingFacts BlockingCallbackFacts BlockingScenario BlockingFacts
  BlockingIoView BlockingIoFacts StartView OneWayView.

(** The output half of the callback leaves the requests of ReadStream
    alone. *)
Lemma blocking_output_read_side L b a :
  let b' := snd (blocking_output L b a) in
  readFramesRequestedFlag b' = readFramesRequestedFlag b
  /\ readFramesRequested b' = readFramesRequested b
  /\ readFramesReadyEvent b' = readFramesReadyEvent b.
Proof.
  cbv zeta. unfold blocking_output, PaUtil_ReadRingBuffer.
  repeat match goal with
         | |- context [if ?c then _ else _] => destruct c
         end; cbn; auto.
Qed.

(** The input half sets the event ReadStream waits for as soon as the
    ring buffer holds the frames requested. *)
Lemma blocking_input_wakes b a :
  readFramesRequestedFlag b = true ->
  to_long (readFramesRequested b)
    <= PaUtil_GetRingBufferReadAvailable (readRingBuffer (blocking_input b a)) ->
  readFramesReadyEvent (blocking_input b a) = true.
Proof.
  unfold blocking_input.
  set (b0 := if negb (Z.land (statusFlags a) paInputOverflowed =? 0)
             then set_inputOverflowFlag true b else b).
  assert (E0 : readFramesRequestedFlag b0 = readFramesRequestedFlag b
               /\ readFramesRequested b0 = readFramesRequested b)
    by (unfold b0; destruct (negb _); split; reflexivity).
  destruct E0 as [Ef Er].
  destruct (PaUtil_GetRingBufferWriteAvailable (readRingBuffer b0)
            <? to_long (framesPerBuffer a));
    cbv zeta beta iota;
    cbn [readFramesRequestedFlag readFramesRequested set_readRingBuffer
         set_inputOverflowFlag];
    rewrite Ef, Er; intros Hf Ha; rewrite Hf in Ha |- *; cbn [andb] in Ha |- *;
    match goal with
    | |- context [?x >=? ?y] => destruct (Z.geb_spec x y) as [G|G]
    end;
    try reflexivity;
    exfalso; cbn [readRingBuffer set_readRingBuffer] in Ha; lia.
Qed.

(** What the whole callback does for a reader. *)
Lemma callback_serves_reader L b a :
  well_formed (readRingBuffer b) ->
  0 <= framesPerBuffer a < 2 ^ 31 ->
  2 * framesPerBuffer a <= bufferSize (readRingBuffer b) ->
  (Z.to_nat (framesPerBuffer a) <= length (inputBuffer a))%nat ->
  inputChannelCount L <> 0 ->
  let b' := snd (BlockingIoPaCallback L b a) in
  let full :=
    PaUtil_GetRingBufferWriteAvailable (readRingBuffer b) <? framesPerBuffer a in
  contents (readRingBuffer b')
  = skipn (if full then Z.to_nat (framesPerBuffer a) else O) (contents (readRingBuffer b))
    ++ firstn (Z.to_nat (framesPerBuffer a)) (inputBuffer a)
  /\ well_formed (readRingBuffer b') /\ stopFlag b' = stopFlag b
  /\ inputOverflowFlag b' = (inputOverflowFlag b || overflow_reported a || full)%bool
  /\ (readFramesRequestedFlag b = true ->
      to_long (readFramesRequested b)
        <= PaUtil_GetRingBufferReadAvailable (readRingBuffer b') ->
      readFramesReadyEvent b' = true).
Proof.
  intros Wr Hn Hsize Hdata Hin. cbv zeta. unfold BlockingIoPaCallback.
  apply Z.eqb_neq in Hin. rewrite Hin. cbn [negb].
  destruct (negb (outputChannelCount L =? 0)).
  - pose proof (blocking_output_input_side L b a) as O. cbv zeta in O.
    pose proof (blocking_output_read_side L b a) as S. cbv zeta in S.
    destruct (blocking_output L b a) as [out b1]. cbn [fst snd] in *.
    destruct O as (Or & Os & Oi). destruct S as (Sf & Sr & _).
    rewrite <- Or in Wr, Hsize.
    pose proof (blocking_input_spec b1 a Wr Hn Hsize Hdata) as I. cbv zeta in I.
    destruct I as (Ic & _ & Ii & Iw & _ & Is & _).
    rewrite Or, ?Oi in *. rewrite Is, Os.
    repeat match goal with |- _ /\ _ => split end; try assumption; try reflexivity.
    intros Hf Ha. apply blocking_input_wakes; [rewrite Sf; exact Hf | rewrite Sr; exact Ha].
  - cbn [snd].
    pose proof (blocking_input_spec b a Wr Hn Hsize Hdata) as I. cbv zeta in I.
    destruct I as (Ic & _ & Ii & Iw & _ & Is & _).
    repeat match goal with |- _ /\ _ => split end; try assumption; try reflexivity.
    intros Hf Ha. apply blocking_input_wakes; assumption.
Qed.

(** *** The buffer switch on a blocking stream *)

Definition keeps_blocking (f : PaAsioStream -> PaAsioStream) : Prop :=
  forall s, blockingState (f s) = blockingState s /\ layout (f s) = layout s.

Lemma keeps_blocking_compose f g :
  keeps_blocking f -> keeps_blocking g -> keeps_blocking (fun s => g (f s)).
Proof.
  intros F G s. destruct (G (f s)) as [G1 G2], (F s) as [F1 F2]. split; congruence.
Qed.

Lemma keeps_blocking_emits {A} (f : A -> Event) l :
  keeps_blocking (fun s => fold_left (fun s i => emit (f i) s) l s).
Proof.
  induction l as [|x l IH]; intros s; cbn [fold_left]; [auto|].
  destruct (IH (emit (f x) s)) as [I1 I2]. split; [rewrite I1 | rewrite I2]; reflexivity.
Qed.

Lemma keeps_blocking_convert_inputs : keeps_blocking convert_inputs.
Proof.
  intros s. unfold convert_inputs. cbv zeta.
  destruct (inputBufferConverter (layout s)); [|auto].
  apply (keeps_blocking_emits
           (fun i => EvConvertInput i p (inputShift (layout s))
                       (framesPerHostCallback (layout s)))).
Qed.

Lemma keeps_blocking_convert_outputs : keeps_blocking convert_outputs.
Proof.
  intros s. unfold convert_outputs. cbv zeta.
  destruct (outputBufferConverter (layout s)); [|auto].
  apply (keeps_blocking_emits
           (fun i => EvConvertOutput i p (outputShift (layout s))
                       (framesPerHostCallback (layout s)))).
Qed.

Lemma keeps_blocking_output_ready : keeps_blocking output_ready.
Proof. intros s. unfold output_ready. destruct (postOutput (layout s)); auto. Qed.

Lemma keeps_blocking_finish_playback : keeps_blocking finish_playback.
Proof.
  intros s. unfold finish_playback, streamFinished. cbv zeta.
  cbn [layout set_isActive]. destruct (streamFinishedCallback (layout s)); auto.
Qed.

(** The calls of the blocking callback a buffer processor makes. *)
Lemma run_callbacks_blocking c : forall s b,
  blockingState s = Some b ->
  blockingState (run_callbacks s c)
  = Some (fold_left (fun b a => snd (BlockingIoPaCallback (layout s) b a)) (callbacks c) b)
  /\ layout (run_callbacks s c) = layout s.
Proof.
  intros s b Hb. unfold run_callbacks. rewrite Hb.
  revert s b Hb. induction (callbacks c) as [|a l IH]; intros s b Hb; cbn [fold_left].
  - auto.
  - rewrite Hb.
    destruct (IH (set_blockingState (Some (snd (BlockingIoPaCallback (layout s) b a))) s)
                 (snd (BlockingIoPaCallback (layout s) b a)) eq_refl) as [I1 I2].
    split; [exact I1 | exact I2].
Qed.

Lemma keeps_blocking_write_outputs c : keeps_blocking (fun s => write_outputs s c).
Proof. intros s. split; reflexivity. Qed.

Lemma keeps_blocking_begin :
  keeps_blocking
    (fun s => set_callbackFlags 0
                (emit (EvBufferProcessing (callbackFlags (convert_inputs s)))
                      (convert_inputs s))).
Proof.
  intros s. destruct (keeps_blocking_convert_inputs s) as [A B].
  split; [rewrite <- A | rewrite <- B]; reflexivity.
Qed.

Lemma keeps_blocking_end c :
  keeps_blocking
    (fun s => output_ready (convert_outputs (write_outputs s c))).
Proof.
  apply (keeps_blocking_compose (fun s => convert_outputs (write_outputs s c)) output_ready);
    [|exact keeps_blocking_output_ready].
  apply (keeps_blocking_compose (fun s => write_outputs s c) convert_outputs);
    [exact (keeps_blocking_write_outputs c) | exact keeps_blocking_convert_outputs].
Qed.

Lemma processing_cycle_steps s c :
  processing_cycle s c
  = (fun s =>
       if endBufferProcessing c (if stopProcessing
                                      (set_callbackFlags 0
                                         (emit (EvBufferProcessing
                                                  (callbackFlags (convert_inputs s)))
                                               (convert_inputs s)))
                                 then paComplete else paContinue) =? paContinue
       then (fun x => x)
       else if endBufferProcessing c (if stopProcessing
                                           (set_callbackFlags 0
                                              (emit (EvBufferProcessing
                                                       (callbackFlags (convert_inputs s)))
                                                    (convert_inputs s)))
                                      then paComplete else paContinue) =? paAbort
            then (fun x => set_zeroOutput true (finish_playback x))
            else if outputEmpty c
                 then (fun x => set_stopPlayoutCount 0
                                  (set_zeroOutput true (set_stopProcessing true x)))
                 else (fun x => set_stopProcessing true x)) s
      (output_ready
         (convert_outputs
            (write_outputs
               (run_callbacks
                  (set_callbackFlags 0
                     (emit (EvBufferProcessing (callbackFlags (convert_inputs s)))
                           (convert_inputs s))) c) c))).
Proof.
  unfold processing_cycle. cbv zeta beta.
  destruct (_ =? paContinue); [reflexivity|].
  destruct (_ =? paAbort); [reflexivity|].
  destruct (outputEmpty c); reflexivity.
Qed.

Lemma processing_cycle_blocking s c b :
  blockingState s = Some b ->
  blockingState (processing_cycle s c)
  = Some (fold_left (fun b a => snd (BlockingIoPaCallback (layout s) b a)) (callbacks c) b)
  /\ layout (processing_cycle s c) = layout s.
Proof.
  intros Hb. rewrite processing_cycle_steps. cbv beta.
  destruct (keeps_blocking_begin s) as [B1 B2]. rewrite Hb in B1.
  pose proof (run_callbacks_blocking c _ b B1) as [R1 R2]. rewrite B2 in R1, R2.
  destruct (keeps_blocking_end c (run_callbacks
              (set_callbackFlags 0
                 (emit (EvBufferProcessing (callbackFlags (convert_inputs s)))
                       (convert_inputs s))) c)) as [E1 E2].
  rewrite R1 in E1. rewrite R2 in E2.
  generalize dependent (output_ready
         (convert_outputs
            (write_outputs
               (run_callbacks
                  (set_callbackFlags 0
                     (emit (EvBufferProcessing (callbackFlags (convert_inputs s)))
                           (convert_inputs s))) c) c))).
  intros s2 E1 E2.
  destruct (_ =? paContinue); [auto|].
  destruct (_ =? paAbort).
  - destruct (keeps_blocking_finish_playback s2) as [F1 F2].
    split; [rewrite <- E1, <- F1 | rewrite <- E2, <- F2]; reflexivity.
  - destruct (outputEmpty c); split;
      first [rewrite <- E1; reflexivity | rewrite <- E2; reflexivity].
Qed.

(** A buffer switch that finds no other in progress and processes its
    buffer runs the blocking callback on the blocking state. *)
Lemma buffer_switch_blocking s c b :
  reenterCount s = -1 -> zeroOutput s = false -> blockingState s = Some b ->
  blockingState (buffer_switch s c)
  = Some (fold_left (fun b a => snd (BlockingIoPaCallback (layout s) b a)) (callbacks c) b)
  /\ layout (buffer_switch s c) = layout s.
Proof.
  intros Hr Hz Hb. rewrite (StreamFacts.buffer_switch_idle s c Hr).
  cbn [blockingState layout set_reenterCount].
  unfold loop_body. change (0 >? 0) with false. cbv iota.
  cbn [zeroOutput set_reenterCount]. rewrite Hz.
  apply (processing_cycle_blocking (set_reenterCount 0 s) c b). exact Hb.
Qed.

(** A turn of the loop of ReadStream whose wait is satisfied goes on as
    a turn that need not wait. *)
Lemma read_loop_woken fuel s env timeout lFramesPerBlock lFramesRemaining read b s' b' :
  blockingState s = Some b ->
  PaUtil_GetRingBufferReadAvailable (readRingBuffer b)
    < to_long (next_block lFramesPerBlock lFramesRemaining) ->
  wait_readFramesReadyEvent timeout
    (requesting_read (next_block lFramesPerBlock lFramesRemaining) b s)
    (hd no_wait (waits env)) = (WAIT_OBJECT_0, s') ->
  blockingState s' = Some b' ->
  to_long (next_block lFramesPerBlock lFramesRemaining)
    <= PaUtil_GetRingBufferReadAvailable (readRingBuffer b') ->
  read_loop (S fuel) s env timeout lFramesPerBlock lFramesRemaining read
  = read_loop (S fuel) s' (next_waits env) timeout lFramesPerBlock lFramesRemaining read.
Proof.
  unfold next_block, wait_readFramesReadyEvent, requesting_read.
  intros Hb Hshort Hwait Hb' Henough. cbn [read_loop]. unfold io_wait.
  unfold read_blocking at 1. rewrite Hb.
  apply Z.ltb_lt in Hshort. rewrite Hshort.
  rewrite (on_blocking_some _ s b Hb). rewrite Hwait.
  match goal with
  | |- _ = match (if ?c then _ else _) with _ => _ end =>
      replace c with false; [reflexivity|]
  end.
  unfold read_blocking. rewrite Hb'. symmetry. apply Z.ltb_ge. exact Henough.
Qed.

(** A ReadStream that finds too few frames queued asks for the frames of
    its block, waits, and is woken by the buffer switch that brings them:
    on a blocking stream with input channels, with or without output
    channels, when the driver's callback runs within the timeout on a
    stream that is processing, and the blocking callback it calls queues a
    block that makes up the frames asked for, ReadStream returns the
    frames that were queued followed by those of the block, as far as
    asked for. *)
Theorem waiting_read_is_woken fuel s b frames env t c a rest :
  blockingState s = Some b -> stopFlag b = false -> isActive s <> 0 ->
  inputChannelCount (layout s) <> 0 ->
  reenterCount s = -1 -> zeroOutput s = false ->
  well_formed (readRingBuffer b) ->
  readFramesReadyEvent b = false ->
  0 < framesPerUserBuffer (layout s) < 2 ^ 31 ->
  0 < frames < 2 ^ 31 ->
  (* too few frames are queued, and the block makes up for them *)
  GetStreamReadAvailable s < next_block (framesPerUserBuffer (layout s)) frames ->
  frames <= GetStreamReadAvailable s + framesPerBuffer a ->
  0 < framesPerBuffer a < 2 ^ 31 ->
  2 * framesPerBuffer a <= bufferSize (readRingBuffer b) ->
  framesPerBuffer a <= PaUtil_GetRingBufferWriteAvailable (readRingBuffer b) ->
  (Z.to_nat (framesPerBuffer a) <= length (inputBuffer a))%nat ->
  (* the buffer switch arrives in time *)
  waits env = {| failed := false; schedule := (t, Invocation c) :: rest |} :: nil ->
  t < io_timeout (layout s) -> callbacks c = [a] ->
  copies_what_fits env -> (Z.to_nat frames < fuel)%nat ->
  exists s',
    ReadStream (S fuel) s frames env
    = Some (if (inputOverflowFlag b || overflow_reported a)%bool
            then paInputOverflowed else paNoError,
            firstn (Z.to_nat frames)
              (contents (readRingBuffer b)
                 ++ firstn (Z.to_nat (framesPerBuffer a)) (inputBuffer a)),
            s')
    /\ GetStreamReadAvailable s'
       = GetStreamReadAvailable s + framesPerBuffer a - frames.
Proof.
  intros Hb Hstop Hact Hin Hr Hz Wr Hev Hblock Hfr Hshort Hmade Hn Hsize Hroom Hdata
         Hw Ht Hc Hcopy Hfuel.
  unfold GetStreamReadAvailable, read_blocking in Hshort, Hmade. rewrite Hb in Hshort, Hmade.
  set (m := next_block (framesPerUserBuffer (layout s)) frames) in *.
  assert (Hm : 0 < m <= frames /\ m < 2 ^ 31).
  { unfold m, next_block.
    destruct (Z.ltb_spec (framesPerUserBuffer (layout s)) frames); lia. }
  set (b_req := set_readFramesRequestedFlag true (set_readFramesRequested m b)).
  set (s_req := set_blockingState (Some b_req) s).
  (* the callback on the requesting state *)
  pose proof (callback_serves_reader (layout s) b_req a Wr ltac:(lia) Hsize Hdata Hin)
    as Spec. cbv zeta in Spec.
  set (b1 := snd (BlockingIoPaCallback (layout s) b_req a)) in *.
  change (readRingBuffer b_req) with (readRingBuffer b) in Spec.
  change (inputOverflowFlag b_req) with (inputOverflowFlag b) in Spec.
  change (stopFlag b_req) with (stopFlag b) in Spec.
  destruct (Z.ltb_spec (PaUtil_GetRingBufferWriteAvailable (readRingBuffer b))
                       (framesPerBuffer a)); [lia|].
  cbn [skipn] in Spec. rewrite orb_false_r in Spec.
  destruct Spec as (Sc & Swf & Ss & Si & Swake).
  assert (A1 : PaUtil_GetRingBufferReadAvailable (readRingBuffer b1)
               = PaUtil_GetRingBufferReadAvailable (readRingBuffer b) + framesPerBuffer a).
  { pose proof (f_equal (@length _) Sc) as Len.
    rewrite length_app, !contents_length, length_firstn in Len.
    pose proof Wr as (_ & _ & R & _). pose proof Swf as (_ & _ & R1 & _).
    unfold PaUtil_GetRingBufferReadAvailable in *. lia. }
  assert (Ev : readFramesReadyEvent b1 = true).
  { apply Swake; [reflexivity|].
    change (readFramesRequested b_req) with m. rewrite to_long_id by lia. lia. }
  (* the buffer switch *)
  destruct (buffer_switch_blocking s_req c b_req Hr Hz eq_refl) as [Sw Sl].
  change (layout s_req) with (layout s) in Sw, Sl.
  rewrite Hc in Sw. cbn [fold_left] in Sw. fold b1 in Sw.
  (* the wait *)
  set (s_w := on_blocking (set_readFramesReadyEvent false) (buffer_switch s_req c)).
  set (b_w := set_readFramesReadyEvent false b1).
  assert (Bw : blockingState s_w = Some b_w)
    by (unfold s_w, on_blocking; rewrite Sw; reflexivity).
  assert (Wait : wait_readFramesReadyEvent (io_timeout (layout s))
                   (requesting_read m b s) (hd no_wait (waits env))
                 = (WAIT_OBJECT_0, s_w)).
  { rewrite Hw. unfold wait_readFramesReadyEvent, WaitForSingleObject, requesting_read.
    cbn [hd failed schedule wait_for]. fold b_req s_req.
    unfold read_blocking at 1. cbn [blockingState set_blockingState s_req].
    change (readFramesReadyEvent b_req) with (readFramesReadyEvent b). rewrite Hev.
    apply Z.ltb_lt in Ht. rewrite Ht. cbn [happen].
    destruct rest as [|[t' h'] rest']; cbn [wait_for];
      unfold read_blocking at 1; rewrite Sw, Ev; reflexivity. }
  (* the loop *)
  exists (set_blockingState (Some (after_read frames b_w)) s_w).
  unfold ReadStream, read_blocking. rewrite Hb, Hstop.
  pose proof Hact as Hact'. pose proof Hin as Hin'.
  apply Z.eqb_neq in Hact', Hin'. rewrite Hact', Hin'. cbn [orb negb].
  rewrite (read_loop_woken fuel s env _ _ frames [] b s_w b_w Hb);
    try assumption;
    [ | fold m; rewrite to_long_id by lia; exact Hshort
      | fold m; rewrite to_long_id by lia;
        change (readRingBuffer b_w) with (readRingBuffer b1); rewrite A1; lia ].
  rewrite (read_loop_no_wait (next_waits env) _ Hcopy (S fuel) s_w _ frames [] b_w Bw);
    try assumption; try lia;
    [ | change (readRingBuffer b_w) with (readRingBuffer b1); rewrite A1; lia ].
  change (inputOverflowFlag b_w) with (inputOverflowFlag b1). rewrite Si.
  change (readRingBuffer b_w) with (readRingBuffer b1). rewrite Sc.
  split; [reflexivity|].
  unfold GetStreamReadAvailable, read_blocking. rewrite Hb.
  cbn [blockingState set_blockingState]. unfold after_read, PaUtil_GetRingBufferReadAvailable.
  pose proof A1 as A1'. unfold PaUtil_GetRingBufferReadAvailable in A1'.
  destruct (inputOverflowFlag b_w);
    cbn [readRingBuffer set_inputOverflowFlag set_readRingBuffer
         PaUtil_AdvanceRingBufferReadIndex readIndex writeIndex];
    change (readRingBuffer b_w) with (readRingBuffer b1); lia.
Qed.

(** ReadStream for two frames on the stream that OpenStream opened for
    input alone, once started, whose write ring buffer has no size and
    whose ring buffer of input is empty, with the buffer switch arriving
    after five of the sixteen milliseconds of the timeout. *)
Lemma waiting_read_is_woken_witness :
  outputChannelCount (layout started_recorder) = 0
  /\ bufferSize (writeRingBuffer (blocking_state_of started_recorder)) = 0
  /\ exists s',
       ReadStream 4 started_recorder 2 heard_after_5ms
       = Some (paNoError, [[1; 1]; [2; 2]], s')
       /\ GetStreamReadAvailable s' = 0.
Proof.
  split; [vm_compute; reflexivity|]. split; [vm_compute; reflexivity|].
  unshelve epose proof
    (waiting_read_is_woken 3 started_recorder (blocking_state_of started_recorder) 2
       heard_after_5ms 5 hearing stereo_block []
       _ _ _ _ _ _ _ _ _ _ _ _ _ _ _ _ _ _ _ _ _) as (s' & R & A);
    [ground .. |].
  exists s'. split; [exact R | exact A].
Defined.

End WakeFacts.

(** ** The size of the blocking ring buffers *)

Module RingSizeFacts.
Import Ring Stream RingFacts BlockingIoFacts.







End RingSizeFacts.

(** ** StopStream flushing a blocking output stream *)

Module FlushFacts.
Import Ring Stream RingView RingFacts BlockingCallbackFacts BlockingScenario BlockingFacts
  BlockingIoView BlockingIoFacts StartView StartFacts WakeFacts FlushView.

(** The input half of the callback leaves the output side alone. *)
Lemma blocking_input_write_side b a :
  let b' := blocking_input b a in
  writeRingBuffer b' = writeRingBuffer b /\ stopFlag b' = stopFlag b
  /\ writeBuffersRequestedFlag b' = writeBuffersRequestedFlag b
  /\ writeBuffersRequested b' = writeBuffersRequested b
  /\ writeBuffersReadyEvent b' = writeBuffersReadyEvent b.
Proof.
  cbv zeta. unfold blocking_input, PaUtil_WriteRingBuffer.
  repeat match goal with
         | |- context [if ?c then _ else _] => destruct c
         end; cbn; auto.
Qed.

(** The output half keeps a stopping stream flushing or flushed. *)
Lemma blocking_output_flushes L size b a :
  0 < size < 2 ^ 31 ->
  flushing_or_flushed size b ->
  flushing_or_flushed size (snd (blocking_output L b a)).
Proof.
  intros Hs (W & Hsz & Hstop & Hcase).
  destruct W as (Wm & Wl & Wr & Ww).
  unfold flushing_or_flushed, blocking_output, PaUtil_ReadRingBuffer, well_formed,
    PaUtil_GetRingBufferWriteAvailable, PaUtil_GetRingBufferReadAvailable,
    PaUtil_AdvanceRingBufferReadIndex in *.
  set (b0 := if negb (Z.land (statusFlags a) paOutputUnderflowed =? 0)
             then set_outputUnderflowFlag true b else b).
  assert (E0 : writeRingBuffer b0 = writeRingBuffer b /\ stopFlag b0 = stopFlag b
               /\ writeBuffersRequestedFlag b0 = writeBuffersRequestedFlag b
               /\ writeBuffersRequested b0 = writeBuffersRequested b
               /\ writeBuffersReadyEvent b0 = writeBuffersReadyEvent b)
    by (unfold b0; destruct (negb _); repeat split; reflexivity).
  destruct E0 as (Ew & Es & Ef & Er & Ee). clearbody b0.
  rewrite Ew.
  set (n := to_long (framesPerBuffer a)).
  destruct (Z.geb_spec (writeIndex (writeRingBuffer b) - readIndex (writeRingBuffer b)) n)
    as [Enough|Short].
  - cbn [snd fst writeBuffersRequestedFlag writeRingBuffer writeBuffersRequested
         set_writeRingBuffer bufferSize writeIndex readIndex buffer].
    rewrite Ef, Er.
    destruct Hcase as [(Hf & Hr & He) | Hempty].
    + rewrite Hf, Hr. cbn [andb]. rewrite to_long_id by lia.
      match goal with
      | |- context [?x >=? ?y] => destruct (Z.geb_spec x y) as [G|G]
      end;
        cbn [writeRingBuffer stopFlag writeBuffersRequestedFlag writeBuffersRequested
             writeBuffersReadyEvent set_writeBuffersReadyEvent set_writeBuffersRequested
             set_writeBuffersRequestedFlag set_writeRingBuffer
             bufferSize writeIndex readIndex buffer];
        rewrite ?Es, ?Ef, ?Er, ?Ee;
        (split; [repeat split; try assumption; lia|]);
        (split; [assumption|]); (split; [assumption|]).
      * right. lia.
      * left. auto.
    + destruct (writeBuffersRequestedFlag b && _);
        cbn [writeRingBuffer stopFlag writeBuffersRequestedFlag writeBuffersRequested
             writeBuffersReadyEvent set_writeBuffersReadyEvent set_writeBuffersRequested
             set_writeBuffersRequestedFlag set_writeRingBuffer
             bufferSize writeIndex readIndex buffer];
        rewrite ?Es;
        (split; [repeat split; try assumption; lia|]);
        (split; [assumption|]); (split; [assumption|]); right; lia.
  - cbn [stopFlag set_outputUnderflowFlag]. rewrite Es, Hstop.
    destruct (Z.ltb_spec (writeIndex (writeRingBuffer b) - readIndex (writeRingBuffer b)) n);
      [|lia].
    cbn [andb snd fst writeBuffersRequestedFlag writeRingBuffer writeBuffersRequested
         set_writeRingBuffer set_outputUnderflowFlag bufferSize writeIndex readIndex buffer].
    destruct (writeBuffersRequestedFlag b0 && _);
      cbn [writeRingBuffer stopFlag writeBuffersRequestedFlag writeBuffersRequested
           writeBuffersReadyEvent set_writeBuffersReadyEvent set_writeBuffersRequested
           set_writeBuffersRequestedFlag set_writeRingBuffer set_outputUnderflowFlag
           bufferSize writeIndex readIndex buffer];
      rewrite ?Es;
      (split; [repeat split; try assumption; lia|]);
      (split; [assumption|]); (split; [assumption|]); right; lia.
Qed.

Lemma callback_flushes L size b a :
  0 < size < 2 ^ 31 ->
  flushing_or_flushed size b ->
  flushing_or_flushed size (snd (BlockingIoPaCallback L b a)).
Proof.
  intros Hs J. unfold BlockingIoPaCallback.
  assert (J1 : flushing_or_flushed size
                 (snd (if negb (outputChannelCount L =? 0) then blocking_output L b a
                       else (outputBuffer a, b)))).
  { destruct (negb (outputChannelCount L =? 0)); [|exact J].
    apply blocking_output_flushes; assumption. }
  destruct (if negb (outputChannelCount L =? 0) then blocking_output L b a
            else (outputBuffer a, b)) as [out b1].
  cbn [snd] in *.
  destruct (negb (inputChannelCount L =? 0)); [|exact J1].
  pose proof (blocking_input_write_side b1 a) as S. cbv zeta in S.
  destruct S as (Sw & Ss & Sf & Sr & Se).
  unfold flushing_or_flushed in *. rewrite Sw, Ss, Sf, Sr, Se. exact J1.
Qed.

Lemma callbacks_flush L size l : forall b,
  0 < size < 2 ^ 31 ->
  flushing_or_flushed size b ->
  flushing_or_flushed size
    (fold_left (fun b a => snd (BlockingIoPaCallback L b a)) l b).
Proof.
  induction l as [|a l IH]; intros b Hs J; cbn [fold_left]; [exact J|].
  apply IH; [exact Hs|]. apply callback_flushes; assumption.
Qed.


(** The callback only ever takes frames from the ring buffer of output. *)
Lemma callback_only_plays L b a :
  well_formed (writeRingBuffer b) ->
  let b' := snd (BlockingIoPaCallback L b a) in
  well_formed (writeRingBuffer b')
  /\ bufferSize (writeRingBuffer b') = bufferSize (writeRingBuffer b)
  /\ PaUtil_GetRingBufferReadAvailable (writeRingBuffer b')
     <= PaUtil_GetRingBufferReadAvailable (writeRingBuffer b)
  /\ stopFlag b' = stopFlag b.
Proof.
  intros W. cbv zeta. unfold BlockingIoPaCallback.
  assert (O : let b1 := snd (if negb (outputChannelCount L =? 0) then blocking_output L b a
                             else (outputBuffer a, b)) in
              well_formed (writeRingBuffer b1)
              /\ bufferSize (writeRingBuffer b1) = bufferSize (writeRingBuffer b)
              /\ PaUtil_GetRingBufferReadAvailable (writeRingBuffer b1)
                 <= PaUtil_GetRingBufferReadAvailable (writeRingBuffer b)
              /\ stopFlag b1 = stopFlag b).
  { cbv zeta. destruct (negb (outputChannelCount L =? 0)); cbn [snd];
      [|repeat split; try apply W; lia].
    destruct W as (Wm & Wl & Wr & Ww).
    unfold blocking_output, PaUtil_ReadRingBuffer, well_formed,
      PaUtil_GetRingBufferWriteAvailable, PaUtil_GetRingBufferReadAvailable,
      PaUtil_AdvanceRingBufferReadIndex in *.
    set (b0 := if negb (Z.land (statusFlags a) paOutputUnderflowed =? 0)
               then set_outputUnderflowFlag true b else b).
    assert (E0 : writeRingBuffer b0 = writeRingBuffer b /\ stopFlag b0 = stopFlag b)
      by (unfold b0; destruct (negb _); split; reflexivity).
    destruct E0 as (Ew & Es). clearbody b0. rewrite Ew.
    repeat match goal with
           | |- context [if ?c then _ else _] => destruct c
           end;
      cbn [snd fst writeRingBuffer stopFlag set_writeBuffersReadyEvent
           set_writeBuffersRequested set_writeBuffersRequestedFlag set_writeRingBuffer
           set_outputUnderflowFlag bufferSize writeIndex readIndex buffer];
      rewrite ?Ew, ?Es; repeat split; try assumption; try lia. }
  cbv zeta in O.
  destruct (if negb (outputChannelCount L =? 0) then blocking_output L b a
            else (outputBuffer a, b)) as [out b1].
  cbn [snd] in *.
  destruct (negb (inputChannelCount L =? 0)); [|exact O].
  pose proof (blocking_input_write_side b1 a) as S. cbv zeta in S.
  destruct S as (Sw & Ss & _). rewrite Sw, Ss. exact O.
Qed.

Lemma callbacks_only_play L l : forall b,
  well_formed (writeRingBuffer b) ->
  let b' := fold_left (fun b a => snd (BlockingIoPaCallback L b a)) l b in
  well_formed (writeRingBuffer b')
  /\ bufferSize (writeRingBuffer b') = bufferSize (writeRingBuffer b)
  /\ PaUtil_GetRingBufferReadAvailable (writeRingBuffer b')
     <= PaUtil_GetRingBufferReadAvailable (writeRingBuffer b)
  /\ stopFlag b' = stopFlag b.
Proof.
  induction l as [|a l IH]; intros b W; cbn [fold_left]; cbv zeta.
  - repeat split; try apply W; lia.
  - pose proof (callback_only_plays L b a W) as C. cbv zeta in C.
    destruct C as (C1 & C2 & C3 & C4).
    pose proof (IH _ C1) as I. cbv zeta in I. destruct I as (I1 & I2 & I3 & I4).
    repeat split; try apply I1; try congruence; lia.
Qed.

(** *** What can happen to the blocking state during a wait *)

Lemma keeps_blocking_silent_cycle index : keeps_blocking (fun s => silent_cycle s index).
Proof.
  intros s. unfold silent_cycle. cbv zeta.
  rewrite (ZeroOutputBuffers_infos_only s index).
  generalize (asioBufferInfos (ZeroOutputBuffers s index)). intros infos.
  destruct (keeps_blocking_output_ready (set_asioBufferInfos infos s)) as [A B].
  change (blockingState (set_asioBufferInfos infos s)) with (blockingState s) in A.
  change (layout (set_asioBufferInfos infos s)) with (layout s) in B.
  generalize dependent (output_ready (set_asioBufferInfos infos s)). intros s1 A B.
  destruct (stopProcessing s1); [|auto].
  destruct (stopPlayoutCount s1 <? 2); [|auto].
  cbn [stopPlayoutCount set_stopPlayoutCount].
  destruct (stopPlayoutCount s1 + 1 =? 2); [|auto].
  destruct (keeps_blocking_finish_playback
              (set_stopPlayoutCount (stopPlayoutCount s1 + 1) s1)) as [F1 F2].
  split; [rewrite F1 | rewrite F2]; assumption.
Qed.

Lemma keeps_blocking_missed_cycle : keeps_blocking missed_cycle.
Proof.
  intros s. unfold missed_cycle. cbv zeta.
  destruct (inputChannelCount (layout s) >? 0);
    cbn [layout set_callbackFlags];
    destruct (outputChannelCount (layout s) >? 0); auto.
Qed.

Lemma processing_cycle_no_blocking s c :
  blockingState s = None -> blockingState (processing_cycle s c) = None.
Proof.
  intros Hb. rewrite processing_cycle_steps. cbv beta.
  destruct (keeps_blocking_begin s) as [B1 _]. rewrite Hb in B1.
  assert (R : blockingState
                (run_callbacks
                   (set_callbackFlags 0
                      (emit (EvBufferProcessing (callbackFlags (convert_inputs s)))
                            (convert_inputs s))) c) = None)
    by (unfold run_callbacks; rewrite B1; exact B1).
  destruct (keeps_blocking_end c (run_callbacks
              (set_callbackFlags 0
                 (emit (EvBufferProcessing (callbackFlags (convert_inputs s)))
                       (convert_inputs s))) c)) as [E1 _].
  rewrite R in E1.
  generalize dependent (output_ready
         (convert_outputs
            (write_outputs
               (run_callbacks
                  (set_callbackFlags 0
                     (emit (EvBufferProcessing (callbackFlags (convert_inputs s)))
                           (convert_inputs s))) c) c))).
  intros s2 E1.
  destruct (_ =? paContinue); [auto|].
  destruct (_ =? paAbort).
  - destruct (keeps_blocking_finish_playback s2) as [F1 _].
    rewrite <- E1, <- F1. reflexivity.
  - destruct (outputEmpty c); rewrite <- E1; reflexivity.
Qed.

(** Whatever its state, a buffer switch does nothing to the blocking
    state but run the blocking callback on it some number of times. *)
Lemma buffer_switch_runs_callbacks s c :
  exists l,
    blockingState (buffer_switch s c)
    = option_map (fold_left (fun b a => snd (BlockingIoPaCallback (layout s) b a)) l)
                 (blockingState s).
Proof.
  unfold buffer_switch, reentered, PaAsio_AtomicIncrement, PaAsio_AtomicDecrement.
  cbv zeta.
  destruct (negb (reenterCount (set_reenterCount (to_long (reenterCount s + 1)) s) =? 0)).
  - exists []. cbn [blockingState set_reenterError set_reenterCount fold_left].
    destruct (blockingState s); reflexivity.
  - cbn [blockingState set_reenterCount].
    generalize (to_long (reenterCount s + 1)). intros r.
    unfold loop_body. change (0 >? 0) with false. cbv iota.
    cbn [zeroOutput set_reenterCount].
    destruct (zeroOutput s).
    + exists []. destruct (keeps_blocking_silent_cycle (index c) (set_reenterCount r s))
        as [A _].
      rewrite A. cbn [blockingState set_reenterCount fold_left].
      destruct (blockingState s); reflexivity.
    + destruct (blockingState s) as [b|] eqn:Hb.
      * exists (callbacks c).
        destruct (processing_cycle_blocking (set_reenterCount r s) c b Hb) as [P _].
        rewrite P. reflexivity.
      * exists []. cbn [option_map].
        apply processing_cycle_no_blocking. exact Hb.
Qed.

Lemma leave_loop_blocking s : blockingState (leave_loop s) = blockingState s.
Proof.
  unfold leave_loop. generalize (Z.to_nat (reenterCount s)). intros n.
  induction n as [|n IH]; [reflexivity|].
  rewrite Nat.iter_succ. unfold PaAsio_AtomicDecrement at 1.
  cbn [blockingState set_reenterCount].
  destruct (keeps_blocking_missed_cycle
              (Nat.iter n (fun s0 => PaAsio_AtomicDecrement (missed_cycle s0))
                        (PaAsio_AtomicDecrement s))) as [A _].
  rewrite A. exact IH.
Qed.

Lemma happen_flushes size s h :
  0 < size < 2 ^ 31 ->
  stream_flushing_or_flushed size s -> stream_flushing_or_flushed size (happen s h).
Proof.
  intros Hs (b & Hb & J). destruct h as [c| |]; cbn [happen].
  - destruct (buffer_switch_runs_callbacks s c) as [l E]. rewrite Hb in E.
    eexists. split; [exact E|]. apply callbacks_flush; assumption.
  - exists b. split; [rewrite leave_loop_blocking; exact Hb | exact J].
  - rewrite Hb. eexists. split; [reflexivity|].
    destruct J as (W & Hsz & Hstop & Hcase). unfold flushing_or_flushed.
    cbn [writeRingBuffer stopFlag writeBuffersRequestedFlag writeBuffersRequested
         writeBuffersReadyEvent set_stopFlag].
    auto.
Qed.

Lemma happen_keeps_flushed size s h :
  stream_flushed size s -> stream_flushed size (happen s h).
Proof.
  intros (b & Hb & W & Hsz & Hstop & He). destruct h as [c| |]; cbn [happen].
  - destruct (buffer_switch_runs_callbacks s c) as [l E]. rewrite Hb in E.
    pose proof (callbacks_only_play (layout s) l b W) as C. cbv zeta in C.
    destruct C as (C1 & C2 & C3 & C4).
    eexists. split; [exact E|].
    split; [exact C1|]. split; [congruence|]. split; [congruence|].
    pose proof C1 as (_ & _ & R & _). unfold PaUtil_GetRingBufferReadAvailable in *. lia.
  - exists b. split; [rewrite leave_loop_blocking; exact Hb | auto].
  - rewrite Hb. eexists. split; [reflexivity|].
    cbn [writeRingBuffer stopFlag set_stopFlag]. auto.
Qed.

Lemma happenings_keep_flushed size l : forall s,
  stream_flushed size s -> stream_flushed size (fold_left happen l s).
Proof.
  induction l as [|h l IH]; intros s F; cbn [fold_left]; [exact F|].
  apply IH. apply happen_keeps_flushed. exact F.
Qed.

(** The wait of StopStream for the ring buffer to drain is satisfied only
    when it has. *)
Lemma flush_wait_satisfied size timeout w : 0 < size < 2 ^ 31 ->
  forall s s',
    stream_flushing_or_flushed size s ->
    WaitForSingleObject (read_blocking writeBuffersReadyEvent false)
      (on_blocking (set_writeBuffersReadyEvent false)) timeout s w = (WAIT_OBJECT_0, s') ->
    stream_flushed size s'.
Proof.
  intros Hs s s'. unfold WaitForSingleObject. destruct (failed w); [discriminate|].
  generalize (schedule w). intros l. revert s.
  induction l as [|[t h] l IH]; intros s J; cbn [wait_for].
  - destruct (read_blocking writeBuffersReadyEvent false s) eqn:Ev; [|discriminate].
    intros E. injection E as <-.
    destruct J as (b & Hb & W & Hsz & Hstop & Hcase).
    unfold read_blocking in Ev. rewrite Hb in Ev.
    destruct Hcase as [(_ & _ & He) | Hempty]; [congruence|].
    unfold on_blocking. rewrite Hb. eexists. split; [reflexivity|]. auto.
  - destruct (read_blocking writeBuffersReadyEvent false s) eqn:Ev.
    + intros E. injection E as <-.
      destruct J as (b & Hb & W & Hsz & Hstop & Hcase).
      unfold read_blocking in Ev. rewrite Hb in Ev.
      destruct Hcase as [(_ & _ & He) | Hempty]; [congruence|].
      unfold on_blocking. rewrite Hb. eexists. split; [reflexivity|]. auto.
    + destruct (t <? timeout); [|discriminate].
      apply IH. apply happen_flushes; assumption.
Qed.

Lemma wait_keeps_flushed size signalled timeout w : forall s,
  stream_flushed size s ->
  stream_flushed size (snd (WaitForSingleObject signalled (fun s => s) timeout s w)).
Proof.
  intros s. unfold WaitForSingleObject. destruct (failed w); [auto|].
  generalize (schedule w). intros l. revert s.
  induction l as [|[t h] l IH]; intros s F; cbn [wait_for].
  - destruct (signalled s); exact F.
  - destruct (signalled s); [exact F|].
    destruct (t <? timeout); [|exact F].
    apply IH. apply happen_keeps_flushed. exact F.
Qed.

Lemma ensure_keeps_flushed size sleeps s :
  stream_flushed size s -> stream_flushed size (EnsureCallbackHasCompleted s sleeps).
Proof.
  unfold EnsureCallbackHasCompleted. generalize 2000%nat. intros n. revert s sleeps.
  induction n as [|n IH]; intros s sleeps F; cbn [ensure_loop]; [exact F|].
  destruct (reenterCount s =? -1); [exact F|].
  apply IH. apply happenings_keep_flushed.
  destruct F as (b & Hb & F). exists b. split; [exact Hb | exact F].
Qed.

Lemma marked_stopped_keeps_flushed size x :
  stream_flushed size x ->
  stream_flushed size
    (if negb (streamFinishedCallbackCalled (set_isActive 0 (set_isStopped 1 x)))
     then streamFinished (set_isActive 0 (set_isStopped 1 x))
     else set_isActive 0 (set_isStopped 1 x)).
Proof.
  intros (b & Hb & F2). exists b. split; [|exact F2].
  destruct x as [L I sp spc ce fc st ac zo rc re cf bs lg].
  cbn [blockingState] in Hb. subst bs.
  cbn [streamFinishedCallbackCalled set_isActive set_isStopped].
  destruct fc; cbn [negb]; [reflexivity|].
  unfold streamFinished. cbn [layout set_isActive set_isStopped].
  destruct (streamFinishedCallback L); reflexivity.
Qed.

Lemma stop_hardware_keeps_flushed size s env result :
  stream_flushed size s -> stream_flushed size (snd (stop_hardware s env result)).
Proof.
  intros F. unfold stop_hardware.
  assert (F1 : stream_flushed size (emit EvASIOStop s)).
  { destruct F as (b & Hb & F). exists b. split; [exact Hb | exact F]. }
  pose proof (ensure_keeps_flushed size (sleeps env) _ F1) as Fe.
  generalize dependent (EnsureCallbackHasCompleted (emit EvASIOStop s) (sleeps env)).
  intros e Fe.
  destruct (asioStopOk env); cbv zeta iota beta; cbn [snd];
    apply marked_stopped_keeps_flushed; assumption.
Qed.

(** Without sleeps that bring anything, the stop of the hardware leaves
    the blocking state alone. *)
Lemma ensure_loop_quiet count : forall s,
  blockingState (ensure_loop count s []) = blockingState s.
Proof.
  induction count as [|count IH]; intros s; cbn [ensure_loop]; [reflexivity|].
  destruct (reenterCount s =? -1); [reflexivity|].
  cbn [hd tl fold_left]. rewrite IH. reflexivity.
Qed.

Lemma ensure_quiet s :
  blockingState (EnsureCallbackHasCompleted s []) = blockingState s.
Proof. unfold EnsureCallbackHasCompleted. apply ensure_loop_quiet. Qed.

Lemma stop_hardware_quiet s env result :
  sleeps env = [] ->
  fst (stop_hardware s env result)
  = (if asioStopOk env then result else paUnanticipatedHostError)
  /\ blockingState (snd (stop_hardware s env result)) = blockingState s.
Proof.
  intros Quiet. unfold stop_hardware. rewrite Quiet.
  pose proof (ensure_quiet (emit EvASIOStop s)) as E.
  change (blockingState (emit EvASIOStop s)) with (blockingState s) in E.
  generalize dependent (EnsureCallbackHasCompleted (emit EvASIOStop s) []).
  intros e E.
  assert (K : forall x,
            blockingState
              (if negb (streamFinishedCallbackCalled (set_isActive 0 (set_isStopped 1 x)))
               then streamFinished (set_isActive 0 (set_isStopped 1 x))
               else set_isActive 0 (set_isStopped 1 x))
            = blockingState x).
  { intros x. destruct x as [L I sp spc ce fc st ac zo rc re cf bs lg].
    cbn [streamFinishedCallbackCalled set_isActive set_isStopped].
    destruct fc; cbn [negb]; [reflexivity|].
    unfold streamFinished. cbn [layout set_isActive set_isStopped].
    destruct (streamFinishedCallback L); reflexivity. }
  destruct (asioStopOk env); cbv zeta iota beta; cbn [fst snd]; rewrite K;
    split; try reflexivity; exact E.
Qed.

(** StopStream on an active blocking stream with output flushes what was
    written only if the event it waits for is not already set.  When the
    event is not set at the call: whatever happens on the other threads
    during its waits and sleeps, if StopStream returns paNoError then the
    write ring buffer is empty and the stop flag is set.  When the event
    is set at the call, and the wait does not fail: the wait is satisfied
    at once, whatever buffer switches were to come during it, and if
    nothing comes during the second wait and the sleeps, StopStream
    returns paNoError (if ASIOStop succeeds) with the frames that were
    queued still in the write ring buffer. *)
Theorem StopStream_has_flushed s env b :
  blockingState s = Some b -> isActive s <> 0 ->
  outputChannelCount (layout s) <> 0 ->
  well_formed (writeRingBuffer b) -> bufferSize (writeRingBuffer b) < 2 ^ 31 ->
  (writeBuffersReadyEvent b = false ->
   fst (StopStream s env) = paNoError ->
   exists b',
     blockingState (snd (StopStream s env)) = Some b'
     /\ contents (writeRingBuffer b') = []
     /\ stopFlag b' = true
     /\ GetStreamWriteAvailable (snd (StopStream s env)) = bufferSize (writeRingBuffer b))
  /\ (writeBuffersReadyEvent b = true ->
      failed (flushWait env) = false ->
      schedule (drainWait env) = [] -> sleeps env = [] ->
      fst (StopStream s env)
      = (if asioStopOk env then paNoError else paUnanticipatedHostError)
      /\ exists b',
           blockingState (snd (StopStream s env)) = Some b'
           /\ writeRingBuffer b' = writeRingBuffer b
           /\ stopFlag b' = true
           /\ writeBuffersReadyEvent b' = false).
Proof.
  intros Hb Hact Hout W Hlong.
  set (size := bufferSize (writeRingBuffer b)) in *.
  assert (Hs : 0 < size < 2 ^ 31) by (destruct W; lia).
  split.
  - intros Hev.
    assert (Final : fst (StopStream s env) = paNoError ->
                    stream_flushed size (snd (StopStream s env))).
    { unfold StopStream. cbv zeta.
      apply Z.eqb_neq in Hact, Hout. rewrite Hact, Hb, Hout. cbn [negb].
      set (b0 := set_stopFlag true
                   (set_writeBuffersRequestedFlag true
                      (set_writeBuffersRequested (bufferSize (writeRingBuffer b)) b))).
      assert (J0 : stream_flushing_or_flushed size (set_blockingState (Some b0) s)).
      { exists b0. split; [reflexivity|]. unfold flushing_or_flushed, b0. cbn.
        repeat split; try apply W; auto. }
      match goal with
      | |- context [WaitForSingleObject ?sig ?tk ?t (set_blockingState (Some b0) s) ?w] =>
          pose proof (flush_wait_satisfied size t w Hs (set_blockingState (Some b0) s)) as FW;
          destruct (WaitForSingleObject sig tk t (set_blockingState (Some b0) s) w)
            as [waitResult s1]
      end.
      destruct waitResult.
      - specialize (FW s1 J0 eq_refl).
        assert (F1 : stream_flushed size (set_stopProcessing true s1)).
        { destruct FW as (b1 & Hb1 & F). exists b1. split; [exact Hb1 | exact F]. }
        match goal with
        | |- context [WaitForSingleObject ?sig ?tk ?t (set_stopProcessing true s1) ?w] =>
            pose proof (wait_keeps_flushed size sig t w _ F1) as F2;
            destruct (WaitForSingleObject sig tk t (set_stopProcessing true s1) w)
              as [r2 s2]
        end.
        cbn [snd] in F2. intros _. apply stop_hardware_keeps_flushed. exact F2.
      - match goal with
        | |- context [WaitForSingleObject ?sig ?tk ?t (set_stopProcessing true s1) ?w] =>
            destruct (WaitForSingleObject sig tk t (set_stopProcessing true s1) w)
              as [r2 s2]
        end.
        unfold stop_hardware. destruct (asioStopOk env); cbn [fst]; discriminate.
      - match goal with
        | |- context [WaitForSingleObject ?sig ?tk ?t (set_stopProcessing true s1) ?w] =>
            destruct (WaitForSingleObject sig tk t (set_stopProcessing true s1) w)
              as [r2 s2]
        end.
        unfold stop_hardware. destruct (asioStopOk env); cbn [fst]; discriminate. }
    intros Hres. destruct (Final Hres) as (b' & Hb' & W' & Hsz & Hstop & He).
    exists b'. split; [exact Hb'|]. split; [|split; [exact Hstop|]].
    + unfold contents. rewrite He. reflexivity.
    + unfold GetStreamWriteAvailable, read_blocking. rewrite Hb'.
      unfold PaUtil_GetRingBufferWriteAvailable. rewrite He, Hsz. lia.
  - intros Hev Hfail Hdrain Hquiet.
    unfold StopStream. cbv zeta.
    apply Z.eqb_neq in Hact, Hout. rewrite Hact, Hb, Hout. cbn [negb].
    set (b0 := set_stopFlag true
                 (set_writeBuffersRequestedFlag true
                    (set_writeBuffersRequested (bufferSize (writeRingBuffer b)) b))).
    set (s0 := set_blockingState (Some b0) s).
    assert (Taken : forall t,
              WaitForSingleObject (read_blocking writeBuffersReadyEvent false)
                (on_blocking (set_writeBuffersReadyEvent false)) t s0 (flushWait env)
              = (WAIT_OBJECT_0,
                 set_blockingState (Some (set_writeBuffersReadyEvent false b0)) s0)).
    { intros t. unfold WaitForSingleObject. rewrite Hfail.
      assert (Sig : read_blocking writeBuffersReadyEvent false s0 = true) by exact Hev.
      destruct (schedule (flushWait env)) as [|[t1 h1] rest]; cbn [wait_for];
        rewrite Sig; reflexivity. }
    rewrite Taken.
    set (s1 := set_stopProcessing true
                 (set_blockingState (Some (set_writeBuffersReadyEvent false b0)) s0)).
    assert (Drained : forall sig tk t,
              snd (WaitForSingleObject sig tk t s1 (drainWait env))
              = (if negb (failed (drainWait env)) && sig s1 then tk s1 else s1)).
    { intros sig tk t. unfold WaitForSingleObject. rewrite Hdrain.
      destruct (failed (drainWait env)); cbn [negb andb snd wait_for]; [reflexivity|].
      destruct (sig s1); reflexivity. }
    match goal with
    | |- context [WaitForSingleObject ?sig ?tk ?t s1 (drainWait env)] =>
        pose proof (Drained sig tk t) as D;
        destruct (WaitForSingleObject sig tk t s1 (drainWait env)) as [r2 s2]
    end.
    cbn [snd] in D.
    assert (E2 : s2 = s1) by (rewrite D; destruct (_ && _); reflexivity).
    clear D. subst s2. cbv beta iota zeta.
    destruct (stop_hardware_quiet s1 env paNoError Hquiet) as [R B].
    split; [exact R|].
    exists (set_writeBuffersReadyEvent false b0).
    split; [rewrite B; reflexivity|]. repeat split.
Qed.

(** StopStream with the driver switching buffers after one and after three
    milliseconds: on the mono stream, which has the frame 7 left to play,
    it returns once the frame is played; on the same stream with the event
    left set it returns at once, the frame still queued. *)
Lemma StopStream_has_flushed_witness :
  (fst (StopStream mono_stream flushed_by_the_driver) = paNoError
   /\ exists b',
        blockingState (snd (StopStream mono_stream flushed_by_the_driver)) = Some b'
        /\ contents (writeRingBuffer b') = []
        /\ stopFlag b' = true)
  /\ (fst (StopStream stale_event_stream flushed_by_the_driver) = paNoError
      /\ exists b',
           blockingState (snd (StopStream stale_event_stream flushed_by_the_driver))
           = Some b'
           /\ contents (writeRingBuffer b') = [[7]]
           /\ stopFlag b' = true).
Proof.
  split.
  - assert (R : fst (StopStream mono_stream flushed_by_the_driver) = paNoError)
      by (vm_compute; reflexivity).
    split; [exact R|].
    unshelve epose proof
      (StopStream_has_flushed mono_stream flushed_by_the_driver (set_stopFlag false flushing)
         _ _ _ _ _) as [Flushed _]; [ground .. |].
    destruct (Flushed eq_refl R) as (b' & B & C & S & _).
    exists b'. split; [exact B | split; [exact C | exact S]].
  - unshelve epose proof
      (StopStream_has_flushed stale_event_stream flushed_by_the_driver
         (set_writeBuffersReadyEvent true (set_stopFlag false flushing))
         _ _ _ _ _) as [_ Stale]; [ground .. |].
    destruct (Stale eq_refl eq_refl eq_refl eq_refl) as (R & b' & B & C & S & _).
    split; [exact R|].
    exists b'. split; [exact B | split; [rewrite C; reflexivity | exact S]].
Defined.

End FlushFacts.

(** ** The callback waking a writer *)

Module WriterFacts.
Import Ring Stream RingView RingFacts BlockingCallbackFacts BlockingScenario BlockingFacts
  BlockingIoView BlockingIoFacts StartView WakeFacts FlushFacts WriterView.

(** The output half sets the event WriteStream waits for as soon as the
    ring buffer has the room requested. *)
Lemma blocking_output_wakes L b a :
  writeBuffersRequestedFlag b = true ->
  to_long (writeBuffersRequested b)
    <= PaUtil_GetRingBufferWriteAvailable (writeRingBuffer (snd (blocking_output L b a))) ->
  writeBuffersReadyEvent (snd (blocking_output L b a)) = true.
Proof.
  unfold blocking_output, PaUtil_ReadRingBuffer.
  set (b0 := if negb (Z.land (statusFlags a) paOutputUnderflowed =? 0)
             then set_outputUnderflowFlag true b else b).
  assert (E0 : writeBuffersRequestedFlag b0 = writeBuffersRequestedFlag b
               /\ writeBuffersRequested b0 = writeBuffersRequested b)
    by (unfold b0; destruct (negb _); split; reflexivity).
  destruct E0 as [Ef Er]. clearbody b0.
  destruct (PaUtil_GetRingBufferReadAvailable (writeRingBuffer b0)
            >=? to_long (framesPerBuffer a));
    [|cbn [stopFlag set_outputUnderflowFlag];
      destruct (stopFlag b0
                && (PaUtil_GetRingBufferReadAvailable (writeRingBuffer b0)
                    <? to_long (framesPerBuffer a)))];
    cbv zeta beta iota;
    cbn [writeBuffersRequestedFlag writeBuffersRequested writeRingBuffer
         set_writeRingBuffer set_outputUnderflowFlag];
    rewrite Ef, Er; intros Hf Ha; rewrite Hf in Ha |- *; cbn [andb] in Ha |- *;
    match goal with
    | |- context [?x >=? ?y] => destruct (Z.geb_spec x y) as [G|G]
    end;
    try reflexivity;
    exfalso; cbn [snd writeRingBuffer set_writeRingBuffer set_outputUnderflowFlag] in Ha; lia.
Qed.

Lemma blocking_input_keeps_underflow b a :
  outputUnderflowFlag (blocking_input b a) = outputUnderflowFlag b.
Proof.
  unfold blocking_input, PaUtil_WriteRingBuffer.
  repeat match goal with
         | |- context [if ?c then _ else _] => destruct c
         end; reflexivity.
Qed.

(** What the whole callback does for a writer, when it finds the frames
    of its buffer queued. *)
Lemma callback_serves_writer L b a :
  well_formed (writeRingBuffer b) ->
  0 <= framesPerBuffer a < 2 ^ 31 ->
  outputChannelCount L <> 0 ->
  framesPerBuffer a <= PaUtil_GetRingBufferReadAvailable (writeRingBuffer b) ->
  let b' := snd (BlockingIoPaCallback L b a) in
  contents (writeRingBuffer b')
  = skipn (Z.to_nat (framesPerBuffer a)) (contents (writeRingBuffer b))
  /\ well_formed (writeRingBuffer b')
  /\ bufferSize (writeRingBuffer b') = bufferSize (writeRingBuffer b)
  /\ stopFlag b' = stopFlag b
  /\ outputUnderflowFlag b' = (outputUnderflowFlag b || underflow_reported a)%bool
  /\ (writeBuffersRequestedFlag b = true ->
      to_long (writeBuffersRequested b)
        <= PaUtil_GetRingBufferWriteAvailable (writeRingBuffer b') ->
      writeBuffersReadyEvent b' = true).
Proof.
  intros W Hn Hout Henough. cbv zeta. unfold BlockingIoPaCallback.
  apply Z.eqb_neq in Hout. rewrite Hout. cbn [negb].
  pose proof (blocking_output_spec L b a W Hn) as O. cbv zeta in O.
  pose proof (blocking_output_wakes L b a) as Wk.
  pose proof (callback_only_plays L b a W) as P. cbv zeta in P.
  unfold BlockingIoPaCallback in P. rewrite Hout in P. cbn [negb] in P.
  destruct (blocking_output L b a) as [out b1]. cbn [fst snd] in *.
  destruct O as (O & Wf & _).
  rewrite contents_length in O.
  destruct (Nat.leb_spec (Z.to_nat (framesPerBuffer a))
              (Z.to_nat (PaUtil_GetRingBufferReadAvailable (writeRingBuffer b))));
    [|lia].
  destruct O as (_ & Oc & Ou).
  assert (S : let b' := if negb (inputChannelCount L =? 0) then blocking_input b1 a else b1 in
              writeRingBuffer b' = writeRingBuffer b1 /\ stopFlag b' = stopFlag b1
              /\ writeBuffersReadyEvent b' = writeBuffersReadyEvent b1
              /\ outputUnderflowFlag b' = outputUnderflowFlag b1).
  { cbv zeta. destruct (negb (inputChannelCount L =? 0)); [|auto].
    pose proof (blocking_input_write_side b1 a) as S. cbv zeta in S.
    destruct S as (S1 & S2 & _ & _ & S5).
    pose proof (blocking_input_keeps_underflow b1 a) as F.
    repeat split; assumption. }
  cbv zeta in S. destruct S as (S1 & S2 & S3 & S4).
  destruct P as (_ & P2 & _ & P4).
  rewrite S1 in *. rewrite S2 in *. rewrite S3, S4.
  repeat match goal with |- _ /\ _ => split end; try assumption.
Qed.


(** A turn of the loop of WriteStream whose wait is satisfied goes on as
    a turn that need not wait. *)
Lemma write_loop_woken fuel s env timeout lFramesPerBlock lFramesRemaining data b s' b' :
  blockingState s = Some b ->
  PaUtil_GetRingBufferWriteAvailable (writeRingBuffer b)
    < to_long (next_block lFramesPerBlock lFramesRemaining) ->
  wait_writeBuffersReadyEvent timeout
    (requesting_write (next_block lFramesPerBlock lFramesRemaining) b s)
    (hd no_wait (waits env)) = (WAIT_OBJECT_0, s') ->
  blockingState s' = Some b' ->
  to_long (next_block lFramesPerBlock lFramesRemaining)
    <= PaUtil_GetRingBufferWriteAvailable (writeRingBuffer b') ->
  write_loop (S fuel) s env timeout lFramesPerBlock lFramesRemaining data
  = write_loop (S fuel) s' (next_waits env) timeout lFramesPerBlock lFramesRemaining data.
Proof.
  unfold next_block, wait_writeBuffersReadyEvent, requesting_write.
  intros Hb Hshort Hwait Hb' Henough. cbn [write_loop]. unfold io_wait.
  unfold read_blocking at 1. rewrite Hb.
  apply Z.ltb_lt in Hshort. rewrite Hshort.
  rewrite (on_blocking_some _ s b Hb). rewrite Hwait.
  match goal with
  | |- _ = match (if ?c then _ else _) with _ => _ end =>
      replace c with false; [reflexivity|]
  end.
  unfold read_blocking. rewrite Hb'. symmetry. apply Z.ltb_ge. exact Henough.
Qed.

(** A WriteStream that finds too little room asks for the room of its
    block, waits, and is woken by the buffer switch that makes it: when
    the driver's callback runs within the timeout on a stream that is
    processing, and the blocking callback it calls plays enough of the
    frames queued, WriteStream puts its frames behind those that are
    left. *)
Theorem waiting_write_is_woken fuel s b data frames env t c a rest :
  blockingState s = Some b -> stopFlag b = false -> isActive s <> 0 ->
  outputChannelCount (layout s) <> 0 ->
  reenterCount s = -1 -> zeroOutput s = false ->
  well_formed (writeRingBuffer b) ->
  writeBuffersReadyEvent b = false ->
  0 < framesPerUserBuffer (layout s) < 2 ^ 31 ->
  0 < frames < 2 ^ 31 -> (Z.to_nat frames <= length data)%nat ->
  (* too little room, and the callback makes up for it *)
  GetStreamWriteAvailable s < next_block (framesPerUserBuffer (layout s)) frames ->
  frames <= GetStreamWriteAvailable s + framesPerBuffer a ->
  0 < framesPerBuffer a < 2 ^ 31 ->
  framesPerBuffer a <= PaUtil_GetRingBufferReadAvailable (writeRingBuffer b) ->
  (* the buffer switch arrives in time *)
  waits env = {| failed := false; schedule := (t, Invocation c) :: rest |} :: nil ->
  t < io_timeout (layout s) -> callbacks c = [a] ->
  copies_what_fits env -> (Z.to_nat frames < fuel)%nat ->
  exists s' b',
    WriteStream (S fuel) s data frames env
    = Some (if (outputUnderflowFlag b || underflow_reported a)%bool
            then paOutputUnderflowed else paNoError, s')
    /\ blockingState s' = Some b'
    /\ contents (writeRingBuffer b')
       = skipn (Z.to_nat (framesPerBuffer a)) (contents (writeRingBuffer b))
         ++ firstn (Z.to_nat frames) data
    /\ outputUnderflowFlag b' = false.
Proof.
  intros Hb Hstop Hact Hout Hr Hz W Hev Hblock Hfr Hdata Hshort Hmade Hn Hq
         Hw Ht Hc Hcopy Hfuel.
  unfold GetStreamWriteAvailable, read_blocking in Hshort, Hmade. rewrite Hb in Hshort, Hmade.
  set (m := next_block (framesPerUserBuffer (layout s)) frames) in *.
  assert (Hm : 0 < m <= frames /\ m < 2 ^ 31).
  { unfold m, next_block.
    destruct (Z.ltb_spec (framesPerUserBuffer (layout s)) frames); lia. }
  set (b_req := set_writeBuffersRequestedFlag true (set_writeBuffersRequested m b)).
  set (s_req := set_blockingState (Some b_req) s).
  pose proof (callback_serves_writer (layout s) b_req a W ltac:(lia) Hout Hq) as Spec.
  cbv zeta in Spec.
  set (b1 := snd (BlockingIoPaCallback (layout s) b_req a)) in *.
  change (writeRingBuffer b_req) with (writeRingBuffer b) in Spec.
  change (outputUnderflowFlag b_req) with (outputUnderflowFlag b) in Spec.
  change (stopFlag b_req) with (stopFlag b) in Spec.
  destruct Spec as (Sc & Swf & Ssz & Ss & Su & Swake).
  assert (A1 : PaUtil_GetRingBufferWriteAvailable (writeRingBuffer b1)
               = PaUtil_GetRingBufferWriteAvailable (writeRingBuffer b) + framesPerBuffer a).
  { pose proof (f_equal (@length _) Sc) as Len.
    rewrite length_skipn, !contents_length in Len.
    pose proof W as (_ & _ & R & _). pose proof Swf as (_ & _ & R1 & _).
    unfold PaUtil_GetRingBufferWriteAvailable, PaUtil_GetRingBufferReadAvailable in *. lia. }
  assert (Ev : writeBuffersReadyEvent b1 = true).
  { apply Swake; [reflexivity|].
    change (writeBuffersRequested b_req) with m. rewrite to_long_id by lia. lia. }
  destruct (buffer_switch_blocking s_req c b_req Hr Hz eq_refl) as [Sw Sl].
  change (layout s_req) with (layout s) in Sw, Sl.
  rewrite Hc in Sw. cbn [fold_left] in Sw. fold b1 in Sw.
  set (s_w := on_blocking (set_writeBuffersReadyEvent false) (buffer_switch s_req c)).
  set (b_w := set_writeBuffersReadyEvent false b1).
  assert (Bw : blockingState s_w = Some b_w)
    by (unfold s_w, on_blocking; rewrite Sw; reflexivity).
  assert (Lw : layout s_w = layout s).
  { unfold s_w, on_blocking. rewrite Sw. exact Sl. }
  assert (Wait : wait_writeBuffersReadyEvent (io_timeout (layout s))
                   (requesting_write m b s) (hd no_wait (waits env))
                 = (WAIT_OBJECT_0, s_w)).
  { rewrite Hw. unfold wait_writeBuffersReadyEvent, WaitForSingleObject, requesting_write.
    cbn [hd failed schedule wait_for]. fold b_req s_req.
    unfold read_blocking at 1. cbn [blockingState set_blockingState s_req].
    change (writeBuffersReadyEvent b_req) with (writeBuffersReadyEvent b). rewrite Hev.
    apply Z.ltb_lt in Ht. rewrite Ht. cbn [happen].
    destruct rest as [|[t' h'] rest']; cbn [wait_for];
      unfold read_blocking at 1; rewrite Sw, Ev; reflexivity. }
  destruct (write_loop_no_wait (next_waits env) (io_timeout (layout s)) Hcopy (S fuel) s_w
              (framesPerUserBuffer (layout s)) frames data b_w Bw)
    as (b' & E & C & _ & _ & U & _);
    try assumption; try lia;
    [ change (writeRingBuffer b_w) with (writeRingBuffer b1); rewrite A1; lia |].
  exists (set_blockingState (Some b') s_w), b'.
  unfold WriteStream, read_blocking. rewrite Hb, Hstop.
  pose proof Hact as Hact'. pose proof Hout as Hout'.
  apply Z.eqb_neq in Hact', Hout'. rewrite Hact', Hout'. cbn [orb negb].
  rewrite (write_loop_woken fuel s env _ _ frames data b s_w b_w Hb);
    try assumption;
    [ | fold m; rewrite to_long_id by lia; exact Hshort
      | fold m; rewrite to_long_id by lia;
        change (writeRingBuffer b_w) with (writeRingBuffer b1); rewrite A1; lia ].
  rewrite E.
  change (outputUnderflowFlag b_w) with (outputUnderflowFlag b1). rewrite Su.
  split; [reflexivity|]. split; [reflexivity|]. split; [|exact U].
  rewrite C. change (writeRingBuffer b_w) with (writeRingBuffer b1). rewrite Sc. reflexivity.
Qed.

(** WriteStream of the frames 8 and 9 on the congested stream, whose ring
    buffer is full of the frames 1 to 4, with the buffer switch arriving
    after five of the sixteen milliseconds of the timeout: the callback
    plays the frames 1 and 2. *)
Lemma waiting_write_is_woken_witness :
  exists s' b',
    WriteStream 4 congested_stream [[8]; [9]] 2 served_after_5ms = Some (paNoError, s')
    /\ blockingState s' = Some b'
    /\ contents (writeRingBuffer b') = [[3]; [4]; [8]; [9]].
Proof.
  unshelve epose proof
    (waiting_write_is_woken 3 congested_stream
       (set_writeRingBuffer full_ring (set_stopFlag false flushing))
       [[8]; [9]] 2 served_after_5ms 5 delivering (two_frames 0) []
       _ _ _ _ _ _ _ _ _ _ _ _ _ _ _ _ _ _ _ _) as (s' & b' & R & B & C & _);
    [ground .. |].
  exists s', b'. split; [exact R | split; [exact B | exact C]].
Defined.

End WriterFacts.

(** ** IsFormatSupported *)

Module FormatFacts.
Import Negotiate Stream Format FormatView.

Lemma with_driver_same w : with_driver w (openAsioDriverInfo w) (driverLoaded w) = w.
Proof. destruct w; reflexivity. Qed.

(** How LoadAsioDriver ends: on success it has initialised the driver and
    not left it, on failure it has left the driver if it had initialised
    it; ASIOExit, if called, is its last call. *)
Lemma LoadAsioDriver_calls driverInfo env :
  let '(result, _, calls) := LoadAsioDriver driverInfo env in
  hd_error calls = Some CallLoadDriver
  /\ times CallASIOCanSampleRate calls = O
  /\ if result =? paNoError
     then initialised env calls = true /\ times CallASIOExit calls = O
     else if initialised env calls
          then exists before,
                 calls = before ++ [CallASIOExit] /\ times CallASIOExit before = O
          else times CallASIOExit calls = O.
Proof.
  unfold LoadAsioDriver, initialised.
  destruct (loadDriverOk env); cbn [negb]; [|repeat split].
  destruct (asioInit env) eqn:Ei; cbn [negb is_ASE_OK]; try (repeat split; fail).
  destruct (is_ASE_OK (fst (getChannels env))); cbn [negb].
  - destruct (is_ASE_OK (fst (getBufferSize env))); cbn [negb].
    + repeat split.
    + split; [reflexivity|]. split; [reflexivity|].
      exists [CallLoadDriver; CallASIOInit; CallASIOGetChannels; CallASIOGetBufferSize].
      split; reflexivity.
  - split; [reflexivity|]. split; [reflexivity|].
    exists [CallLoadDriver; CallASIOInit; CallASIOGetChannels]. split; reflexivity.
Qed.


Lemma times_app c calls more : times c (calls ++ more) = (times c calls + times c more)%nat.
Proof. unfold times. rewrite filter_app, length_app. reflexivity. Qed.

Lemma initialised_app env calls more :
  initialised env calls = true -> initialised env (calls ++ more) = true.
Proof.
  unfold initialised. rewrite existsb_app. intros H.
  apply andb_true_iff in H as [-> ->]. reflexivity.
Qed.

(** From [done:] on, on a host with no device open: the driver is left. *)
Lemma format_done_closed w driverInfo result calls :
  openAsioDeviceIndex w = paNoDevice ->
  format_done w driverInfo result calls
  = Answered (if result =? paNoError then paFormatIsSupported else result)
             (with_driver w driverInfo false) (calls ++ [CallASIOExit]).
Proof.
  intros E. unfold format_done, UnloadAsioDriver. rewrite E. cbn [Z.eqb paNoDevice Pos.eqb].
  destruct (result =? paNoError); reflexivity.
Qed.

(** From [done:] on, on a host with a device open: nothing is done. *)
Lemma format_done_open w driverInfo result calls :
  openAsioDeviceIndex w <> paNoDevice ->
  format_done w driverInfo result calls
  = Answered (if result =? paNoError then paFormatIsSupported else result) w calls.
Proof.
  intros E. unfold format_done. apply Z.eqb_neq in E. rewrite E.
  destruct (result =? paNoError); reflexivity.
Qed.

(** IsFormatSupported leaves the driver as it found it.  Whatever it
    answers, the open device, the stream and its buffers are what they
    were.  With a device open it changes nothing and calls nothing but, at
    most, ASIOCanSampleRate.  With no device open, once it has called into
    the driver, the driver is not loaded when it returns: ASIOExit is
    called exactly when ASIOInit had succeeded, once, as the last call,
    whether the format is supported or not. *)
Theorem IsFormatSupported_leaves_the_driver_as_found
    w inputParameters outputParameters sampleRate env result w' calls :
  IsFormatSupported w inputParameters outputParameters sampleRate env
  = Answered result w' calls ->
  openAsioDeviceIndex w' = openAsioDeviceIndex w
  /\ theAsioStream w' = theAsioStream w
  /\ buffersCreated w' = buffersCreated w
  /\ (openAsioDeviceIndex w <> paNoDevice ->
      w' = w /\ (calls = [] \/ calls = [CallASIOCanSampleRate]))
  /\ (openAsioDeviceIndex w = paNoDevice ->
      (calls = [] /\ w' = w)
      \/ (hd_error calls = Some CallLoadDriver /\ driverLoaded w' = false))
  /\ (if initialised env calls
      then exists before,
             calls = before ++ [CallASIOExit] /\ times CallASIOExit before = O
      else times CallASIOExit calls = O).
Proof.
  intros H. unfold IsFormatSupported in H.
  assert (Unchanged : Answered result w' calls = Answered result w [] ->
            openAsioDeviceIndex w' = openAsioDeviceIndex w
            /\ theAsioStream w' = theAsioStream w
            /\ buffersCreated w' = buffersCreated w
            /\ (openAsioDeviceIndex w <> paNoDevice ->
                w' = w /\ (calls = [] \/ calls = [CallASIOCanSampleRate]))
            /\ (openAsioDeviceIndex w = paNoDevice ->
                (calls = [] /\ w' = w)
                \/ (hd_error calls = Some CallLoadDriver /\ driverLoaded w' = false))
            /\ (if initialised env calls
                then exists before,
                       calls = before ++ [CallASIOExit] /\ times CallASIOExit before = O
                else times CallASIOExit calls = O)).
  { intros E. injection E as -> ->. cbn. repeat split; auto. }
  match type of H with (if ?c then _ else _) = _ => destruct c end;
    [apply Unchanged; congruence|].
  destruct (read_direction inputParameters) as [r_in | [inputChannelCount inputDevice]];
    [apply Unchanged; congruence|].
  destruct (read_direction outputParameters) as [r_out | [outputChannelCount outputDevice]];
    [apply Unchanged; congruence|].
  match type of H with match ?d with _ => _ end = _ => destruct d as [asioDeviceIndex|] end;
    [|discriminate].
  destruct (Z.eqb_spec (openAsioDeviceIndex w) paNoDevice) as [Closed | Open];
    cbn [negb andb] in H.
  - (* no device open *)
    destruct (at_index (deviceInfos w) asioDeviceIndex); [|discriminate].
    pose proof (LoadAsioDriver_calls (openAsioDriverInfo w) env) as Load.
    destruct (LoadAsioDriver (openAsioDriverInfo w) env) as [[r d] c].
    destruct Load as (Hd & Nc & Ends).
    assert (Hd' : forall more, hd_error (c ++ more) = Some CallLoadDriver).
    { intros more. destruct c; [discriminate | exact Hd]. }
    destruct (r =? paNoError); cbn [negb] in H.
    + destruct Ends as [Init Ne].
      assert (Closing : forall r1 c1,
                Answered result w' calls
                = Answered r1 (with_driver w d false) ((c ++ c1) ++ [CallASIOExit]) ->
                times CallASIOExit c1 = O ->
                openAsioDeviceIndex w' = openAsioDeviceIndex w
                /\ theAsioStream w' = theAsioStream w
                /\ buffersCreated w' = buffersCreated w
                /\ (openAsioDeviceIndex w <> paNoDevice ->
                    w' = w /\ (calls = [] \/ calls = [CallASIOCanSampleRate]))
                /\ (openAsioDeviceIndex w = paNoDevice ->
                    (calls = [] /\ w' = w)
                    \/ (hd_error calls = Some CallLoadDriver /\ driverLoaded w' = false))
                /\ (if initialised env calls
                    then exists before,
                           calls = before ++ [CallASIOExit]
                           /\ times CallASIOExit before = O
                    else times CallASIOExit calls = O)).
      { intros r1 c1 E N1. injection E as -> -> ->.
        split; [reflexivity|]. split; [reflexivity|]. split; [reflexivity|].
        split; [intros; contradiction|].
        split.
        - intros _. right. split; [|reflexivity]. rewrite <- app_assoc. apply Hd'.
        - rewrite <- app_assoc, (initialised_app env c _ Init).
          exists (c ++ c1). split; [apply app_assoc|].
          rewrite times_app, Ne, N1. reflexivity. }
      revert H. rewrite !format_done_closed by exact Closed.
      repeat match goal with
             | |- (if ?x then _ else _) = _ -> _ => destruct x
             | |- match ?x with _ => _ end = _ -> _ => destruct x
             end;
        intros H; symmetry in H;
        first [ apply (Closing _ [] ltac:(rewrite app_nil_r; exact H) eq_refl)
              | apply (Closing _ [CallASIOCanSampleRate] H eq_refl) ].
    + injection H as <- <- <-.
      split; [reflexivity|]. split; [reflexivity|]. split; [reflexivity|].
      split; [intros; contradiction|].
      split; [intros _; right; split; [exact Hd | reflexivity] | exact Ends].
  - (* a device open *)
    change (negb (paNoError =? paNoError)) with false in H. cbv iota in H.
    revert H. rewrite !format_done_open by exact Open.
    assert (Asking : Answered result w' calls = Answered result w [CallASIOCanSampleRate] ->
                openAsioDeviceIndex w' = openAsioDeviceIndex w
                /\ theAsioStream w' = theAsioStream w
                /\ buffersCreated w' = buffersCreated w
                /\ (openAsioDeviceIndex w <> paNoDevice ->
                    w' = w /\ (calls = [] \/ calls = [CallASIOCanSampleRate]))
                /\ (openAsioDeviceIndex w = paNoDevice ->
                    (calls = [] /\ w' = w)
                    \/ (hd_error calls = Some CallLoadDriver /\ driverLoaded w' = false))
                /\ (if initialised env calls
                    then exists before,
                           calls = before ++ [CallASIOExit]
                           /\ times CallASIOExit before = O
                    else times CallASIOExit calls = O)).
    { intros E. injection E as -> ->. cbn. repeat split; auto. intros; contradiction. }
    repeat match goal with
           | |- (if ?x then _ else _) = _ -> _ => destruct x
           | |- match ?x with _ => _ end = _ -> _ => destruct x
           end;
      intros H;
      first [ apply Unchanged; congruence | apply Asking; cbn [app] in H; congruence ].
Qed.

(** A query for stereo output on the first device of the closed host, whose
    driver fails to tell its buffer sizes: the answer is
    paUnanticipatedHostError, after five calls of which the last is the one
    ASIOExit. *)
Lemma IsFormatSupported_leaves_the_driver_as_found_witness :
  exists w' calls,
    IsFormatSupported closed_host None (Some (stereo 0)) 44100 driver_without_sizes
    = Answered paUnanticipatedHostError w' calls
    /\ driverLoaded w' = false
    /\ length calls = 5%nat
    /\ exists before,
         calls = before ++ [CallASIOExit] /\ times CallASIOExit before = O.
Proof.
  eexists _, _. split; [reflexivity|].
  destruct (IsFormatSupported_leaves_the_driver_as_found
              closed_host None (Some (stereo 0)) 44100 driver_without_sizes _ _ _ eq_refl)
    as (_ & _ & _ & _ & Closed & Exits).
  split; [|split; [reflexivity | exact Exits]].
  destruct (Closed eq_refl) as [[Nothing _] | [_ Unloaded]];
    [discriminate Nothing | exact Unloaded].
Defined.


Lemma LoadAsioDriver_result driverInfo env :
  let '(result, _, calls) := LoadAsioDriver driverInfo env in
  (result = paNoError \/ result = paUnanticipatedHostError)
  /\ asked_sample_rate calls = false.
Proof.
  unfold LoadAsioDriver.
  repeat match goal with
         | |- context [if negb ?c then _ else _] => destruct c; cbn [negb]
         end;
    split; auto.
Qed.

Lemma read_direction_refuses parameters result :
  read_direction parameters = inl result ->
  result <> paFormatIsSupported /\ result <> paInvalidSampleRate.
Proof.
  unfold read_direction. destruct parameters as [p|]; [|discriminate].
  destruct (negb (Z.land (sampleFormat p) paCustomFormat =? 0));
    [intros [= <-]; split; discriminate|].
  destruct (device p =? paUseHostApiSpecificDeviceSpecification);
    [intros [= <-]; split; discriminate | discriminate].
Qed.

(** The answers of IsFormatSupported: a refusal made without asking for
    the sample rate, or the one that the sample rate decides. *)
Lemma IsFormatSupported_answers
    w inputParameters outputParameters sampleRate env result w' calls :
  IsFormatSupported w inputParameters outputParameters sampleRate env
  = Answered result w' calls ->
  (asked_sample_rate calls = false
   /\ result <> paFormatIsSupported /\ result <> paInvalidSampleRate)
  \/ (asked_sample_rate calls = true
      /\ result = if no_such_rate (canSampleRate env sampleRate)
                  then paInvalidSampleRate else paFormatIsSupported).
Proof.
  intros H. unfold IsFormatSupported in H.
  match type of H with (if ?c then _ else _) = _ => destruct c end;
    [injection H as <- <- <-; left; repeat split; discriminate|].
  destruct (read_direction inputParameters)
    as [r_in | [inputChannelCount inputDevice]] eqn:Ri;
    [injection H as <- <- <-; left; split;
     [reflexivity | exact (read_direction_refuses _ _ Ri)]|].
  destruct (read_direction outputParameters)
    as [r_out | [outputChannelCount outputDevice]] eqn:Ro;
    [injection H as <- <- <-; left; split;
     [reflexivity | exact (read_direction_refuses _ _ Ro)]|].
  match type of H with match ?d with _ => _ end = _ => destruct d as [asioDeviceIndex|] end;
    [|discriminate].
  assert (Tail : forall d c,
            asked_sample_rate c = false ->
            (if (inputChannelCount >? 0)
                && (inputChannelCount >? Negotiate.inputChannelCount d)
             then format_done w d paInvalidChannelCount c
             else if negb (outputChannelCount =? 0)
                     && (outputChannelCount >? Negotiate.outputChannelCount d)
             then format_done w d paInvalidChannelCount c
             else match canSampleRate env sampleRate with
                  | ASE_NoClock | ASE_NotPresent =>
                      format_done w d paInvalidSampleRate (c ++ [CallASIOCanSampleRate])
                  | _ => format_done w d paNoError (c ++ [CallASIOCanSampleRate])
                  end) = Answered result w' calls ->
            (asked_sample_rate calls = false
             /\ result <> paFormatIsSupported /\ result <> paInvalidSampleRate)
            \/ (asked_sample_rate calls = true
                /\ result = if no_such_rate (canSampleRate env sampleRate)
                            then paInvalidSampleRate else paFormatIsSupported)).
  { intros d c Nc.
    assert (Done : forall r c1, format_done w d r c1 = Answered result w' calls ->
                     result = (if r =? paNoError then paFormatIsSupported else r)
                     /\ asked_sample_rate calls = asked_sample_rate c1).
    { intros r c1. unfold format_done, UnloadAsioDriver, asked_sample_rate.
      destruct (openAsioDeviceIndex w =? paNoDevice); destruct (r =? paNoError);
        intros [= <- <- <-]; rewrite ?existsb_app; cbn [existsb same_call];
        rewrite ?orb_false_r; split; reflexivity. }
    assert (Asked : asked_sample_rate (c ++ [CallASIOCanSampleRate]) = true).
    { unfold asked_sample_rate. rewrite existsb_app. cbn [existsb same_call].
      apply orb_true_r. }
    destruct ((inputChannelCount >? 0) && _);
      [intros E; apply Done in E as [-> ->]; left; split;
       [exact Nc | split; discriminate]|].
    destruct (negb (outputChannelCount =? 0) && _);
      [intros E; apply Done in E as [-> ->]; left; split;
       [exact Nc | split; discriminate]|].
    destruct (canSampleRate env sampleRate); cbn [no_such_rate];
      intros E; apply Done in E as [-> ->]; right; split; try exact Asked; reflexivity. }
  destruct (Z.eqb_spec (openAsioDeviceIndex w) paNoDevice) as [Closed | Open];
    cbn [negb andb] in H.
  - destruct (at_index (deviceInfos w) asioDeviceIndex); [|discriminate].
    pose proof (LoadAsioDriver_result (openAsioDriverInfo w) env) as Load.
    destruct (LoadAsioDriver (openAsioDriverInfo w) env) as [[r d] c].
    destruct Load as ([-> | ->] & Nc).
    + change (negb (paNoError =? paNoError)) with false in H. cbv iota in H.
      exact (Tail d c Nc H).
    + injection H as <- <- <-. left. split; [exact Nc | split; discriminate].
  - destruct (openAsioDeviceIndex w =? asioDeviceIndex); cbn [negb] in H.
    + change (negb (paNoError =? paNoError)) with false in H. cbv iota in H.
      exact (Tail (openAsioDriverInfo w) [] eq_refl H).
    + injection H as <- <- <-. left. repeat split; discriminate.
Qed.

(** The sample rate has the last word, and only two answers of the driver
    count against it.  IsFormatSupported answers paFormatIsSupported
    exactly when it has come to ask ASIOCanSampleRate and the driver has
    answered anything but ASE_NoClock and ASE_NotPresent, be it another
    error; it answers paInvalidSampleRate exactly when it has asked and
    the answer is one of these two. *)
Theorem sample_rate_has_the_last_word
    w inputParameters outputParameters sampleRate env result w' calls :
  IsFormatSupported w inputParameters outputParameters sampleRate env
  = Answered result w' calls ->
  (result = paFormatIsSupported
   <-> asked_sample_rate calls = true
       /\ no_such_rate (canSampleRate env sampleRate) = false)
  /\ (result = paInvalidSampleRate
      <-> asked_sample_rate calls = true
          /\ no_such_rate (canSampleRate env sampleRate) = true).
Proof.
  intros H.
  destruct (IsFormatSupported_answers _ _ _ _ _ _ _ _ H)
    as [(Na & N0 & N1) | (A & ->)].
  - rewrite Na. split; split; intros C; try contradiction; destruct C; discriminate.
  - rewrite A. destruct (no_such_rate (canSampleRate env sampleRate));
      split; split; intros C; try discriminate C; try (destruct C; discriminate);
      split; reflexivity.
Qed.

(** A query for stereo in and out at 44100 on the first device of the
    closed host, with the driver that answers ASE_InvalidMode to this
    rate: the format is supported. *)
Lemma sample_rate_has_the_last_word_witness :
  exists w' calls,
    IsFormatSupported closed_host (Some (stereo 0)) (Some (stereo 0)) 44100 driver_at_48000
    = Answered paFormatIsSupported w' calls
    /\ canSampleRate driver_at_48000 44100 = ASE_InvalidMode
    /\ asked_sample_rate calls = true.
Proof.
  eexists _, _. split; [reflexivity|]. split; [reflexivity|].
  destruct (sample_rate_has_the_last_word
              closed_host (Some (stereo 0)) (Some (stereo 0)) 44100 driver_at_48000
              _ _ _ eq_refl) as [[Supported _] _].
  exact (proj1 (Supported eq_refl)).
Defined.

End FormatFacts.

(** ** ValidateAndSetSampleRate *)

Module RateFacts.
Import Stream Format FormatView FormatFacts Rate.

(** ValidateAndSetSampleRate sets the sample rate only when it has to, and
    then to the rate asked for.  It returns paNoError or
    paInvalidSampleRate.  It calls ASIOSetSampleRate at most once, last,
    with [sampleRate] itself (never with 0, the call for an external clock
    being unreachable), and only after the driver has accepted the rate
    and told a current rate that differs.  When it returns paNoError and
    the driver told its rate truly, the driver is at [sampleRate]. *)
Theorem rate_is_set_only_when_it_differs sampleRate env :
  let result := fst (ValidateAndSetSampleRate sampleRate env) in
  let calls := snd (ValidateAndSetSampleRate sampleRate env) in
  (result = paNoError \/ result = paInvalidSampleRate)
  /\ (result = paNoError -> canRate env sampleRate = ASE_OK)
  /\ (forall before rate after,
        calls = before ++ CallSetSampleRate rate :: after ->
        rate = sampleRate /\ after = []
        /\ before = [CallCanSampleRate sampleRate; CallGetSampleRate]
        /\ canRate env sampleRate = ASE_OK
        /\ fst (getSampleRate env) = ASE_OK
        /\ snd (getSampleRate env) <> sampleRate)
  /\ (result = paNoError ->
      rate_after env (snd (getSampleRate env)) calls = sampleRate).
Proof.
  unfold ValidateAndSetSampleRate.
  assert (No2 : forall before rate after,
            [CallCanSampleRate sampleRate; CallGetSampleRate]
            = before ++ CallSetSampleRate rate :: after -> False).
  { intros [|a [|b [|c before]]] rate after E; discriminate E. }
  assert (No1 : forall before rate after,
            [CallCanSampleRate sampleRate]
            = before ++ CallSetSampleRate rate :: after -> False).
  { intros [|a [|b before]] rate after E; discriminate E. }
  assert (Set3 : forall before rate after,
            [CallCanSampleRate sampleRate; CallGetSampleRate;
             CallSetSampleRate sampleRate]
            = before ++ CallSetSampleRate rate :: after ->
            rate = sampleRate /\ after = []
            /\ before = [CallCanSampleRate sampleRate; CallGetSampleRate]).
  { intros [|a [|b [|c [|d before]]]] rate after E; try discriminate E.
    cbn [app] in E. injection E as <- <- <- <-. auto. }
  destruct (canRate env sampleRate) eqn:Can; cbn [is_ASE_OK negb fst snd];
    try (split; [right; reflexivity|]; split; [discriminate|];
         split; [intros ? ? ? E; destruct (No1 _ _ _ E) | discriminate]).
  destruct (getSampleRate env) as [asioError oldRate]. cbn [fst snd].
  destruct asioError; cbn [is_ASE_OK negb fst snd app];
    try (split; [right; reflexivity|]; split; [discriminate|];
         split; [intros ? ? ? E; destruct (No2 _ _ _ E) | discriminate]).
  destruct (Z.eqb_spec oldRate sampleRate) as [Same | Differs]; cbn [negb fst snd].
  - split; [left; reflexivity|]. split; [reflexivity|].
    split; [intros ? ? ? E; destruct (No2 _ _ _ E) | intros _; exact Same].
  - destruct (setSampleRate env sampleRate) eqn:Sr; cbn [is_ASE_OK negb fst snd app];
      (split; [first [left; reflexivity | right; reflexivity]|]);
      (split; [first [reflexivity | discriminate]|]);
      (split; [intros ? ? ? E; apply Set3 in E as (-> & -> & ->); repeat split; auto |]);
      first [discriminate | intros _; cbn [rate_after]; rewrite Sr; reflexivity].
Qed.


Lemma ValidateAndSetSampleRate_needs_ASE_OK sampleRate env :
  if is_ASE_OK (canRate env sampleRate)
  then True
  else fst (ValidateAndSetSampleRate sampleRate env) = paInvalidSampleRate.
Proof.
  unfold ValidateAndSetSampleRate.
  destruct (is_ASE_OK (canRate env sampleRate)); [exact I | reflexivity].
Qed.

(** IsFormatSupported is laxer about the sample rate than the check that
    OpenStream makes with ValidateAndSetSampleRate.  On the same answer of
    ASIOCanSampleRate, a rate that ValidateAndSetSampleRate accepts is
    supported by an IsFormatSupported that comes to ask for it; but for
    every answer other than ASE_OK, ASE_NoClock and ASE_NotPresent,
    IsFormatSupported answers paFormatIsSupported where
    ValidateAndSetSampleRate returns paInvalidSampleRate. *)
Theorem format_check_is_laxer_than_open
    w inputParameters outputParameters sampleRate env rates result w' calls :
  IsFormatSupported w inputParameters outputParameters sampleRate env
  = Answered result w' calls ->
  asked_sample_rate calls = true ->
  canRate rates sampleRate = canSampleRate env sampleRate ->
  (fst (ValidateAndSetSampleRate sampleRate rates) = paNoError ->
   result = paFormatIsSupported)
  /\ (is_ASE_OK (canSampleRate env sampleRate) = false ->
      no_such_rate (canSampleRate env sampleRate) = false ->
      result = paFormatIsSupported
      /\ fst (ValidateAndSetSampleRate sampleRate rates) = paInvalidSampleRate).
Proof.
  intros H Asked Same.
  pose proof (ValidateAndSetSampleRate_needs_ASE_OK sampleRate rates) as Strict.
  rewrite Same in Strict.
  destruct (IsFormatSupported_answers _ _ _ _ _ _ _ _ H) as [(Na & _) | (_ & ->)];
    [rewrite Na in Asked; discriminate Asked|].
  split.
  - intros Ok. destruct (canSampleRate env sampleRate); cbn [is_ASE_OK] in Strict;
      try reflexivity; rewrite Strict in Ok; discriminate Ok.
  - intros NotOk Lax. rewrite Lax. rewrite NotOk in Strict. split; [reflexivity | exact Strict].
Qed.

(** Stereo in and out at 96000 on the first device of the closed host,
    whose driver answers ASE_InvalidMode to that rate: supported for
    IsFormatSupported, refused by ValidateAndSetSampleRate. *)
Lemma format_check_is_laxer_than_open_witness :
  exists w' calls,
    IsFormatSupported closed_host (Some (stereo 0)) (Some (stereo 0)) 96000 two_rates_driver
    = Answered paFormatIsSupported w' calls
    /\ fst (ValidateAndSetSampleRate 96000 two_rates) = paInvalidSampleRate.
Proof.
  eexists _, _. split; [reflexivity|].
  destruct (format_check_is_laxer_than_open
              closed_host (Some (stereo 0)) (Some (stereo 0)) 96000 two_rates_driver
              two_rates _ _ _ eq_refl eq_refl eq_refl) as [_ Lax].
  exact (proj2 (Lax eq_refl eq_refl)).
Defined.

End RateFacts.

(** ** NextPowerOfTwo *)

Module PowerFacts.
Import Negotiate.

(** One step of the smearing: a bit is set in [x | x >> n] when it is set
    in [x] at most [2 n - 1] places higher, if it is set in [x] when it is
    set in [y] at most [n - 1] places higher. *)
Lemma smear_step y n s :
  0 < n ->
  (forall i, 0 <= i ->
     Z.testbit s i = true <-> exists d, 0 <= d < n /\ Z.testbit y (i + d) = true) ->
  forall i, 0 <= i ->
    Z.testbit (Z.lor s (Z.shiftr s n)) i = true
    <-> exists d, 0 <= d < 2 * n /\ Z.testbit y (i + d) = true.
Proof.
  intros Hn S i Hi. rewrite Z.lor_spec, Z.shiftr_spec by lia. rewrite orb_true_iff.
  rewrite (S i Hi), (S (i + n)) by lia. split.
  - intros [(d & Hd & B) | (d & Hd & B)].
    + exists d. split; [lia | exact B].
    + exists (n + d). split; [lia|]. rewrite <- B. f_equal. lia.
  - intros (d & Hd & B). destruct (Z.lt_ge_cases d n).
    + left. exists d. split; [lia | exact B].
    + right. exists (d - n). split; [lia|]. rewrite <- B. f_equal. lia.
Qed.

(** The five steps: a bit is set when one of the 32 bits from it upwards
    was. *)
Lemma smear_spec y :
  let x := Z.lor y (Z.shiftr y 1) in
  let x := Z.lor x (Z.shiftr x 2) in
  let x := Z.lor x (Z.shiftr x 4) in
  let x := Z.lor x (Z.shiftr x 8) in
  let x := Z.lor x (Z.shiftr x 16) in
  forall i, 0 <= i ->
    Z.testbit x i = true <-> exists d, 0 <= d < 32 /\ Z.testbit y (i + d) = true.
Proof.
  cbv zeta.
  apply (smear_step y 16); [lia|].
  apply (smear_step y 8); [lia|].
  apply (smear_step y 4); [lia|].
  apply (smear_step y 2); [lia|].
  apply (smear_step y 1); [lia|].
  intros i Hi. split.
  - intros B. exists 0. split; [lia|]. rewrite Z.add_0_r. exact B.
  - intros (d & Hd & B). replace (i + d) with i in B by lia. exact B.
Qed.

(** Smearing a word below [2^32] sets all the bits up to its highest. *)
Lemma smear_ones y :
  0 < y < 2 ^ 32 ->
  let x := Z.lor y (Z.shiftr y 1) in
  let x := Z.lor x (Z.shiftr x 2) in
  let x := Z.lor x (Z.shiftr x 4) in
  let x := Z.lor x (Z.shiftr x 8) in
  let x := Z.lor x (Z.shiftr x 16) in
  x = 2 ^ (Z.log2 y + 1) - 1.
Proof.
  intros Hy. cbv zeta.
  pose proof (smear_spec y) as S. cbv zeta in S.
  assert (Hk : 0 <= Z.log2 y < 32).
  { split; [apply Z.log2_nonneg|]. apply Z.log2_lt_pow2; lia. }
  replace (2 ^ (Z.log2 y + 1) - 1) with (Z.ones (Z.log2 y + 1))
    by (rewrite Z.ones_equiv; lia).
  apply Z.bits_inj'. intros i Hi.
  destruct (Z.lt_ge_cases i (Z.log2 y + 1)) as [Low | High].
  - rewrite Z.ones_spec_low by lia. apply S; [exact Hi|].
    exists (Z.log2 y - i). split; [lia|].
    replace (i + (Z.log2 y - i)) with (Z.log2 y) by lia.
    apply Z.bit_log2. lia.
  - rewrite Z.ones_spec_high by lia.
    apply not_true_is_false. intros B. apply S in B as (d & Hd & B); [|exact Hi].
    rewrite Z.bits_above_log2 in B by lia. discriminate B.
Qed.

(** NextPowerOfTwo returns the least power of two that is not below its
    argument, for an argument from 1 to [2^31]; it returns 0 for 0 and
    for the arguments above [2^31], the [unsigned long] wrapping round. *)
Theorem NextPowerOfTwo_is_the_least_power x :
  0 <= x < 2 ^ 32 ->
  (1 <= x <= 2 ^ 31 ->
   exists k, 0 <= k <= 31 /\ NextPowerOfTwo x = 2 ^ k /\ x <= 2 ^ k
             /\ forall j, 0 <= j -> x <= 2 ^ j -> 2 ^ k <= 2 ^ j)
  /\ (x = 0 \/ 2 ^ 31 < x -> NextPowerOfTwo x = 0).
Proof.
  intros Hx. split.
  - intros Hin. unfold NextPowerOfTwo, wrap32.
    rewrite (Z.mod_small (x - 1)) by lia.
    destruct (Z.eq_dec x 1) as [-> | Hone].
    + exists 0. split; [lia|]. split; [reflexivity|]. split; [reflexivity|].
      intros j Hj _. apply Z.pow_le_mono_r; lia.
    + pose proof (smear_ones (x - 1) ltac:(lia)) as S. cbv zeta in S |- *. rewrite S.
      assert (Hk : 0 <= Z.log2 (x - 1) < 31).
      { split; [apply Z.log2_nonneg|]. apply Z.log2_lt_pow2; lia. }
      destruct (Z.log2_spec (x - 1) ltac:(lia)) as [Lo Hi].
      replace (Z.succ (Z.log2 (x - 1))) with (Z.log2 (x - 1) + 1) in Hi by lia.
      exists (Z.log2 (x - 1) + 1). split; [lia|].
      replace (2 ^ (Z.log2 (x - 1) + 1) - 1 + 1) with (2 ^ (Z.log2 (x - 1) + 1)) by lia.
      split.
      * apply Z.mod_small. split; [lia|].
        apply Z.pow_lt_mono_r; lia.
      * split; [lia|]. intros j Hj Hxj.
        apply Z.pow_le_mono_r; [lia|].
        destruct (Z.lt_ge_cases j (Z.log2 (x - 1) + 1)) as [Lt | Ge]; [|exact Ge].
        assert (2 ^ j <= 2 ^ Z.log2 (x - 1)) by (apply Z.pow_le_mono_r; lia). lia.
  - intros [-> | Hbig]; [reflexivity|].
    unfold NextPowerOfTwo, wrap32.
    rewrite (Z.mod_small (x - 1)) by lia.
    pose proof (smear_ones (x - 1) ltac:(lia)) as S. cbv zeta in S |- *. rewrite S.
    assert (Z.log2 (x - 1) = 31) as ->.
    { apply Z.log2_unique; [lia|]. change (Z.succ 31) with 32. split; lia. }
    reflexivity.
Qed.

(** NextPowerOfTwo( 1000 ) is 1024. *)
Lemma NextPowerOfTwo_is_the_least_power_witness :
  NextPowerOfTwo 1000 = 1024 /\ NextPowerOfTwo 0 = 0.
Proof.
  destruct (NextPowerOfTwo_is_the_least_power 1000 ltac:(lia)) as [Least _].
  destruct (NextPowerOfTwo_is_the_least_power 0 ltac:(lia)) as [_ Zero].
  split; [|apply Zero; left; reflexivity].
  destruct (Least ltac:(lia)) as (k & Hk & -> & Hle & Hleast).
  assert (1000 <= 2 ^ 10) as Ten by (cbn; lia).
  pose proof (Hleast 10 ltac:(lia) Ten) as Up. change (2 ^ 10) with 1024 in Up.
  assert (k = 10 \/ k < 10 \/ k > 10) as [-> | [Small | Large]] by lia.
  - reflexivity.
  - assert (2 ^ k <= 2 ^ 9) by (apply Z.pow_le_mono_r; lia).
    change (2 ^ 9) with 512 in *. lia.
  - assert (2 ^ 11 <= 2 ^ k) by (apply Z.pow_le_mono_r; lia).
    change (2 ^ 11) with 2048 in *. lia.
Defined.

End PowerFacts.

(** ** OpenStream that fails *)

Module OpenFacts.
Import Convert Negotiate Stream Observe Scenario OpenView.

Ltac head_of_flow m :=
  lazymatch m with
  | bind ?m' _ => head_of_flow m'
  | _ => m
  end.

Ltac loaded_step :=
  lazymatch goal with
  | |- leaves_loaded_for_flags _ ?m =>
      let h := head_of_flow m in
      lazymatch h with
      | check ?c _ => destruct c eqn:?; cbn [bind check]
      | in_array ?x => destruct x eqn:?; cbn [bind in_array]
      | Go _ => progress cbn [bind]
      | match ?x with _ => _ end => destruct x eqn:?; cbn [bind]
      end
  end.

Ltac loaded_leaf :=
  cbn [leaves_loaded_for_flags];
  first [ exact I
        | split; [reflexivity | apply Z.eqb_neq; assumption] ].

Lemma open_stream_leaves_loaded native input output sampleRate framesPerBuffer streamFlags
    streamCallback env :
  leaves_loaded_for_flags streamFlags
    (open_stream native input output sampleRate framesPerBuffer streamFlags
                 streamCallback env).
Proof.
  unfold open_stream, open_blocking.
  repeat loaded_step; loaded_leaf.
Qed.


(** An OpenStream that fails leaves no device open and no stream, and it
    leaves the driver loaded in one case only.  After a return with an
    error code, the host is as it was, or differs by the driver info that
    LoadAsioDriver wrote with the driver unloaded again, or, when the
    error is paInvalidFlag for platform specific stream flags, differs by
    that driver info with the driver still loaded: this return does not
    pass by the label that unloads it. *)
Theorem failed_open_unloads_but_for_flags
    native w inputParameters outputParameters sampleRate framesPerBuffer streamFlags
    streamCallback env result w' :
  OpenStream native w inputParameters outputParameters sampleRate framesPerBuffer
             streamFlags streamCallback env = Opened result w' ->
  result <> paNoError ->
  w' = w
  \/ w' = with_driver w (driver env) false
  \/ (w' = with_driver w (driver env) true
      /\ result = paInvalidFlag
      /\ Z.land streamFlags paPlatformSpecificFlags <> 0).
Proof.
  intros H Failed. unfold OpenStream in H.
  destruct (negb (openAsioDeviceIndex w =? paNoDevice));
    [injection H as <- <-; left; reflexivity|].
  destruct (theAsioStream w); [discriminate H|].
  match type of H with
  | match ?p with _ => _ end = _ =>
      destruct p as [[[asioDeviceIndex input] output] | r | r | r | |]
  end;
    try discriminate H; try (injection H as <- <-; left; reflexivity).
  pose proof (open_stream_leaves_loaded native input output sampleRate framesPerBuffer
                streamFlags streamCallback env) as Loaded.
  destruct (open_stream native input output sampleRate framesPerBuffer streamFlags
                        streamCallback env) as [stream | r | r | r | |];
    cbn [leaves_loaded_for_flags] in Loaded; try discriminate H.
  - injection H as <- _. contradiction Failed. reflexivity.
  - contradiction.
  - injection H as <- <-. right. right. destruct Loaded as [-> Flags]. auto.
  - injection H as <- <-. right. left. reflexivity.
Qed.

(** Pa_OpenStream for two output channels with a platform specific flag
    set, every call outside the file succeeding: paInvalidFlag, no device
    open, and the driver loaded. *)
Lemma failed_open_unloads_but_for_flags_witness :
  exists w',
    OpenStream PA_LSB_IS_NATIVE_ closed_world None (Some (outputs 2))
               48000 2 0x10000 true (friendly small_driver)
    = Opened paInvalidFlag w'
    /\ openAsioDeviceIndex w' = paNoDevice
    /\ driverLoaded closed_world = false
    /\ driverLoaded w' = true.
Proof.
  eexists. split; [reflexivity|].
  destruct (failed_open_unloads_but_for_flags
              PA_LSB_IS_NATIVE_ closed_world None (Some (outputs 2))
              48000 2 0x10000 true (friendly small_driver) _ _ eq_refl
              ltac:(discriminate))
    as [Same | [Unloaded | (Loaded & _)]].
  - discriminate Same.
  - discriminate Unloaded.
  - repeat split.
Defined.

End OpenFacts.

(** ** asioMessages *)

Module MessagesFacts.
Import Messages.



End MessagesFacts.
